(* ===== verification/_CoqProject ===== *)
-Q . S2P
Prelude.v
Headers.v
RequestParser.v
Numbers.v
ParserFacts.v
ParserSegmentation.v
Fuzz.v
Response.v
ChunkCodec.v
ParserRoundTrip.v
ParserSafety.v
ResponseHead.v
Crc32.v
ByteBuffer.v
UniqueFd.v
Router.v
StaticFiles.v
Metrics.v
Scrape.v
Connection.v
CallFrame.v
ConnectionFacts.v
ConnectionLiveness.v
Ownership.v
Pipeline.v
Worker.v
WorkerFacts.v
ServerTheorems.v
Conversation.v
WorkerLoop.v
Routes.v
RoutesFacts.v
AppTheorems.v
Main.v
WorkerSteps.v
WorkerFds.v
Accounting.v
KernelFrame.v
Shutdown.v
Timeouts.v
Server.v
ServerFacts.v
Thread.v
Lifecycle.v
Reactors.v
Conversations.v
Threads.v
Loadgen.v
LoadgenFacts.v
LoadgenTheorems.v
LoadgenMain.v
FuzzMain.v
TestClient.v
TestClientFacts.v
TestClientTheorems.v
TestParser.v
TestResponse.v
EndToEnd.v
LoadgenServer.v
TestServer.v
