(* ===== verification/Prelude.v ===== *)
(** * httpd-cpp: a verification development

    The program (sources under [src/src]) is an HTTP/1.1 server for Linux:
    worker threads that share nothing, each with its own listening socket,
    [epoll] instance, connections and counters.  Bytes read from a socket go
    through a [ByteBuffer] to an incremental [RequestParser]; a finished
    request goes to a [Router], whose handler fills a [Response];
    [write_head] derives the framing of the message from it, and the worker
    sends the head, then a body from memory, from a file ([sendfile]) or
    from a producer that is asked for more only when the socket has drained.

    ** Which file models what

    - [Prelude]: bytes ([list ascii]), literals, 64- and 32-bit arithmetic
      ([u64], [u32]), the operations of [std::string_view] the sources use,
      [std::to_chars], the class [Closer] ([::close]), tactics and hints.
    - [Headers]: [http/headers.cpp], an association list of fields with
      case-insensitive names, and the token helpers.
    - [RequestParser]: [http/request_parser.{hpp,cpp}], the whole state
      machine; [feed] is the loop, [feed_round] one round of it.
      [Numbers] and [ParserFacts] hold the lemmas on numbers and the parser
      invariant [parser_wf]; [ParserSegmentation], [ParserRoundTrip] and
      [ParserSafety] hold the theorems.
    - [Fuzz], [FuzzMain]: [fuzz/fuzz_request_parser.cpp], the differential
      fuzz target, and the standalone mutational fuzzer around it.
    - [Response], [ResponseHead], [ChunkCodec]: [http/response.{hpp,cpp}],
      heads and chunked coding.
    - [Crc32], [ByteBuffer], [UniqueFd]: [util/].
    - [Router]: [server/router.{hpp,cpp}]; [StaticFiles]:
      [app/static_files.cpp]; [Metrics]: [obs/metrics.{hpp,cpp}], and
      [Scrape]: the same rendering load by load, racing with the workers.
    - [Connection]: the functions of [Server::Worker] on one connection
      ([process], [dispatch], [queue_error], [record_response], [do_read],
      [do_write], [refill_from_producer], [drive]) of [server/server.cpp].
      [ConnectionFacts] has the invariant [conn_ok] and what each function
      does to the stream of output; [ConnectionLiveness] the measure that
      shows that [drive] returns; [Ownership] what each function does to
      descriptors, counters and time stamps; [Pipeline] pipelined requests
      and streams; [ServerTheorems] the resulting theorems and a small
      concrete kernel.  [CallFrame] is a frame rule: a preorder on kernel
      states that the system calls respect, on all sockets or on all but
      one, is respected by these functions.  [Conversation] follows a
      connection through its life and relates it to a reader of the whole
      stream and a grammar of what is sent.
    - [Worker], [WorkerFacts], [WorkerLoop]: the event loop of a worker
      ([run], [on_accept], [close_connection], [sweep], [begin_drain]).
      [WorkerSteps] presents it as a transition system; [WorkerFds],
      [Accounting] and [Timeouts] are its invariants by induction on the
      steps; [KernelFrame] extends the frame rule to the event loop, which
      [Shutdown] uses for the clock.
    - [Server], [ServerFacts]: [Server::start], [stop], [wait], the
      constructors and destructors, in a monad with exceptions; [Thread]:
      [Worker::run] as a whole; [Main]: the option parser of [main.cpp];
      [Lifecycle]: [main] and the theorems about the life of a server;
      [Reactors]: all workers of a started server on one kernel, their
      steps interleaved; [Conversations]: the conversations of all of them
      with their clients; [Threads]: their threads in turns, from their first
      line to their end, with the calls of [stop] between them.
    - [Routes], [RoutesFacts], [AppTheorems]: [app/routes.cpp], the handlers
      and the producers of the endpoints, and their end-to-end theorems.
    - [Loadgen], [LoadgenFacts], [LoadgenTheorems], [LoadgenMain]:
      [tools/loadgen.cpp], its workers, response scanner, options and report;
      [LoadgenServer]: its scanner on what the server's connections send.
    - [TestClient], [TestClientFacts], [TestClientTheorems]: the HTTP client
      of the end-to-end tests ([tests/test_server.cpp]), a buffered reader of
      heads, sized and chunked bodies and trailers; [EndToEnd]: that client
      on what the server's connections send.
    - [TestParser], [TestResponse], [TestServer]: the test cases of
      [tests/], evaluated on the model (the end-to-end ones on the demo
      routes over the concrete kernel of [ServerTheorems]).

    ** Interfaces

    A component uses another one through a class, and the implementation is
    shown to satisfy its laws: [InBuffer]/[InBufferLaws] (the input buffer of
    a connection; [ByteBuffer] and plain byte strings are instances),
    [Kernel]/[KernelLaws] (the system calls on sockets, with [wire], what a
    socket has accepted for transmission), [FiniteReadiness] (sockets are
    ready only finitely often before they block), [EventKernel] ([epoll] and
    [accept]), [FileSys]/[FileSysLaws], [Closer], [ServerKernel]/[ServerLaws]
    (creating sockets and threads), [ThreadKernel]/[ThreadLaws],
    [ProgramKernel],
    [ClientKernel] (the calls of the load generator), [PeerKernel] (the calls
    of the test client).  [FdView] is the set of open descriptors, a ghost of
    the kernel's state; [FdLaws], [EventFdLaws], [FileFdLaws] and
    [ClientFdLaws] say what each call does to it, [ClockLaws] and
    [ThreadClock] what they do to the clock.  [delivered] is another ghost,
    what a socket has handed to the program; [InputLaws] says that [recv]
    adds to it, [ApartLaws] that a call on one socket leaves the others
    alone.  [QuietRel], [SocketRel], [KernelRel] and [FileRel] are the
    interfaces of the frame rules.  Handlers may change the world; [router_ok],
    [router_finite], [router_fds], [router_clock] and [router_apart] are the
    contracts the theorems assume of them, which [AppTheorems], [Accounting],
    [Shutdown] and [Conversations] prove of the program's routes.  The thread of a worker meets what
    [ServerFacts.join_law] assumes of it ([Thread.worker_thread_fds]).

    State is passed explicitly: a connection and an environment (metrics,
    date cache, kernel) in and out; errors are [option] or sums; loops return
    [None] only when they run out of fuel.

    ** What the theorems show

    - Parser: the result does not depend on how the input is split; [feed]
      returns, consumes at most its input and keeps the invariant and the
      limits; printed requests and chunked bodies are read back exactly; a
      finished request has one unambiguous framing; where it ends does not
      depend on what follows; the fuzz target never traps, and the
      standalone fuzzer never indexes out of range.
    - Messages: the head announces exactly the framing used; headers refine a
      finite map; the checksum is CRC-32.
    - Connection: over its whole life a connection refines a sequential
      server that reads everything the client sends at once: exactly the
      requests such a reader finds are answered, in order, each response
      with its own body and nothing after one that closes; [drive] returns,
      and a connection that is kept is owed an event by the kernel; output is
      never lost, duplicated or reordered; streams put exactly their chunked
      coding on the wire, or never exceed their announced length.
    - Event loop: every pass completes and keeps all connections in their
      invariant; the open descriptors are exactly the listener, the
      connections and their files, and the counters agree with them;
      timeouts are enforced to within a tick; sweeps remove exactly the
      expired connections; a worker that drains takes nothing new, and its
      loop returns within the grace period.
    - Server: a start that succeeds runs the configured workers on one port;
      one that fails, at any call, leaves no descriptor behind; the workers
      share no descriptor, however they are interleaved, and no connection
      migrates; every connection of every worker stays a faithful
      conversation, with no byte meant for another client; stopping a server ends every thread, in whatever order they
      run; [main] closes everything it opened, whatever its arguments.
    - Files and routes: served paths are confined to the root, descriptors
      are closed exactly once; the route table answers as documented; a response
      cannot be split by what a request contains; options round-trip.
    - End to end: a client that reads a sequence of responses, in pieces of
      any size, gets back status, fields, body and trailers of each, and
      nothing is left over; so a client of [/stream], of [/bytes/n] and of a
      static file, and a client that pipelines requests, get exactly what
      was asked for, and the load generator counts exactly the responses the
      server gave it.
    - Metrics: the histogram is the cumulative distribution; a scrape that
      races with the workers reports values that existed, and no gauge wraps.
    - Load generator: server and load generator understand each other's
      messages; the number of requests in flight is constant; reading
      responses ends; descriptors are given back; the report is consistent.
    - Some theorems record where the code differs from its documentation or
      from what it means to do ([expect_flagged_for_http10],
      [unlimited_line_splits_matter], [allow_misses_substring_method],
      [debug_info_cut], [negative_numbers_accepted], [bad_address_exception],
      [failed_start_sticks], [short_timeouts_overshoot],
      [negative_length_spins], [negative_connections]).

    ** Fuel and bounds

    [feed]: [size + 1] rounds, since a round that goes on consumes input or
    ends the message ([feed_total]).  [process]: one more than the bytes
    buffered.  [refill_from_producer]: the low-water mark, since every round
    that goes on appends a byte.  [ByteBuffer.grow]: 64 doublings of a
    positive capacity pass every 64-bit size.  [do_read], [do_write], [drive]
    and the event loop take their fuel as an argument: [drive_returns] gives
    a sufficient amount from the measure of the connection, [drive_fuel] that
    more changes nothing; [threads_return] bounds the number of passes after a
    request to stop.  [consume_responses] of the load generator needs one
    round per byte ([consume_terminates]); its other loops are bounded by the
    peer alone and take fuel.  Theorems on the parser are about inputs
    shorter than 2^62 bytes ([fits]); limits are at most 2^62 ([limits_ok]),
    except where a theorem is about what happens beyond.

    ** Not modelled

    What [perror] prints when [epoll_wait] fails.  Floating point and its
    printing are parameters of [Metrics], [Scrape] and [LoadgenMain].  The
    workers are interleaved step by step ([Reactors]) or pass by pass
    ([Threads]), not within a step; their
    counters are read load by load ([Scrape]).  Allocation is
    taken to succeed.  Of the tests: the test framework itself, temporary
    directories, the set-up of the client's socket, and the cases whose point
    is real time, several threads or a real file system; what these exercise
    is covered by [Timeouts], [Reactors], [Shutdown] and [StaticFiles].

    ** Plan

    Every component of the program is modelled.  What could be refined next:
    interleaving of workers within a pass of their loops. *)

From stdpp Require Export base tactics list strings gmap.
From Stdlib Require Export ZArith Lia.
From Stdlib Require Export Ascii.

(** ** Bytes, literals and machine integers *)

(** [std::string] / [std::string_view] are sequences of bytes. *)
Abbreviation bytes := (list ascii).

Declare Scope http_scope.
Delimit Scope http_scope with http.

Definition lit (s : string) : bytes := String.list_ascii_of_string s.
Notation "'B' s" := (lit s%string) (at level 9, s at level 0, only parsing) : http_scope.
Open Scope http_scope.

Definition code (c : ascii) : Z := Z.of_N (N_of_ascii c).
Definition chr (z : Z) : ascii := ascii_of_N (Z.to_N (z mod 256)).

Definition CR : ascii := chr 13.
Definition LF : ascii := chr 10.
Definition SP : ascii := chr 32.
Definition HTAB : ascii := chr 9.
Definition DQUOTE : ascii := chr 34.
Definition kCRLF : bytes := [CR; LF].

(** [size_t] / [uint64_t] and [uint32_t] arithmetic. *)
Definition u64 (z : Z) : Z := (z mod 2 ^ 64)%Z.
Definition u32 (z : Z) : Z := (z mod 2 ^ 32)%Z.

(** [s.size()]. *)
Definition zlen {A} (s : list A) : Z := Z.of_nat (length s).

(** ** The parts of [std::string_view] the sources use

    A position is a [nat]; [npos] is [None]. *)

Definition in_range (lo hi c : ascii) : bool :=
  ((code lo <=? code c) && (code c <=? code hi))%Z.

Fixpoint starts_with (p s : bytes) : bool :=
  match p, s with
  | [], _ => true
  | c :: p', d :: s' => Ascii.eqb c d && starts_with p' s'
  | _ :: _, [] => false
  end.

(** [s.find(p)]. *)
Fixpoint find_sub (p s : bytes) : option nat :=
  if starts_with p s then Some 0
  else match s with
       | [] => None
       | _ :: s' => S <$> find_sub p s'
       end.

(** [s.find(c)]. *)
Fixpoint find_char (c : ascii) (s : bytes) : option nat :=
  match s with
  | [] => None
  | d :: s' => if Ascii.eqb c d then Some 0 else S <$> find_char c s'
  end.

(** [s.find(c, pos)]. *)
Definition find_char_from (c : ascii) (s : bytes) (pos : nat) : option nat :=
  (fun i => pos + i) <$> find_char c (drop pos s).

(** [s.rfind(c)]. *)
Fixpoint rfind_char (c : ascii) (s : bytes) : option nat :=
  match s with
  | [] => None
  | d :: s' =>
      match rfind_char c s' with
      | Some i => Some (S i)
      | None => if Ascii.eqb c d then Some 0 else None
      end
  end.

(** [s.substr(0, n)] where [n] may be [npos]. *)
Definition substr0 (s : bytes) (n : option nat) : bytes :=
  match n with Some n => take n s | None => s end.

(** [a == b]. *)
Fixpoint bytes_eqb (a b : bytes) : bool :=
  match a, b with
  | [], [] => true
  | c :: a', d :: b' => Ascii.eqb c d && bytes_eqb a' b'
  | _, _ => false
  end.

(** The members of a [c]-separated list. *)
Fixpoint split_on (c : ascii) (s : bytes) : list bytes :=
  match s with
  | [] => [[]]
  | d :: s' =>
      if Ascii.eqb c d then [] :: split_on c s'
      else match split_on c s' with
           | m :: ms => (d :: m) :: ms
           | [] => [[d]]
           end
  end.

(** The inverse of [split_on]: the members with a separator between them. *)
Fixpoint join (sep : bytes) (l : list bytes) : bytes :=
  match l with
  | [] => []
  | [x] => x
  | x :: l' => x ++ sep ++ join sep l'
  end.

(** [std::to_chars(..., v, base)] for [v >= 0] and [base <= 16]: most
    significant digit first, lower case, no leading zero.  64 digits are
    enough for every 64-bit value in every base from 2. *)
Definition digit_char (d : Z) : ascii :=
  if (d <? 10)%Z then chr (48 + d) else chr (87 + d).

Fixpoint to_chars_aux (fuel : nat) (base v : Z) (acc : bytes) : bytes :=
  match fuel with
  | O => acc
  | S f =>
      let acc' := digit_char (v mod base) :: acc in
      if (v / base =? 0)%Z then acc' else to_chars_aux f base (v / base) acc'
  end.

Definition to_chars (base v : Z) : bytes := to_chars_aux 64 base v [].

(** [std::to_string] of an unsigned value. *)
Definition to_string (v : Z) : bytes := to_chars 10 v.

(** ** [::close]

    The state [K] of the kernel is abstract; every part of the program that
    owns descriptors closes them with this operation. *)
Class Closer (K : Type) := sys_close : K -> Z -> K.
Definition close_fds {K} `{Closer K} (l : list Z) (k : K) : K := fold_left sys_close l k.

(** ** Proof automation of the development *)

Create HintDb http discriminated.
Create HintDb httpsz discriminated.

(** Case analysis on the innermost [match]/[if] of the goal or a hypothesis,
    keeping the equation. *)
Ltac cases_goal :=
  match goal with
  | |- context [match ?x with _ => _ end] =>
      lazymatch x with context [match _ with _ => _ end] => fail | _ => destruct x eqn:? end
  end.
Ltac cases_in H :=
  match type of H with
  | context [match ?x with _ => _ end] =>
      lazymatch x with context [match _ with _ => _ end] => fail | _ => destruct x eqn:? end
  end.
Ltac bool_hyps :=
  repeat match goal with
  | H : _ && _ = true |- _ => apply andb_prop in H; destruct H
  | H : _ || _ = false |- _ => apply orb_false_elim in H; destruct H
  | H : negb _ = true |- _ => apply negb_true_iff in H
  | H : negb _ = false |- _ => apply negb_false_iff in H
  end.
(** Exhaustive check of a closed fact about one byte. *)
Ltac all_bytes c := destruct c as [[] [] [] [] [] [] [] []]; vm_compute.

(** ** Generic lemmas *)

(** *** Machine integers *)

Lemma u64_small z : (0 <= z < 2 ^ 64)%Z -> u64 z = z.
Proof. apply Z.mod_small. Qed.

Lemma u64_range z : (0 <= u64 z < 2 ^ 64)%Z.
Proof. apply Z.mod_pos_bound. lia. Qed.

Lemma u64_mod_add a b : u64 (u64 a + b) = u64 (a + b).
Proof. unfold u64. rewrite Zplus_mod_idemp_l. reflexivity. Qed.

Lemma u32_small z : (0 <= z < 2 ^ 32)%Z -> u32 z = z.
Proof. apply Z.mod_small. Qed.

Lemma u32_range z : (0 <= u32 z < 2 ^ 32)%Z.
Proof. apply Z.mod_pos_bound. lia. Qed.

(** *** Sizes *)

Lemma zlen_nonneg {A} (s : list A) : (0 <= zlen s)%Z.
Proof. unfold zlen. lia. Qed.

Lemma zlen_app {A} (a b : list A) : zlen (a ++ b) = (zlen a + zlen b)%Z.
Proof. unfold zlen. rewrite length_app. lia. Qed.

Lemma zlen_drop {A} n (s : list A) : (n <= length s)%nat -> zlen (drop n s) = (zlen s - Z.of_nat n)%Z.
Proof. unfold zlen. rewrite length_drop. lia. Qed.

Lemma zlen_take_le {A} n (s : list A) : (zlen (take n s) <= zlen s)%Z.
Proof. unfold zlen. rewrite length_take. lia. Qed.

Lemma zlen_nil_inv {A} (s : list A) : zlen s = 0%Z -> s = [].
Proof. destruct s; [done|]. unfold zlen; simpl; lia. Qed.

#[export] Hint Resolve zlen_nonneg u64_range u32_range : httpsz.

(** *** Characters *)

Lemma code_range c : (0 <= code c < 256)%Z.
Proof. unfold code. pose proof (N_ascii_bounded c). lia. Qed.

Lemma chr_code c : chr (code c) = c.
Proof.
  unfold chr, code. rewrite Z.mod_small by (pose proof (N_ascii_bounded c); lia).
  rewrite N2Z.id. apply ascii_N_embedding.
Qed.

Lemma code_chr z : (0 <= z < 256)%Z -> code (chr z) = z.
Proof.
  intros H. unfold chr, code. rewrite Z.mod_small by lia.
  rewrite N_ascii_embedding by lia. lia.
Qed.

Lemma code_inj a b : code a = code b -> a = b.
Proof. intros H. rewrite <- (chr_code a), <- (chr_code b). by rewrite H. Qed.

Lemma ascii_eqb_spec a b : Ascii.eqb a b = true <-> a = b.
Proof. apply Ascii.eqb_eq. Qed.

Lemma ascii_eqb_neq a b : Ascii.eqb a b = false <-> a <> b.
Proof. apply Ascii.eqb_neq. Qed.

Lemma bytes_eqb_eq a b : bytes_eqb a b = true <-> a = b.
Proof.
  revert b. induction a as [|c a IH]; intros [|d b]; simpl; try done.
  rewrite andb_true_iff, Ascii.eqb_eq, IH. naive_solver.
Qed.

Lemma bytes_eqb_refl a : bytes_eqb a a = true.
Proof. by apply bytes_eqb_eq. Qed.

Lemma bytes_eqb_neq a b : bytes_eqb a b = false <-> a <> b.
Proof. rewrite <- not_true_iff_false, bytes_eqb_eq. done. Qed.

(** *** Searching *)

Lemma starts_with_iff p s : starts_with p s = true <-> exists t, s = p ++ t.
Proof.
  revert s. induction p as [|c p IH]; intros s; simpl; [naive_solver|].
  destruct s as [|d s]; [naive_solver|].
  rewrite andb_true_iff, Ascii.eqb_eq, IH. naive_solver.
Qed.

Lemma starts_with_app_self p s : starts_with p (p ++ s) = true.
Proof. apply starts_with_iff. eauto. Qed.

Lemma starts_with_app_long p a b :
  (length p <= length a)%nat -> starts_with p (a ++ b) = starts_with p a.
Proof.
  revert a. induction p as [|c p IH]; intros [|d a] H; simpl in *; try done; try lia.
  by rewrite IH by lia.
Qed.

Lemma find_sub_Some_inv p s i :
  find_sub p s = Some i -> exists t, s = take i s ++ p ++ t /\ (i + length p <= length s)%nat.
Proof.
  revert i. induction s as [|c s IH]; intros i; simpl.
  - destruct p; simpl; [intros [= <-]; by exists []|done].
  - destruct (starts_with p (c :: s)) eqn:E.
    + intros [= <-]. apply starts_with_iff in E as [t E]. exists t. simpl. split; [done|].
      apply (f_equal length) in E. rewrite length_app in E. simpl in *. lia.
    + destruct (find_sub p s) as [j|] eqn:F; [|done]. simpl. intros [= <-].
      destruct (IH j eq_refl) as (t & Ht & Hl). exists t. simpl. split; [by rewrite <- Ht|lia].
Qed.

Lemma find_sub_bound p s i : find_sub p s = Some i -> (i + length p <= length s)%nat.
Proof. intros H. by apply find_sub_Some_inv in H as (? & _ & ?). Qed.

Lemma find_sub_app_l p a b i : find_sub p a = Some i -> find_sub p (a ++ b) = Some i.
Proof.
  revert i. induction a as [|c a IH]; intros i H.
  - destruct p; [|done]. simpl in H. injection H as <-. by destruct b.
  - simpl in H. change ((c :: a) ++ b) with (c :: (a ++ b)). simpl.
    destruct (starts_with p (c :: a)) eqn:E.
    + injection H as <-. apply starts_with_iff in E as [t E].
      change (c :: a ++ b) with ((c :: a) ++ b). rewrite E, <- app_assoc.
      by rewrite starts_with_app_self.
    + destruct (find_sub p a) as [j|] eqn:F; [|done]. injection H as <-.
      rewrite (IH _ eq_refl). simpl.
      assert (length p <= length (c :: a))%nat by (apply find_sub_bound in F; simpl; lia).
      change (c :: a ++ b) with ((c :: a) ++ b).
      rewrite starts_with_app_long by done. by rewrite E.
Qed.

(** If [p] does not occur in [a], its first occurrence in [a ++ b] ends
    beyond [a]. *)
Lemma find_sub_app_late p a b i :
  find_sub p a = None -> find_sub p (a ++ b) = Some i -> (length a < i + length p)%nat.
Proof.
  revert i. induction a as [|c a IH]; intros i Hn Hs.
  - simpl in *. destruct p; [by destruct b|]. simpl. lia.
  - simpl in Hn. destruct (starts_with p (c :: a)) eqn:E; [done|].
    destruct (find_sub p a) as [j|] eqn:F; [done|].
    change ((c :: a) ++ b) with (c :: (a ++ b)) in Hs. simpl in Hs.
    destruct (starts_with p (c :: a ++ b)) eqn:E2.
    + injection Hs as <-. destruct (le_lt_dec (length p) (length (c :: a))) as [Hl|Hl]; [|lia].
      change (c :: a ++ b) with ((c :: a) ++ b) in E2.
      rewrite starts_with_app_long in E2 by done. congruence.
    + destruct (find_sub p (a ++ b)) as [k|] eqn:F2; [|done]. injection Hs as <-.
      specialize (IH k eq_refl eq_refl). simpl. lia.
Qed.

(** A terminated line is found at its terminator. *)
Lemma find_crlf_line line rest :
  CR ∉ line -> find_sub kCRLF (line ++ kCRLF ++ rest) = Some (length line).
Proof.
  induction line as [|c line IH]; intros H; [done|].
  rewrite not_elem_of_cons in H. destruct H as [Hc H].
  change ((c :: line) ++ kCRLF ++ rest) with (c :: (line ++ kCRLF ++ rest)). cbn [find_sub].
  assert (starts_with kCRLF (c :: line ++ kCRLF ++ rest) = false) as ->.
  { unfold kCRLF at 1. cbn [starts_with]. rewrite (proj2 (ascii_eqb_neq CR c)) by done. done. }
  by rewrite IH.
Qed.

Lemma find_char_Some c s i :
  find_char c s = Some i <-> (exists t, s = take i s ++ c :: t) /\ c ∉ take i s /\ (i < length s)%nat.
Proof.
  revert i. induction s as [|d s IH]; intros i; simpl.
  { split; [done|]. intros (_ & _ & ?). lia. }
  destruct (Ascii.eqb c d) eqn:E.
  - apply Ascii.eqb_eq in E as ->. split.
    + intros [= <-]. simpl. split; [eauto|]. split; [apply not_elem_of_nil|lia].
    + intros ((t & Ht) & Hn & _). destruct i as [|i]; [done|]. simpl in Hn.
      rewrite not_elem_of_cons in Hn. naive_solver.
  - apply Ascii.eqb_neq in E. destruct (find_char c s) as [j|] eqn:F; simpl.
    + split.
      * intros [= <-]. destruct (proj1 (IH j) eq_refl) as ((t & Ht) & Hn & Hl). simpl.
        split; [exists t; by rewrite <- Ht|]. rewrite not_elem_of_cons. split; [done|lia].
      * intros ((t & Ht) & Hn & Hl). destruct i as [|i]; simpl in *; [naive_solver|].
        rewrite not_elem_of_cons in Hn. injection Ht as Ht.
        f_equal. f_equal. enough (Some j = Some i) as [= ->] by done.
        apply IH. split; [eauto|]. split; [naive_solver|lia].
    + split; [done|]. intros ((t & Ht) & Hn & Hl). destruct i as [|i]; simpl in *; [naive_solver|].
      rewrite not_elem_of_cons in Hn. injection Ht as Ht.
      enough (None = Some i) by done. apply IH. split; [eauto|]. split; [naive_solver|lia].
Qed.

Lemma find_char_None c s : find_char c s = None <-> c ∉ s.
Proof.
  induction s as [|d s IH]; simpl; [split; [intros _; apply not_elem_of_nil|done]|].
  rewrite not_elem_of_cons. destruct (Ascii.eqb c d) eqn:E.
  - apply Ascii.eqb_eq in E. naive_solver.
  - apply Ascii.eqb_neq in E. destruct (find_char c s); simpl; naive_solver.
Qed.

Lemma find_char_app c a b : c ∉ a -> find_char c (a ++ c :: b) = Some (length a).
Proof.
  intros H. apply find_char_Some. rewrite take_app_length. split; [eauto|].
  split; [done|]. rewrite length_app. simpl. lia.
Qed.

Lemma find_char_bound c s i : find_char c s = Some i -> (i < length s)%nat.
Proof. by intros (_ & _ & ?)%find_char_Some. Qed.

#[export] Hint Resolve find_char_bound find_sub_bound find_sub_app_l : http.

(** Cutting at the first separator, as the parsing loops do. *)
Lemma split_on_find c s :
  split_on c s = match find_char c s with
                 | None => [s]
                 | Some i => take i s :: split_on c (drop (S i) s)
                 end.
Proof.
  induction s as [|d s IH]; simpl; [done|].
  destruct (Ascii.eqb c d); [done|]. rewrite IH. by destruct (find_char c s).
Qed.

Lemma join_app sep l x : l <> [] -> join sep (l ++ [x]) = join sep l ++ sep ++ x.
Proof.
  induction l as [|y l IH]; [done|]. intros _. destruct l as [|z l]; [done|].
  cbn [app join] in *. rewrite IH by done. by rewrite !app_assoc.
Qed.

Lemma split_on_nonempty c s : split_on c s <> [].
Proof. destruct s as [|d s]; cbn [split_on]; [done|]. destruct (Ascii.eqb c d); [done|]. by destruct (split_on c s). Qed.

(** Splitting and joining are inverse to each other. *)
Lemma split_on_app c x s : c ∉ x -> split_on c (x ++ c :: s) = x :: split_on c s.
Proof. intros H. rewrite split_on_find, find_char_app by done. rewrite take_app_length. by rewrite drop_app_ge, Nat.sub_succ_l, Nat.sub_diag by lia. Qed.

Lemma split_on_single c x : c ∉ x -> split_on c x = [x].
Proof. intros H. rewrite split_on_find. by apply find_char_None in H as ->. Qed.

Lemma split_on_join c l : l <> [] -> Forall (fun x => c ∉ x) l -> split_on c (join [c] l) = l.
Proof.
  intros Hn Hl. induction Hl as [|x l Hx Hl IH]; [done|].
  destruct l as [|y l]; [by apply split_on_single|].
  change (join [c] (x :: y :: l)) with (x ++ c :: join [c] (y :: l)). rewrite split_on_app by done. by rewrite IH.
Qed.

Lemma split_on_not_in c s : Forall (fun x => c ∉ x) (split_on c s).
Proof.
  induction s as [|d s IH]; cbn [split_on]; [by repeat constructor; set_solver|].
  destruct (Ascii.eqb c d) eqn:E; [constructor; [set_solver|done]|].
  apply ascii_eqb_neq in E. destruct (split_on c s) as [|m ms]; inversion IH; repeat constructor; set_solver.
Qed.

Lemma split_on_Forall (P : ascii -> Prop) c s : Forall P s -> Forall (Forall P) (split_on c s).
Proof.
  induction 1 as [|d s Hd Hs IH]; cbn [split_on]; [by repeat constructor|].
  destruct (Ascii.eqb c d); [by constructor|].
  destruct (split_on c s) as [|m ms]; inversion IH; by repeat constructor.
Qed.

Lemma join_Forall (P : ascii -> Prop) sep l : Forall P sep -> Forall (Forall P) l -> Forall P (join sep l).
Proof.
  intros Hs. induction 1 as [|x l Hx Hl IH]; cbn [join]; [done|].
  destruct l; [done|]. by repeat (apply Forall_app; split).
Qed.

Lemma join_split c s : join [c] (split_on c s) = s.
Proof.
  induction s as [|d s IH]; [done|]. cbn [split_on]. destruct (Ascii.eqb c d) eqn:E.
  - apply ascii_eqb_spec in E as <-. destruct (split_on c s) as [|m ms] eqn:Es; [by apply split_on_nonempty in Es|].
    change (join [c] ([] :: m :: ms)) with (c :: join [c] (m :: ms)). by rewrite IH.
  - destruct (split_on c s) as [|m ms] eqn:Es; [by apply split_on_nonempty in Es|].
    destruct ms; cbn [join app] in *; by rewrite <- IH.
Qed.

Lemma split_on_app_sep c a b : split_on c (a ++ c :: b) = split_on c a ++ split_on c b.
Proof.
  induction a as [|d a IH]; cbn [app split_on].
  - by rewrite Ascii.eqb_refl.
  - destruct (Ascii.eqb c d); [by rewrite IH|]. rewrite IH.
    destruct (split_on c a) as [|m ms] eqn:Ea; [by apply split_on_nonempty in Ea|done].
Qed.
