(* ===== verification/Headers.v ===== *)
(** * [src/http/headers.cpp]: ASCII helpers and the header list

    [Headers] is the insertion-ordered, case-insensitive list of fields of
    [class Headers]; a [Field*] returned by [find] is an index into the
    vector.  The abstract view [to_map] is a finite map keyed by lower-cased
    names; the refinement lemmas say that [get], [set], [add] and [remove]
    implement lookup, insertion, folding and deletion of that map. *)

From S2P Require Import Prelude.

(** ** ASCII helpers *)

Definition ascii_lower (c : ascii) : ascii :=
  if in_range "A" "Z" c then chr (code c + (code "a" - code "A")) else c.

Fixpoint iequals_from (a b : bytes) : bool :=
  match a, b with
  | c :: a', d :: b' =>
      if negb (Ascii.eqb (ascii_lower c) (ascii_lower d)) then false else iequals_from a' b'
  | _, _ => true
  end.

Definition iequals (a b : bytes) : bool :=
  if negb (zlen a =? zlen b)%Z then false else iequals_from a b.

Definition is_tchar (c : ascii) : bool :=
  if in_range "0" "9" c || in_range "a" "z" c || in_range "A" "Z" c then true
  else existsb (Ascii.eqb c) (B "!#$%&'*+-.^_`|~").

Definition is_token (s : bytes) : bool :=
  negb (match s with [] => true | _ => false end) && forallb is_tchar s.

Definition is_ows (c : ascii) : bool := Ascii.eqb c SP || Ascii.eqb c HTAB.

Fixpoint trim_front (s : bytes) : bytes :=
  match s with
  | c :: s' => if is_ows c then trim_front s' else s
  | [] => []
  end.

(** [s.back()] is the front of the reversed view. *)
Definition trim_back (s : bytes) : bytes := reverse (trim_front (reverse s)).

Definition trim_ows (s : bytes) : bytes := trim_back (trim_front s).

(** ** The header list *)

Abbreviation Field := (bytes * bytes)%type.
Abbreviation Headers := (list (bytes * bytes)).

Fixpoint find (h : Headers) (name : bytes) : option nat :=
  match h with
  | [] => None
  | f :: h' => if iequals f.1 name then Some 0 else S <$> find h' name
  end.

Definition set (h : Headers) (name value : bytes) : Headers :=
  match find h name with
  | Some i => alter (fun f : Field => (f.1, value)) i h
  | None => h ++ [(name, value)]
  end.

Definition add (h : Headers) (name value : bytes) : Headers :=
  match find h name with
  | Some i => alter (fun f : Field => (f.1, f.2 ++ B ", " ++ value)) i h
  | None => h ++ [(name, value)]
  end.

Definition get (h : Headers) (name : bytes) : option bytes :=
  match find h name with
  | Some i => snd <$> h !! i
  | None => None
  end.

Definition has (h : Headers) (name : bytes) : bool :=
  match find h name with Some _ => true | None => false end.

(** [remove]: the new list and the returned flag. *)
Definition remove (h : Headers) (name : bytes) : Headers * bool :=
  match find h name with
  | Some i => (delete i h, true)
  | None => (h, false)
  end.

(** The [for (;;)] of [has_token]; every round drops at least one byte, so
    [S (length rest)] rounds are enough. *)
Fixpoint has_token_loop (fuel : nat) (rest token : bytes) : bool :=
  match fuel with
  | O => false
  | S f =>
      let comma := find_char "," rest in
      if iequals (trim_ows (substr0 rest comma)) token then true
      else match comma with
           | None => false
           | Some i => has_token_loop f (drop (S i) rest) token
           end
  end.

Definition has_token (h : Headers) (name token : bytes) : bool :=
  match get h name with
  | None => false
  | Some value => has_token_loop (S (length value)) value token
  end.

(** ** Abstract views *)

Definition lower (s : bytes) : bytes := ascii_lower <$> s.

Definition to_map (h : Headers) : gmap bytes bytes :=
  list_to_map ((fun f : Field => (lower f.1, f.2)) <$> h).

(** No two fields have the same name: the invariant of every list built by
    [set], [add] and [remove]. *)
Definition names (h : Headers) : list bytes := (fun f : Field => lower f.1) <$> h.
Definition headers_wf (h : Headers) : Prop := NoDup (names h).

(** What [add] does to the folded value. *)
Definition fold_value (old : option bytes) (value : bytes) : bytes :=
  match old with Some v => v ++ B ", " ++ value | None => value end.

(** ** Lemmas *)

Lemma iequals_from_lower a b :
  length a = length b -> iequals_from a b = true <-> lower a = lower b.
Proof.
  revert b. induction a as [|c a IH]; intros [|d b] H; simplify_eq/=; [done|].
  destruct (Ascii.eqb (ascii_lower c) (ascii_lower d)) eqn:F; simpl.
  - apply Ascii.eqb_eq in F. rewrite IH by done. unfold lower. simpl. rewrite F.
    split; [by intros ->|by intros [= ->]].
  - apply Ascii.eqb_neq in F. split; [done|]. by intros [= ? ?].
Qed.

Lemma iequals_lower a b : iequals a b = true <-> lower a = lower b.
Proof.
  unfold iequals, zlen. destruct (Z.eqb_spec (Z.of_nat (length a)) (Z.of_nat (length b))) as [E|E]; simpl.
  - apply iequals_from_lower. lia.
  - split; [done|]. intros H. apply (f_equal length) in H. unfold lower in H.
    rewrite !length_fmap in H. lia.
Qed.

(** Names equal up to ASCII case. *)
Definition name_eq (a b : bytes) : Prop := iequals a b = true.

#[export] Instance name_eq_equivalence : Equivalence name_eq.
Proof.
  split; red; unfold name_eq; intros *; rewrite ?iequals_lower; congruence.
Qed.

#[export] Instance name_eq_dec a b : Decision (name_eq a b).
Proof. unfold name_eq. solve_decision. Defined.

#[export] Instance lower_proper : Proper (name_eq ==> eq) lower.
Proof. intros a b H. by apply iequals_lower. Qed.

Lemma iequals_bool a b : iequals a b = bool_decide (lower a = lower b).
Proof.
  destruct (iequals a b) eqn:E; symmetry.
  - apply bool_decide_eq_true_2. by apply iequals_lower.
  - apply bool_decide_eq_false_2. rewrite <- iequals_lower. congruence.
Qed.

#[export] Instance find_proper : Proper (eq ==> name_eq ==> eq) find.
Proof.
  intros h ? <- a b H. apply iequals_lower in H.
  induction h as [|f h IH]; simpl; [done|].
  rewrite !iequals_bool, H. by rewrite IH.
Qed.

#[export] Instance get_proper : Proper (eq ==> name_eq ==> eq) get.
Proof. intros h ? <- a b H. unfold get. by rewrite (find_proper h h eq_refl a b H). Qed.

(** Cons equations of the operations. *)
Lemma set_cons f h n v :
  set (f :: h) n v = if iequals f.1 n then (f.1, v) :: h else f :: set h n v.
Proof. unfold set. simpl. destruct (iequals f.1 n); [done|]. by destruct (find h n). Qed.

Lemma add_cons f h n v :
  add (f :: h) n v = if iequals f.1 n then (f.1, f.2 ++ B ", " ++ v) :: h else f :: add h n v.
Proof. unfold add. simpl. destruct (iequals f.1 n); [done|]. by destruct (find h n). Qed.

Lemma get_cons f h n : get (f :: h) n = if iequals f.1 n then Some f.2 else get h n.
Proof. unfold get. simpl. destruct (iequals f.1 n); [done|]. by destruct (find h n). Qed.

Lemma has_get h n : has h n = bool_decide (is_Some (get h n)).
Proof.
  unfold has, get. induction h as [|f h IH]; simpl; [done|].
  destruct (iequals f.1 n); simpl; [done|]. destruct (find h n); simpl in *; done.
Qed.

Lemma has_cons f h n : has (f :: h) n = iequals f.1 n || has h n.
Proof. unfold has. simpl. destruct (iequals f.1 n); [done|]. by destruct (find h n). Qed.

Lemma remove_cons f h n :
  remove (f :: h) n = if iequals f.1 n then (h, true) else (f :: (remove h n).1, (remove h n).2).
Proof. unfold remove. simpl. destruct (iequals f.1 n); [done|]. by destruct (find h n). Qed.

(** [get] is lookup of the lower-cased name. *)
Lemma get_to_map h n : get h n = to_map h !! lower n.
Proof.
  induction h as [|f h IH]; [done|]. rewrite get_cons, iequals_bool.
  unfold to_map in *. cbn. rewrite IH, lookup_insert.
  case_bool_decide; case_decide; congruence.
Qed.

Lemma get_set_eq h n v : get (set h n v) n = Some v.
Proof.
  induction h as [|f h IH].
  - unfold set. simpl. rewrite get_cons. simpl. by rewrite (proj2 (iequals_lower n n)).
  - rewrite set_cons. destruct (iequals f.1 n) eqn:E; rewrite get_cons; simpl; by rewrite E.
Qed.

Lemma get_add_eq h n v : get (add h n v) n = Some (fold_value (get h n) v).
Proof.
  induction h as [|f h IH].
  - unfold add. simpl. rewrite get_cons. simpl. by rewrite (proj2 (iequals_lower n n)).
  - rewrite add_cons, get_cons. destruct (iequals f.1 n) eqn:E; rewrite get_cons; simpl; by rewrite E.
Qed.

Lemma get_set_ne h n m v : lower n <> lower m -> get (set h n v) m = get h m.
Proof.
  intros Hne. induction h as [|f h IH].
  - unfold set. simpl. rewrite get_cons, iequals_bool, bool_decide_eq_false_2; done.
  - rewrite set_cons, !iequals_bool. case_bool_decide as E; rewrite !get_cons; simpl; [|by rewrite IH].
    rewrite iequals_bool, bool_decide_eq_false_2; congruence.
Qed.

Lemma get_add_ne h n m v : lower n <> lower m -> get (add h n v) m = get h m.
Proof.
  intros Hne. induction h as [|f h IH].
  - unfold add. simpl. rewrite get_cons, iequals_bool, bool_decide_eq_false_2; done.
  - rewrite add_cons, !iequals_bool. case_bool_decide as E; rewrite !get_cons; simpl; [|by rewrite IH].
    rewrite iequals_bool, bool_decide_eq_false_2; congruence.
Qed.


Lemma names_cons f h : names (f :: h) = lower f.1 :: names h.
Proof. done. Qed.

(** Names are never duplicated by the operations. *)
Lemma elem_of_lower_get h k : k ∈ names h <-> is_Some (to_map h !! k).
Proof.
  unfold to_map, names. rewrite <- not_eq_None_Some, <- not_elem_of_list_to_map, <- list_fmap_compose.
  simpl. split; [intros H E; by apply E|]. intros H.
  destruct (decide (k ∈ names h)); done.
Qed.

Lemma names_set h n v :
  names (set h n v)
  = if has h n then names h
    else names h ++ [lower n].
Proof.
  induction h as [|f h IH]; [done|]. rewrite set_cons, has_cons.
  destruct (iequals f.1 n); cbn [orb]; [done|]. rewrite !names_cons, IH. by destruct (has h n).
Qed.

Lemma names_add h n v :
  names (add h n v)
  = if has h n then names h
    else names h ++ [lower n].
Proof.
  induction h as [|f h IH]; [done|]. rewrite add_cons, has_cons.
  destruct (iequals f.1 n); cbn [orb]; [done|]. rewrite !names_cons, IH. by destruct (has h n).
Qed.

Lemma headers_wf_snoc h n :
  headers_wf h -> has h n = false -> NoDup (names h ++ [lower n]).
Proof.
  intros H E. apply NoDup_app. split; [done|]. split; [|apply NoDup_singleton].
  intros x Hx ->%list_elem_of_singleton. rewrite elem_of_lower_get, <- get_to_map in Hx.
  rewrite has_get, bool_decide_eq_true_2 in E; done.
Qed.

Lemma headers_wf_nil : headers_wf [].
Proof. apply NoDup_nil_2. Qed.

Lemma headers_wf_set h n v : headers_wf h -> headers_wf (set h n v).
Proof.
  intros H. unfold headers_wf. rewrite names_set. destruct (has h n) eqn:E; auto using headers_wf_snoc.
Qed.

Lemma headers_wf_add h n v : headers_wf h -> headers_wf (add h n v).
Proof.
  intros H. unfold headers_wf. rewrite names_add. destruct (has h n) eqn:E; auto using headers_wf_snoc.
Qed.

Lemma headers_wf_remove h n : headers_wf h -> headers_wf (remove h n).1.
Proof.
  unfold headers_wf. induction h as [|f h IH]; intros H; [done|].
  rewrite remove_cons. rewrite names_cons in H. apply NoDup_cons in H as [H1 H2].
  destruct (iequals f.1 n); cbn [fst]; [done|]. rewrite names_cons. apply NoDup_cons. split; [|by apply IH].
  intros Hin. apply H1. revert Hin. clear. induction h as [|g h IH]; [done|].
  rewrite remove_cons. destruct (iequals g.1 n); cbn [fst]; rewrite !names_cons, !elem_of_cons; naive_solver.
Qed.

#[export] Hint Resolve headers_wf_nil headers_wf_set headers_wf_add headers_wf_remove : http.

Lemma to_map_cons f h : to_map (f :: h) = <[lower f.1 := f.2]> (to_map h).
Proof. done. Qed.

Lemma to_map_set h n v : to_map (set h n v) = <[lower n := v]> (to_map h).
Proof.
  induction h as [|f h IH]; [done|]. rewrite set_cons, iequals_bool.
  case_bool_decide as E; rewrite !to_map_cons; simpl.
  - by rewrite E, insert_insert_eq.
  - by rewrite IH, insert_insert_ne.
Qed.

Lemma to_map_add h n v :
  to_map (add h n v) = <[lower n := fold_value (to_map h !! lower n) v]> (to_map h).
Proof.
  induction h as [|f h IH]; [done|]. rewrite add_cons, iequals_bool.
  case_bool_decide as E; rewrite !to_map_cons; simpl.
  - by rewrite E, insert_insert_eq, lookup_insert_eq.
  - by rewrite IH, lookup_insert_ne, insert_insert_ne.
Qed.

Lemma to_map_remove h n : headers_wf h -> to_map (remove h n).1 = delete (lower n) (to_map h).
Proof.
  unfold headers_wf. induction h as [|f h IH]; intros H; [done|].
  rewrite remove_cons, iequals_bool. rewrite names_cons in H. apply NoDup_cons in H as [H1 H2].
  rewrite elem_of_lower_get, <- not_eq_None_Some in H1. case_bool_decide as E; rewrite !to_map_cons; cbn [fst].
  - rewrite <- E, delete_insert_eq, delete_id; [done|]. destruct (to_map h !! lower f.1); naive_solver.
  - by rewrite to_map_cons, IH, delete_insert_ne.
Qed.

Lemma remove_flag h n : (remove h n).2 = has h n.
Proof. unfold remove, has. by destruct (find h n). Qed.



Lemma has_token_loop_spec fuel rest token :
  (length rest < fuel)%nat ->
  has_token_loop fuel rest token
  = existsb (fun m => iequals (trim_ows m) token) (split_on "," rest).
Proof.
  revert rest. induction fuel as [|f IH]; intros rest H; [lia|]. cbn [has_token_loop].
  rewrite split_on_find. destruct (find_char "," rest) as [i|] eqn:E; cbn [substr0 existsb].
  - destruct (iequals _ token); [done|]. apply find_char_bound in E.
    rewrite IH by (rewrite length_drop; lia). done.
  - by destruct (iequals _ token).
Qed.

(** [has_token] is true exactly when some member of the comma-separated
    value of the field, stripped of optional whitespace, equals the token up
    to ASCII case. *)
Theorem has_token_spec (h : Headers) (name token : bytes) :
  has_token h name token = true
  <-> exists value member, get h name = Some value /\ member ∈ split_on "," value
      /\ lower (trim_ows member) = lower token.
Proof.
  unfold has_token. destruct (get h name) as [value|]; [|naive_solver].
  rewrite has_token_loop_spec, existsb_exists by lia. split.
  - intros (m & Hin & E). exists value, m. rewrite list_elem_of_In, <- iequals_lower. done.
  - intros (? & m & [= <-] & Hin & E). exists m. by rewrite <- list_elem_of_In, iequals_lower.
Qed.
