(* ===== verification/RequestParser.v ===== *)
(** * [src/http/request_parser.{hpp,cpp}]: the incremental request parser

    Definitions only; the theorems are in [ParserFacts], [ParserSegmentation]
    and [ParserRoundTrip].  [size_t] members are [Z] with their 64-bit
    wrap-around written out ([u64]); a position in a [string_view] is a
    [nat]; [Headers& into] is the flag [into_headers] (the two call sites pass
    [req_.headers] or [req_.trailers], and the callee compares addresses). *)

From S2P Require Import Prelude Headers.

(** ** Data *)

Module ParseError.
Inductive t : Set :=
  | None | BadRequest | UriTooLong | HeaderFieldsTooLarge | PayloadTooLarge
  | NotImplemented | VersionNotSupported.
End ParseError.

Module State.
Inductive t : Set :=
  | RequestLine | Headers | Body | ChunkSize | ChunkData | ChunkDataEnd
  | Trailers | Done | Error.
End State.

#[export] Instance ParseError_eq_dec : EqDecision ParseError.t.
Proof. solve_decision. Defined.
#[export] Instance State_eq_dec : EqDecision State.t.
Proof. solve_decision. Defined.

Record Request := mkRequest {
  method : bytes;
  target : bytes;
  path : bytes;
  query : bytes;
  version_major : Z;
  version_minor : Z;
  headers : Headers;
  trailers : Headers;
  body : bytes;
  expect_continue : bool }.

(** [Request{}]. *)
Definition Request_new : Request := mkRequest [] [] [] [] 1 1 [] [] [] false.

Record ParserLimits := mkLimits {
  max_request_line : Z;
  max_header_bytes : Z;
  max_header_count : Z;
  max_body_bytes : Z;
  max_chunk_line : Z }.

(** [ParserLimits{}]. *)
Definition ParserLimits_default : ParserLimits :=
  mkLimits (8 * 1024) (16 * 1024) 100 (8 * 1024 * 1024) 1024.

Record RequestParser := mkParser {
  limits_ : ParserLimits;
  state_ : State.t;
  req_ : Request;
  error_ : ParseError.t;
  error_detail_ : bytes;
  header_bytes_ : Z;
  header_count_ : Z;
  remaining_ : Z }.

(** [explicit RequestParser(ParserLimits limits)]. *)
Definition RequestParser_new (l : ParserLimits) : RequestParser :=
  mkParser l State.RequestLine Request_new ParseError.None [] 0 0 0.

(** Assignments to members. *)
Definition with_state (s : State.t) (p : RequestParser) : RequestParser :=
  mkParser (limits_ p) s (req_ p) (error_ p) (error_detail_ p) (header_bytes_ p) (header_count_ p) (remaining_ p).
Definition with_req (r : Request) (p : RequestParser) : RequestParser :=
  mkParser (limits_ p) (state_ p) r (error_ p) (error_detail_ p) (header_bytes_ p) (header_count_ p) (remaining_ p).
Definition with_header_bytes (n : Z) (p : RequestParser) : RequestParser :=
  mkParser (limits_ p) (state_ p) (req_ p) (error_ p) (error_detail_ p) n (header_count_ p) (remaining_ p).
Definition with_header_count (n : Z) (p : RequestParser) : RequestParser :=
  mkParser (limits_ p) (state_ p) (req_ p) (error_ p) (error_detail_ p) (header_bytes_ p) n (remaining_ p).
Definition with_remaining (n : Z) (p : RequestParser) : RequestParser :=
  mkParser (limits_ p) (state_ p) (req_ p) (error_ p) (error_detail_ p) (header_bytes_ p) (header_count_ p) n.

Definition req_with_body (b : bytes) (r : Request) : Request :=
  mkRequest (method r) (target r) (path r) (query r) (version_major r) (version_minor r)
    (headers r) (trailers r) b (expect_continue r).
Definition req_with_headers (h : Headers) (r : Request) : Request :=
  mkRequest (method r) (target r) (path r) (query r) (version_major r) (version_minor r)
    h (trailers r) (body r) (expect_continue r).
Definition req_with_trailers (h : Headers) (r : Request) : Request :=
  mkRequest (method r) (target r) (path r) (query r) (version_major r) (version_minor r)
    (headers r) h (body r) (expect_continue r).
Definition req_with_expect (e : bool) (r : Request) : Request :=
  mkRequest (method r) (target r) (path r) (query r) (version_major r) (version_minor r)
    (headers r) (trailers r) (body r) e.

(** ** Lexical helpers *)

Definition is_digit (c : ascii) : bool := in_range "0" "9" c.

Definition hex_value (c : ascii) : Z :=
  if in_range "0" "9" c then code c - code "0"
  else if in_range "a" "f" c then code c - code "a" + 10
  else if in_range "A" "F" c then code c - code "A" + 10
  else -1.

Fixpoint parse_decimal_loop (s : bytes) (v : Z) : option Z :=
  match s with
  | [] => Some v
  | c :: s' =>
      if negb (is_digit c) then None
      else parse_decimal_loop s' (u64 (u64 (v * 10) + (code c - code "0")))
  end.

(** The out-parameter is the result; [None] is [return false]. *)
Definition parse_decimal (s : bytes) : option Z :=
  if (zlen s =? 0)%Z || (zlen s >? 19)%Z then None else parse_decimal_loop s 0.

(** [prev] is [None] while [first] holds, else the value of [out]. *)
Fixpoint parse_content_length_loop (fuel : nat) (value : bytes) (prev : option Z) : option Z :=
  match fuel with
  | O => None
  | S f =>
      let comma := find_char "," value in
      match parse_decimal (trim_ows (substr0 value comma)) with
      | None => None
      | Some n =>
          if match prev with Some out => negb (n =? out)%Z | None => false end then None
          else match comma with
               | None => Some n
               | Some i => parse_content_length_loop f (drop (S i) value) (Some n)
               end
      end
  end.

Definition parse_content_length (value : bytes) : option Z :=
  parse_content_length_loop (S (length value)) value None.

Definition target_char_ok (c : ascii) : bool :=
  negb ((code c <=? 32)%Z || (code c =? 127)%Z).

Definition valid_target (t : bytes) : bool :=
  match t with [] => false | _ => forallb target_char_ok t end.

Definition starts_with_icase (s prefix : bytes) : bool :=
  (zlen s >=? zlen prefix)%Z && iequals (take (length prefix) s) prefix.

(** ** Request and error accessors *)

Definition is_http10 (r : Request) : bool :=
  ((version_major r =? 1) && (version_minor r =? 0))%Z.

Definition keep_alive (r : Request) : bool :=
  if has_token (headers r) (B "Connection") (B "close") then false
  else if (version_minor r =? 0)%Z then has_token (headers r) (B "Connection") (B "keep-alive")
  else true.

Definition status_for (e : ParseError.t) : Z :=
  match e with
  | ParseError.None => 200
  | ParseError.BadRequest => 400
  | ParseError.UriTooLong => 414
  | ParseError.HeaderFieldsTooLarge => 431
  | ParseError.PayloadTooLarge => 413
  | ParseError.NotImplemented => 501
  | ParseError.VersionNotSupported => 505
  end.

Definition error_to_string (e : ParseError.t) : bytes :=
  match e with
  | ParseError.None => B "none"
  | ParseError.BadRequest => B "bad_request"
  | ParseError.UriTooLong => B "uri_too_long"
  | ParseError.HeaderFieldsTooLarge => B "header_fields_too_large"
  | ParseError.PayloadTooLarge => B "payload_too_large"
  | ParseError.NotImplemented => B "not_implemented"
  | ParseError.VersionNotSupported => B "version_not_supported"
  end.

Definition done (p : RequestParser) : bool :=
  match state_ p with State.Done => true | _ => false end.
Definition failed (p : RequestParser) : bool :=
  match state_ p with State.Error => true | _ => false end.
Definition started (p : RequestParser) : bool :=
  match state_ p with State.RequestLine => false | _ => true end.
Definition headers_complete (p : RequestParser) : bool :=
  match state_ p with
  | State.RequestLine | State.Headers | State.Error => false
  | _ => true
  end.

Definition reset (p : RequestParser) : RequestParser :=
  mkParser (limits_ p) State.RequestLine Request_new ParseError.None [] 0 0 0.

Definition take_request (p : RequestParser) : Request * RequestParser := (req_ p, reset p).

Definition fail (e : ParseError.t) (detail : bytes) (p : RequestParser) : RequestParser :=
  mkParser (limits_ p) State.Error (req_ p) e detail (header_bytes_ p) (header_count_ p) (remaining_ p).

(** A [bool] member function that may [fail()] first. *)
Abbreviation presult := (RequestParser * bool)%type.
Definition reject (e : ParseError.t) (detail : bytes) (p : RequestParser) : presult :=
  (fail e detail p, false).

(** ** Syntactic units *)

(** [version.size() != 8 || version.substr(0, 5) != "HTTP/" || ...]. *)
Definition version_malformed (version : bytes) : bool :=
  negb (zlen version =? 8)%Z
  || negb (bytes_eqb (take 5 version) (B "HTTP/"))
  || negb (is_digit (nth 5 version CR))
  || negb (Ascii.eqb (nth 6 version CR) ".")
  || negb (is_digit (nth 7 version CR)).

(** The origin-form part of the request-target: [None] is "unsupported
    request-target form". *)
Definition path_and_query (method target : bytes) : option bytes :=
  if starts_with_icase target (B "http://") || starts_with_icase target (B "https://") then
    let authority := match find_sub (B "//") target with Some i => i + 2 | None => 1 end in
    match find_char_from "/" target authority with
    | None => Some (B "/")
    | Some slash => Some (drop slash target)
    end
  else if negb (Ascii.eqb (nth 0 target CR) "/")
          && negb (bytes_eqb target (B "*") && bytes_eqb method (B "OPTIONS")) then None
  else Some target.

Definition parse_request_line (line : bytes) (p : RequestParser) : presult :=
  let three := reject ParseError.BadRequest (B "request-line must have exactly three parts") p in
  match find_char SP line with
  | None => three
  | Some sp1 =>
      match find_char_from SP line (sp1 + 1) with
      | None => three
      | Some sp2 =>
          match find_char_from SP line (sp2 + 1) with
          | Some _ => three
          | None =>
              let method := take sp1 line in
              let target := take (sp2 - sp1 - 1) (drop (sp1 + 1) line) in
              let version := drop (sp2 + 1) line in
              if negb (is_token method) then reject ParseError.BadRequest (B "invalid method") p
              else if negb (valid_target target) then
                reject ParseError.BadRequest (B "invalid request-target") p
              else if version_malformed version then
                reject ParseError.BadRequest (B "malformed HTTP-version") p
              else
                let major := (code (nth 5 version CR) - code "0")%Z in
                let minor := (code (nth 7 version CR) - code "0")%Z in
                if negb (major =? 1)%Z || (minor >? 1)%Z then
                  reject ParseError.VersionNotSupported
                    (B "only HTTP/1.0 and HTTP/1.1 are supported") p
                else
                  match path_and_query method target with
                  | None => reject ParseError.BadRequest (B "unsupported request-target form") p
                  | Some pq =>
                      let qmark := find_char "?" pq in
                      let r := req_ p in
                      (with_req
                         (mkRequest method target (substr0 pq qmark)
                            (match qmark with None => [] | Some q => drop (q + 1) pq end)
                            major minor (headers r) (trailers r) (body r) (expect_continue r)) p,
                       true)
                  end
          end
      end
  end.

Definition value_char_bad (c : ascii) : bool :=
  ((code c <? 32) && negb (Ascii.eqb c HTAB) || (code c =? 127))%Z.

Definition parse_field_line (line : bytes) (into_headers : bool) (p : RequestParser) : presult :=
  match find_char ":" line with
  | None => reject ParseError.BadRequest (B "header line without ':'") p
  | Some colon =>
      let name := take colon line in
      if negb (is_token name) then reject ParseError.BadRequest (B "invalid header field name") p
      else
        let value := trim_ows (drop (colon + 1) line) in
        if existsb value_char_bad value then
          reject ParseError.BadRequest (B "control character in header value") p
        else if into_headers && iequals name (B "Host") && has (headers (req_ p)) (B "Host") then
          reject ParseError.BadRequest (B "duplicate Host header") p
        else if into_headers then
          (with_req (req_with_headers (add (headers (req_ p)) name value) (req_ p)) p, true)
        else
          (with_req (req_with_trailers (add (trailers (req_ p)) name value) (req_ p)) p, true)
  end.

Definition set_expect (p : RequestParser) : presult :=
  let e := match get (headers (req_ p)) (B "Expect") with
           | Some v => iequals (trim_ows v) (B "100-continue")
           | None => false
           end && negb (done p) in
  (with_req (req_with_expect e (req_ p)) p, true).

(** [body.reserve(length)] only sets a capacity. *)
Definition finish_headers (p : RequestParser) : presult :=
  let h := headers (req_ p) in
  if (version_minor (req_ p) =? 1)%Z && negb (has h (B "Host")) then
    reject ParseError.BadRequest (B "HTTP/1.1 request without Host") p
  else
    match get h (B "Transfer-Encoding"), get h (B "Content-Length") with
    | Some _, Some _ => reject ParseError.BadRequest (B "both Transfer-Encoding and Content-Length") p
    | Some te, None =>
        if is_http10 (req_ p) then
          reject ParseError.BadRequest (B "Transfer-Encoding in an HTTP/1.0 request") p
        else if negb (iequals (trim_ows te) (B "chunked")) then
          reject ParseError.NotImplemented (B "unsupported transfer-coding") p
        else set_expect (with_state State.ChunkSize p)
    | None, Some cl =>
        match parse_content_length cl with
        | None => reject ParseError.BadRequest (B "invalid Content-Length") p
        | Some length =>
            if (length >? max_body_bytes (limits_ p))%Z then
              reject ParseError.PayloadTooLarge (B "body exceeds limit") p
            else
              set_expect
                (with_state (if (length =? 0)%Z then State.Done else State.Body)
                   (with_remaining length p))
        end
    | None, None => set_expect (with_state State.Done p)
    end.

Fixpoint parse_hex_loop (s : bytes) (size : Z) : option Z :=
  match s with
  | [] => Some size
  | c :: s' =>
      let v := hex_value c in
      if (v <? 0)%Z then None else parse_hex_loop s' (Z.lor (u64 (Z.shiftl size 4)) v)
  end.

Definition parse_chunk_size (line : bytes) (p : RequestParser) : presult :=
  let digits := trim_ows (substr0 line (find_char ";" line)) in
  if (zlen digits =? 0)%Z || (zlen digits >? 16)%Z then
    reject ParseError.BadRequest (B "invalid chunk size") p
  else
    match parse_hex_loop digits 0 with
    | None => reject ParseError.BadRequest (B "invalid chunk size") p
    | Some size =>
        if (size =? 0)%Z then (with_state State.Trailers p, true)
        else if (size >? max_body_bytes (limits_ p))%Z
                || (u64 (zlen (body (req_ p)) + size) >? max_body_bytes (limits_ p))%Z then
          reject ParseError.PayloadTooLarge (B "body exceeds limit") p
        else (with_state State.ChunkData (with_remaining size p), true)
    end.

(** ** [feed] *)

(** One round of the [for (;;)]: the new parser, the bytes consumed in this
    round, and whether the loop goes on ([continue]) or returns. *)
Record round := mkRound { r_parser : RequestParser; r_used : nat; r_continue : bool }.

Definition feed_request_line (p : RequestParser) (rest : bytes) : round :=
  let too_long := fail ParseError.UriTooLong (B "request-line too long") p in
  match find_sub kCRLF rest with
  | None =>
      mkRound (if (zlen rest >? u64 (max_request_line (limits_ p) + 1))%Z then too_long else p) 0 false
  | Some eol =>
      if (eol =? 0)%nat then mkRound p (length kCRLF) true
      else if (Z.of_nat eol >? max_request_line (limits_ p))%Z then mkRound too_long 0 false
      else
        let '(p1, ok) := parse_request_line (take eol rest) p in
        if negb ok then mkRound p1 0 false
        else mkRound (with_state State.Headers p1) (eol + length kCRLF) true
  end.

(** States [Headers] ([trailing = false]) and [Trailers] ([true]). *)
Definition feed_headers (trailing : bool) (p : RequestParser) (rest : bytes) : round :=
  let too_large := fail ParseError.HeaderFieldsTooLarge (B "header section too large") in
  let lim := max_header_bytes (limits_ p) in
  match find_sub kCRLF rest with
  | None =>
      mkRound (if (u64 (header_bytes_ p + zlen rest + 1) >? lim)%Z then too_large p else p) 0 false
  | Some eol =>
      let line_len := eol + length kCRLF in
      if (u64 (header_bytes_ p + Z.of_nat line_len) >? lim)%Z then mkRound (too_large p) 0 false
      else
        let p1 := with_header_bytes (u64 (header_bytes_ p + Z.of_nat line_len)) p in
        if (eol =? 0)%nat then
          if trailing then mkRound (with_state State.Done p1) line_len true
          else let '(p2, ok) := finish_headers p1 in mkRound p2 line_len ok
        else
          let p2 := with_header_count (u64 (header_count_ p1 + 1)) p1 in
          if (header_count_ p2 >? max_header_count (limits_ p))%Z then
            mkRound (fail ParseError.HeaderFieldsTooLarge (B "too many header fields") p2) line_len false
          else
            let '(p3, ok) := parse_field_line (take eol rest) (negb trailing) p2 in
            mkRound p3 line_len ok
  end.

(** States [Body] ([next = Done]) and [ChunkData] ([next = ChunkDataEnd]). *)
Definition feed_body (next : State.t) (p : RequestParser) (rest : bytes) : round :=
  match rest with
  | [] => mkRound p 0 false
  | _ =>
      let n := Z.to_nat (Z.min (zlen rest) (remaining_ p)) in
      let p1 := with_req (req_with_body (body (req_ p) ++ take n rest) (req_ p)) p in
      let p2 := with_remaining (u64 (remaining_ p1 - Z.of_nat n)) p1 in
      mkRound (if (remaining_ p2 =? 0)%Z then with_state next p2 else p2) n true
  end.

Definition feed_chunk_data_end (p : RequestParser) (rest : bytes) : round :=
  if (zlen rest <? zlen kCRLF)%Z then mkRound p 0 false
  else if negb (bytes_eqb (take (length kCRLF) rest) kCRLF) then
    mkRound (fail ParseError.BadRequest (B "missing CRLF after chunk data") p) 0 false
  else mkRound (with_state State.ChunkSize p) (length kCRLF) true.

Definition feed_chunk_size (p : RequestParser) (rest : bytes) : round :=
  let too_long := fail ParseError.BadRequest (B "chunk-size line too long") p in
  match find_sub kCRLF rest with
  | None =>
      mkRound (if (zlen rest >? u64 (max_chunk_line (limits_ p) + 1))%Z then too_long else p) 0 false
  | Some eol =>
      if (Z.of_nat eol >? max_chunk_line (limits_ p))%Z then mkRound too_long 0 false
      else
        let '(p1, ok) := parse_chunk_size (take eol rest) p in
        if negb ok then mkRound p1 0 false else mkRound p1 (eol + length kCRLF) true
  end.

Definition feed_round (p : RequestParser) (rest : bytes) : round :=
  match state_ p with
  | State.RequestLine => feed_request_line p rest
  | State.Headers => feed_headers false p rest
  | State.Trailers => feed_headers true p rest
  | State.Body => feed_body State.Done p rest
  | State.ChunkData => feed_body State.ChunkDataEnd p rest
  | State.ChunkDataEnd => feed_chunk_data_end p rest
  | State.ChunkSize => feed_chunk_size p rest
  | State.Done | State.Error => mkRound p 0 false
  end.

Fixpoint feed_loop (fuel : nat) (p : RequestParser) (data : bytes) (consumed : nat)
  : option (RequestParser * nat) :=
  match fuel with
  | O => None
  | S f =>
      let r := feed_round p (drop consumed data) in
      if r_continue r then feed_loop f (r_parser r) data (consumed + r_used r)
      else Some (r_parser r, consumed + r_used r)
  end.

(** Every round that goes on consumes input, so [size + 1] rounds are enough
    ([ParserSegmentation.feed_total]). *)
Definition feed_fuel (data : bytes) : nat := S (length data).

Definition feed (p : RequestParser) (data : bytes) : RequestParser * nat :=
  match feed_loop (feed_fuel data) p data 0 with
  | Some r => r
  | None => (p, 0)
  end.
