(* ===== verification/Numbers.v ===== *)
(** * Numbers on the wire

    Decimal ([Content-Length]) and hexadecimal (chunk sizes) text as
    [request_parser.cpp] reads it and as [append_number] of [response.cpp]
    (that is [std::to_chars]) writes it: both readers are exact on every input
    they accept, in spite of the 64-bit accumulator, and they invert the
    writer. *)

From S2P Require Import Prelude Headers RequestParser.

(** ** Reference values *)

Definition dec_value (acc : Z) (s : bytes) : Z :=
  fold_left (fun v c => (v * 10 + (code c - 48))%Z) s acc.

Definition hex_num (acc : Z) (s : bytes) : Z :=
  fold_left (fun v c => (v * 16 + hex_value c)%Z) s acc.

(** ** Digits *)

Lemma is_digit_range c : is_digit c = true <-> (48 <= code c <= 57)%Z.
Proof. unfold is_digit, in_range. change (code "0") with 48%Z. change (code "9") with 57%Z. lia. Qed.

Lemma hex_value_range c : (-1 <= hex_value c < 16)%Z.
Proof.
  unfold hex_value, in_range.
  change (code "0") with 48%Z; change (code "9") with 57%Z; change (code "a") with 97%Z;
  change (code "f") with 102%Z; change (code "A") with 65%Z; change (code "F") with 70%Z.
  repeat cases_goal; lia.
Qed.

Lemma digit_char_range d : (0 <= d < 16)%Z ->
  hex_value (digit_char d) = d /\ is_digit (digit_char d) = (d <? 10)%Z
  /\ (d < 10 -> code (digit_char d) = 48 + d)%Z /\ is_tchar (digit_char d) = true.
Proof.
  intros H. assert (d ∈ [0;1;2;3;4;5;6;7;8;9;10;11;12;13;14;15])%Z as Hin by set_solver by lia.
  repeat (apply elem_of_cons in Hin as [->|Hin]; [repeat split; vm_compute; done|]).
  by apply elem_of_nil in Hin.
Qed.

(** ** Readers are exact *)

Lemma pow_succ_nat (b : Z) n : (b ^ Z.of_nat (S n) = b * b ^ Z.of_nat n)%Z.
Proof. rewrite Nat2Z.inj_succ, Z.pow_succ_r; lia. Qed.

Lemma parse_decimal_loop_exact s v :
  forallb is_digit s = true -> (0 <= v)%Z -> ((v + 1) * 10 ^ zlen s <= 2 ^ 64)%Z ->
  parse_decimal_loop s v = Some (dec_value v s)
  /\ (v * 10 ^ zlen s <= dec_value v s < (v + 1) * 10 ^ zlen s)%Z.
Proof.
  revert v. unfold zlen. induction s as [|c s IH]; intros v Hd Hv Hb.
  { unfold dec_value. simpl fold_left. simpl parse_decimal_loop. split; [done|].
    change (Z.of_nat (length [])) with 0%Z. lia. }
  cbn [forallb] in Hd. bool_hyps. pose proof (proj1 (is_digit_range c) ltac:(done)) as Hc.
  cbn [length] in *. rewrite pow_succ_nat in *.
  assert (0 < 10 ^ Z.of_nat (length s))%Z by (apply Z.pow_pos_nonneg; lia).
  cbn [parse_decimal_loop]. rewrite H. cbn [negb]. change (code "0") with 48%Z.
  assert (v * 10 + 10 <= 2 ^ 64)%Z by nia.
  rewrite (u64_small (v * 10)) by lia. rewrite u64_small by lia.
  destruct (IH (v * 10 + (code c - 48))%Z) as [E1 E2]; [done|lia|nia|].
  rewrite E1. change (dec_value v (c :: s)) with (dec_value (v * 10 + (code c - 48)) s).
  split; [done|]. nia.
Qed.

Lemma parse_decimal_loop_digits s v n : parse_decimal_loop s v = Some n -> forallb is_digit s = true.
Proof.
  revert v. induction s as [|c s IH]; intros v; simpl; [done|].
  destruct (is_digit c); simpl; [apply IH|done].
Qed.

(** [parse_decimal] accepts exactly the strings of 1 to 19 digits, and its
    64-bit accumulator never wraps. *)
Lemma parse_decimal_spec s n :
  parse_decimal s = Some n
  <-> (1 <= zlen s <= 19)%Z /\ forallb is_digit s = true /\ n = dec_value 0 s.
Proof.
  unfold parse_decimal. pose proof (zlen_nonneg s).
  assert (forall k, 0 <= k <= 19 -> (0 + 1) * 10 ^ k <= 2 ^ 64)%Z as Hp.
  { intros k Hk. transitivity (10 ^ 19)%Z; [|lia]. rewrite Z.mul_1_l. apply Z.pow_le_mono_r; lia. }
  destruct ((zlen s =? 0)%Z || (zlen s >? 19)%Z) eqn:E.
  { split; [done|]. lia. }
  split.
  - intros H1. pose proof (parse_decimal_loop_digits _ _ _ H1) as Hd.
    destruct (parse_decimal_loop_exact s 0 Hd ltac:(lia) ltac:(apply Hp; lia)) as [E1 _].
    rewrite E1 in H1. injection H1 as <-. split; [lia|done].
  - intros (Hl & Hd & ->).
    by destruct (parse_decimal_loop_exact s 0 Hd ltac:(lia) ltac:(apply Hp; lia)) as [-> _].
Qed.

Lemma parse_decimal_range s n : parse_decimal s = Some n -> (0 <= n < 10 ^ 19)%Z.
Proof.
  intros (Hl & Hd & ->)%parse_decimal_spec.
  destruct (parse_decimal_loop_exact s 0 Hd) as [_ Hr]; [lia| |].
  - rewrite Z.mul_1_l. transitivity (10 ^ 19)%Z; [|lia]. apply Z.pow_le_mono_r; lia.
  - split; [lia|]. eapply Z.lt_le_trans; [apply Hr|]. rewrite Z.mul_1_l. apply Z.pow_le_mono_r; lia.
Qed.

Lemma parse_content_length_loop_range fuel v prev n :
  parse_content_length_loop fuel v prev = Some n -> (0 <= n < 10 ^ 19)%Z.
Proof.
  revert v prev. induction fuel as [|f IH]; intros v prev; [done|]. cbn [parse_content_length_loop].
  destruct (parse_decimal _) as [m|] eqn:E; [|done].
  destruct (match prev with Some out => negb (m =? out)%Z | None => false end); [done|].
  destruct (find_char "," v); [apply IH|]. intros [= <-]. by eapply parse_decimal_range.
Qed.

Lemma parse_content_length_range v n : parse_content_length v = Some n -> (0 <= n < 10 ^ 19)%Z.
Proof. apply parse_content_length_loop_range. Qed.

(** Shifting in one hexadecimal digit. *)
Lemma lor_shift_digit a v :
  (0 <= a < 2 ^ 60)%Z -> (0 <= v < 16)%Z -> Z.lor (u64 (Z.shiftl a 4)) v = (a * 16 + v)%Z.
Proof.
  intros Ha Hv. rewrite Z.shiftl_mul_pow2 by lia. change (2 ^ 4)%Z with 16%Z.
  rewrite u64_small by lia.
  assert (Z.land (a * 16) v = 0)%Z as Hz.
  { apply Z.bits_inj'. intros i Hi. rewrite Z.land_spec, Z.bits_0.
    change 16%Z with (2 ^ 4)%Z. rewrite Z.mul_pow2_bits by lia.
    destruct (Z.lt_ge_cases i 4) as [Hlt|Hge]; [rewrite Z.testbit_neg_r by lia; done|].
    rewrite <- (Z.mod_small v (2 ^ 4)) by lia. rewrite Z.mod_pow2_bits_high by lia.
    apply andb_false_r. }
  rewrite <- Z.lxor_lor by done. symmetry. by apply Z.add_nocarry_lxor.
Qed.

Definition is_hex (c : ascii) : bool := (0 <=? hex_value c)%Z.

Lemma parse_hex_loop_exact s v :
  forallb is_hex s = true -> (0 <= v)%Z -> ((v + 1) * 16 ^ zlen s <= 2 ^ 64)%Z ->
  parse_hex_loop s v = Some (hex_num v s)
  /\ (v * 16 ^ zlen s <= hex_num v s < (v + 1) * 16 ^ zlen s)%Z.
Proof.
  revert v. unfold zlen. induction s as [|c s IH]; intros v Hd Hv Hb.
  { unfold hex_num. simpl fold_left. simpl parse_hex_loop. split; [done|].
    change (Z.of_nat (length [])) with 0%Z. lia. }
  cbn [forallb] in Hd. bool_hyps. unfold is_hex in H. pose proof (hex_value_range c) as Hc.
  cbn [length] in *. rewrite pow_succ_nat in *.
  assert (0 < 16 ^ Z.of_nat (length s))%Z by (apply Z.pow_pos_nonneg; lia).
  cbn [parse_hex_loop]. destruct (Z.ltb_spec (hex_value c) 0); [lia|].
  assert (v * 16 + 16 <= 2 ^ 64)%Z by nia.
  rewrite lor_shift_digit by lia.
  destruct (IH (v * 16 + hex_value c)%Z) as [E1 E2]; [done|lia|nia|].
  rewrite E1. change (hex_num v (c :: s)) with (hex_num (v * 16 + hex_value c) s).
  split; [done|]. nia.
Qed.

Lemma parse_hex_loop_digits s v n : parse_hex_loop s v = Some n -> forallb is_hex s = true.
Proof.
  revert v. induction s as [|c s IH]; intros v; simpl; [done|]. unfold is_hex.
  destruct (Z.ltb_spec (hex_value c) 0); [done|]. rewrite (proj2 (Z.leb_le _ _)) by lia. apply IH.
Qed.

Lemma parse_hex_range s n :
  (zlen s <= 16)%Z -> parse_hex_loop s 0 = Some n -> n = hex_num 0 s /\ (0 <= n < 2 ^ 64)%Z.
Proof.
  intros Hl H. pose proof (parse_hex_loop_digits _ _ _ H) as Hd. pose proof (zlen_nonneg s).
  assert ((0 + 1) * 16 ^ zlen s <= 2 ^ 64)%Z as Hp.
  { rewrite Z.mul_1_l. transitivity (16 ^ 16)%Z; [|lia]. apply Z.pow_le_mono_r; lia. }
  destruct (parse_hex_loop_exact s 0 Hd ltac:(lia) Hp) as [E1 E2].
  rewrite E1 in H. injection H as <-. split; [done|]. lia.
Qed.

(** ** The writer and the readers are inverse *)

(** Value of a most-significant-first digit string, [b] the base. *)
Definition num_value (b acc : Z) (s : bytes) : Z :=
  fold_left (fun v c => (v * b + hex_value c)%Z) s acc.

Lemma num_value_app b acc s t : num_value b acc (s ++ t) = num_value b (num_value b acc s) t.
Proof. apply fold_left_app. Qed.

Lemma dec_value_num s acc : forallb is_digit s = true -> dec_value acc s = num_value 10 acc s.
Proof.
  revert acc. induction s as [|c s IH]; intros acc H; [done|]. cbn in H. bool_hyps.
  unfold dec_value, num_value in *. cbn [fold_left]. rewrite IH by done. do 2 f_equal.
  unfold hex_value. unfold is_digit in *. by rewrite H.
Qed.

Definition base_digit (base : Z) (c : ascii) : bool :=
  ((0 <=? hex_value c) && (hex_value c <? base))%Z && is_tchar c.

Lemma digit_char_base base d : (0 <= d < base)%Z -> (base <= 16)%Z -> base_digit base (digit_char d) = true.
Proof.
  intros H Hb. unfold base_digit. destruct (digit_char_range d ltac:(lia)) as (-> & _ & _ & ->). lia.
Qed.

Lemma num_value_nonneg base acc s :
  (0 <= base)%Z -> (0 <= acc)%Z -> forallb is_hex s = true -> (0 <= num_value base acc s)%Z.
Proof.
  unfold num_value. revert acc. induction s as [|c s IH]; intros acc Hb Ha H; cbn [fold_left]; [done|].
  cbn [forallb] in H. unfold is_hex in *. bool_hyps. apply IH; [done|nia|done].
Qed.

Lemma digits_hex s : forallb is_digit s = true -> forallb is_hex s = true.
Proof.
  rewrite !forallb_forall. intros H x Hx. specialize (H x Hx). clear Hx s. revert H. by all_bytes x.
Qed.

(** [to_chars_aux] with enough fuel: the digits in front of [acc] denote [v];
    there are at most [k] of them when [v < base ^ k]. *)
Lemma to_chars_aux_spec fuel base v acc :
  (2 <= base <= 16)%Z -> (0 <= v < base ^ Z.of_nat (S fuel))%Z ->
  exists ds, to_chars_aux (S fuel) base v acc = ds ++ acc
    /\ num_value base 0 ds = v /\ forallb (base_digit base) ds = true /\ ds <> []
    /\ (forall k, (v < base ^ Z.of_nat (S k))%Z -> (length ds <= S k)%nat).
Proof.
  intros Hb. revert v acc. induction fuel as [|f IH]; intros v acc Hv;
    rewrite pow_succ_nat in Hv.
  { cbn [to_chars_aux]. pose proof (Z.mod_small v base ltac:(lia)) as Hm. rewrite Z.div_small, Hm by lia. simpl.
    exists [digit_char v]. cbn [num_value fold_left forallb length].
    rewrite (proj1 (digit_char_range v ltac:(lia))), digit_char_base by lia. repeat split; [done|lia]. }
  remember (S f) as g. cbn [to_chars_aux]. subst g.
  pose proof (Z.mod_pos_bound v base ltac:(lia)) as Hm.
  pose proof (Z.div_mod v base ltac:(lia)) as Hdm.
  destruct (Z.eqb_spec (v / base) 0) as [E|E].
  - exists [digit_char (v mod base)]. split; [done|]. cbn [num_value fold_left forallb length].
    rewrite (proj1 (digit_char_range (v mod base) ltac:(lia))), digit_char_base by lia.
    rewrite E in Hdm. repeat split; [lia|done|lia].
  - assert (0 <= v / base < base ^ Z.of_nat (S f))%Z as Hq.
    { split; [apply Z.div_pos; lia|]. apply Z.div_lt_upper_bound; lia. }
    destruct (IH (v / base)%Z (digit_char (v mod base) :: acc) Hq) as (ds & E1 & E2 & E3 & E4 & E5).
    exists (ds ++ [digit_char (v mod base)]). rewrite E1, <- app_assoc. split; [done|].
    rewrite num_value_app, E2, forallb_app, E3. cbn [num_value fold_left forallb].
    rewrite (proj1 (digit_char_range (v mod base) ltac:(lia))), digit_char_base by lia.
    split; [lia|]. split; [done|]. split; [by destruct ds|]. intros k Hk.
    rewrite length_app. cbn [length]. destruct k as [|k].
    + change (Z.of_nat 1) with 1%Z in Hk. rewrite Z.pow_1_r in Hk. rewrite Z.div_small in E; lia.
    + specialize (E5 k). rewrite pow_succ_nat in Hk.
      assert (v / base < base ^ Z.of_nat (S k))%Z by (apply Z.div_lt_upper_bound; lia). lia.
Qed.

Lemma to_chars_spec base v :
  (2 <= base <= 16)%Z -> (0 <= v < 2 ^ 64)%Z ->
  num_value base 0 (to_chars base v) = v /\ forallb (base_digit base) (to_chars base v) = true
  /\ to_chars base v <> []
  /\ (forall k, (v < base ^ Z.of_nat (S k))%Z -> (length (to_chars base v) <= S k)%nat).
Proof.
  intros Hb Hv. destruct (to_chars_aux_spec 63 base v [] Hb) as (ds & E & H).
  { split; [lia|]. eapply Z.lt_le_trans; [apply Hv|]. change (Z.of_nat 64) with 64%Z.
    apply Z.pow_le_mono_l. lia. }
  unfold to_chars. rewrite E, app_nil_r. done.
Qed.

Lemma base_digit_tchar base s : forallb (base_digit base) s = true -> forallb is_tchar s = true.
Proof. rewrite !forallb_forall. intros H x Hx. specialize (H x Hx). unfold base_digit in H. by bool_hyps. Qed.

Lemma base_digit_dec s : forallb (base_digit 10) s = true -> forallb is_digit s = true.
Proof.
  rewrite !forallb_forall. intros H x Hx. specialize (H x Hx). clear Hx s. revert H. by all_bytes x.
Qed.

Lemma base_digit_hex s : forallb (base_digit 16) s = true -> forallb is_hex s = true.
Proof. rewrite !forallb_forall. intros H x Hx. specialize (H x Hx). unfold base_digit, is_hex in *. by bool_hyps. Qed.

(** Reading back a decimal number below 10^19. *)
Lemma parse_decimal_to_chars v : (0 <= v < 10 ^ 19)%Z -> parse_decimal (to_chars 10 v) = Some v.
Proof.
  intros Hv. destruct (to_chars_spec 10 v) as (E1 & E2 & E3 & E4); [lia|lia|].
  apply base_digit_dec in E2. apply parse_decimal_spec. split; [|split; [done|]].
  - specialize (E4 18%nat ltac:(lia)). unfold zlen. destruct (to_chars 10 v); [done|]. simpl in *. lia.
  - by rewrite dec_value_num.
Qed.

(** Reading back any 64-bit number written in hexadecimal. *)
Lemma parse_hex_to_chars v :
  (0 <= v < 2 ^ 64)%Z ->
  parse_hex_loop (to_chars 16 v) 0 = Some v /\ (1 <= zlen (to_chars 16 v) <= 16)%Z.
Proof.
  intros Hv. destruct (to_chars_spec 16 v) as (E1 & E2 & E3 & E4); [lia|lia|].
  apply base_digit_hex in E2. specialize (E4 15%nat ltac:(lia)).
  assert (1 <= zlen (to_chars 16 v) <= 16)%Z as Hl.
  { unfold zlen. destruct (to_chars 16 v); [done|]. simpl in *. lia. }
  split; [|done]. destruct (parse_hex_loop_exact (to_chars 16 v) 0 E2) as [-> _]; [lia| |by f_equal].
  rewrite Z.mul_1_l. transitivity (16 ^ 16)%Z; [|lia]. apply Z.pow_le_mono_r; lia.
Qed.
