(* ===== verification/ParserFacts.v ===== *)
(** * Facts about the request parser

    The well-formedness invariant of [RequestParser], its preservation by
    every operation, the big-step view [feeds] of the [feed] loop, and the
    termination of that loop. *)

From S2P Require Import Prelude Headers RequestParser Numbers.

(** ** Well-formedness *)

(** No limit is so large that the size arithmetic of the parser could wrap. *)
Definition limit_ok (n : Z) : bool := ((0 <=? n) && (n <? 2 ^ 62))%Z.
Definition limits_ok (l : ParserLimits) : bool :=
  limit_ok (max_request_line l) && limit_ok (max_header_bytes l) && limit_ok (max_header_count l)
  && limit_ok (max_body_bytes l) && limit_ok (max_chunk_line l).

(** A size that an object in memory can have. *)
Definition fits (s : bytes) : Prop := (zlen s < 2 ^ 62)%Z.

(** A stored field: a token and a value without control characters. *)
Definition field_ok (f : Field) : Prop :=
  is_token f.1 = true /\ existsb value_char_bad f.2 = false.
Definition fields_ok (h : Headers) : Prop := headers_wf h /\ Forall field_ok h.

(** The header section of a request that uses chunked coding, and of one
    that declares a length. *)
Definition is_chunked (r : Request) : Prop :=
  version_minor r = 1%Z /\ get (headers r) (B "Content-Length") = None
  /\ exists te, get (headers r) (B "Transfer-Encoding") = Some te
       /\ lower (trim_ows te) = B "chunked".
Definition has_length (r : Request) (n : Z) : Prop :=
  get (headers r) (B "Transfer-Encoding") = None
  /\ exists cl, get (headers r) (B "Content-Length") = Some cl /\ parse_content_length cl = Some n.
Definition no_framing (r : Request) : Prop :=
  get (headers r) (B "Transfer-Encoding") = None /\ get (headers r) (B "Content-Length") = None.

Definition host_ok (r : Request) : Prop := version_minor r = 1%Z -> has (headers r) (B "Host") = true.

(** What holds of the request once its request-line has been read. *)
Definition line_ok (r : Request) : Prop :=
  is_token (method r) = true /\ valid_target (target r) = true
  /\ version_major r = 1%Z /\ (version_minor r = 0 \/ version_minor r = 1)%Z.

Definition state_ok (p : RequestParser) : Prop :=
  let r := req_ p in
  match state_ p with
  | State.RequestLine => p = RequestParser_new (limits_ p)
  | State.Headers => line_ok r /\ body r = [] /\ trailers r = []
  | State.Body =>
      line_ok r /\ host_ok r /\ trailers r = [] /\ (0 < remaining_ p)%Z
      /\ has_length r (zlen (body r) + remaining_ p)
      /\ (zlen (body r) + remaining_ p <= max_body_bytes (limits_ p))%Z
  | State.ChunkData =>
      line_ok r /\ host_ok r /\ trailers r = [] /\ (0 < remaining_ p)%Z /\ is_chunked r
      /\ (zlen (body r) + remaining_ p <= max_body_bytes (limits_ p))%Z
  | State.ChunkSize | State.ChunkDataEnd => line_ok r /\ host_ok r /\ trailers r = [] /\ is_chunked r
  | State.Trailers => line_ok r /\ host_ok r /\ is_chunked r
  | State.Done =>
      line_ok r /\ host_ok r
      /\ (no_framing r /\ body r = [] /\ trailers r = []
          \/ has_length r (zlen (body r)) /\ trailers r = [] \/ is_chunked r)
  | State.Error => error_ p <> ParseError.None
  end.

Record parser_wf (p : RequestParser) : Prop := {
  wf_limits : limits_ok (limits_ p) = true;
  wf_header_bytes : (0 <= header_bytes_ p <= max_header_bytes (limits_ p))%Z;
  wf_header_count : (0 <= header_count_ p)%Z
    /\ (header_count_ p <= max_header_count (limits_ p) + if failed p then 1 else 0)%Z;
  wf_remaining : (0 <= remaining_ p < 2 ^ 64)%Z;
  wf_body : (zlen (body (req_ p)) <= max_body_bytes (limits_ p))%Z;
  wf_headers : fields_ok (headers (req_ p));
  wf_trailers : fields_ok (trailers (req_ p));
  wf_error : failed p = false -> error_ p = ParseError.None;
  wf_state : state_ok p }.

(** ** The loop as a big-step relation *)

Inductive feeds : RequestParser -> bytes -> RequestParser -> nat -> Prop :=
| feeds_return p rest :
    r_continue (feed_round p rest) = false ->
    feeds p rest (r_parser (feed_round p rest)) (r_used (feed_round p rest))
| feeds_continue p rest p' n :
    r_continue (feed_round p rest) = true ->
    feeds (r_parser (feed_round p rest)) (drop (r_used (feed_round p rest)) rest) p' n ->
    feeds p rest p' (r_used (feed_round p rest) + n).

Ltac round_simpl := cbn [r_parser r_used r_continue fst snd].

(** ** What the syntactic units can do *)

Lemma limits_ok_bounds l : limits_ok l = true ->
  (0 <= max_request_line l < 2 ^ 62 /\ 0 <= max_header_bytes l < 2 ^ 62
   /\ 0 <= max_header_count l < 2 ^ 62 /\ 0 <= max_body_bytes l < 2 ^ 62
   /\ 0 <= max_chunk_line l < 2 ^ 62)%Z.
Proof. unfold limits_ok, limit_ok. lia. Qed.

(** A unit either rejects, leaving everything but the error untouched, or
    succeeds. *)
Definition rejects (p : RequestParser) (r : presult) : Prop :=
  exists e d, e <> ParseError.None /\ r = (fail e d p, false).

Lemma rejects_intro e d p : e <> ParseError.None -> rejects p (reject e d p).
Proof. intros H. exists e, d. done. Qed.

#[export] Hint Extern 1 (_ <> ParseError.None) => discriminate : http.
#[export] Hint Resolve rejects_intro : http.

Lemma version_digit c : is_digit c = true ->
  (0 <= code c - code "0" <= 9)%Z.
Proof. rewrite is_digit_range. change (code "0") with 48%Z. lia. Qed.

Lemma parse_request_line_cases line p :
  rejects p (parse_request_line line p)
  \/ exists r, parse_request_line line p = (with_req r p, true) /\ line_ok r
       /\ headers r = headers (req_ p) /\ trailers r = trailers (req_ p) /\ body r = body (req_ p).
Proof.
  unfold parse_request_line, line_ok. repeat cases_goal; eauto with http.
  all: right; eexists; split; [reflexivity|]; cbn.
  all: bool_hyps; unfold version_malformed in *; bool_hyps.
  all: match goal with H : is_digit (nth 7 _ _) = true |- _ => pose proof (version_digit _ H) end.
  all: repeat split; try done; lia.
Qed.

Lemma parse_field_line_cases line ih p :
  rejects p (parse_field_line line ih p)
  \/ exists f, field_ok f /\ parse_field_line line ih p
       = (with_req (if ih then req_with_headers (add (headers (req_ p)) f.1 f.2) (req_ p)
                    else req_with_trailers (add (trailers (req_ p)) f.1 f.2) (req_ p)) p, true).
Proof.
  unfold parse_field_line, field_ok. destruct (find_char ":" line) as [i|]; [|eauto with http].
  cases_goal; [eauto with http|]. cases_goal; [eauto with http|]. cases_goal; [eauto with http|].
  right. bool_hyps. exists (take i line, trim_ows (drop (i + 1) line)). by destruct ih.
Qed.

Definition expect_of (s : State.t) (r : Request) : bool :=
  match get (headers r) (B "Expect") with
  | Some v => iequals (trim_ows v) (B "100-continue")
  | None => false
  end && negb (match s with State.Done => true | _ => false end).

(** The three ways in which the header section can end well. *)
Lemma finish_headers_cases p :
  rejects p (finish_headers p)
  \/ host_ok (req_ p)
     /\ exists s n, finish_headers p
          = (with_req (req_with_expect (expect_of s (req_ p)) (req_ p))
               (with_state s (with_remaining n p)), true)
        /\ (s = State.ChunkSize /\ n = remaining_ p /\ is_http10 (req_ p) = false
            /\ get (headers (req_ p)) (B "Content-Length") = None
            /\ (exists te, get (headers (req_ p)) (B "Transfer-Encoding") = Some te
                /\ lower (trim_ows te) = B "chunked")
            \/ has_length (req_ p) n /\ (n <= max_body_bytes (limits_ p))%Z
               /\ s = (if (n =? 0)%Z then State.Done else State.Body)
            \/ no_framing (req_ p) /\ n = remaining_ p /\ s = State.Done).
Proof.
  unfold finish_headers, set_expect, host_ok, has_length, no_framing.
  destruct ((version_minor (req_ p) =? 1)%Z && negb (has (headers (req_ p)) (B "Host"))) eqn:Eh;
    [eauto with http|].
  assert (version_minor (req_ p) = 1%Z -> has (headers (req_ p)) (B "Host") = true) as Hh.
  { intros E. rewrite E in Eh. simpl in Eh. by bool_hyps. }
  destruct (get _ (B "Transfer-Encoding")) as [te|] eqn:Ete;
    destruct (get _ (B "Content-Length")) as [cl|] eqn:Ecl; [eauto with http| | |].
  - cases_goal; [eauto with http|]. cases_goal; [eauto with http|]. bool_hyps.
    right. split; [done|]. exists State.ChunkSize, (remaining_ p). destruct p. split; [done|]. left.
    rewrite iequals_lower in *. eauto 10.
  - destruct (parse_content_length cl) as [n|] eqn:En; [|eauto with http].
    cases_goal; [eauto with http|]. right. split; [done|].
    exists (if (n =? 0)%Z then State.Done else State.Body), n. destruct p. split; [by destruct (n =? 0)%Z|].
    right; left. split; [eauto|]. split; [lia|done].
  - right. split; [done|]. exists State.Done, (remaining_ p). destruct p. split; [done|].
    right; right. done.
Qed.

Lemma parse_chunk_size_cases line p :
  limits_ok (limits_ p) = true -> (zlen (body (req_ p)) <= max_body_bytes (limits_ p))%Z ->
  rejects p (parse_chunk_size line p)
  \/ parse_chunk_size line p = (with_state State.Trailers p, true)
  \/ exists n, parse_chunk_size line p = (with_state State.ChunkData (with_remaining n p), true)
       /\ (0 < n)%Z /\ (zlen (body (req_ p)) + n <= max_body_bytes (limits_ p))%Z.
Proof.
  intros Hl%limits_ok_bounds Hb. unfold parse_chunk_size. pose proof (zlen_nonneg (body (req_ p))).
  cases_goal; [eauto with http|].
  destruct (parse_hex_loop _ 0) as [n|] eqn:En; [|eauto with http].
  apply parse_hex_range in En as [_ Hn]; [|lia].
  cases_goal; [eauto|]. cases_goal; [eauto with http|].
  right; right. exists n. split; [done|]. bool_hyps. rewrite u64_small in * by lia. lia.
Qed.

(** ** Preservation of the invariant *)

Lemma field_ok_fold n v v' :
  field_ok (n, v) -> existsb value_char_bad v' = false -> field_ok (n, v ++ B ", " ++ v').
Proof.
  unfold field_ok. cbn [fst snd]. intros [H1 H2] H3. split; [done|].
  rewrite !existsb_app, H2, H3. reflexivity.
Qed.

Lemma fields_ok_nil : fields_ok [].
Proof. split; [apply headers_wf_nil|constructor]. Qed.

Lemma fields_ok_add h f : fields_ok h -> field_ok f -> fields_ok (add h f.1 f.2).
Proof.
  intros [H1 H2] Hf. split; [by apply headers_wf_add|]. clear H1.
  induction h as [|g h IH]; [destruct f; apply Forall_singleton; done|].
  rewrite add_cons. apply Forall_cons in H2 as [Hg Hh]. destruct (iequals g.1 f.1).
  - constructor; [|done]. destruct g. apply field_ok_fold; [done|]. apply Hf.
  - constructor; auto.
Qed.

#[export] Hint Resolve fields_ok_nil fields_ok_add : http.

Lemma parser_wf_new l : limits_ok l = true -> parser_wf (RequestParser_new l).
Proof.
  intros Hl. pose proof (limits_ok_bounds l Hl). constructor; cbn; auto with http; try done; try lia.
  change (zlen []) with 0%Z. lia.
Qed.

Lemma parser_wf_reset p : parser_wf p -> parser_wf (reset p).
Proof. intros H. apply (parser_wf_new (limits_ p)), (wf_limits p H). Qed.

Lemma parser_wf_fail e d p : parser_wf p -> e <> ParseError.None -> parser_wf (fail e d p).
Proof.
  intros [] He. constructor; cbn; try done. unfold failed in *. destruct (state_ p); lia.
Qed.

Lemma parser_wf_rejects p r : parser_wf p -> rejects p r -> parser_wf r.1 /\ r.2 = false.
Proof. intros Hp (e & d & He & ->). cbn. auto using parser_wf_fail. Qed.

#[export] Hint Resolve parser_wf_fail parser_wf_reset parser_wf_new : http.

(** Whatever [header_bytes_] held, a passed size check bounds its new value. *)
Lemma parser_wf_header_bytes p n :
  parser_wf p -> state_ p <> State.RequestLine -> (u64 n >? max_header_bytes (limits_ p))%Z = false ->
  parser_wf (with_header_bytes (u64 n) p).
Proof.
  intros [] Hs Hn. pose proof (u64_range n). constructor; cbn; try done; [lia|].
  unfold state_ok in *. cbn. by destruct (state_ p).
Qed.

Lemma feed_request_line_wf p rest :
  parser_wf p -> state_ p = State.RequestLine -> parser_wf (r_parser (feed_request_line p rest)).
Proof.
  intros Hp Hs. unfold feed_request_line. destruct (find_sub kCRLF rest) as [eol|].
  2: { cases_goal; round_simpl; auto with http. }
  do 2 (cases_goal; [round_simpl; by auto with http|]).
  destruct (parse_request_line_cases (take eol rest) p) as [Hr|(r & -> & Hl & Hh & Ht & Hb)].
  - destruct (parse_request_line _ p) as [p1 ok]. apply parser_wf_rejects in Hr as [? E]; [|done].
    cbn in E. by subst ok.
  - destruct Hp. unfold state_ok in *. rewrite Hs in *. rewrite wf_state0 in *.
    cbn in *. constructor; cbn; try done; try congruence; try lia.
Qed.

Lemma has_length_body r n b : has_length (req_with_body b r) n <-> has_length r n.
Proof. done. Qed.

Lemma feed_body_wf next p rest :
  parser_wf p ->
  (state_ p = State.Body /\ next = State.Done \/ state_ p = State.ChunkData /\ next = State.ChunkDataEnd) ->
  parser_wf (r_parser (feed_body next p rest)).
Proof.
  intros Hp Hs. unfold feed_body. destruct rest as [|c rest']; [done|].
  remember (c :: rest') as rest eqn:E. clear E. cbn.
  set (n := Z.to_nat (Z.min (zlen rest) (remaining_ p))).
  pose proof (zlen_nonneg rest). destruct Hp. pose proof (limits_ok_bounds _ wf_limits0) as Hl.
  assert (Z.of_nat n <= remaining_ p)%Z by lia.
  assert (zlen (take n rest) = Z.of_nat n) as Hn.
  { unfold zlen in *. rewrite length_take. lia. }
  rewrite (u64_small (remaining_ p - Z.of_nat n)) by lia.
  assert (zlen (body (req_ p)) + remaining_ p <= max_body_bytes (limits_ p))%Z as Hmax.
  { unfold state_ok in wf_state0. destruct Hs as [[-> _]|[-> _]] in wf_state0; naive_solver. }
  unfold state_ok in wf_state0. unfold failed in *.
  destruct (Z.eqb_spec (remaining_ p - Z.of_nat n) 0) as [E|E].
  - replace (Z.of_nat n) with (remaining_ p) in * by lia.
    destruct Hs as [[Hs ->]|[Hs ->]]; rewrite Hs in *; destruct_and! wf_state0;
      constructor; cbn; try done; rewrite ?zlen_app, ?Hn; try lia.
    split_and!; try done. by right; left.
  - replace (zlen (body (req_ p)) + remaining_ p)%Z
      with (zlen (body (req_ p)) + Z.of_nat n + (remaining_ p - Z.of_nat n))%Z in wf_state0 by lia.
    destruct Hs as [[Hs ->]|[Hs ->]]; rewrite Hs in *; destruct_and! wf_state0;
      constructor; unfold failed, state_ok; cbn; rewrite ?Hs; try done;
      rewrite ?zlen_app, ?Hn; try lia.
    all: split_and!; try done; lia.
Qed.

Lemma finish_headers_wf p :
  parser_wf p -> state_ p = State.Headers -> parser_wf (finish_headers p).1.
Proof.
  intros Hp Hs. destruct (finish_headers_cases p) as [Hr|(Hh & s & n & -> & Hc)].
  { by apply parser_wf_rejects in Hr as []. }
  destruct Hp. unfold state_ok, failed in *. rewrite Hs in *. destruct wf_state0 as (Hl & Hb & Ht).
  destruct Hc as [(-> & -> & H10 & Hcl & te & Hte & Hch)|[(Hlen & Hmax & ->)|(Hnf & -> & ->)]].
  - assert (version_minor (req_ p) = 1%Z).
    { destruct Hl as (_ & _ & Hmaj & Hmin). unfold is_http10 in H10. lia. }
    constructor; unfold failed, state_ok, is_chunked; cbn; try done. eauto 10.
  - assert (0 <= n < 10 ^ 19)%Z as Hn.
    { destruct Hlen as (_ & cl & _ & H%parse_content_length_range). done. }
    destruct (Z.eqb_spec n 0) as [->|Hn0];
      constructor; unfold failed, state_ok; cbn; rewrite ?Hb; change (zlen []) with 0%Z; try done; try lia.
    + split_and!; try done. by right; left.
    + split_and!; try done; lia.
  - constructor; unfold failed, state_ok; cbn; try done. split_and!; try done. by left.
Qed.

Lemma parse_field_line_wf line (ih : bool) p :
  parser_wf p -> state_ p = (if ih then State.Headers else State.Trailers) ->
  parser_wf (parse_field_line line ih p).1.
Proof.
  intros Hp Hs. destruct (parse_field_line_cases line ih p) as [Hr|(f & Hf & ->)].
  { by apply parser_wf_rejects in Hr as []. }
  destruct Hp. unfold state_ok, failed in *.
  destruct ih; rewrite Hs in *; constructor; unfold failed, state_ok; cbn; rewrite ?Hs;
    try done; auto with http.
Qed.

Lemma feed_headers_wf (trailing : bool) p rest :
  parser_wf p -> state_ p = (if trailing then State.Trailers else State.Headers) ->
  parser_wf (r_parser (feed_headers trailing p rest)).
Proof.
  intros Hp Hs. unfold feed_headers. destruct (find_sub kCRLF rest) as [eol|].
  2: { cases_goal; round_simpl; auto with http. }
  destruct (u64 (header_bytes_ p + _) >? _)%Z eqn:Eb; [round_simpl; by auto with http|].
  apply parser_wf_header_bytes in Eb; [|done|by destruct trailing; rewrite Hs].
  revert Eb. generalize (u64 (header_bytes_ p + Z.of_nat (eol + length kCRLF))). intros hb Hp1.
  destruct (eol =? 0)%nat.
  - destruct trailing; [|by destruct (finish_headers _) eqn:E; round_simpl;
      apply (f_equal fst) in E; cbn in E; subst; apply finish_headers_wf].
    round_simpl. destruct Hp1. unfold state_ok, failed in *. cbn in *. rewrite Hs in *.
    destruct_and! wf_state0. constructor; unfold failed, state_ok; cbn; try done.
    split_and!; try done. by right; right.
  - set (p2 := with_header_count _ _).
    assert (parser_wf (if header_count_ p2 >? max_header_count (limits_ p) then
              fail ParseError.HeaderFieldsTooLarge (B "too many header fields") p2 else p2)%Z) as Hp2.
    { destruct Hp1. pose proof (limits_ok_bounds _ wf_limits0). unfold failed, state_ok in *. cbn in *.
      rewrite u64_small in * by (destruct trailing; rewrite Hs in *; lia).
      cases_goal; destruct trailing; rewrite Hs in *; constructor; unfold failed, state_ok; cbn;
        rewrite ?Hs; try done; rewrite u64_small; lia. }
    destruct (header_count_ p2 >? _)%Z eqn:Ec; [done|].
    destruct (parse_field_line (take eol rest) (negb trailing) p2) as [p3 ok] eqn:E. round_simpl.
    change p3 with (p3, ok).1. rewrite <- E. apply parse_field_line_wf; [done|]. by destruct trailing.
Qed.

Lemma feed_chunk_data_end_wf p rest :
  parser_wf p -> state_ p = State.ChunkDataEnd -> parser_wf (r_parser (feed_chunk_data_end p rest)).
Proof.
  intros Hp Hs. unfold feed_chunk_data_end. repeat cases_goal; round_simpl; auto with http.
  destruct Hp. unfold state_ok, failed in *. rewrite Hs in *. constructor; unfold failed, state_ok; done.
Qed.

Lemma feed_chunk_size_wf p rest :
  parser_wf p -> state_ p = State.ChunkSize -> parser_wf (r_parser (feed_chunk_size p rest)).
Proof.
  intros Hp Hs. unfold feed_chunk_size. destruct (find_sub kCRLF rest) as [eol|].
  2: { cases_goal; round_simpl; auto with http. }
  cases_goal; [round_simpl; by auto with http|].
  destruct (parse_chunk_size_cases (take eol rest) p) as [Hr|[->|(n & -> & Hn & Hm)]]; try apply Hp.
  - destruct (parse_chunk_size _ p) as [p1 ok]. apply parser_wf_rejects in Hr as [? E]; [|done].
    cbn in E. by subst ok.
  - destruct Hp. unfold state_ok, failed in *. rewrite Hs in *. destruct_and! wf_state0.
    constructor; unfold failed, state_ok; cbn; done.
  - destruct Hp. unfold state_ok, failed in *. rewrite Hs in *. destruct_and! wf_state0.
    pose proof (limits_ok_bounds _ wf_limits0). pose proof (zlen_nonneg (body (req_ p))).
    constructor; unfold failed, state_ok; cbn; try done; lia.
Qed.

(** Every round of [feed] preserves the invariant. *)
Lemma feed_round_wf p rest : parser_wf p -> parser_wf (r_parser (feed_round p rest)).
Proof.
  intros Hp. unfold feed_round. destruct (state_ p) eqn:Hs;
    eauto using feed_request_line_wf, feed_headers_wf, feed_body_wf, feed_chunk_data_end_wf,
      feed_chunk_size_wf.
Qed.

(** ** Progress and termination *)

Lemma feed_round_used p rest : parser_wf p -> (r_used (feed_round p rest) <= length rest)%nat.
Proof.
  intros Hp. unfold feed_round, feed_request_line, feed_headers, feed_body, feed_chunk_data_end,
    feed_chunk_size.
  destruct (find_sub kCRLF rest) as [eol|] eqn:Ef; [apply find_sub_bound in Ef|].
  all: change (length kCRLF) with 2%nat in *; destruct (state_ p); repeat cases_goal; round_simpl; try lia.
  all: try (unfold zlen; simpl length; lia).
  all: change (zlen kCRLF) with 2%Z in *; unfold zlen in *; lia.
Qed.

(** A round that goes on consumes at least one byte. *)
Lemma feed_round_progress p rest :
  parser_wf p -> r_continue (feed_round p rest) = true -> (1 <= r_used (feed_round p rest))%nat.
Proof.
  intros Hp. pose proof (wf_state p Hp) as Hs. unfold state_ok in Hs. revert Hs.
  unfold feed_round, feed_request_line, feed_headers, feed_body, feed_chunk_data_end, feed_chunk_size.
  change (length kCRLF) with 2%nat.
  destruct (state_ p); intros Hs; repeat cases_goal; round_simpl; intros Hc; try done; try lia.
  all: unfold zlen; simpl length; lia.
Qed.

Lemma feed_loop_feeds fuel p data consumed :
  parser_wf p -> (length (drop consumed data) < fuel)%nat ->
  exists p' n, feed_loop fuel p data consumed = Some (p', (consumed + n)%nat)
    /\ feeds p (drop consumed data) p' n.
Proof.
  revert p consumed. induction fuel as [|f IH]; intros p consumed Hp Hf; [lia|]. cbn [feed_loop].
  pose proof (feed_round_used p (drop consumed data) Hp) as Hu.
  pose proof (feed_round_progress p (drop consumed data) Hp) as Hpr.
  destruct (r_continue (feed_round p (drop consumed data))) eqn:Ec.
  - specialize (Hpr eq_refl). rewrite length_drop in *.
    destruct (IH (r_parser (feed_round p (drop consumed data)))
                (consumed + r_used (feed_round p (drop consumed data)))%nat)
      as (p' & n & E & Hn); [by apply feed_round_wf|rewrite length_drop; lia|].
    rewrite E, <- Nat.add_assoc. do 2 eexists. split; [reflexivity|].
    apply feeds_continue; [done|]. by rewrite drop_drop.
  - do 2 eexists. split; [reflexivity|]. by apply feeds_return.
Qed.

Lemma feeds_det p rest p1 n1 p2 n2 :
  feeds p rest p1 n1 -> feeds p rest p2 n2 -> p1 = p2 /\ n1 = n2.
Proof.
  intros H. revert p2 n2. induction H as [p rest Hc|p rest p' n Hc Hf IH]; intros p2 n2 H2.
  - inv H2; [done|congruence].
  - inv H2; [congruence|]. match goal with H : feeds _ _ _ _ |- _ => apply IH in H as [-> ->] end. done.
Qed.

Lemma feed_feeds p data : parser_wf p -> feeds p data (feed p data).1 (feed p data).2.
Proof.
  intros Hp. unfold feed, feed_fuel.
  destruct (feed_loop_feeds (S (length data)) p data 0) as (p' & n & -> & H); [done|rewrite drop_0; lia|].
  by rewrite drop_0 in H.
Qed.

Lemma feeds_feed p data p' n : parser_wf p -> feeds p data p' n -> feed p data = (p', n).
Proof.
  intros Hp H. destruct (feeds_det _ _ _ _ _ _ (feed_feeds p data Hp) H) as [<- <-].
  by destruct (feed p data).
Qed.

Lemma feeds_wf p rest p' n : feeds p rest p' n -> parser_wf p -> parser_wf p'.
Proof. induction 1; auto using feed_round_wf. Qed.

Lemma feeds_limits p rest p' n : feeds p rest p' n -> limits_ p' = limits_ p.
Proof.
  assert (forall p rest, limits_ (r_parser (feed_round p rest)) = limits_ p) as Hl.
  { clear. intros p rest. unfold feed_round, feed_request_line, feed_headers, feed_body,
      feed_chunk_data_end, feed_chunk_size, parse_request_line, parse_field_line, finish_headers,
      set_expect, parse_chunk_size, reject.
    repeat cases_goal; simplify_eq/=; try done. }
  induction 1; [apply Hl|]. rewrite IHfeeds. apply Hl.
Qed.

Lemma feeds_used p rest p' n : feeds p rest p' n -> parser_wf p -> (n <= length rest)%nat.
Proof.
  induction 1 as [p rest Hc|p rest p' n Hc Hf IH]; intros Hp; [by apply feed_round_used|].
  specialize (IH (feed_round_wf _ _ Hp)). pose proof (feed_round_used p rest Hp).
  rewrite length_drop in IH. lia.
Qed.
