(* ===== verification/ParserSegmentation.v ===== *)
(** * The parser does not depend on how the input was split

    [request_parser.hpp] promises: "The result never depends on how the input
    was split".  [feed_segmentation] is that statement for one cut, with
    equality of the whole parser object; [deliver_all] extends it to any
    sequence of reads. *)

From S2P Require Import Prelude Headers RequestParser Numbers ParserFacts.

(** A caller that keeps the unconsumed tail and presents it again with the
    next read, as the header comment of the class asks. *)
Definition deliver (st : RequestParser * bytes) (segment : bytes) : RequestParser * bytes :=
  let '(p, buf) := st in
  let '(p', n) := feed p (buf ++ segment) in (p', drop n (buf ++ segment)).

Definition final (p : RequestParser) : bool := done p || failed p.

(** ** One round on a longer input *)

(** Either the round is the same on the longer input, or it was waiting for
    more, or it took a part of a body. *)
Inductive round_app (p : RequestParser) (a b : bytes) : Prop :=
| round_same :
    feed_round p (a ++ b) = feed_round p a ->
    (r_continue (feed_round p a) = false -> final (r_parser (feed_round p a)) = true) ->
    round_app p a b
| round_wait : feed_round p a = mkRound p 0 false -> round_app p a b
| round_partial :
    (state_ p = State.Body \/ state_ p = State.ChunkData) -> a <> [] ->
    (zlen a < remaining_ p)%Z -> round_app p a b.

Lemma take_eol eol (a b : bytes) :
  find_sub kCRLF a = Some eol -> take eol (a ++ b) = take eol a.
Proof. intros H%find_sub_bound. apply take_app_le. lia. Qed.

Lemma fits_app_l a b : fits (a ++ b) -> fits a.
Proof. unfold fits. rewrite zlen_app. pose proof (zlen_nonneg b). lia. Qed.

Lemma fits_drop n s : fits s -> fits (drop n s).
Proof. unfold fits, zlen. rewrite length_drop. lia. Qed.

#[export] Hint Resolve fits_app_l fits_drop : http.

(** A late terminator is beyond the partial line. *)
Lemma late_eol a b eol :
  find_sub kCRLF a = None -> find_sub kCRLF (a ++ b) = Some eol -> (zlen a <= Z.of_nat eol + 1)%Z.
Proof.
  intros H1 H2. pose proof (find_sub_app_late _ _ _ _ H1 H2) as H.
  change (length kCRLF) with 2%nat in H. unfold zlen. lia.
Qed.

Lemma request_line_app p a b :
  parser_wf p -> state_ p = State.RequestLine -> round_app p a b.
Proof.
  intros Hp Hs. pose proof (limits_ok_bounds _ (wf_limits p Hp)) as Hl.
  pose proof (zlen_app a b). pose proof (zlen_nonneg b).
  destruct (find_sub kCRLF a) as [eol|] eqn:E.
  - apply round_same; unfold feed_round, feed_request_line; rewrite Hs, ?(find_sub_app_l _ _ b _ E), E.
    { by rewrite take_eol. }
    repeat cases_goal; round_simpl; try done.
    destruct (parse_request_line_cases (take eol a) p) as [(e & d & He & Hr)|(rq & Hr & _)]; rewrite Hr in *; by simplify_eq.
  - destruct (Z.gtb_spec (zlen a) (u64 (max_request_line (limits_ p) + 1))) as [Hgt|Hle].
    + assert (feed_round p a = mkRound (fail ParseError.UriTooLong (B "request-line too long") p) 0 false) as Ea.
      { unfold feed_round, feed_request_line. rewrite Hs, E. rewrite (proj2 (Z.gtb_lt _ _)) by lia. done. }
      apply round_same; [|by rewrite Ea]. rewrite Ea. unfold feed_round, feed_request_line. rewrite Hs.
      rewrite u64_small in * by lia. destruct (find_sub kCRLF (a ++ b)) as [eol|] eqn:Eb.
      * pose proof (late_eol _ _ _ E Eb). rewrite (proj2 (Nat.eqb_neq _ _)) by lia.
        rewrite (proj2 (Z.gtb_lt _ _)) by lia. done.
      * rewrite (proj2 (Z.gtb_lt _ _)) by lia. done.
    + apply round_wait. unfold feed_round, feed_request_line. rewrite Hs, E.
      destruct (Z.gtb_spec (zlen a) (u64 (max_request_line (limits_ p) + 1))); [lia|done].
Qed.

Lemma chunk_size_app p a b :
  parser_wf p -> state_ p = State.ChunkSize -> round_app p a b.
Proof.
  intros Hp Hs. pose proof (limits_ok_bounds _ (wf_limits p Hp)) as Hl.
  pose proof (zlen_app a b). pose proof (zlen_nonneg b).
  destruct (find_sub kCRLF a) as [eol|] eqn:E.
  - apply round_same; unfold feed_round, feed_chunk_size; rewrite Hs, ?(find_sub_app_l _ _ b _ E), E.
    { by rewrite take_eol. }
    repeat cases_goal; round_simpl; try done.
    destruct (parse_chunk_size_cases (take eol a) p) as [(e & d & He & Hr)|[Hr|(n & Hr & _)]];
      try apply Hp; rewrite Hr in *; by simplify_eq.
  - destruct (Z.gtb_spec (zlen a) (u64 (max_chunk_line (limits_ p) + 1))) as [Hgt|Hle].
    + assert (feed_round p a = mkRound (fail ParseError.BadRequest (B "chunk-size line too long") p) 0 false) as Ea.
      { unfold feed_round, feed_chunk_size. rewrite Hs, E. rewrite (proj2 (Z.gtb_lt _ _)) by lia. done. }
      apply round_same; [|by rewrite Ea]. rewrite Ea. unfold feed_round, feed_chunk_size. rewrite Hs.
      rewrite u64_small in * by lia. destruct (find_sub kCRLF (a ++ b)) as [eol|] eqn:Eb.
      * pose proof (late_eol _ _ _ E Eb). rewrite (proj2 (Z.gtb_lt _ _)) by lia. done.
      * rewrite (proj2 (Z.gtb_lt _ _)) by lia. done.
    + apply round_wait. unfold feed_round, feed_chunk_size. rewrite Hs, E.
      destruct (Z.gtb_spec (zlen a) (u64 (max_chunk_line (limits_ p) + 1))); [lia|done].
Qed.

Lemma feed_headers_return_final trailing p a eol :
  find_sub kCRLF a = Some eol -> r_continue (feed_headers trailing p a) = false ->
  final (r_parser (feed_headers trailing p a)) = true.
Proof.
  intros E. unfold feed_headers. rewrite E. repeat cases_goal; round_simpl; try done.
  all: intros ->.
  - destruct (finish_headers_cases (with_header_bytes (u64 (header_bytes_ p + Z.of_nat (eol + length kCRLF))) p))
      as [(e & d & He & Hr)|(_ & s & n & Hr & _)]; rewrite Hr in *; by simplify_eq.
  - edestruct parse_field_line_cases as [(e & d & He & Hr)|(f & _ & Hr)]; [rewrite Hr in *; by simplify_eq|].
    rewrite Hr in *. by simplify_eq.
Qed.

Lemma headers_app (trailing : bool) p a b :
  parser_wf p -> fits (a ++ b) -> state_ p = (if trailing then State.Trailers else State.Headers) ->
  round_app p a b.
Proof.
  intros Hp Hf Hs. pose proof (limits_ok_bounds _ (wf_limits p Hp)) as Hl.
  pose proof (wf_header_bytes p Hp) as Hb. unfold fits in Hf.
  pose proof (zlen_app a b). pose proof (zlen_nonneg a). pose proof (zlen_nonneg b).
  assert (forall s, feed_round p s = feed_headers trailing p s) as Hr.
  { intros s. unfold feed_round. by destruct trailing; rewrite Hs. }
  destruct (find_sub kCRLF a) as [eol|] eqn:E.
  - apply round_same; rewrite !Hr; [|by eapply feed_headers_return_final].
    unfold feed_headers. rewrite (find_sub_app_l _ _ b _ E), E, take_eol by done. done.
  - destruct (Z.gtb_spec (header_bytes_ p + zlen a + 1) (max_header_bytes (limits_ p))) as [Hgt|Hle].
    + assert (feed_headers trailing p a
        = mkRound (fail ParseError.HeaderFieldsTooLarge (B "header section too large") p) 0 false) as Ea.
      { unfold feed_headers. rewrite E, u64_small, (proj2 (Z.gtb_lt _ _)) by lia. done. }
      apply round_same; rewrite !Hr; [|by rewrite Ea]. rewrite Ea. unfold feed_headers.
      destruct (find_sub kCRLF (a ++ b)) as [eol|] eqn:Eb.
      * pose proof (late_eol _ _ _ E Eb). pose proof (find_sub_bound _ _ _ Eb).
        change (length kCRLF) with 2%nat in *. unfold zlen in *.
        rewrite u64_small, (proj2 (Z.gtb_lt _ _)) by lia. done.
      * rewrite u64_small, (proj2 (Z.gtb_lt _ _)) by lia. done.
    + apply round_wait. rewrite Hr. unfold feed_headers. rewrite E, u64_small by lia.
      destruct (Z.gtb_spec (header_bytes_ p + zlen a + 1) (max_header_bytes (limits_ p))); [lia|done].
Qed.

Lemma body_app next p a b :
  (state_ p = State.Body /\ next = State.Done \/ state_ p = State.ChunkData /\ next = State.ChunkDataEnd) ->
  parser_wf p -> round_app p a b.
Proof.
  intros Hs Hp. assert (forall s, feed_round p s = feed_body next p s) as Hr.
  { intros s. unfold feed_round. by destruct Hs as [[-> ->]|[-> ->]]. }
  destruct a as [|c a']; [by apply round_wait; rewrite Hr|].
  remember (c :: a') as a eqn:Ea.
  destruct (Z.lt_ge_cases (zlen a) (remaining_ p)) as [Hlt|Hge].
  { apply round_partial; [naive_solver|by subst|done]. }
  apply round_same; rewrite !Hr; [|by subst].
  assert (Z.min (zlen (a ++ b)) (remaining_ p) = Z.min (zlen a) (remaining_ p)) as Hm.
  { rewrite zlen_app. pose proof (zlen_nonneg b). lia. }
  unfold feed_body. rewrite Hm. subst a. simpl ((c :: a') ++ b). cbn [length].
  change (c :: a' ++ b) with ((c :: a') ++ b). rewrite take_app_le; [done|].
  unfold zlen in *. lia.
Qed.

Lemma chunk_data_end_app p a b : state_ p = State.ChunkDataEnd -> round_app p a b.
Proof.
  intros Hs. assert (forall s, feed_round p s = feed_chunk_data_end p s) as Hr.
  { intros s. unfold feed_round. by rewrite Hs. }
  destruct (Z.ltb_spec (zlen a) (zlen kCRLF)) as [Hlt|Hge].
  - apply round_wait. rewrite Hr. unfold feed_chunk_data_end. by rewrite (proj2 (Z.ltb_lt _ _)).
  - change (zlen kCRLF) with 2%Z in Hge. apply round_same; rewrite !Hr; unfold feed_chunk_data_end.
    + pose proof (zlen_nonneg b). change (zlen kCRLF) with 2%Z.
      rewrite !(proj2 (Z.ltb_ge _ _)) by (rewrite ?zlen_app; lia).
      change (length kCRLF) with 2%nat. rewrite take_app_le; [done|]. unfold zlen in *. lia.
    + rewrite (proj2 (Z.ltb_ge _ _)) by (change (zlen kCRLF) with 2%Z; lia). by cases_goal.
Qed.

Lemma feed_round_app p a b : parser_wf p -> fits (a ++ b) -> round_app p a b.
Proof.
  intros Hp Hf. destruct (state_ p) eqn:Hs;
    eauto using request_line_app, chunk_size_app, chunk_data_end_app, body_app.
  - by apply (headers_app false).
  - by apply (headers_app true).
  - apply round_same; unfold feed_round; rewrite Hs; [done|].
    intros _. round_simpl. unfold final, done. by rewrite Hs.
  - apply round_same; unfold feed_round; rewrite Hs; [done|].
    intros _. round_simpl. unfold final, failed. by rewrite Hs, orb_true_r.
Qed.

(** ** Joining a split body *)

Lemma feed_body_partial next p a :
  parser_wf p -> a <> [] -> (zlen a < remaining_ p)%Z ->
  feed_body next p a
  = mkRound (with_remaining (remaining_ p - zlen a)
               (with_req (req_with_body (body (req_ p) ++ a) (req_ p)) p)) (length a) true.
Proof.
  intros Hp Ha Hlt. pose proof (wf_remaining p Hp). pose proof (zlen_nonneg a).
  unfold feed_body. destruct a as [|c a']; [done|]. remember (c :: a') as a eqn:E; clear E.
  assert (Z.to_nat (Z.min (zlen a) (remaining_ p)) = length a) as -> by (unfold zlen in *; lia).
  rewrite firstn_all. cbn. change (Z.of_nat (length a)) with (zlen a).
  rewrite u64_small by lia. by rewrite (proj2 (Z.eqb_neq _ _)) by lia.
Qed.

Lemma feed_body_join next p a b :
  parser_wf p -> a <> [] -> b <> [] -> (zlen a < remaining_ p)%Z ->
  feed_body next p (a ++ b)
  = let r := feed_body next (r_parser (feed_body next p a)) b in
    mkRound (r_parser r) (length a + r_used r) true.
Proof.
  intros Hp Ha Hb Hlt. rewrite (feed_body_partial next p a) by done. pose proof (zlen_nonneg a).
  unfold feed_body. destruct b as [|d b']; [done|]. remember (d :: b') as b eqn:E; clear E.
  assert (exists x s, a ++ b = x :: s) as (x & s & Eab) by (destruct a; [done|]; simpl; eauto).
  rewrite Eab, <- Eab. round_simpl. cbn [remaining_ with_remaining with_req req_ body req_with_body].
  pose proof (zlen_nonneg b). rewrite zlen_app.
  set (m := Z.to_nat (Z.min (zlen b) (remaining_ p - zlen a))).
  assert (Z.to_nat (Z.min (zlen a + zlen b) (remaining_ p)) = length a + m)%nat as -> by (unfold zlen in *; lia).
  rewrite firstn_app, firstn_all2, app_assoc by lia.
  replace (length a + m - length a)%nat with m by lia.
  replace (remaining_ p - Z.of_nat (length a + m))%Z with (remaining_ p - zlen a - Z.of_nat m)%Z
    by (unfold zlen; lia).
  destruct p as [l st r e d' hb hc rm]. cbn in *. done.
Qed.

(** ** Segmentation of the loop *)

Lemma feeds_final p rest p' n : final p = true -> feeds p rest p' n -> p' = p /\ n = 0%nat.
Proof.
  intros Hf H. assert (feed_round p rest = mkRound p 0 false) as E.
  { unfold feed_round. unfold final, done, failed in Hf. by destruct (state_ p). }
  inv H; rewrite E in *; done.
Qed.

Lemma feeds_body_empty p p' n :
  (state_ p = State.Body \/ state_ p = State.ChunkData) -> feeds p [] p' n -> p' = p /\ n = 0%nat.
Proof.
  intros Hs H. assert (feed_round p [] = mkRound p 0 false) as E.
  { unfold feed_round. by destruct Hs as [-> | ->]. }
  inv H; rewrite E in *; done.
Qed.

Lemma feeds_app p a p1 n1 b p2 n2 :
  feeds p a p1 n1 -> parser_wf p -> fits (a ++ b) ->
  feeds p1 (drop n1 a ++ b) p2 n2 -> feeds p (a ++ b) p2 (n1 + n2).
Proof.
  intros H. revert p2 n2. induction H as [p a Hc|p a p1 n Hc Hf IH]; intros p2 n2 Hp Hfit H2.
  - destruct (feed_round_app p a b Hp Hfit) as [E Hfin|E|Hs Ha Hlt].
    + destruct (feeds_final _ _ _ _ (Hfin Hc) H2) as [-> ->]. rewrite Nat.add_0_r, <- E.
      apply feeds_return. by rewrite E.
    + rewrite E in *. exact H2.
    + unfold feed_round, feed_body in Hc. destruct a; [done|]. by destruct Hs as [Hs|Hs]; rewrite Hs in Hc.
  - destruct (feed_round_app p a b Hp Hfit) as [E Hfin|E|Hs Ha Hlt].
    + pose proof (feed_round_used p a Hp) as Hu. rewrite <- Nat.add_assoc, <- E.
      apply feeds_continue; rewrite E; [done|]. rewrite drop_app_le by done.
      apply IH; [by apply feed_round_wf| |by rewrite drop_drop].
      rewrite <- drop_app_le by done. by apply fits_drop.
    + by rewrite E in Hc.
    + assert (exists next, (state_ p = State.Body /\ next = State.Done
          \/ state_ p = State.ChunkData /\ next = State.ChunkDataEnd)
          /\ forall q s, state_ q = state_ p -> feed_round q s = feed_body next q s) as (next & Hn & Hr).
      { unfold feed_round. destruct Hs as [-> | ->]; eexists; (split; [naive_solver|]); by intros q s ->. }
      rewrite (Hr p a eq_refl) in *. pose proof (feed_body_partial next p a Hp Ha Hlt) as Ep.
      assert (state_ (r_parser (feed_body next p a)) = state_ p) as Hst by (by rewrite Ep).
      assert (r_used (feed_body next p a) = length a) as Hus by (by rewrite Ep).
      rewrite Hus, drop_all in *. pose proof Hf as Hf0.
      apply feeds_body_empty in Hf as [-> ->]; [|by rewrite Hst].
      rewrite Nat.add_0_r, drop_all in *. cbn [app] in H2.
      destruct b as [|d b'].
      { apply feeds_body_empty in H2 as [-> ->]; [|by rewrite Hst].
        rewrite app_nil_r, <- Hus, <- (Hr p a eq_refl). apply feeds_continue; rewrite (Hr p a eq_refl); [done|].
        by rewrite Hus, drop_all. }
      pose proof (feed_body_join next p a (d :: b') Hp Ha ltac:(done) Hlt) as Ej.
      pose proof (Hr _ (d :: b') Hst) as Hq. inv H2; rewrite Hq in *; [done|]. rewrite Nat.add_assoc.
      assert (feed_round p (a ++ d :: b') = mkRound (r_parser (feed_body next (r_parser (feed_body next p a)) (d :: b')))
        (length a + r_used (feed_body next (r_parser (feed_body next p a)) (d :: b'))) true) as Ew.
      { rewrite (Hr p _ eq_refl). exact Ej. }
      pose proof (feeds_continue p (a ++ d :: b')) as Hcont. rewrite Ew in Hcont. apply Hcont; [done|].
      round_simpl. by rewrite drop_app_add.
Qed.

(** ** Theorems *)

Lemma feed_split p a b :
  parser_wf p -> fits (a ++ b) ->
  feed p (a ++ b)
  = (let r1 := feed p a in
     let r2 := feed r1.1 (drop r1.2 a ++ b) in (r2.1, (r1.2 + r2.2)%nat)).
Proof.
  intros Hp Hf. cbn zeta. apply feeds_feed; [done|].
  pose proof (feed_feeds p a Hp) as H1. eapply feeds_app; [exact H1|done|done|].
  apply feed_feeds. by eapply feeds_wf.
Qed.

Lemma feed_used p data : parser_wf p -> ((feed p data).2 <= length data)%nat.
Proof. intros Hp. eapply feeds_used; [by apply feed_feeds|done]. Qed.

Lemma feed_wf p data : parser_wf p -> parser_wf (feed p data).1.
Proof. intros Hp. eapply feeds_wf; [by apply feed_feeds|done]. Qed.

#[export] Hint Resolve feed_wf feed_used : http.

(** A finished or failed parser consumes nothing. *)
Lemma feed_final p data : parser_wf p -> final p = true -> feed p data = (p, 0%nat).
Proof.
  intros Hp Hf. pose proof (feed_feeds p data Hp) as H.
  destruct (feeds_final _ _ _ _ Hf H) as [E1 E2]. destruct (feed p data). cbn in *. by subst.
Qed.

Lemma drop_split (n m : nat) (a b : bytes) :
  (n <= length a)%nat -> drop m (drop n a ++ b) = drop (n + m) (a ++ b).
Proof. intros H. rewrite <- drop_app_le by done. by rewrite drop_drop. Qed.

Lemma deliver_from p a segs :
  parser_wf p -> fits (a ++ concat segs) ->
  fold_left deliver segs ((feed p a).1, drop (feed p a).2 a)
  = (let r := feed p (a ++ concat segs) in (r.1, drop r.2 (a ++ concat segs))).
Proof.
  intros Hp. revert a. induction segs as [|s segs IH]; intros a Hf; cbn [concat fold_left].
  { by rewrite app_nil_r. }
  cbn [concat] in Hf. rewrite app_assoc in Hf.
  assert (deliver ((feed p a).1, drop (feed p a).2 a) s
          = ((feed p (a ++ s)).1, drop (feed p (a ++ s)).2 (a ++ s))) as ->.
  { unfold deliver. rewrite (feed_split p a s Hp (fits_app_l _ _ Hf)). cbn zeta.
    destruct (feed (feed p a).1 (drop (feed p a).2 a ++ s)) as [p2 n2] eqn:E. cbn [fst snd].
    rewrite drop_split by auto with http. done. }
  rewrite IH by done. by rewrite app_assoc.
Qed.

(** C1: feeding [a ++ b] in one piece gives the same parser object and consumes
    the same number of bytes as feeding [a], keeping the unconsumed tail, and
    feeding that tail followed by [b]. *)
Theorem feed_segmentation (p : RequestParser) (a b : bytes) :
  parser_wf p -> fits (a ++ b) ->
  feed p (a ++ b)
  = (let '(p1, n1) := feed p a in
     let '(p2, n2) := feed p1 (drop n1 a ++ b) in (p2, (n1 + n2)%nat)).
Proof.
  intros Hp Hf. rewrite feed_split by done. destruct (feed p a) as [p1 n1]. cbn [fst snd].
  by destruct (feed p1 _).
Qed.

Definition demo_parser : RequestParser := RequestParser_new ParserLimits_default.
Definition demo_request : bytes :=
  B "POST /u?x=1 HTTP/1.1" ++ kCRLF ++ B "Host: x" ++ kCRLF ++ B "Transfer-Encoding: chunked" ++ kCRLF ++ kCRLF
  ++ B "4" ++ kCRLF ++ B "Wiki" ++ kCRLF ++ B "5;a=b" ++ kCRLF ++ B "pedia" ++ kCRLF
  ++ B "0" ++ kCRLF ++ B "T: 1" ++ kCRLF ++ kCRLF.

Lemma demo_parser_wf : parser_wf demo_parser.
Proof. apply parser_wf_new. reflexivity. Qed.

Lemma feed_segmentation_witness :
  feed demo_parser (take 70 demo_request ++ drop 70 demo_request)
  = (let '(p1, n1) := feed demo_parser (take 70 demo_request) in
     let '(p2, n2) := feed p1 (drop n1 (take 70 demo_request) ++ drop 70 demo_request) in (p2, (n1 + n2)%nat))
  /\ done (feed demo_parser (take 70 demo_request ++ drop 70 demo_request)).1 = true.
Proof.
  split; [|vm_compute; reflexivity].
  apply (feed_segmentation demo_parser (take 70 demo_request) (drop 70 demo_request) demo_parser_wf).
  vm_compute. reflexivity.
Defined.

(** However the input arrives (any number of reads of any sizes), the
    parser and the unconsumed tail end up as if everything had arrived in
    one read. *)
Theorem deliver_all (p : RequestParser) (s : bytes) (segs : list bytes) :
  parser_wf p -> fits (concat (s :: segs)) ->
  fold_left deliver (s :: segs) (p, [])
  = (let '(p', n) := feed p (concat (s :: segs)) in (p', drop n (concat (s :: segs)))).
Proof.
  intros Hp Hf. cbn [concat fold_left] in *.
  assert (deliver (p, []) s = ((feed p s).1, drop (feed p s).2 s)) as ->.
  { unfold deliver. cbn [app]. by destruct (feed p s). }
  rewrite (deliver_from p s segs) by done. by destruct (feed p (s ++ concat segs)).
Qed.

Lemma deliver_all_witness :
  fold_left deliver [B "GET / HT"; B "TP/1.0"; [CR]; [LF; CR]; [LF] ++ B "GET"] (demo_parser, [])
  = (let '(p', n) := feed demo_parser (concat [B "GET / HT"; B "TP/1.0"; [CR]; [LF; CR]; [LF] ++ B "GET"]) in
     (p', drop n (concat [B "GET / HT"; B "TP/1.0"; [CR]; [LF; CR]; [LF] ++ B "GET"]))).
Proof. apply deliver_all; [exact demo_parser_wf|]. vm_compute. reflexivity. Defined.

(** C12: [feed] always returns ([size + 1] rounds of its loop are enough, and more
    rounds change nothing), never consumes more than it was given, and
    preserves the parser invariant: header bytes and counts, the body and the
    announced remainder stay within the limits, stored fields are clean, and
    the framing state matches the header section. *)
Theorem feed_total (p : RequestParser) (data : bytes) (fuel : nat) :
  parser_wf p -> (length data < fuel)%nat ->
  feed_loop fuel p data 0 = Some (feed p data)
  /\ ((feed p data).2 <= length data)%nat
  /\ parser_wf (feed p data).1
  /\ limits_ (feed p data).1 = limits_ p.
Proof.
  intros Hp Hf. split; [|split; [by auto with http|split; [by auto with http|]]].
  - destruct (feed_loop_feeds fuel p data 0 Hp) as (p' & n & -> & H); [by rewrite drop_0|].
    rewrite drop_0 in H. by rewrite (feeds_feed _ _ _ _ Hp H).
  - eapply feeds_limits. by apply feed_feeds.
Qed.

Lemma feed_total_witness :
  feed_loop 200 demo_parser demo_request 0 = Some (feed demo_parser demo_request)
  /\ ((feed demo_parser demo_request).2 <= length demo_request)%nat
  /\ parser_wf (feed demo_parser demo_request).1
  /\ limits_ (feed demo_parser demo_request).1 = limits_ demo_parser.
Proof. apply feed_total; [exact demo_parser_wf|]. vm_compute. lia. Defined.
