(* ===== verification/Fuzz.v ===== *)
(** * [fuzz/fuzz_request_parser.cpp]: the differential fuzz target

    [run] feeds an input in steps of a given size, takes every finished
    request out, and collects digests and the final error status.
    [__builtin_trap()] is [None].  The theorems are the two things the fuzzer
    looks for, for every input: no trap, and an outcome that does not depend
    on the step. *)

From S2P Require Import Prelude Headers RequestParser Numbers ParserFacts ParserSegmentation.

Record Outcome := mkOutcome { requests : list bytes; final_status : Z }.

Definition digest_fields (h : Headers) : bytes :=
  concat ((fun f : Field => f.1 ++ B ":" ++ f.2 ++ B "|") <$> h).

Definition digest (r : Request) : bytes :=
  method r ++ [SP] ++ target r ++ [SP] ++ to_string (version_minor r) ++ B "|"
  ++ digest_fields (headers r)
  ++ to_string (zlen (body r)) ++ B ":" ++ body r ++ B "|"
  ++ digest_fields (trailers r).

Definition fuzz_limits : ParserLimits := mkLimits 512 2048 32 4096 64.

(** How the inner [for (;;)] ends: trap, [return out], or [break]. *)
Inductive inner_result : Type :=
| ITrap
| IReturn (o : Outcome)
| IBreak (p : RequestParser) (buf : bytes) (reqs : list bytes).

Fixpoint run_inner (fuel : nat) (p : RequestParser) (buf : bytes) (reqs : list bytes) : inner_result :=
  match fuel with
  | O => ITrap
  | S f =>
      let '(p1, used) := feed p buf in
      if (length buf <? used)%nat then ITrap
      else
        let buf1 := drop used buf in
        if failed p1 then IReturn (mkOutcome reqs (status_for (error_ p1)))
        else if negb (done p1) then IBreak p1 buf1 reqs
        else
          let '(r, p2) := take_request p1 in
          if (zlen (body r) >? max_body_bytes (limits_ p1))%Z then ITrap
          else run_inner f p2 buf1 (reqs ++ [digest r])
  end.

(** The outer [while (pos < input.size())]. *)
Fixpoint run_outer (fuel : nat) (input : bytes) (step pos : nat)
    (p : RequestParser) (buf : bytes) (reqs : list bytes) : option Outcome :=
  match fuel with
  | O => None
  | S f =>
      if (pos <? length input)%nat then
        let n := Nat.min step (length input - pos) in
        let buf1 := buf ++ take n (drop pos input) in
        match run_inner (S (length buf1)) p buf1 reqs with
        | ITrap => None
        | IReturn o => Some o
        | IBreak p1 buf2 reqs1 => run_outer f input step (pos + n) p1 buf2 reqs1
        end
      else Some (mkOutcome reqs 0)
  end.

Definition run (input : bytes) (step : nat) : option Outcome :=
  run_outer (S (length input)) input step 0 (RequestParser_new fuzz_limits) [] [].

(** [LLVMFuzzerTestOneInput]: the three runs and the comparison; [true] is
    [return 0], [false] a trap. *)
Definition Outcome_eqb (a b : Outcome) : bool :=
  bool_decide (requests a = requests b) && (final_status a =? final_status b)%Z.

Definition LLVMFuzzerTestOneInput (data : bytes) : bool :=
  match data with
  | [] => true
  | c :: input =>
      let step := (Z.to_nat (code c) mod 17 + 1)%nat in
      match run input (match input with [] => 1 | _ => length input end), run input 1, run input step with
      | Some whole, Some bytewise, Some chunked => Outcome_eqb whole bytewise && Outcome_eqb whole chunked
      | _, _, _ => false
      end
  end.

(** ** Proofs *)

(** The inner loop as a relation. *)
Inductive drains : RequestParser -> bytes -> list bytes -> inner_result -> Prop :=
| drains_fail p buf reqs :
    failed (feed p buf).1 = true ->
    drains p buf reqs (IReturn (mkOutcome reqs (status_for (error_ (feed p buf).1))))
| drains_break p buf reqs :
    failed (feed p buf).1 = false -> done (feed p buf).1 = false ->
    drains p buf reqs (IBreak (feed p buf).1 (drop (feed p buf).2 buf) reqs)
| drains_next p buf reqs res :
    failed (feed p buf).1 = false -> done (feed p buf).1 = true ->
    drains (reset (feed p buf).1) (drop (feed p buf).2 buf)
      (reqs ++ [digest (req_ (feed p buf).1)]) res ->
    drains p buf reqs res.

(** A round that stops leaves the parser as it was or failed. *)
Lemma feed_round_stop p rest :
  r_continue (feed_round p rest) = false -> done (r_parser (feed_round p rest)) = true -> done p = true.
Proof.
  unfold feed_round, feed_request_line, feed_headers, feed_body, feed_chunk_data_end, feed_chunk_size,
    parse_request_line, parse_field_line, finish_headers, set_expect, parse_chunk_size, reject.
  destruct (state_ p) eqn:Hs; repeat cases_goal; round_simpl; intros; simplify_eq/=; try done;
    unfold done in *; rewrite ?Hs in *; done.
Qed.

Lemma feeds_done_progress p rest p' n :
  feeds p rest p' n -> parser_wf p -> done p = false -> done p' = true -> (1 <= n)%nat.
Proof.
  intros H Hp Hd Hd'. destruct H as [p rest Hc|p rest p' n Hc Hf].
  - apply feed_round_stop in Hd'; [congruence|done].
  - pose proof (feed_round_progress p rest Hp Hc). lia.
Qed.

Lemma run_inner_drains fuel p buf reqs :
  (length buf < fuel)%nat -> parser_wf p -> done p = false -> drains p buf reqs (run_inner fuel p buf reqs).
Proof.
  revert p buf reqs. induction fuel as [|f IH]; intros p buf reqs Hl Hp Hd; [lia|]. cbn [run_inner].
  pose proof (feed_used p buf Hp) as Hu. pose proof (feed_wf p buf Hp) as Hw.
  pose proof (feed_feeds p buf Hp) as Hfs.
  assert (feed p buf = ((feed p buf).1, (feed p buf).2)) as -> by (by destruct (feed p buf)).
  rewrite (proj2 (Nat.ltb_ge _ _)) by done.
  destruct (failed (feed p buf).1) eqn:Ef; [by apply drains_fail|].
  destruct (done (feed p buf).1) eqn:Ed; cbn [negb]; [|by apply drains_break].
  cbn [take_request]. pose proof (wf_body _ Hw).
  destruct (Z.gtb_spec (zlen (body (req_ (feed p buf).1))) (max_body_bytes (limits_ (feed p buf).1))); [lia|].
  apply drains_next; [done|done|].
  pose proof (feeds_done_progress _ _ _ _ Hfs Hp Hd Ed).
  apply IH; [rewrite length_drop; lia|by apply parser_wf_reset|done].
Qed.

Lemma drains_det p buf reqs r1 r2 : drains p buf reqs r1 -> drains p buf reqs r2 -> r1 = r2.
Proof.
  intros H. revert r2. induction H as [| |p buf reqs res H1 H2 H3 IH]; intros r2 Hr2; inv Hr2; try congruence.
  auto.
Qed.

Lemma drains_wf p buf reqs r :
  drains p buf reqs r -> parser_wf p ->
  match r with
  | IBreak p1 buf1 _ => parser_wf p1 /\ done p1 = false
      /\ (exists n, (n <= length buf)%nat /\ buf1 = drop n buf)
  | _ => True
  end.
Proof.
  induction 1 as [| |p buf reqs res H1 H2 H3 IH]; intros Hp; [done| |].
  - split; [by apply feed_wf|]. split; [done|]. exists (feed p buf).2. auto with http.
  - specialize (IH (parser_wf_reset _ (feed_wf _ _ Hp))). destruct res as [|o|p1 buf1 rq]; try done.
    destruct IH as (? & ? & n & Hn & ->). split; [done|]. split; [done|].
    pose proof (feed_used p buf Hp). rewrite length_drop in Hn.
    exists ((feed p buf).2 + n)%nat. rewrite drop_drop. split; [lia|done].
Qed.

(** More input: a returned error stands, and a [break] is resumed. *)
Lemma drains_app p a reqs r b res :
  drains p a reqs r -> parser_wf p -> fits (a ++ b) ->
  match r with
  | ITrap => False
  | IReturn o => res = r
  | IBreak p1 a1 reqs1 => drains p1 (a1 ++ b) reqs1 res
  end ->
  drains p (a ++ b) reqs res.
Proof.
  intros H. induction H as [p a reqs Hf|p a reqs Hf Hd|p a reqs r Hf Hd H3 IH]; intros Hp Hfit Hres.
  - subst res. pose proof (feed_split p a b Hp Hfit) as E. cbn zeta in E.
    rewrite (feed_final (feed p a).1) in E
      by (try apply feed_wf; unfold final; rewrite ?Hf, ?orb_true_r; done). cbn [fst snd] in E.
    assert ((feed p a).1 = (feed p (a ++ b)).1) as E3 by (by rewrite E). rewrite E3. apply drains_fail. by rewrite <- E3.
  - pose proof (feed_split p a b Hp Hfit) as E. cbn zeta in E. pose proof (feed_used p a Hp) as Hu.
    set (q := (feed p a).1) in *. set (n := (feed p a).2) in *.
    assert ((feed p (a ++ b)).1 = (feed q (drop n a ++ b)).1) as E1 by (by rewrite E).
    assert (drop (feed p (a ++ b)).2 (a ++ b) = drop (feed q (drop n a ++ b)).2 (drop n a ++ b)) as E2.
    { rewrite E. cbn [snd]. by rewrite drop_split. }
    inv Hres.
    + rewrite <- E1 in *. by apply drains_fail.
    + rewrite <- E1, <- E2 in *. by apply drains_break.
    + rewrite <- E1, <- E2 in *. by apply drains_next.
  - pose proof (feed_split p a b Hp Hfit) as E. cbn zeta in E. pose proof (feed_used p a Hp) as Hu.
    rewrite (feed_final (feed p a).1) in E by (try apply feed_wf; unfold final; rewrite ?Hd; done). cbn [fst snd] in E. rewrite Nat.add_0_r in E.
    assert ((feed p (a ++ b)).1 = (feed p a).1) as E3 by (by rewrite E).
    assert (drop (feed p (a ++ b)).2 (a ++ b) = drop (feed p a).2 a ++ b) as E4.
    { rewrite E. cbn [snd]. by rewrite drop_app_le. }
    apply drains_next; rewrite ?E3; [done|done|]. rewrite E4. apply IH; [by apply parser_wf_reset, feed_wf| |done].
    rewrite <- E4. by apply fits_drop.
Qed.

Lemma drains_start l : limits_ok l = true ->
  drains (RequestParser_new l) [] [] (IBreak (RequestParser_new l) [] []).
Proof.
  intros Hl. pose proof (limits_ok_bounds _ Hl).
  assert (feed (RequestParser_new l) [] = (RequestParser_new l, 0%nat)) as E.
  { unfold feed, feed_fuel. cbn [length feed_loop]. unfold feed_round, feed_request_line. cbn.
    change (zlen []) with 0%Z. rewrite u64_small by lia.
    destruct (Z.gtb_spec 0 (max_request_line l + 1)); [lia|done]. }
  pose proof (drains_break (RequestParser_new l) [] []) as H0. rewrite E in H0. by apply H0.
Qed.

(** What a run returns, given how the inner loop ends on the whole input. *)
Definition outcome_of (r : inner_result) : option Outcome :=
  match r with
  | ITrap => None
  | IReturn o => Some o
  | IBreak _ _ reqs => Some (mkOutcome reqs 0)
  end.

Lemma run_outer_spec fuel l input step pos p buf reqs res :
  limits_ok l = true -> fits input -> (1 <= step)%nat -> (pos <= length input)%nat ->
  (length input - pos < fuel)%nat ->
  drains (RequestParser_new l) (take pos input) [] (IBreak p buf reqs) ->
  drains (RequestParser_new l) input [] res ->
  run_outer fuel input step pos p buf reqs = outcome_of res.
Proof.
  intros Hl Hfit Hstep. revert pos p buf reqs.
  induction fuel as [|f IH]; intros pos p buf reqs Hpos Hf Hdr Hall; [lia|]. cbn [run_outer].
  pose proof (parser_wf_new l Hl) as Hp0.
  destruct (Nat.ltb_spec pos (length input)) as [Hlt|Hge].
  2: { rewrite take_ge in Hdr by lia. by rewrite (drains_det _ _ _ _ _ Hall Hdr). }
  set (n := Nat.min step (length input - pos)). set (seg := take n (drop pos input)).
  pose proof (drains_wf _ _ _ _ Hdr Hp0) as (Hp & Hd & _).
  assert (take pos input ++ seg = take (pos + n) input) as Hseg by (unfold seg; by rewrite take_take_drop).
  pose proof (run_inner_drains (S (length (buf ++ seg))) p (buf ++ seg) reqs ltac:(lia) Hp Hd) as Hin.
  assert (fits (take (pos + n) input)) as Hft.
  { unfold fits in *. pose proof (zlen_take_le (pos + n) input). lia. }
  assert (drains (RequestParser_new l) (take (pos + n) input) [] (run_inner (S (length (buf ++ seg))) p (buf ++ seg) reqs)) as Hnext.
  { rewrite <- Hseg. eapply drains_app; [exact Hdr|done|by rewrite Hseg|done]. }
  destruct (run_inner (S (length (buf ++ seg))) p (buf ++ seg) reqs) as [|o|p1 buf1 reqs1] eqn:Er.
  - exfalso. clear -Hnext. remember ITrap as r. induction Hnext; done.
  - enough (IReturn o = res) as <- by done.
    apply (drains_det (RequestParser_new l) input []); [|done].
    rewrite <- (take_drop (pos + n) input). eapply drains_app; [exact Hnext|done|by rewrite take_drop|done].
  - apply IH; [lia|lia|done|done].
Qed.

Lemma run_spec input step :
  fits input -> (1 <= step)%nat ->
  run input step = outcome_of (run_inner (S (length input)) (RequestParser_new fuzz_limits) input [])
  /\ run input step <> None.
Proof.
  intros Hf Hs. assert (limits_ok fuzz_limits = true) as Hl by reflexivity.
  pose proof (run_inner_drains (S (length input)) (RequestParser_new fuzz_limits) input []
                ltac:(lia) (parser_wf_new _ Hl) eq_refl) as Hd.
  assert (run input step = outcome_of (run_inner (S (length input)) (RequestParser_new fuzz_limits) input [])) as E.
  { eapply run_outer_spec; try done; [lia|lia|]. rewrite take_0. by apply drains_start. }
  split; [done|]. rewrite E. destruct (run_inner _ _ _ _); try done.
  exfalso. clear -Hd. remember ITrap as r. induction Hd; done.
Qed.

Lemma target_never_traps (data : bytes) : fits data -> LLVMFuzzerTestOneInput data = true.
Proof.
  intros Hf. destruct data as [|c input]; [done|]. cbn [LLVMFuzzerTestOneInput].
  assert (fits input) as Hfi by (unfold fits, zlen in *; cbn [length] in Hf; lia).
  set (s0 := match input with [] => 1%nat | _ => length input end).
  assert (1 <= s0)%nat as H0 by (unfold s0; destruct input; cbn [length]; lia).
  destruct (run_spec input s0 Hfi H0) as [E0 Hn].
  destruct (run_spec input 1 Hfi ltac:(lia)) as [E1 _].
  destruct (run_spec input (Z.to_nat (code c) mod 17 + 1) Hfi ltac:(lia)) as [E2 _].
  rewrite E1, E2, <- E0. destruct (run input s0) as [o|]; [|done].
  unfold Outcome_eqb. rewrite bool_decide_eq_true_2, Z.eqb_refl by done. done.
Qed.

(** The outcome of a run (digests of all requests, in order, and the final
    error status) is the same for every step size, and no run traps. *)
Theorem run_step_independent (input : bytes) (step1 step2 : nat) :
  fits input -> (1 <= step1)%nat -> (1 <= step2)%nat ->
  run input step1 = run input step2 /\ run input step1 <> None.
Proof.
  intros Hf H1 H2. destruct (run_spec input step1 Hf H1) as [-> Hn].
  destruct (run_spec input step2 Hf H2) as [-> _]. done.
Qed.

Definition demo_pipeline : bytes :=
  demo_request ++ B "GET /a HTTP/1.1" ++ kCRLF ++ B "Host: h" ++ kCRLF ++ kCRLF ++ B "BAD" ++ kCRLF.

Lemma run_step_independent_witness :
  (run demo_pipeline 1 = run demo_pipeline 7 /\ run demo_pipeline 1 <> None)
  /\ (final_status <$> run demo_pipeline 7) = Some 400%Z
  /\ (length ∘ requests <$> run demo_pipeline 7) = Some 2%nat.
Proof.
  split; [|split; vm_compute; reflexivity].
  apply (run_step_independent demo_pipeline 1 7); [vm_compute; reflexivity|lia|lia].
Defined.

(** The fuzz target never traps, whatever its input. *)
Theorem fuzz_target_never_traps (data : bytes) : fits data -> LLVMFuzzerTestOneInput data = true.
Proof. apply target_never_traps. Qed.

Lemma fuzz_target_never_traps_witness : LLVMFuzzerTestOneInput ("a"%char :: demo_pipeline) = true.
Proof. apply fuzz_target_never_traps. vm_compute. reflexivity. Defined.
