(* ===== verification/Response.v ===== *)
(** * [src/http/response.{hpp,cpp}]: responses and their serialization

    A [BodyProducer] is a [std::function] with captured, mutable state: its
    state type, the current state and the call operator.  A call gets the
    string to append to and the trailers, and returns the flag, both updated
    strings and the new captured state; [None] is a thrown
    [std::exception].  [UniqueFd] members are descriptors, [-1] when empty. *)

From S2P Require Import Prelude Headers RequestParser Numbers ParserFacts.

(** ** Data *)

Record BodyProducer := mkProducer {
  pr_state : Type;
  pr_cur : pr_state;
  pr_call : pr_state -> bytes -> Headers -> option (bool * bytes * Headers * pr_state) }.

(** One call of the producer; the closure afterwards has the new state. *)
Definition produce (b : BodyProducer) (out : bytes) (trailers : Headers)
  : option (bool * bytes * Headers * BodyProducer) :=
  match pr_call b (pr_cur b) out trailers with
  | None => None
  | Some (more, out', trailers', st) => Some (more, out', trailers', mkProducer (pr_state b) st (pr_call b))
  end.

Record Response := mkResponse {
  status : Z;
  res_headers : Headers;
  res_body : bytes;
  file : Z;
  file_offset : Z;
  file_length : Z;
  producer : option BodyProducer;
  stream_length : option Z }.

(** [Response{}]. *)
Definition Response_new : Response := mkResponse 200 [] [] (-1) 0 0 None None.

Inductive Framing : Set := FramingNone | ContentLength | Chunked | CloseDelimited.

#[export] Instance Framing_eq_dec : EqDecision Framing.
Proof. solve_decision. Defined.

Record HeadOptions := mkHeadOptions {
  ho_keep_alive : bool;
  http10_client : bool;
  date : bytes }.

Definition fd_valid (fd : Z) : bool := (fd >=? 0)%Z.

(** ** Serialization *)

Definition append_number (out : bytes) (v base : Z) : bytes := out ++ to_chars base v.

Definition is_framing_header (name : bytes) : bool :=
  iequals name (B "Content-Length") || iequals name (B "Transfer-Encoding")
  || iequals name (B "Connection") || iequals name (B "Date").

Definition reason_phrase (status : Z) : bytes :=
  match status with
  | 100 => B "Continue"
  | 200 => B "OK"
  | 201 => B "Created"
  | 204 => B "No Content"
  | 206 => B "Partial Content"
  | 301 => B "Moved Permanently"
  | 302 => B "Found"
  | 304 => B "Not Modified"
  | 400 => B "Bad Request"
  | 403 => B "Forbidden"
  | 404 => B "Not Found"
  | 405 => B "Method Not Allowed"
  | 408 => B "Request Timeout"
  | 411 => B "Length Required"
  | 413 => B "Content Too Large"
  | 414 => B "URI Too Long"
  | 417 => B "Expectation Failed"
  | 429 => B "Too Many Requests"
  | 431 => B "Request Header Fields Too Large"
  | 500 => B "Internal Server Error"
  | 501 => B "Not Implemented"
  | 503 => B "Service Unavailable"
  | 505 => B "HTTP Version Not Supported"
  | _ => B "Unknown"
  end%Z.

Definition Response_text (status : Z) (body content_type : bytes) : Response :=
  mkResponse status (set [] (B "Content-Type") content_type) body (-1) 0 0 None None.

Definition text_plain : bytes := B "text/plain; charset=utf-8".

(** [framing] and [length] at the top of [write_head]. *)
Definition choose_framing (res : Response) (opts : HeadOptions) : Framing * Z :=
  if (Z.quot (status res) 100 =? 1)%Z || (status res =? 204)%Z || (status res =? 304)%Z then (FramingNone, 0%Z)
  else if fd_valid (file res) then (ContentLength, file_length res)
  else match producer res with
       | Some _ =>
           match stream_length res with
           | Some n => (ContentLength, n)
           | None => (if http10_client opts then CloseDelimited else Chunked, 0%Z)
           end
       | None => (ContentLength, zlen (res_body res))
       end.

(** One [name: value CRLF] line. *)
Definition field_line (f : Field) : bytes := f.1 ++ B ": " ++ f.2 ++ kCRLF.

Definition write_handler_fields (out : bytes) (h : Headers) : bytes :=
  fold_left (fun o (f : Field) => if is_framing_header f.1 then o else o ++ field_line f) h out.

Definition write_head (out : bytes) (res : Response) (opts : HeadOptions) : bytes * Framing :=
  let '(framing, length) := choose_framing res opts in
  let keep_alive := ho_keep_alive opts && negb (bool_decide (framing = CloseDelimited)) in
  let out := out ++ B "HTTP/1.1 " in
  let out := append_number out (u64 (status res)) 10 in
  let out := out ++ [SP] in
  let out := out ++ reason_phrase (status res) in
  let out := out ++ kCRLF in
  let out := write_handler_fields out (res_headers res) in
  let out := if negb (has (res_headers res) (B "Server")) then out ++ B "Server: httpd-cpp" ++ kCRLF else out in
  let out := match date opts with [] => out | d => out ++ B "Date: " ++ d ++ kCRLF end in
  let out :=
    match framing with
    | ContentLength => append_number (out ++ B "Content-Length: ") length 10 ++ kCRLF
    | Chunked => out ++ B "Transfer-Encoding: chunked" ++ kCRLF
    | _ => out
    end in
  let out :=
    if negb keep_alive then out ++ B "Connection: close" ++ kCRLF
    else if http10_client opts then out ++ B "Connection: keep-alive" ++ kCRLF
    else out in
  (out ++ kCRLF, framing).

Definition append_chunk (out data : bytes) : bytes :=
  match data with
  | [] => out
  | _ => append_number out (zlen data) 16 ++ kCRLF ++ data ++ kCRLF
  end.

Definition append_last_chunk (out : bytes) (trailers : Headers) : bytes :=
  fold_left (fun o (f : Field) => o ++ field_line f) trailers (out ++ B "0" ++ kCRLF) ++ kCRLF.
