(* ===== verification/ChunkCodec.v ===== *)
(** * Chunked transfer coding: the encoder against the decoder

    [append_chunk] / [append_last_chunk] ([response.cpp]) write what the states
    [ChunkSize], [ChunkData], [ChunkDataEnd] and [Trailers] of
    [RequestParser::feed] read.  The round trip is proved for the two pieces
    of code together, whatever follows the message in the stream. *)

From S2P Require Import Prelude Headers RequestParser Numbers ParserFacts ParserSegmentation Response.

(** What a piece of a streamed body becomes on the wire. *)
Definition encode_chunked (pieces : list bytes) (trailers : Headers) : bytes :=
  append_last_chunk (fold_left append_chunk pieces []) trailers.

(** A field that survives printing and parsing: clean, and without
    surrounding whitespace. *)
Definition field_printable (f : Field) : Prop := field_ok f /\ trim_ows f.2 = f.2.

Definition fields_printable (h : Headers) : Prop := headers_wf h /\ Forall field_printable h.

Definition fields_size (h : Headers) : Z := zlen (concat (field_line <$> h)).

(** ** Characters *)

Lemma tchar_not c d : is_tchar c = true -> is_tchar d = false -> c <> d.
Proof. congruence. Qed.

Lemma token_not_in s c : forallb is_tchar s = true -> is_tchar c = false -> c ∉ s.
Proof.
  intros H Hc Hin. rewrite forallb_forall in H. apply list_elem_of_In in Hin. specialize (H _ Hin). congruence.
Qed.

Lemma is_token_tchars s : is_token s = true -> forallb is_tchar s = true /\ s <> [].
Proof. unfold is_token. intros. bool_hyps. split; [done|]. by destruct s. Qed.

Lemma value_ok_not_in v c : existsb value_char_bad v = false -> value_char_bad c = true -> c ∉ v.
Proof.
  intros H Hc Hin. apply list_elem_of_In in Hin.
  rewrite (proj2 (existsb_exists value_char_bad v)) in H; [done|]. eauto.
Qed.

Lemma tchar_not_ows c : is_tchar c = true -> is_ows c = false.
Proof. all_bytes c; done. Qed.

Lemma trim_front_id s : (forall c, c ∈ s -> is_ows c = false) -> trim_front s = s.
Proof. destruct s as [|c s]; [done|]. intros H. cbn. rewrite H; [done|]. by left. Qed.

Lemma trim_ows_id s : (forall c, c ∈ s -> is_ows c = false) -> trim_ows s = s.
Proof.
  intros H. unfold trim_ows, trim_back. rewrite (trim_front_id s H), trim_front_id.
  - apply reverse_involutive.
  - intros c. rewrite elem_of_reverse. apply H.
Qed.

Lemma token_trim s : forallb is_tchar s = true -> trim_ows s = s.
Proof.
  intros H. apply trim_ows_id. intros c Hc. apply tchar_not_ows.
  rewrite forallb_forall in H. apply H. by apply list_elem_of_In.
Qed.

(** ** One unit per round *)

Lemma parse_field_line_print f ih p :
  field_printable f -> (ih && iequals f.1 (B "Host") && has (headers (req_ p)) (B "Host") = false) ->
  parse_field_line (f.1 ++ B ": " ++ f.2) ih p
  = (with_req (if ih then req_with_headers (add (headers (req_ p)) f.1 f.2) (req_ p)
               else req_with_trailers (add (trailers (req_ p)) f.1 f.2) (req_ p)) p, true).
Proof.
  intros [[Hn Hv] Ht] Hh. destruct f as [n v]. cbn [fst snd] in *. unfold parse_field_line.
  destruct (is_token_tchars n Hn) as [Hnt _].
  change (n ++ B ": " ++ v) with (n ++ ":"%char :: SP :: v).
  rewrite find_char_app by (by apply token_not_in). rewrite take_app_length, Hn. cbn [negb].
  assert (drop (length n + 1) (n ++ ":"%char :: SP :: v) = SP :: v) as ->.
  { rewrite drop_app_add. done. }
  change (trim_ows (SP :: v)) with (trim_ows v). rewrite Ht, Hv, Hh. by destruct ih.
Qed.

Lemma field_line_no_cr f : field_ok f -> CR ∉ f.1 ++ B ": " ++ f.2.
Proof.
  intros [Hn Hv]. apply is_token_tchars in Hn as [Hn _]. rewrite !not_elem_of_app.
  split; [by apply token_not_in|]. split; [by apply (bool_decide_unpack _); vm_compute|].
  by apply value_ok_not_in.
Qed.

(** The parser after a trailer (or header) field was read. *)
Definition after_field (ih : bool) (p : RequestParser) (f : Field) : RequestParser :=
  with_req (if ih then req_with_headers (add (headers (req_ p)) f.1 f.2) (req_ p)
            else req_with_trailers (add (trailers (req_ p)) f.1 f.2) (req_ p))
    (with_header_count (header_count_ p + 1)
       (with_header_bytes (header_bytes_ p + zlen (field_line f)) p)).

Lemma feed_field (ih : bool) p f rest :
  parser_wf p -> fits (field_line f ++ rest) -> state_ p = (if ih then State.Headers else State.Trailers) ->
  field_printable f -> (ih && iequals f.1 (B "Host") && has (headers (req_ p)) (B "Host") = false) ->
  (header_bytes_ p + zlen (field_line f) <= max_header_bytes (limits_ p))%Z ->
  (header_count_ p + 1 <= max_header_count (limits_ p))%Z ->
  feed_round p (field_line f ++ rest) = mkRound (after_field ih p f) (length (field_line f)) true.
Proof.
  intros Hp Hfit Hs Hf Hh Hb Hc. pose proof (limits_ok_bounds _ (wf_limits p Hp)).
  pose proof (wf_header_bytes p Hp). pose proof (wf_header_count p Hp) as [? _].
  assert (feed_round p (field_line f ++ rest) = feed_headers (negb ih) p (field_line f ++ rest)) as ->.
  { unfold feed_round. by destruct ih; rewrite Hs. }
  set (line := f.1 ++ B ": " ++ f.2).
  assert (field_line f ++ rest = line ++ kCRLF ++ rest) as E.
  { unfold field_line, line. by rewrite <- !app_assoc. }
  assert (zlen (field_line f) = Z.of_nat (length line + length kCRLF)) as El.
  { unfold field_line, line, zlen. rewrite !length_app. f_equal. lia. }
  assert (length line <> 0)%nat as Hl.
  { unfold line. rewrite !length_app. change (length (B ": ")) with 2%nat. lia. }
  unfold feed_headers. rewrite E, find_crlf_line by (apply field_line_no_cr, Hf).
  rewrite <- El. rewrite u64_small by lia.
  destruct (Z.gtb_spec (header_bytes_ p + zlen (field_line f)) (max_header_bytes (limits_ p))); [lia|].
  rewrite (proj2 (Nat.eqb_neq _ _)) by done. cbn [header_count_ with_header_bytes with_header_count].
  rewrite u64_small by lia.
  destruct (Z.gtb_spec (header_count_ p + 1) (max_header_count (limits_ p))); [lia|].
  rewrite take_app_length, negb_involutive. unfold line. rewrite parse_field_line_print by done.
  unfold zlen in El. f_equal. fold line. lia.
Qed.

Lemma feed_blank_trailers p rest :
  parser_wf p -> state_ p = State.Trailers ->
  (header_bytes_ p + 2 <= max_header_bytes (limits_ p))%Z ->
  feed_round p (kCRLF ++ rest)
  = mkRound (with_state State.Done (with_header_bytes (header_bytes_ p + 2) p)) 2 true.
Proof.
  intros Hp Hs Hb. pose proof (limits_ok_bounds _ (wf_limits p Hp)). pose proof (wf_header_bytes p Hp).
  unfold feed_round. rewrite Hs. unfold feed_headers.
  change (find_sub kCRLF (kCRLF ++ rest)) with (Some 0%nat). lazy iota beta zeta.
  change (Z.of_nat (0 + length kCRLF)) with 2%Z.
  rewrite u64_small by lia.
  destruct (Z.gtb_spec (header_bytes_ p + 2) (max_header_bytes (limits_ p))); [lia|done].
Qed.

Lemma feed_size_line p n rest :
  state_ p = State.ChunkSize -> (0 <= n < 2 ^ 62)%Z -> (16 <= max_chunk_line (limits_ p))%Z ->
  parser_wf p -> (zlen (body (req_ p)) + n <= max_body_bytes (limits_ p))%Z ->
  feed_round p (to_chars 16 n ++ kCRLF ++ rest)
  = mkRound (if (n =? 0)%Z then with_state State.Trailers p
             else with_state State.ChunkData (with_remaining n p))
      (length (to_chars 16 n) + 2) true.
Proof.
  intros Hs Hn Hc Hp Hb. destruct (parse_hex_to_chars n ltac:(lia)) as [Hx Hl].
  destruct (to_chars_spec 16 n) as (_ & Hd & _); [lia|lia|]. apply base_digit_tchar in Hd.
  pose proof (limits_ok_bounds _ (wf_limits p Hp)). pose proof (zlen_nonneg (body (req_ p))).
  unfold feed_round. rewrite Hs. unfold feed_chunk_size.
  rewrite find_crlf_line by (by apply token_not_in).
  destruct (Z.gtb_spec (Z.of_nat (length (to_chars 16 n))) (max_chunk_line (limits_ p))).
  { unfold zlen in Hl. lia. }
  rewrite take_app_length. unfold parse_chunk_size.
  rewrite (proj2 (find_char_None ";" (to_chars 16 n))) by (by apply token_not_in).
  cbn [substr0]. rewrite token_trim by done.
  replace ((zlen (to_chars 16 n) =? 0)%Z || (zlen (to_chars 16 n) >? 16)%Z) with false by lia.
  rewrite Hx. destruct (Z.eqb_spec n 0); [done|]. rewrite u64_small by lia.
  replace ((n >? max_body_bytes (limits_ p))%Z || (zlen (body (req_ p)) + n >? max_body_bytes (limits_ p))%Z)
    with false by lia.
  done.
Qed.

(** ** Whole messages *)

Lemma feeds_step p s q k p' n :
  feed_round p s = mkRound q k true -> feeds q (drop k s) p' n -> feeds p s p' (k + n).
Proof.
  intros E H. pose proof (feeds_continue p s p' n) as Hc. rewrite E in Hc. by apply Hc.
Qed.

Lemma feed_round_wf_eq p s q k c : parser_wf p -> feed_round p s = mkRound q k c -> parser_wf q.
Proof. intros Hp E. change q with (r_parser (mkRound q k c)). rewrite <- E. by apply feed_round_wf. Qed.

(** The parser after a whole data chunk was read (an empty piece is not sent). *)
Definition after_chunk (p : RequestParser) (data : bytes) : RequestParser :=
  match data with
  | [] => p
  | _ => with_state State.ChunkSize
           (with_remaining 0 (with_req (req_with_body (body (req_ p) ++ data) (req_ p)) p))
  end.

Lemma after_chunk_req p data : req_ (after_chunk p data) = req_with_body (body (req_ p) ++ data) (req_ p).
Proof. destruct data; [|done]. cbn. rewrite app_nil_r. by destruct (req_ p). Qed.

Lemma after_chunk_wf p data :
  parser_wf p -> state_ p = State.ChunkSize -> (zlen (body (req_ p) ++ data) <= max_body_bytes (limits_ p))%Z ->
  parser_wf (after_chunk p data) /\ state_ (after_chunk p data) = State.ChunkSize
  /\ limits_ (after_chunk p data) = limits_ p /\ header_bytes_ (after_chunk p data) = header_bytes_ p
  /\ header_count_ (after_chunk p data) = header_count_ p.
Proof.
  intros Hp Hs Hb. destruct data as [|c d]; [done|]. split; [|done].
  destruct Hp. unfold state_ok, failed in *. rewrite Hs in *.
  by constructor; unfold state_ok, failed; cbn.
Qed.

Lemma append_chunk_cons data rest :
  data <> [] -> append_chunk [] data ++ rest = to_chars 16 (zlen data) ++ kCRLF ++ data ++ kCRLF ++ rest.
Proof. intros H. unfold append_chunk, append_number. destruct data; [done|]. by rewrite <- !app_assoc. Qed.

Lemma length_append_chunk data :
  data <> [] -> length (append_chunk [] data) = (length (to_chars 16 (zlen data)) + 2 + length data + 2)%nat.
Proof.
  intros H. rewrite <- (app_nil_r (append_chunk [] data)), append_chunk_cons by done.
  rewrite !length_app. change (length kCRLF) with 2%nat. simpl. lia.
Qed.

Lemma feeds_chunk p data rest p' n :
  parser_wf p -> state_ p = State.ChunkSize -> (16 <= max_chunk_line (limits_ p))%Z ->
  (zlen (body (req_ p) ++ data) <= max_body_bytes (limits_ p))%Z ->
  feeds (after_chunk p data) rest p' n ->
  feeds p (append_chunk [] data ++ rest) p' (length (append_chunk [] data) + n).
Proof.
  intros Hp Hs Hc Hb Hk. destruct (decide (data = [])) as [->|Hd]; [done|].
  pose proof (limits_ok_bounds _ (wf_limits p Hp)). pose proof (zlen_nonneg (body (req_ p))).
  pose proof (zlen_nonneg data). rewrite zlen_app in Hb.
  assert (zlen data <> 0)%Z by (intros E%zlen_nil_inv; done).
  rewrite append_chunk_cons, length_append_chunk, <- !Nat.add_assoc by done.
  pose proof (feed_size_line p (zlen data) (data ++ kCRLF ++ rest) Hs ltac:(lia) Hc Hp ltac:(lia)) as E1.
  rewrite (proj2 (Z.eqb_neq _ _)) in E1 by done.
  pose proof (feed_round_wf_eq _ _ _ _ _ Hp E1) as Hp1. rewrite Nat.add_assoc.
  eapply feeds_step; [exact E1|].
  assert (drop (length (to_chars 16 (zlen data)) + 2) (to_chars 16 (zlen data) ++ kCRLF ++ data ++ kCRLF ++ rest)
          = data ++ kCRLF ++ rest) as -> by (rewrite drop_app_add; done).
  set (p1 := with_state State.ChunkData (with_remaining (zlen data) p)) in *.
  set (p2 := with_state State.ChunkDataEnd
    (with_remaining 0 (with_req (req_with_body (body (req_ p) ++ data) (req_ p)) p))).
  assert (feed_round p1 (data ++ kCRLF ++ rest) = mkRound p2 (length data) true) as E2.
  { unfold feed_round. cbn [p1 state_ with_state]. unfold feed_body.
    assert (exists x s, data ++ kCRLF ++ rest = x :: s) as (x & s & Ex) by (destruct data; [done|]; simpl; eauto).
    rewrite Ex, <- Ex. cbn [p1 remaining_ with_state with_remaining].
    assert (Z.to_nat (Z.min (zlen (data ++ kCRLF ++ rest)) (zlen data)) = length data) as ->.
    { rewrite zlen_app. pose proof (zlen_nonneg (kCRLF ++ rest)). unfold zlen in *. lia. }
    rewrite take_app_length. cbn.
    replace (zlen data - Z.of_nat (length data))%Z with 0%Z by (unfold zlen; lia). done. }
  pose proof (feed_round_wf_eq _ _ _ _ _ Hp1 E2) as Hp2.
  eapply feeds_step; [exact E2|]. rewrite drop_app_length.
  assert (feed_round p2 (kCRLF ++ rest) = mkRound (after_chunk p data) 2 true) as E3.
  { unfold feed_round. cbn [p2 state_ with_state]. unfold feed_chunk_data_end.
    replace (zlen (kCRLF ++ rest) <? zlen kCRLF)%Z with false; [by destruct data|].
    rewrite zlen_app. change (zlen kCRLF) with 2%Z. pose proof (zlen_nonneg rest). lia. }
  by eapply feeds_step.
Qed.

Lemma add_fresh h f : has h f.1 = false -> add h f.1 f.2 = h ++ [f].
Proof. unfold add, has. destruct (find h f.1); [done|]. by destruct f. Qed.

Lemma has_app h k n : has (h ++ k) n = has h n || has k n.
Proof. induction h as [|f h IH]; [done|]. cbn [app]. by rewrite !has_cons, IH, orb_assoc. Qed.

Lemma has_names h n : has h n = bool_decide (lower n ∈ names h).
Proof.
  rewrite has_get. apply bool_decide_ext. rewrite elem_of_lower_get, get_to_map. done.
Qed.

Lemma names_app h k : names (h ++ k) = names h ++ names k.
Proof. apply fmap_app. Qed.

Lemma headers_wf_app_fresh h f t : headers_wf (h ++ f :: t) -> has h f.1 = false.
Proof.
  unfold headers_wf. rewrite names_app, names_cons, NoDup_app. intros (_ & Hd & _).
  rewrite has_names. apply bool_decide_eq_false_2. intros Hin. apply (Hd _ Hin). by left.
Qed.

Lemma concat_field_lines h f : concat (field_line <$> (f :: h)) = field_line f ++ concat (field_line <$> h).
Proof. done. Qed.

(** The section a field goes to. *)
Definition section (ih : bool) (r : Request) : Headers := if ih then headers r else trailers r.
Definition with_section (ih : bool) (h : Headers) (r : Request) : Request :=
  if ih then req_with_headers h r else req_with_trailers h r.

Lemma host_fresh (ih : bool) r f t :
  headers_wf (section ih r ++ f :: t) -> ih && iequals f.1 (B "Host") && has (headers r) (B "Host") = false.
Proof.
  intros Hw. destruct ih; [|done]. cbn [section] in Hw. apply headers_wf_app_fresh in Hw.
  destruct (iequals f.1 (B "Host")) eqn:E; [|done]. cbn [andb].
  transitivity (has (headers r) f.1); [|done]. unfold has. by rewrite (find_proper (headers r) (headers r) eq_refl _ _ E).
Qed.

(** Reading a list of fields. *)
Lemma feeds_fields (ih : bool) t p rest :
  parser_wf p -> state_ p = (if ih then State.Headers else State.Trailers) ->
  headers_wf (section ih (req_ p) ++ t) -> Forall field_printable t ->
  fits (concat (field_line <$> t) ++ rest) ->
  (header_bytes_ p + fields_size t <= max_header_bytes (limits_ p))%Z ->
  (header_count_ p + zlen t <= max_header_count (limits_ p))%Z ->
  exists q, parser_wf q /\ state_ q = state_ p /\ limits_ q = limits_ p
    /\ header_bytes_ q = (header_bytes_ p + fields_size t)%Z
    /\ req_ q = with_section ih (section ih (req_ p) ++ t) (req_ p)
    /\ forall p' n, feeds q rest p' n ->
         feeds p (concat (field_line <$> t) ++ rest) p' (length (concat (field_line <$> t)) + n).
Proof.
  unfold fields_size. revert p. induction t as [|f t IH]; intros p Hp Hs Hw Hf Hfit Hb Hc.
  - exists p. split_and!; try done.
    + change (zlen (concat (field_line <$> []))) with 0%Z. lia.
    + rewrite app_nil_r. by destruct ih, (req_ p).
  - apply Forall_cons in Hf as [Hf1 Hf]. rewrite concat_field_lines in *. rewrite zlen_app in *.
    pose proof (zlen_nonneg (concat (field_line <$> t))). pose proof (zlen_nonneg t).
    rewrite <- !app_assoc in *.
    assert (zlen (f :: t) = 1 + zlen t)%Z as Ez by (unfold zlen; cbn [length]; lia). rewrite Ez in Hc.
    pose proof (feed_field ih p f (concat (field_line <$> t) ++ rest) Hp Hfit Hs Hf1
                  (host_fresh _ _ _ _ Hw) ltac:(lia) ltac:(lia)) as E.
    assert (section ih (req_ (after_field ih p f)) = section ih (req_ p) ++ [f]) as Et.
    { apply headers_wf_app_fresh in Hw. unfold after_field, section in *. cbn. destruct ih; cbn; by apply add_fresh. }
    destruct (IH (after_field ih p f)) as (q & Hq & Hqs & Hql & Hqb & Hqr & Hfs); try done.
    + by eapply feed_round_wf_eq.
    + by rewrite Et, <- app_assoc.
    + rewrite <- (drop_app_length (field_line f) (concat _ ++ _)). by apply fits_drop.
    + cbn. lia.
    + cbn. lia.
    + exists q. split_and!; try done.
      * rewrite Hqb. cbn. lia.
      * rewrite Hqr, Et, <- app_assoc. by destruct ih.
      * intros p' n Hn. rewrite length_app, <- Nat.add_assoc. eapply feeds_step; [exact E|].
        rewrite drop_app_length. by apply Hfs.
Qed.

(** Reading the trailer section. *)
Lemma feeds_trailers t p rest :
  parser_wf p -> state_ p = State.Trailers -> headers_wf (trailers (req_ p) ++ t) -> Forall field_printable t ->
  fits (concat (field_line <$> t) ++ kCRLF ++ rest) ->
  (header_bytes_ p + fields_size t + 2 <= max_header_bytes (limits_ p))%Z ->
  (header_count_ p + zlen t <= max_header_count (limits_ p))%Z ->
  exists p', feeds p (concat (field_line <$> t) ++ kCRLF ++ rest) p' (length (concat (field_line <$> t)) + 2)
    /\ done p' = true
    /\ req_ p' = req_with_trailers (trailers (req_ p) ++ t) (req_ p) /\ limits_ p' = limits_ p.
Proof.
  intros Hp Hs Hw Hf Hfit Hb Hc.
  destruct (feeds_fields false t p (kCRLF ++ rest)) as (q & Hq & Hqs & Hql & Hqb & Hqr & Hfs); try done; [lia|].
  pose proof (feed_blank_trailers q rest Hq ltac:(by rewrite Hqs) ltac:(rewrite Hql, Hqb; lia)) as E.
  exists (with_state State.Done (with_header_bytes (header_bytes_ q + 2) q)). split_and!; try done.
  apply Hfs. change 2%nat with (2 + 0)%nat. eapply feeds_step; [exact E|].
  apply (feeds_return (with_state State.Done (with_header_bytes (header_bytes_ q + 2) q)) rest eq_refl).
Qed.

Lemma append_chunk_app out data : append_chunk out data = out ++ append_chunk [] data.
Proof. unfold append_chunk, append_number. destruct data; [by rewrite app_nil_r|]. by rewrite <- !app_assoc. Qed.

Lemma fold_append_chunk pieces out :
  fold_left append_chunk pieces out = out ++ concat (append_chunk [] <$> pieces).
Proof.
  revert out. induction pieces as [|d pieces IH]; intros out; cbn; [by rewrite app_nil_r|].
  by rewrite IH, append_chunk_app, <- app_assoc.
Qed.

Lemma fold_field_lines t out :
  fold_left (fun o (f : Field) => o ++ field_line f) t out = out ++ concat (field_line <$> t).
Proof.
  revert out. induction t as [|f t IH]; intros out; cbn; [by rewrite app_nil_r|]. by rewrite IH, <- app_assoc.
Qed.

Lemma encode_chunked_eq pieces t :
  encode_chunked pieces t
  = concat (append_chunk [] <$> pieces) ++ to_chars 16 0 ++ kCRLF ++ concat (field_line <$> t) ++ kCRLF.
Proof.
  unfold encode_chunked, append_last_chunk. rewrite fold_append_chunk, fold_field_lines. cbn [app].
  by rewrite <- !app_assoc.
Qed.

Lemma feeds_chunks pieces p t rest :
  parser_wf p -> state_ p = State.ChunkSize -> (16 <= max_chunk_line (limits_ p))%Z ->
  headers_wf t -> Forall field_printable t ->
  fits (encode_chunked pieces t ++ rest) ->
  (zlen (body (req_ p) ++ concat pieces) <= max_body_bytes (limits_ p))%Z ->
  (header_bytes_ p + fields_size t + 2 <= max_header_bytes (limits_ p))%Z ->
  (header_count_ p + zlen t <= max_header_count (limits_ p))%Z ->
  exists p', feeds p (encode_chunked pieces t ++ rest) p' (length (encode_chunked pieces t))
    /\ done p' = true
    /\ req_ p' = req_with_trailers t (req_with_body (body (req_ p) ++ concat pieces) (req_ p))
    /\ limits_ p' = limits_ p.
Proof.
  intros Hp Hs Hc Hw Hf Hfit Hb Hhb Hhc. rewrite encode_chunked_eq in *. revert p Hp Hs Hc Hb Hhb Hhc Hfit.
  induction pieces as [|d pieces IH]; intros p Hp Hs Hc Hb Hhb Hhc Hfit.
  - cbn [fmap list_fmap concat app] in *. rewrite app_nil_r in Hb. rewrite <- !app_assoc in *.
    pose proof (limits_ok_bounds _ (wf_limits p Hp)).
    pose proof (feed_size_line p 0 (concat (field_line <$> t) ++ kCRLF ++ rest) Hs ltac:(lia) Hc Hp ltac:(lia)) as E.
    pose proof (feed_round_wf_eq _ _ _ _ _ Hp E) as Hp1. cbn [Z.eqb] in *.
    assert (trailers (req_ p) = []) as Ht.
    { pose proof (wf_state p Hp) as H1. unfold state_ok in H1. rewrite Hs in H1. naive_solver. }
    destruct (feeds_trailers t (with_state State.Trailers p) rest) as (p' & Hfs & Hd & Hr & Hl); try done.
    + cbn. by rewrite Ht.
    + apply (fits_drop (length (to_chars 16 0) + 2)) in Hfit. by rewrite drop_app_add in Hfit.
    + exists p'. split; [|split; [done|split; [|done]]].
      * rewrite !length_app. change (length kCRLF) with 2%nat.
        rewrite Nat.add_assoc. eapply feeds_step; [exact E|]. by rewrite drop_app_add.
      * rewrite Hr. cbn. rewrite Ht, app_nil_r. by destruct (req_ p).
  - cbn [fmap list_fmap concat] in *. rewrite <- !app_assoc in *. rewrite length_app.
    rewrite app_assoc in Hb.
    assert (zlen (body (req_ p) ++ d) <= max_body_bytes (limits_ p))%Z as Hbd.
    { rewrite zlen_app in Hb. pose proof (zlen_nonneg (concat pieces)). lia. }
    destruct (after_chunk_wf p d Hp Hs Hbd) as (Hp1 & Hs1 & Hl1 & Hh1 & Hc1).
    destruct (IH (after_chunk p d)) as (p' & Hfs & Hd & Hr & Hl); rewrite ?Hl1, ?Hh1, ?Hc1, ?after_chunk_req; try done.
    + rewrite <- (drop_app_length (append_chunk [] d) (concat _ ++ _)). by apply fits_drop.
    + exists p'. split; [by apply feeds_chunk|]. split; [done|]. split; [|by rewrite Hl].
      rewrite Hr, after_chunk_req. cbn. by rewrite <- app_assoc.
Qed.

(** C26: any sequence of body pieces and any clean trailer section, written by
    [append_chunk] and [append_last_chunk], is read back by the parser in
    state [ChunkSize]: it finishes, has consumed exactly the encoding (the
    bytes of the next request stay in the stream), and the request has the
    concatenated pieces appended to its body and exactly those trailers. *)
Theorem chunked_roundtrip (p : RequestParser) (pieces : list bytes) (t : Headers) (rest : bytes) :
  parser_wf p -> state_ p = State.ChunkSize -> (16 <= max_chunk_line (limits_ p))%Z ->
  fields_printable t -> fits (encode_chunked pieces t ++ rest) ->
  (zlen (body (req_ p) ++ concat pieces) <= max_body_bytes (limits_ p))%Z ->
  (header_bytes_ p + fields_size t + 2 <= max_header_bytes (limits_ p))%Z ->
  (header_count_ p + zlen t <= max_header_count (limits_ p))%Z ->
  exists p', feed p (encode_chunked pieces t ++ rest) = (p', length (encode_chunked pieces t))
    /\ done p' = true
    /\ req_ p' = req_with_trailers t (req_with_body (body (req_ p) ++ concat pieces) (req_ p)).
Proof.
  intros Hp Hs Hc [Hw Hf] Hfit Hb Hhb Hhc.
  destruct (feeds_chunks pieces p t rest) as (p' & Hfs & Hd & Hr & _); try done.
  exists p'. split; [by apply feeds_feed|done].
Qed.

Definition demo_chunk_parser : RequestParser := (feed demo_parser (take 61 demo_request)).1.
Definition demo_trailers : Headers := [(B "X-Sum", B "1"); (B "X-Two", B "a b")].

Lemma chunked_roundtrip_witness :
  exists p', feed demo_chunk_parser (encode_chunked [B "Wiki"; []; B "pedia"] demo_trailers ++ B "GET")
    = (p', length (encode_chunked [B "Wiki"; []; B "pedia"] demo_trailers))
  /\ done p' = true
  /\ req_ p' = req_with_trailers demo_trailers
        (req_with_body (body (req_ demo_chunk_parser) ++ concat [B "Wiki"; []; B "pedia"]) (req_ demo_chunk_parser)).
Proof.
  apply (chunked_roundtrip demo_chunk_parser [B "Wiki"; []; B "pedia"] demo_trailers (B "GET")).
  - apply feed_wf, demo_parser_wf.
  - vm_compute. reflexivity.
  - vm_compute. discriminate.
  - split; [|repeat constructor; vm_compute; reflexivity].
    apply (bool_decide_unpack (NoDup (names demo_trailers))). vm_compute. exact I.
  - vm_compute. reflexivity.
  - vm_compute. discriminate.
  - vm_compute. discriminate.
  - vm_compute. discriminate.
Defined.
