(* ===== verification/ParserRoundTrip.v ===== *)
(** * Requests: printing, then parsing

    [print_request] is the reference serializer of a request in origin form
    whose body, if any, is framed by [Content-Length]; feeding its output to
    a fresh parser gives the request back and leaves the following bytes in
    the stream.  Chunked requests are covered by [ChunkCodec]. *)

From S2P Require Import Prelude Headers RequestParser Numbers ParserFacts ParserSegmentation Response ChunkCodec.

Definition request_line (r : Request) : bytes :=
  method r ++ SP :: target r ++ SP :: B "HTTP/1." ++ to_chars 10 (version_minor r).

Definition print_request (r : Request) : bytes :=
  request_line r ++ kCRLF ++ concat (field_line <$> headers r) ++ kCRLF ++ body r.

(** The requests the reference serializer is meant for. *)
Record printable (r : Request) : Prop := {
  pr_line : line_ok r;
  pr_origin : exists t, target r = "/"%char :: t;
  pr_path : path r = substr0 (target r) (find_char "?" (target r));
  pr_query : query r = match find_char "?" (target r) with None => [] | Some q => drop (q + 1) (target r) end;
  pr_fields : fields_printable (headers r);
  pr_trailers : trailers r = [];
  pr_host : host_ok r;
  pr_framing : get (headers r) (B "Transfer-Encoding") = None
    /\ (get (headers r) (B "Content-Length") = None /\ body r = []
        \/ get (headers r) (B "Content-Length") = Some (to_chars 10 (zlen (body r))));
  pr_expect : expect_continue r = expect_of (match body r with [] => State.Done | _ => State.Body end) r }.

Lemma target_not_in t c : valid_target t = true -> target_char_ok c = false -> c ∉ t.
Proof.
  unfold valid_target. destruct t as [|d t]; [done|]. intros H Hc Hin.
  rewrite forallb_forall in H. apply list_elem_of_In in Hin. specialize (H _ Hin). congruence.
Qed.

Lemma parse_content_length_print n :
  (0 <= n < 10 ^ 19)%Z -> parse_content_length (to_chars 10 n) = Some n.
Proof.
  intros Hn. destruct (to_chars_spec 10 n) as (_ & Hd & _); [lia|lia|]. apply base_digit_tchar in Hd.
  unfold parse_content_length. cbn [parse_content_length_loop].
  rewrite (proj2 (find_char_None "," (to_chars 10 n))) by (by apply token_not_in). cbn [substr0].
  by rewrite token_trim, parse_decimal_to_chars.
Qed.

Lemma minor_text m : (m = 0 \/ m = 1)%Z ->
  let v := B "HTTP/1." ++ to_chars 10 m in
  version_malformed v = false /\ (code (nth 5 v CR) - code "0" = 1)%Z
  /\ (code (nth 7 v CR) - code "0" = m)%Z /\ SP ∉ v /\ CR ∉ v.
Proof.
  intros [-> | ->]; cbn zeta.
  all: split_and!; try (vm_compute; reflexivity); apply (bool_decide_unpack _); vm_compute; exact I.
Qed.

Lemma origin_form m t : path_and_query m ("/"%char :: t) = Some ("/"%char :: t).
Proof.
  unfold path_and_query.
  assert (forall s, starts_with_icase ("/"%char :: t) ("h"%char :: s) = false) as Hno.
  { intros s. unfold starts_with_icase. cbn [length take]. rewrite iequals_bool, bool_decide_eq_false_2.
    - apply andb_false_r.
    - cbn. by intros [= H _]. }
  change (B "http://") with ("h"%char :: B "ttp://"). change (B "https://") with ("h"%char :: B "ttps://").
  by rewrite !Hno.
Qed.

Lemma parse_request_line_print r p :
  printable r ->
  parse_request_line (request_line r) p
  = (with_req (mkRequest (method r) (target r) (path r) (query r) 1 (version_minor r)
       (headers (req_ p)) (trailers (req_ p)) (body (req_ p)) (expect_continue (req_ p))) p, true).
Proof.
  intros [(Hm & Ht & Hmaj & Hmin) [t Ho] Hpath Hquery _ _ _ _ _].
  destruct (minor_text _ Hmin) as (Hv & Hv5 & Hv7 & Hvs & _).
  apply is_token_tchars in Hm as Hmt. destruct Hmt as [Hmt _].
  unfold parse_request_line, request_line.
  set (v := B "HTTP/1." ++ to_chars 10 (version_minor r)) in *.
  rewrite find_char_app by (by apply token_not_in). unfold find_char_from.
  assert (drop (length (method r) + 1) (method r ++ SP :: target r ++ SP :: v) = target r ++ SP :: v) as E1
    by (rewrite drop_app_add; done).
  rewrite E1, find_char_app by (by apply target_not_in). cbn [fmap option_fmap option_map].
  assert (drop (length (method r) + 1 + length (target r) + 1) (method r ++ SP :: target r ++ SP :: v) = v) as E2.
  { rewrite <- Nat.add_assoc, <- drop_drop, E1, drop_app_add. done. }
  rewrite E2, (proj2 (find_char_None SP v) Hvs). cbn [fmap option_fmap option_map].
  replace (length (method r) + 1 + length (target r) - length (method r) - 1)%nat with (length (target r)) by lia.
  rewrite !take_app_length, Hm, Ht, Hv, Hv5, Hv7. cbn [negb].
  replace (negb (1 =? 1)%Z || (version_minor r >? 1)%Z) with false by (destruct Hmin as [-> | ->]; done).
  rewrite Ho, origin_form, <- Ho, <- Hpath, <- Hquery. done.
Qed.

Lemma request_line_no_cr r : printable r -> CR ∉ request_line r.
Proof.
  intros [(Hm & Ht & _ & Hmin) _ _ _ _ _ _ _ _]. unfold request_line.
  apply is_token_tchars in Hm as [Hm _]. destruct (minor_text _ Hmin) as (_ & _ & _ & _ & Hv).
  rewrite not_elem_of_app, not_elem_of_cons, not_elem_of_app, not_elem_of_cons.
  split_and!; try done; [by apply token_not_in|by apply target_not_in].
Qed.

Lemma set_expect_eq p r :
  req_ p = req_with_expect false (req_with_body [] r) -> expect_continue r = expect_of (state_ p) r ->
  set_expect p = (with_req (req_with_body [] r) p, true).
Proof.
  intros Hr He. unfold set_expect, expect_of, done in *. rewrite Hr.
  cbn [req_with_expect req_with_body headers]. rewrite <- He. by destruct r.
Qed.

(** The state the end of the head leads to. *)
Definition body_state (r : Request) : State.t := match body r with [] => State.Done | _ => State.Body end.

Lemma body_state_length r : (if (zlen (body r) =? 0)%Z then State.Done else State.Body) = body_state r.
Proof. unfold body_state, zlen. destruct (body r); [done|]. cbn [length]. by destruct (Z.eqb_spec (Z.of_nat (S (length l))) 0); [lia|]. Qed.

(** [finish_headers] on the fields of a printed request: it expects the body, if there is one, of the announced length. *)
Lemma finish_headers_print r p :
  printable r -> fits (body r) -> (zlen (body r) <= max_body_bytes (limits_ p))%Z -> req_ p = req_with_expect false (req_with_body [] r) ->
  exists n, finish_headers p = (with_req (req_with_body [] r) (with_state (body_state r) (with_remaining n p)), true)
    /\ (body r <> [] -> n = zlen (body r)).
Proof.
  intros [Hl _ _ _ _ _ Hhost [Hte Hcl] Hexp] Hfit Hb Hr. unfold fits in Hfit. pose proof (zlen_nonneg (body r)).
  unfold finish_headers. rewrite Hr. cbn [req_with_expect req_with_body version_minor headers].
  assert ((version_minor r =? 1)%Z && negb (has (headers r) (B "Host")) = false) as ->.
  { destruct (Z.eqb_spec (version_minor r) 1) as [E|E]; [|done]. cbn [andb]. by rewrite (Hhost E). }
  rewrite Hte. destruct Hcl as [[Hcl Hnil]|Hcl]; rewrite Hcl.
  - exists (remaining_ p). unfold body_state. rewrite Hnil in *. split; [|done]. rewrite (set_expect_eq _ r); [by destruct p|done|done].
  - rewrite parse_content_length_print by lia.
    destruct (Z.gtb_spec (zlen (body r)) (max_body_bytes (limits_ p))); [lia|].
    exists (zlen (body r)). split; [|done]. rewrite body_state_length. by rewrite (set_expect_eq _ r).
Qed.

(** The blank line that ends the header section. *)
Lemma feed_blank_headers r p rest :
  parser_wf p -> state_ p = State.Headers -> (header_bytes_ p + 2 <= max_header_bytes (limits_ p))%Z ->
  printable r -> fits (body r) -> (zlen (body r) <= max_body_bytes (limits_ p))%Z -> req_ p = req_with_expect false (req_with_body [] r) ->
  exists n, feed_round p (kCRLF ++ rest)
      = mkRound (with_req (req_with_body [] r) (with_state (body_state r) (with_remaining n (with_header_bytes (header_bytes_ p + 2) p)))) 2 true
    /\ (body r <> [] -> n = zlen (body r)).
Proof.
  intros Hp Hs Hhb Hpr Hfit Hb Hr. pose proof (limits_ok_bounds _ (wf_limits p Hp)). pose proof (wf_header_bytes p Hp).
  destruct (finish_headers_print r (with_header_bytes (header_bytes_ p + 2) p) Hpr Hfit Hb Hr) as (n & Ef & Hn).
  exists n. split; [|done]. unfold feed_round. rewrite Hs. unfold feed_headers.
  change (find_sub kCRLF (kCRLF ++ rest)) with (Some 0%nat). lazy iota beta zeta.
  change (Z.of_nat (0 + length kCRLF)) with 2%Z. rewrite u64_small by lia.
  destruct (Z.gtb_spec (header_bytes_ p + 2) (max_header_bytes (limits_ p))); [lia|]. cbn [Nat.eqb]. by rewrite Ef.
Qed.

(** The whole body in one round. *)
Lemma feed_whole_body r p rest :
  body r <> [] -> state_ p = State.Body -> remaining_ p = zlen (body r) -> req_ p = req_with_body [] r ->
  feed_round p (body r ++ rest) = mkRound (with_state State.Done (with_remaining 0 (with_req r p))) (length (body r)) true.
Proof.
  intros Hne Hs Hrem Hr. unfold feed_round. rewrite Hs. unfold feed_body.
  assert (exists x s, body r ++ rest = x :: s) as (x & s & Ex) by (destruct (body r); [done|cbn [app]; eauto]).
  rewrite Ex, <- Ex, Hrem.
  assert (Z.to_nat (Z.min (zlen (body r ++ rest)) (zlen (body r))) = length (body r)) as ->.
  { rewrite zlen_app. pose proof (zlen_nonneg rest). unfold zlen in *. lia. }
  rewrite take_app_length, Hr. cbn. rewrite Hrem. replace (zlen (body r) - Z.of_nat (length (body r)))%Z with 0%Z by (unfold zlen; lia).
  change (u64 0) with 0%Z. cbn [Z.eqb].
  assert (req_with_body (body r) (req_with_body [] r) = r) as -> by (by destruct r). done.
Qed.

(** The blank line that ends the header section, then the body. *)
Lemma feeds_finish r p rest :
  parser_wf p -> state_ p = State.Headers ->
  fits (body r) -> (zlen (body r) <= max_body_bytes (limits_ p))%Z ->
  (header_bytes_ p + 2 <= max_header_bytes (limits_ p))%Z -> printable r ->
  req_ p = req_with_expect false (req_with_body [] r) ->
  exists p', feeds p (kCRLF ++ body r ++ rest) p' (2 + length (body r)) /\ done p' = true /\ req_ p' = r.
Proof.
  intros Hp Hs Hfit Hb Hhb Hpr Hr. destruct (feed_blank_headers r p (body r ++ rest) Hp Hs Hhb Hpr Hfit Hb Hr) as (n & E1 & Hn).
  unfold body_state in E1. destruct (decide (body r = [])) as [Enil|Hne].
  - rewrite Enil in *. cbn [length] in *. eexists. split; [eapply feeds_step; [exact E1|by apply feeds_return]|]. split; [done|].
    change (req_with_body [] r = r). rewrite <- Enil at 1. by destruct r.
  - specialize (Hn Hne). subst n. replace (match body r with [] => State.Done | _ => State.Body end) with State.Body in E1 by (by destruct (body r)).
    set (p2 := with_req (req_with_body [] r) _) in E1. pose proof (feed_whole_body r p2 rest Hne eq_refl eq_refl eq_refl) as E2.
    exists (with_state State.Done (with_remaining 0 (with_req r p2))). split; [|done].
    eapply feeds_step; [exact E1|]. change (drop 2 (kCRLF ++ body r ++ rest)) with (body r ++ rest).
    rewrite <- (Nat.add_0_r (length (body r))). eapply feeds_step; [exact E2|].
    apply (feeds_return (with_state State.Done (with_remaining 0 (with_req r p2))) _ eq_refl).
Qed.

(** The request is within the limits. *)
Definition within (l : ParserLimits) (r : Request) : Prop :=
  (zlen (request_line r) <= max_request_line l
   /\ fields_size (headers r) + 2 <= max_header_bytes l
   /\ zlen (headers r) <= max_header_count l
   /\ zlen (body r) <= max_body_bytes l)%Z.

Lemma feed_print_request (l : ParserLimits) (r : Request) (rest : bytes) :
  limits_ok l = true -> printable r -> fits (print_request r ++ rest) ->
  within l r ->
  exists p', feed (RequestParser_new l) (print_request r ++ rest) = (p', length (print_request r))
    /\ done p' = true /\ req_ p' = r.
Proof.
  intros Hl Hr Hfit (Hline & Hhb & Hhc & Hb). pose proof (parser_wf_new l Hl) as Hp0.
  pose proof (limits_ok_bounds l Hl).
  set (r1 := mkRequest (method r) (target r) (path r) (query r) 1 (version_minor r) [] [] [] false).
  set (p1 := with_state State.Headers (with_req r1 (RequestParser_new l))).
  unfold print_request in *. rewrite <- !app_assoc in *.
  assert (feed_round (RequestParser_new l)
            (request_line r ++ kCRLF ++ concat (field_line <$> headers r) ++ kCRLF ++ body r ++ rest)
          = mkRound p1 (length (request_line r) + 2) true) as E1.
  { unfold feed_round, feed_request_line. cbn [state_ RequestParser_new].
    rewrite find_crlf_line by (by apply request_line_no_cr).
    assert (length (request_line r) <> 0)%nat.
    { unfold request_line. rewrite length_app. cbn [length]. lia. }
    rewrite (proj2 (Nat.eqb_neq _ _)) by done.
    destruct (Z.gtb_spec (Z.of_nat (length (request_line r))) (max_request_line l)); [unfold zlen in *; lia|].
    cbn [limits_ RequestParser_new].
    destruct (Z.gtb_spec (Z.of_nat (length (request_line r))) (max_request_line l)); [lia|].
    rewrite take_app_length, parse_request_line_print by done. done. }
  pose proof (feed_round_wf_eq _ _ _ _ _ Hp0 E1) as Hp1.
  destruct Hr as [Hrl Hro Hrp Hrq [Hrw Hrf] Hrt Hrh Hrfr Hre] eqn:Er. clear Er.
  destruct (feeds_fields true (headers r) p1 (kCRLF ++ body r ++ rest))
    as (q & Hq & Hqs & Hql & Hqb & Hqr & Hfs); try done.
  { apply (fits_drop (length (request_line r) + 2)) in Hfit. by rewrite drop_app_add in Hfit. }
  { cbn. lia. }
  destruct (feeds_finish r q rest) as (p' & Hfin & Hd & Hreq); try done.
  { unfold fits in *. rewrite !zlen_app in Hfit. pose proof (zlen_nonneg (request_line r)).
    pose proof (zlen_nonneg kCRLF). pose proof (zlen_nonneg (concat (field_line <$> headers r))).
    pose proof (zlen_nonneg rest). lia. }
  { by rewrite Hql. }
  { rewrite Hqb, Hql. cbn. lia. }
  { rewrite Hqr. destruct Hrl as (_ & _ & Hmaj & _). unfold req_with_expect, req_with_body.
    cbn [version_major trailers method target path query version_minor headers body expect_continue].
    by rewrite Hmaj, Hrt. }
  exists p'. split; [|done]. apply feeds_feed; [done|]. rewrite !length_app. change (length kCRLF) with 2%nat.
  rewrite Nat.add_assoc. eapply feeds_step; [exact E1|]. rewrite drop_app_add. by apply Hfs.
Qed.

(** C9: a printable request (origin-form target, HTTP/1.0 or 1.1, clean fields, a
    body framed by [Content-Length] or none) is parsed back from its printed
    form, field by field, and exactly its bytes are consumed, whatever
    follows it in the stream. *)
Theorem request_roundtrip (l : ParserLimits) (r : Request) (rest : bytes) :
  limits_ok l = true -> printable r -> fits (print_request r ++ rest) ->
  within l r ->
  exists p', feed (RequestParser_new l) (print_request r ++ rest) = (p', length (print_request r))
    /\ done p' = true /\ req_ p' = r.
Proof. apply feed_print_request. Qed.

Definition demo_post : Request :=
  mkRequest (B "POST") (B "/submit?a=b") (B "/submit") (B "a=b") 1 1
    [(B "Host", B "localhost:42069"); (B "Content-Length", B "13")] [] (B "hello, world!") false.

Lemma demo_post_printable : printable demo_post.
Proof.
  constructor; try (vm_compute; reflexivity).
  - repeat split; try (vm_compute; reflexivity). by right.
  - by exists (B "submit?a=b").
  - split; [apply (bool_decide_unpack (NoDup (names (headers demo_post)))); vm_compute; exact I|].
    repeat constructor; vm_compute; reflexivity.
  - split; [vm_compute; reflexivity|]. right. vm_compute. reflexivity.
Qed.

Lemma request_roundtrip_witness :
  exists p', feed (RequestParser_new ParserLimits_default) (print_request demo_post ++ B "GET /next")
    = (p', length (print_request demo_post)) /\ done p' = true /\ req_ p' = demo_post.
Proof.
  apply (request_roundtrip ParserLimits_default demo_post (B "GET /next")).
  - reflexivity.
  - exact demo_post_printable.
  - vm_compute. reflexivity.
  - vm_compute. split_and!; discriminate.
Defined.
