(* ===== verification/ParserSafety.v ===== *)
(** * What a finished request is guaranteed to look like

    The framing (request-smuggling) guarantees of the parser, read off the
    invariant of [ParserFacts], and two boundary behaviours of the code. *)

From S2P Require Import Prelude Headers RequestParser Numbers ParserFacts ParserSegmentation.

Lemma done_state p : done p = true -> state_ p = State.Done.
Proof. unfold done. by destruct (state_ p). Qed.



(** ** The states a parser can be in *)

(** What a caller can make of a parser: feed it anything, take a finished request, reset it. *)
Inductive parser_reach (l : ParserLimits) : RequestParser -> Prop :=
  | reach_new : parser_reach l (RequestParser_new l)
  | reach_feed p data : parser_reach l p -> parser_reach l (feed p data).1
  | reach_take p : parser_reach l p -> parser_reach l (take_request p).2
  | reach_reset p : parser_reach l p -> parser_reach l (reset p).

(** C13: a parser is never in an inconsistent state, whatever is
    fed to it, in whatever pieces, and whenever requests are taken out: the
    limits are those it was made with, the counters and the body stay within
    them (one field may be over the limit when that is the error reported),
    stored fields are clean and unique, an error code is set if and only if
    parsing failed, and in every state the request holds exactly what that
    state may rely on ([state_ok]). *)
Theorem parser_invariant (l : ParserLimits) (p : RequestParser) :
  limits_ok l = true -> parser_reach l p ->
  limits_ p = l
  /\ (0 <= header_bytes_ p <= max_header_bytes l)%Z
  /\ (0 <= header_count_ p <= max_header_count l + if failed p then 1 else 0)%Z
  /\ (zlen (body (req_ p)) <= max_body_bytes l)%Z
  /\ fields_ok (headers (req_ p)) /\ fields_ok (trailers (req_ p))
  /\ (failed p = true <-> error_ p <> ParseError.None)
  /\ state_ok p.
Proof.
  intros Hl Hr. assert (parser_wf p /\ limits_ p = l) as [[_ Hb Hc _ Hbody Hh Ht He Hs] Hlim].
  { induction Hr as [|p data _ [IH Hlim]|p _ [IH Hlim]|p _ [IH Hlim]].
    - split; [by apply parser_wf_new|done].
    - split; [by apply feed_wf|]. rewrite <- Hlim. by eapply feeds_limits, feed_feeds.
    - split; [by apply parser_wf_reset|done].
    - split; [by apply parser_wf_reset|done]. }
  rewrite Hlim in *. destruct Hc as [Hc0 Hc]. do 2 (split; [done|]). split; [lia|]. do 3 (split; [done|]). split; [|done]. split.
  - intros Hf. unfold failed, state_ok in *. destruct (state_ p); done.
  - intros Hne. destruct (failed p) eqn:Ef; [done|]. by rewrite He in Hne.
Qed.

Lemma parser_invariant_witness :
  let p := (feed (take_request (feed (RequestParser_new ParserLimits_default) demo_request).1).2 (B "GET /")).1 in
  limits_ p = ParserLimits_default /\ state_ok p.
Proof.
  destruct (parser_invariant ParserLimits_default
    (feed (take_request (feed (RequestParser_new ParserLimits_default) demo_request).1).2 (B "GET /")).1) as (Hl & _ & _ & _ & _ & _ & _ & Hs).
  - reflexivity.
  - apply reach_feed, reach_take, reach_feed, reach_new.
  - exact (conj Hl Hs).
Defined.

(** ** Requests stay apart *)

(** C11: pipelining: a parser that finishes on [msg] with all of it consumed also
    finishes, with the same request, when more bytes follow, and leaves all
    of them unread; after [take] the next request is parsed from those bytes
    by a parser indistinguishable from a new one. *)
Theorem pipelined_boundary (l : ParserLimits) (msg rest : bytes) (p' : RequestParser) :
  limits_ok l = true -> fits (msg ++ rest) ->
  feed (RequestParser_new l) msg = (p', length msg) -> done p' = true ->
  feed (RequestParser_new l) (msg ++ rest) = (p', length msg)
  /\ take_request p' = (req_ p', RequestParser_new l).
Proof.
  intros Hl Hf E Hd. pose proof (parser_wf_new l Hl) as Hp.
  assert (parser_wf p') as Hp' by (pose proof (feed_wf _ msg Hp) as H; by rewrite E in H).
  assert (limits_ p' = l) as Hlim.
  { pose proof (feeds_limits _ _ _ _ (feed_feeds _ msg Hp)) as H. by rewrite E in H. }
  split.
  - rewrite (feed_split _ msg rest Hp Hf), E. cbn [fst snd].
    rewrite feed_final; [|done|unfold final; by rewrite Hd]. cbn [fst snd]. by rewrite Nat.add_0_r.
  - unfold take_request, reset. by rewrite Hlim.
Qed.

Lemma pipelined_boundary_witness :
  exists p', feed (RequestParser_new ParserLimits_default) (demo_request ++ B "GET / HT") = (p', length demo_request)
    /\ take_request p' = (req_ p', RequestParser_new ParserLimits_default).
Proof.
  exists (feed demo_parser demo_request).1.
  apply (pipelined_boundary ParserLimits_default demo_request (B "GET / HT")); vm_compute; reflexivity.
Defined.

(** ** Boundary behaviours *)

Definition http10_expect : bytes :=
  B "POST / HTTP/1.0" ++ kCRLF ++ B "Expect: 100-continue" ++ kCRLF ++ B "Content-Length: 2" ++ kCRLF ++ kCRLF.

(** An HTTP/1.0 request with [Expect: 100-continue] and a body is flagged, so
    the server will send it an interim response. *)
Theorem expect_flagged_for_http10 :
  let p := (feed (RequestParser_new ParserLimits_default) http10_expect).1 in
  is_http10 (req_ p) = true /\ expect_continue (req_ p) = true /\ headers_complete p = true /\ done p = false.
Proof. vm_compute. done. Qed.

Definition unlimited_line : ParserLimits := mkLimits (2 ^ 64 - 1) 16384 100 8388608 1024.

(** With [max_request_line = SIZE_MAX] the [+ 1] of the partial-line check wraps
    to 0: a request accepted in one read is rejected with 414 as soon as its
    request-line arrives in two. *)
Theorem unlimited_line_splits_matter :
  let p := RequestParser_new unlimited_line in
  let msg := B "GET / HTTP/1.0" ++ kCRLF ++ kCRLF in
  done (feed p msg).1 = true
  /\ failed (feed p (take 3 msg)).1 = true
  /\ status_for (error_ (feed p (take 3 msg)).1) = 414%Z.
Proof. vm_compute. done. Qed.
