(* ===== verification/ResponseHead.v ===== *)
(** * The head of a response: exact text and framing

    [write_head] appends to a string; here its output is related to the list
    of fields it stands for, and the framing it returns to the fields and to
    the body that will be sent. *)

From S2P Require Import Prelude Headers RequestParser Numbers ParserFacts Response.

Definition status_line (s : Z) : bytes := B "HTTP/1.1 " ++ to_chars 10 (u64 s) ++ [SP] ++ reason_phrase s ++ kCRLF.

Definition framing_fields (framing : Framing) (length : Z) : list Field :=
  match framing with
  | ContentLength => [(B "Content-Length", to_chars 10 length)]
  | Chunked => [(B "Transfer-Encoding", B "chunked")]
  | _ => []
  end.

Definition connection_fields (keep_alive http10 : bool) : list Field :=
  if negb keep_alive then [(B "Connection", B "close")]
  else if http10 then [(B "Connection", B "keep-alive")] else [].

(** Whether the connection persists after the response. *)
Definition head_keep_alive (res : Response) (opts : HeadOptions) : bool :=
  ho_keep_alive opts && negb (bool_decide ((choose_framing res opts).1 = CloseDelimited)).

Definition head_fields (res : Response) (opts : HeadOptions) : list Field :=
  List.filter (fun f : Field => negb (is_framing_header f.1)) (res_headers res)
  ++ (if has (res_headers res) (B "Server") then [] else [(B "Server", B "httpd-cpp")])
  ++ (match date opts with [] => [] | d => [(B "Date", d)] end)
  ++ framing_fields (choose_framing res opts).1 (choose_framing res opts).2
  ++ connection_fields (head_keep_alive res opts) (http10_client opts).

Definition field_lines (fs : list Field) : bytes := concat (field_line <$> fs).

(** The values a field name has in a list of fields. *)
Definition values_of (name : bytes) (fs : list Field) : list bytes :=
  snd <$> List.filter (fun f : Field => iequals f.1 name) fs.

Lemma field_lines_app a b : field_lines (a ++ b) = field_lines a ++ field_lines b.
Proof. unfold field_lines. by rewrite fmap_app, concat_app. Qed.

Lemma write_handler_fields_eq out h :
  write_handler_fields out h = out ++ field_lines (List.filter (fun f : Field => negb (is_framing_header f.1)) h).
Proof.
  unfold write_handler_fields. revert out. induction h as [|f h IH]; intros out; cbn [fold_left List.filter].
  { by rewrite app_nil_r. }
  rewrite IH. destruct (is_framing_header f.1); cbn [negb]; [done|].
  change (f :: ?l) with ([f] ++ l). rewrite (field_lines_app [f]), app_assoc. do 2 f_equal.
  symmetry. apply app_nil_r.
Qed.

(** The text of the head. *)
Definition head_text (res : Response) (opts : HeadOptions) : bytes :=
  status_line (status res) ++ field_lines (head_fields res opts) ++ kCRLF.

Lemma write_head_text out res opts :
  write_head out res opts
  = (out ++ status_line (status res) ++ field_lines (head_fields res opts) ++ kCRLF, (choose_framing res opts).1).
Proof.
  unfold write_head, head_fields, head_keep_alive. destruct (choose_framing res opts) as [fr len]. cbn [fst snd]. f_equal.
  rewrite !field_lines_app, write_handler_fields_eq. unfold status_line, append_number.
  set (X := ((((out ++ B "HTTP/1.1 ") ++ to_chars 10 (u64 (status res))) ++ [SP]) ++ reason_phrase (status res)) ++ kCRLF).
  set (F := field_lines (List.filter _ _)).
  match goal with |- _ = ?out ++ ?sl ++ (F ++ ?R) ++ kCRLF => transitivity ((X ++ F) ++ R ++ kCRLF) end.
  2:{ unfold X. by rewrite <- !app_assoc. }
  generalize (X ++ F). clear X F. intros X.
  destruct (has (res_headers res) (B "Server")), (date opts) as [|d ds], fr,
    (ho_keep_alive opts), (http10_client opts); cbn [negb andb framing_fields connection_fields];
    rewrite ?bool_decide_eq_true_2, ?bool_decide_eq_false_2 by done;
    unfold field_lines, field_line; cbn [negb fmap list_fmap concat fst snd connection_fields];
    rewrite <- ?app_assoc; done.
Qed.

Lemma values_of_app n a b : values_of n (a ++ b) = values_of n a ++ values_of n b.
Proof. unfold values_of. by rewrite List.filter_app, fmap_app. Qed.

Lemma is_framing_header_lower a b : lower a = lower b -> is_framing_header a = is_framing_header b.
Proof. intros H. unfold is_framing_header. by rewrite !iequals_bool, H. Qed.

(** What a name is bound to among the handler's fields that are written. *)
Lemma values_of_kept n h :
  values_of n (List.filter (fun f : Field => negb (is_framing_header f.1)) h)
  = if is_framing_header n then [] else values_of n h.
Proof.
  unfold values_of. induction h as [|f h IH]; cbn [List.filter]; [by destruct (is_framing_header n)|].
  destruct (iequals f.1 n) eqn:E.
  - pose proof (is_framing_header_lower f.1 n) as Hl. rewrite Hl by (by apply iequals_lower).
    destruct (is_framing_header n); cbn [negb]; [exact IH|]. cbn [List.filter]. rewrite E. cbn. by rewrite IH.
  - destruct (is_framing_header f.1); cbn [negb List.filter]; rewrite ?E, IH; done.
Qed.

Lemma values_of_has n h : has h n = false -> values_of n h = [].
Proof.
  intros H. unfold values_of. induction h as [|f h IH]; [done|]. rewrite has_cons in H. bool_hyps.
  cbn [List.filter]. rewrite H. auto.
Qed.

(** The number of body bytes the response announces. *)
Definition announced_length (res : Response) : Z :=
  if fd_valid (file res) then file_length res
  else match producer res with
       | Some _ => match stream_length res with Some n => n | None => 0 end
       | None => zlen (res_body res)
       end.

Lemma values_of_single n k v : values_of n [(k, v)] = if iequals k n then [v] else [].
Proof. unfold values_of. cbn [List.filter fst]. by destruct (iequals k n). Qed.

(** The length that goes with the framing is the announced one. *)
Lemma choose_framing_length res opts :
  (choose_framing res opts).1 = ContentLength -> (choose_framing res opts).2 = announced_length res.
Proof.
  unfold choose_framing, announced_length.
  destruct (_ || _); [done|]. destruct (fd_valid _); [done|]. destruct (producer res); [|done].
  destruct (stream_length res); [done|]. by destruct (http10_client opts).
Qed.

(** Every field of the head, by name. *)
Lemma values_of_head n res opts :
  let fr := (choose_framing res opts).1 in
  values_of n (head_fields res opts)
  = (if is_framing_header n then [] else values_of n (res_headers res))
    ++ (if has (res_headers res) (B "Server") then [] else if iequals (B "Server") n then [B "httpd-cpp"] else [])
    ++ (match date opts with [] => [] | d => if iequals (B "Date") n then [d] else [] end)
    ++ (match fr with
        | ContentLength => if iequals (B "Content-Length") n then [to_chars 10 (announced_length res)] else []
        | Chunked => if iequals (B "Transfer-Encoding") n then [B "chunked"] else []
        | _ => []
        end)
    ++ (if negb (ho_keep_alive opts) || bool_decide (fr = CloseDelimited)
        then if iequals (B "Connection") n then [B "close"] else []
        else if http10_client opts then if iequals (B "Connection") n then [B "keep-alive"] else [] else []).
Proof.
  cbn zeta. unfold head_fields, head_keep_alive. rewrite !values_of_app, values_of_kept. repeat f_equal.
  - destruct (has _ _); [done|apply values_of_single].
  - destruct (date opts); [done|apply values_of_single].
  - destruct (choose_framing res opts).1 eqn:E; cbn [framing_fields]; [done| |apply values_of_single|done].
    rewrite (choose_framing_length res opts E). apply values_of_single.
  - rewrite <- (negb_involutive (_ || _)), negb_orb, negb_involutive. unfold connection_fields.
    destruct (_ && _); cbn [negb]; [|apply values_of_single]. destruct (http10_client opts); [apply values_of_single|done].
Qed.

(** Comparisons of literal names. *)
#[local] Ltac literal_names :=
  repeat match goal with
  | |- context [iequals (lit ?a) (lit ?b)] =>
      let v := eval vm_compute in (iequals (lit a) (lit b)) in change (iequals (lit a) (lit b)) with v
  | |- context [is_framing_header (lit ?a)] =>
      let v := eval vm_compute in (is_framing_header (lit a)) in change (is_framing_header (lit a)) with v
  end; cbn iota.

Lemma framing_name_other n k :
  is_framing_header n = false -> is_framing_header k = true -> iequals k n = false.
Proof.
  intros Hn Hk. destruct (iequals k n) eqn:E; [|done]. apply iequals_lower, is_framing_header_lower in E. congruence.
Qed.

(** Every other field of the handler is written as it is. *)
Lemma values_of_head_other n res opts :
  is_framing_header n = false -> iequals (B "Server") n = false -> values_of n (head_fields res opts) = values_of n (res_headers res).
Proof.
  intros Hn Hs. rewrite values_of_head, Hn, Hs, !framing_name_other by done.
  destruct (has _ _), (date opts), (choose_framing res opts).1, (negb _ || _), (http10_client opts); apply app_nil_r.
Qed.

(** The length announced by the head of a response that is framed by length. *)
Lemma content_length_of_head res opts :
  values_of (B "Content-Length") (head_fields res opts)
  = match (choose_framing res opts).1 with ContentLength => [to_chars 10 (announced_length res)] | _ => [] end.
Proof.
  rewrite values_of_head. literal_names. generalize (choose_framing res opts).1. intros fr.
  by destruct (has _ _), (date opts), fr, (ho_keep_alive opts), (http10_client opts).
Qed.

Lemma transfer_encoding_of_head res opts :
  values_of (B "Transfer-Encoding") (head_fields res opts)
  = match (choose_framing res opts).1 with Chunked => [B "chunked"] | _ => [] end.
Proof.
  rewrite values_of_head. literal_names. generalize (choose_framing res opts).1. intros fr.
  by destruct (has _ _), (date opts), fr, (ho_keep_alive opts), (http10_client opts).
Qed.

(** C28: the message a head describes.  The output is the input followed by a status
    line, [name: value] lines and an empty line.  The framing returned is
    the one announced: [Content-Length] exactly once with the length of the
    file, stream or body, or [Transfer-Encoding: chunked] exactly once, or
    neither, whatever fields the handler set; [Connection] says whether the
    connection persists, which it never does for a close-delimited body;
    [Server] and [Date] are supplied, and every other field of the handler
    is written as it is, in order. *)
Theorem write_head_framing (out : bytes) (res : Response) (opts : HeadOptions) :
  let '(out', framing) := write_head out res opts in
  exists fs, out' = out ++ status_line (status res) ++ field_lines fs ++ kCRLF
  /\ values_of (B "Content-Length") fs
     = match framing with ContentLength => [to_chars 10 (announced_length res)] | _ => [] end
  /\ values_of (B "Transfer-Encoding") fs = match framing with Chunked => [B "chunked"] | _ => [] end
  /\ values_of (B "Connection") fs
     = (if negb (ho_keep_alive opts) || bool_decide (framing = CloseDelimited) then [B "close"]
        else if http10_client opts then [B "keep-alive"] else [])
  /\ values_of (B "Date") fs = (match date opts with [] => [] | d => [d] end)
  /\ values_of (B "Server") fs
     = (if has (res_headers res) (B "Server") then values_of (B "Server") (res_headers res) else [B "httpd-cpp"])
  /\ (forall n, is_framing_header n = false -> iequals (B "Server") n = false ->
        values_of n fs = values_of n (res_headers res)).
Proof.
  rewrite write_head_text. exists (head_fields res opts). split; [done|]. rewrite !values_of_head. literal_names.
  generalize (choose_framing res opts).1. intros fr.
  do 4 (split; [by destruct (has _ _), (date opts), fr, (ho_keep_alive opts), (http10_client opts)|]).
  split.
  - destruct (has _ (B "Server")) eqn:Eh; [|rewrite (values_of_has _ _ Eh)];
      destruct (date opts), fr, (negb _ || _), (http10_client opts); by rewrite ?app_nil_r.
  - intros n. apply values_of_head_other.
Qed.
