(* ===== verification/Crc32.v ===== *)
(** * [src/util/crc32.cpp]: table-driven CRC-32

    The table is computed as [make_table] does; the theorems relate the
    table-driven loop to the bit-serial definition of the checksum and show
    that pieces can be fed one after the other. *)

From S2P Require Import Prelude.
From stdpp Require Import numbers.

Open Scope Z_scope.

Definition crc_poly : Z := 0xEDB88320.

(** [c = (c & 1u) ? 0xEDB88320u ^ (c >> 1) : c >> 1]. *)
Definition crc_bit (c : Z) : Z :=
  if negb (Z.land c 1 =? 0) then Z.lxor crc_poly (Z.shiftr c 1) else Z.shiftr c 1.

Definition make_table_entry (i : Z) : Z := Nat.iter 8 crc_bit i.
Definition kTable : list Z := make_table_entry <$> seqZ 0 256.

(** [~crc] on 32 bits. *)
Definition not32 (c : Z) : Z := u32 (Z.lnot c).

Definition crc32_byte (crc : Z) (byte : ascii) : Z :=
  Z.lxor (nth (Z.to_nat (Z.land (Z.lxor crc (code byte)) 255)) kTable 0) (Z.shiftr crc 8).

Definition crc32 (data : bytes) (crc : Z) : Z :=
  not32 (fold_left crc32_byte data (not32 crc)).

(** ** Reference: one bit at a time *)

Definition crc32_ref_byte (crc : Z) (byte : ascii) : Z := Nat.iter 8 crc_bit (Z.lxor crc (code byte)).
Definition crc32_ref (data : bytes) (crc : Z) : Z :=
  Z.lxor (fold_left crc32_ref_byte data (Z.lxor crc (2 ^ 32 - 1))) (2 ^ 32 - 1).

(** ** Lemmas *)

Definition is_u32 (c : Z) : Prop := 0 <= c < 2 ^ 32.

Lemma crc_bit_eq c : crc_bit c = Z.lxor (if Z.testbit c 0 then crc_poly else 0) (Z.shiftr c 1).
Proof.
  unfold crc_bit. change 1 with (Z.ones 1) at 1. rewrite Z.land_ones by lia.
  rewrite Z.bit0_odd. rewrite (Zmod_odd c : c mod 2 ^ 1 = if Z.odd c then 1 else 0).
  destruct (Z.odd c); cbn [Z.eqb negb]; [done|]. by rewrite Z.lxor_0_l.
Qed.

Lemma crc_bit_lxor a b : crc_bit (Z.lxor a b) = Z.lxor (crc_bit a) (crc_bit b).
Proof.
  rewrite !crc_bit_eq, Z.lxor_spec, Z.shiftr_lxor.
  apply Z.bits_inj'. intros i Hi. rewrite !Z.lxor_spec.
  destruct (Z.testbit a 0), (Z.testbit b 0); cbn [xorb]; rewrite ?Z.bits_0;
    destruct (Z.testbit (Z.shiftr a 1) i), (Z.testbit (Z.shiftr b 1) i), (Z.testbit crc_poly i); done.
Qed.

Lemma crc_bits_lxor n a b :
  Nat.iter n crc_bit (Z.lxor a b) = Z.lxor (Nat.iter n crc_bit a) (Nat.iter n crc_bit b).
Proof. induction n as [|n IH]; [done|]. rewrite !Nat.iter_succ, IH. apply crc_bit_lxor. Qed.

Lemma crc_bit_shiftl x k : 0 <= k -> crc_bit (Z.shiftl x (k + 1)) = Z.shiftl x k.
Proof.
  intros Hk. rewrite crc_bit_eq, Z.shiftl_spec_low by lia. rewrite Z.lxor_0_l.
  rewrite Z.shiftr_shiftl_l by lia. f_equal. lia.
Qed.

Lemma crc_bits_shiftl n x : Nat.iter n crc_bit (Z.shiftl x (Z.of_nat n)) = x.
Proof.
  induction n as [|n IH]; [apply Z.shiftl_0_r|].
  rewrite Nat.iter_succ_r, Nat2Z.inj_succ. unfold Z.succ. rewrite crc_bit_shiftl by lia. apply IH.
Qed.

Lemma split_low8 c : c = Z.lxor (Z.land c 255) (Z.shiftl (Z.shiftr c 8) 8).
Proof.
  apply Z.bits_inj'. intros i Hi. rewrite Z.lxor_spec, Z.land_spec.
  change 255 with (Z.ones 8). destruct (Z.lt_ge_cases i 8) as [H|H].
  - rewrite Z.shiftl_spec_low by lia. rewrite Z.ones_spec_low by lia. by rewrite andb_true_r, xorb_false_r.
  - rewrite Z.ones_spec_high by lia. rewrite andb_false_r, Z.shiftl_spec_high by lia.
    rewrite Z.shiftr_spec by lia. by replace (i - 8 + 8) with i by lia.
Qed.

Lemma kTable_lookup i : 0 <= i < 256 -> nth (Z.to_nat i) kTable 0 = make_table_entry i.
Proof.
  intros H. unfold kTable. apply nth_lookup_Some. rewrite list_lookup_fmap, lookup_seqZ_lt by lia.
  by rewrite Z2Nat.id by lia.
Qed.

(** One byte through the table is eight bits through the register. *)
Lemma crc32_byte_ref crc b : 0 <= crc -> crc32_byte crc b = crc32_ref_byte crc b.
Proof.
  intros Hc. unfold crc32_byte, crc32_ref_byte. pose proof (code_range b).
  set (x := Z.lxor crc (code b)).
  assert (0 <= Z.land x 255 < 256) as Hx.
  { change 255 with (Z.ones 8). rewrite Z.land_ones by lia. apply Z.mod_pos_bound. lia. }
  rewrite kTable_lookup by done. rewrite (split_low8 x) at 2. rewrite crc_bits_lxor.
  rewrite (crc_bits_shiftl 8 : forall y, Nat.iter 8 crc_bit (Z.shiftl y 8) = y). unfold make_table_entry. f_equal.
  unfold x. rewrite Z.shiftr_lxor. rewrite (Z.shiftr_div_pow2 (code b)), (Z.div_small (code b)) by lia.
  by rewrite Z.lxor_0_r.
Qed.

Lemma lxor_u32 a b : is_u32 a -> is_u32 b -> is_u32 (Z.lxor a b).
Proof.
  unfold is_u32. intros Ha Hb. assert (0 <= Z.lxor a b) by (apply Z.lxor_nonneg; lia). split; [done|].
  destruct (Z.eq_dec (Z.lxor a b) 0) as [->|Hn]; [lia|]. apply Z.log2_lt_pow2; [lia|].
  eapply Z.le_lt_trans; [apply Z.log2_lxor; lia|].
  assert (forall x, 0 <= x < 2 ^ 32 -> Z.log2 x < 32) as Hlog.
  { intros x Hx. destruct (Z.eq_dec x 0) as [->|]; [done|]. apply Z.log2_lt_pow2; lia. }
  apply Z.max_lub_lt; auto.
Qed.

Lemma crc_bit_u32 c : is_u32 c -> is_u32 (crc_bit c).
Proof.
  intros Hc. rewrite crc_bit_eq. apply lxor_u32; [destruct (Z.testbit c 0); split; vm_compute; done|].
  unfold is_u32 in *. rewrite Z.shiftr_div_pow2 by lia. change (2 ^ 1) with 2.
  pose proof (Z.div_le_upper_bound c 2 c). pose proof (Z.div_pos c 2). lia.
Qed.

Lemma crc32_ref_byte_u32 c b : is_u32 c -> is_u32 (crc32_ref_byte c b).
Proof.
  intros Hc. pose proof (code_range b). unfold crc32_ref_byte. generalize 8%nat as n. intros n.
  induction n as [|n IH]; [apply lxor_u32; [done|unfold is_u32; lia]|]. rewrite Nat.iter_succ. by apply crc_bit_u32.
Qed.

Lemma fold_crc32_ref data c :
  is_u32 c -> fold_left crc32_byte data c = fold_left crc32_ref_byte data c
  /\ is_u32 (fold_left crc32_ref_byte data c).
Proof.
  revert c. induction data as [|b data IH]; intros c Hc; [done|]. cbn [fold_left].
  rewrite crc32_byte_ref by (unfold is_u32 in Hc; lia). apply IH. by apply crc32_ref_byte_u32.
Qed.

Lemma not32_lxor c : is_u32 c -> not32 c = Z.lxor c (2 ^ 32 - 1).
Proof.
  intros Hc. unfold not32, u32, is_u32 in *. replace (2 ^ 32 - 1) with (Z.ones 32) by done.
  apply Z.bits_inj'. intros i Hi. rewrite Z.lxor_spec. destruct (Z.lt_ge_cases i 32) as [H|H].
  - rewrite Z.mod_pow2_bits_low, Z.lnot_spec, Z.ones_spec_low by lia. by destruct (Z.testbit c i).
  - rewrite Z.mod_pow2_bits_high, Z.ones_spec_high by lia.
    rewrite <- (Z.mod_small c (2 ^ 32)) by lia. by rewrite Z.mod_pow2_bits_high by lia.
Qed.

Lemma not32_u32 c : is_u32 (not32 c).
Proof. apply u32_range. Qed.

Lemma not32_involutive c : is_u32 c -> not32 (not32 c) = c.
Proof.
  intros Hc. rewrite (not32_lxor (not32 c)) by apply not32_u32. rewrite not32_lxor by done.
  by rewrite Z.lxor_assoc, Z.lxor_nilpotent, Z.lxor_0_r.
Qed.

Lemma crc32_range data crc : is_u32 (crc32 data crc).
Proof. apply not32_u32. Qed.

(** Passing the result for [a] back in continues with [b]. *)
Lemma crc32_resume a b crc : crc32 b (crc32 a crc) = crc32 (a ++ b) crc.
Proof.
  unfold crc32. rewrite fold_left_app.
  destruct (fold_crc32_ref a (not32 crc) (not32_u32 crc)) as [-> Hr]. by rewrite not32_involutive.
Qed.

Lemma crc32_pieces pieces crc :
  is_u32 crc -> fold_left (fun c piece => crc32 piece c) pieces crc = crc32 (concat pieces) crc.
Proof.
  revert crc. induction pieces as [|a pieces IH]; intros crc Hc; cbn [fold_left concat].
  - unfold crc32. cbn [fold_left]. by rewrite not32_involutive.
  - rewrite IH by apply crc32_range. apply crc32_resume.
Qed.

(** C40: the table-driven checksum is the bit-serial CRC-32 (reflected polynomial
    0xEDB88320, initial value and final inversion all ones) for every input,
    it stays within 32 bits, and feeding any number of successive pieces,
    passing the previous result back in each time, gives the checksum of
    their concatenation. *)
Theorem crc32_correct (pieces : list bytes) (crc : Z) :
  0 <= crc < 2 ^ 32 ->
  fold_left (fun c piece => crc32 piece c) pieces crc = crc32_ref (concat pieces) crc
  /\ 0 <= crc32_ref (concat pieces) crc < 2 ^ 32.
Proof.
  intros Hc. rewrite crc32_pieces by done. assert (crc32 (concat pieces) crc = crc32_ref (concat pieces) crc) as ->.
  - unfold crc32, crc32_ref. destruct (fold_crc32_ref (concat pieces) (not32 crc) (not32_u32 crc)) as [-> Hr].
    rewrite (not32_lxor (fold_left _ _ _)) by done. by rewrite not32_lxor.
  - split; [done|]. unfold crc32_ref. apply lxor_u32; [|done]. apply fold_crc32_ref. apply lxor_u32; done.
Qed.

Lemma crc32_correct_witness :
  fold_left (fun c piece => crc32 piece c) [B "1234"; []; B "56789"] 0 = 0xCBF43926.
Proof.
  destruct (crc32_correct [B "1234"; []; B "56789"] 0) as [E _]; [lia|]. rewrite E. vm_compute. reflexivity.
Defined.
