(* ===== verification/ByteBuffer.v ===== *)
(** * [src/util/byte_buffer.hpp]: the socket input buffer

    The buffer is modelled with its storage, capacity and positions;
    [size_t] arithmetic wraps.  [garbage n] is what [new char\[n\]] leaves in
    fresh storage (it is not initialised).  The client of the buffer, the
    connection, is modelled against the interface [InBuffer]: a queue of
    bytes.  [ByteBuffer_laws] discharges it. *)

From S2P Require Import Prelude.

Open Scope Z_scope.

(** ** Interface: a byte queue filled by a syscall

    [ib_receive t n bs]: [prepare(n)], a syscall that writes [bs] at the
    pointer returned, [commit(bs.size())].  [None]: [prepare] does not return. *)
Class InBuffer (T : Type) := {
  ib_empty : T;
  ib_readable : T -> bytes;
  ib_size : T -> Z;
  ib_receive : T -> Z -> bytes -> option T;
  ib_consume : T -> Z -> T;
  ib_wf : T -> Prop }.

(** The largest amount of live data plus room that can be asked for. *)
Definition ib_max : Z := 2 ^ 62.

Class InBufferLaws (T : Type) `{InBuffer T} := {
  ib_empty_wf : ib_wf ib_empty;
  ib_empty_readable : ib_readable ib_empty = [];
  ib_size_readable : forall t, ib_wf t -> ib_size t = zlen (ib_readable t);
  ib_receive_spec : forall t n bs,
    ib_wf t -> zlen bs <= n -> zlen (ib_readable t) + n <= ib_max ->
    exists t', ib_receive t n bs = Some t' /\ ib_wf t' /\ ib_readable t' = ib_readable t ++ bs;
  ib_consume_spec : forall t n,
    ib_wf t -> 0 <= n <= zlen (ib_readable t) ->
    ib_wf (ib_consume t n) /\ ib_readable (ib_consume t n) = drop (Z.to_nat n) (ib_readable t) }.

(** The specification itself is the simplest implementation. *)
#[export] Instance bytes_buffer : InBuffer bytes := {
  ib_empty := [];
  ib_readable := id;
  ib_size := zlen;
  ib_receive t _ bs := Some (t ++ bs);
  ib_consume t n := drop (Z.to_nat n) t;
  ib_wf _ := True }.

#[export] Instance bytes_buffer_laws : InBufferLaws bytes.
Proof. split; cbn; eauto. Qed.

(** ** The class *)

Module ByteBuffer.

Record t := mk {
  data_ : bytes;
  cap_ : Z;
  rpos_ : Z;
  wpos_ : Z }.

Definition new : t := mk [] 0 0 0.

(** The [n] bytes at [p]. *)
Definition slice (s : bytes) (p n : Z) : bytes := take (Z.to_nat n) (drop (Z.to_nat p) s).

(** [memcpy]/[memmove] of [src] to the start of [dst]. *)
Definition copy_front (dst src : bytes) : bytes := src ++ drop (length src) dst.

Definition readable (b : t) : bytes := slice (data_ b) (rpos_ b) (u64 (wpos_ b - rpos_ b)).
Definition size (b : t) : Z := u64 (wpos_ b - rpos_ b).
Definition empty (b : t) : bool := rpos_ b =? wpos_ b.
Definition writable (b : t) : Z := u64 (cap_ b - wpos_ b).

Definition consume (b : t) (n : Z) : t :=
  let rpos := u64 (rpos_ b + n) in
  if rpos =? wpos_ b then mk (data_ b) (cap_ b) 0 0 else mk (data_ b) (cap_ b) rpos (wpos_ b).

(** [while (new_cap - live < n) new_cap *= 2]; [None] when the fuel is used up. *)
Fixpoint grow (fuel : nat) (new_cap live n : Z) : option Z :=
  if u64 (new_cap - live) <? n then
    match fuel with
    | O => None
    | S f => grow f (u64 (new_cap * 2)) live n
    end
  else Some new_cap.

Section Storage.
Variable garbage : Z -> bytes.

(** Doubling a positive [size_t] 64 times makes it 0, where it stays. *)
Definition prepare (b : t) (n : Z) : option t :=
  if u64 (cap_ b - wpos_ b) >=? n then Some b
  else
    let live := size b in
    if (rpos_ b >? 0) && (u64 (cap_ b - live) >=? n) then
      Some (mk (copy_front (data_ b) (slice (data_ b) (rpos_ b) live)) (cap_ b) 0 live)
    else
      match grow 64 (if cap_ b =? 0 then 4096 else cap_ b) live n with
      | None => None
      | Some new_cap =>
          let grown := if live =? 0 then garbage new_cap
                       else copy_front (garbage new_cap) (slice (data_ b) (rpos_ b) live) in
          Some (mk grown new_cap 0 live)
      end.

Definition commit (b : t) (n : Z) : t := mk (data_ b) (cap_ b) (rpos_ b) (u64 (wpos_ b + n)).

(** The syscall writes at [data_.get() + wpos_]. *)
Definition poke (b : t) (bs : bytes) : t :=
  mk (take (Z.to_nat (wpos_ b)) (data_ b) ++ bs ++ drop (Z.to_nat (wpos_ b) + length bs) (data_ b))
     (cap_ b) (rpos_ b) (wpos_ b).

Definition receive (b : t) (n : Z) (bs : bytes) : option t :=
  match prepare b n with
  | None => None
  | Some b' => Some (commit (poke b' bs) (zlen bs))
  end.

(** ** Invariant and refinement *)

Definition wf (b : t) : Prop :=
  0 <= rpos_ b <= wpos_ b /\ wpos_ b <= cap_ b /\ cap_ b = zlen (data_ b) /\ cap_ b <= 2 ^ 63.

#[local] Ltac sizes :=
  cbn [data_ cap_ rpos_ wpos_] in *; unfold zlen, copy_front, slice, ib_max in *;
  rewrite ?length_app, ?length_take, ?length_drop in *; try lia.

Lemma size_eq b : wf b -> size b = wpos_ b - rpos_ b.
Proof. intros (?&?&?&?). apply u64_small. lia. Qed.

Lemma readable_len b : wf b -> zlen (readable b) = wpos_ b - rpos_ b.
Proof. intros Hwf. pose proof (size_eq b Hwf) as Hs. unfold size in Hs. destruct Hwf as (?&?&?&?). unfold readable. rewrite Hs. sizes. Qed.

Lemma empty_readable b : wf b -> empty b = bool_decide (readable b = []).
Proof.
  intros Hwf. pose proof (readable_len b Hwf). unfold empty. case_bool_decide as E.
  - rewrite E in *. unfold zlen in *. cbn in *. lia.
  - apply Z.eqb_neq. intros Heq. apply E, zlen_nil_inv. lia.
Qed.

Lemma consume_wf b n :
  wf b -> 0 <= n <= zlen (readable b) ->
  wf (consume b n) /\ readable (consume b n) = drop (Z.to_nat n) (readable b).
Proof.
  intros Hwf Hn. rewrite (readable_len b Hwf) in Hn. pose proof Hwf as (?&?&?&?).
  unfold consume. rewrite u64_small by lia. destruct (rpos_ b + n =? wpos_ b) eqn:E.
  - split; [unfold wf; cbn; lia|]. symmetry. unfold readable at 2. cbn [data_ rpos_ wpos_].
    change (slice _ 0 (u64 (0 - 0))) with (@nil ascii). apply drop_ge. pose proof (readable_len b Hwf). sizes.
  - split; [unfold wf; cbn; lia|]. unfold readable, slice. cbn [data_ rpos_ wpos_].
    rewrite !u64_small by lia. rewrite skipn_firstn_comm, drop_drop. f_equal; [lia|]. f_equal. lia.
Qed.

(** The doubling loop returns within its fuel, and what it returns has room and is less than twice what is needed. *)
Lemma grow_spec fuel c live n :
  0 <= live <= c -> 0 < c -> live + n <= ib_max -> ib_max <= c * 2 ^ Z.of_nat fuel -> c <= 2 ^ 63 ->
  exists c', grow fuel c live n = Some c' /\ live + n <= c' /\ c <= c' /\ c' <= Z.max c (2 * (live + n)).
Proof.
  revert c. induction fuel as [|f IH]; intros c Hl Hc Hn Hf Hm; unfold ib_max in *.
  - cbn [grow]. rewrite u64_small by lia. destruct (Z.ltb_spec (c - live) n); [lia|]. exists c. split; [done|lia].
  - cbn [grow]. rewrite u64_small by lia. destruct (Z.ltb_spec (c - live) n); [|exists c; split; [done|lia]].
    rewrite u64_small by lia. rewrite Nat2Z.inj_succ, Z.pow_succ_r in Hf by lia.
    destruct (IH (c * 2)) as (c' & ? & ? & ? & ?); [lia..|]. exists c'. split; [done|lia].
Qed.

Context (garbage_len : forall n, 0 <= n -> zlen (garbage n) = n).

(** [prepare] returns, keeps the live bytes and leaves room for [n]. *)
Lemma prepare_spec b n :
  wf b -> 0 <= n -> zlen (readable b) + n <= ib_max ->
  exists b', prepare b n = Some b' /\ wf b' /\ readable b' = readable b /\ n <= writable b'.
Proof.
  intros Hwf Hn Hmax. pose proof (readable_len b Hwf) as Hlen. rewrite Hlen in Hmax.
  pose proof Hwf as (?&?&?&?). unfold prepare, writable. rewrite (size_eq b Hwf), !u64_small by lia.
  set (live := wpos_ b - rpos_ b) in *. assert (zlen (slice (data_ b) (rpos_ b) live) = live) as Hs by sizes.
  assert (forall d c, c = zlen d -> live <= c -> c <= 2 ^ 63 -> n <= c - live ->
    let b' := mk (copy_front d (slice (data_ b) (rpos_ b) live)) c 0 live in
    wf b' /\ readable b' = readable b /\ n <= u64 (c - live)) as Hmove.
  { intros d c -> Hc Hc2 Hroom. cbn zeta. repeat split; cbn [data_ cap_ rpos_ wpos_]; [lia..|sizes|lia| |].
    - unfold readable, copy_front. cbn [data_ rpos_ wpos_]. rewrite !u64_small by lia.
      fold live. unfold slice at 1. change (Z.to_nat 0) with 0%nat. rewrite drop_0, Z.sub_0_r.
      rewrite take_app_le by sizes. apply take_ge. sizes.
    - rewrite u64_small by lia. lia. }
  destruct (cap_ b - wpos_ b >=? n) eqn:E1.
  { exists b. split; [done|]. rewrite u64_small by lia. split; [done|]. split; [done|lia]. }
  destruct ((rpos_ b >? 0) && (cap_ b - live >=? n)) eqn:E2.
  { bool_hyps. eexists. split; [done|]. apply Hmove; cbn [cap_]; lia. }
  destruct (grow_spec 64 (if cap_ b =? 0 then 4096 else cap_ b) live n) as (c' & -> & Hc' & Hc2 & Hc3);
    [destruct (cap_ b =? 0) eqn:?; unfold ib_max in *; try lia..|].
  eexists. split; [done|]. unfold ib_max in *.
  assert (0 <= c' <= 2 ^ 63) by (destruct (cap_ b =? 0) eqn:?; lia).
  destruct (live =? 0) eqn:E0.
  - replace (garbage c') with (copy_front (garbage c') (slice (data_ b) (rpos_ b) live)).
    { apply Hmove; cbn [cap_]; rewrite ?garbage_len; lia. }
    replace live with 0 by lia. done.
  - apply Hmove; cbn [cap_]; rewrite ?garbage_len; lia.
Qed.

Lemma receive_spec b n bs :
  wf b -> zlen bs <= n -> zlen (readable b) + n <= ib_max ->
  exists b', receive b n bs = Some b' /\ wf b' /\ readable b' = readable b ++ bs.
Proof.
  intros Hwf Hbs Hmax. pose proof (zlen_nonneg bs).
  destruct (prepare_spec b n Hwf ltac:(lia) Hmax) as (b1 & Hp & Hwf1 & Hr & Hw).
  unfold receive. rewrite Hp. eexists. split; [done|]. rewrite <- Hr. unfold writable in Hw.
  pose proof Hwf1 as (?&?&?&?). rewrite u64_small in Hw by lia.
  unfold commit, poke, wf, readable. cbn [data_ cap_ rpos_ wpos_].
  rewrite !u64_small by (unfold ib_max in *; lia). split; [sizes|].
  unfold slice. rewrite drop_app_le by sizes. rewrite skipn_firstn_comm.
  rewrite app_assoc, take_app_le by sizes. replace (Z.to_nat (wpos_ b1) - Z.to_nat (rpos_ b1))%nat
    with (Z.to_nat (wpos_ b1 - rpos_ b1)) by lia. apply take_ge. sizes.
Qed.

End Storage.

#[export] Instance buffer (garbage : Z -> bytes) : InBuffer t := {
  ib_empty := new;
  ib_readable := readable;
  ib_size := size;
  ib_receive := receive garbage;
  ib_consume := consume;
  ib_wf := wf }.

Definition storage_ok (garbage : Z -> bytes) : Prop := forall n, 0 <= n -> zlen (garbage n) = n.

End ByteBuffer.
Import ByteBuffer.

Lemma ByteBuffer_laws (garbage : Z -> bytes) :
  storage_ok garbage -> @InBufferLaws ByteBuffer.t (ByteBuffer.buffer garbage).
Proof.
  intros Hg. split; cbn.
  - unfold wf, zlen. cbn [new data_ cap_ rpos_ wpos_ length]. lia.
  - done.
  - intros b Hb. rewrite size_eq, readable_len by done. done.
  - intros b n bs. by apply receive_spec.
  - intros b n. by apply consume_wf.
Qed.

(** ** Sequences of operations *)

Inductive buf_op := OpReceive (n : Z) (bs : bytes) | OpConsume (n : Z).

Definition op_run {T} `{InBuffer T} (t : T) (o : buf_op) : option T :=
  match o with
  | OpReceive n bs => ib_receive t n bs
  | OpConsume n => Some (ib_consume t n)
  end.

(** The operation is within the caller's obligations on a queue holding [q]. *)
Definition op_ok (q : bytes) (o : buf_op) : Prop :=
  match o with
  | OpReceive n bs => zlen bs <= n /\ zlen q + n <= ib_max
  | OpConsume n => 0 <= n <= zlen q
  end.

Definition op_spec (q : bytes) (o : buf_op) : bytes :=
  match o with
  | OpReceive _ bs => q ++ bs
  | OpConsume n => drop (Z.to_nat n) q
  end.

Fixpoint ops_ok (q : bytes) (os : list buf_op) : Prop :=
  match os with
  | [] => True
  | o :: os' => op_ok q o /\ ops_ok (op_spec q o) os'
  end.

Fixpoint ops_run {T} `{InBuffer T} (t : T) (os : list buf_op) : option T :=
  match os with
  | [] => Some t
  | o :: os' => t' ← op_run t o; ops_run t' os'
  end.

Lemma ops_refine {T} `{InBufferLaws T} (t : T) os :
  ib_wf t -> ops_ok (ib_readable t) os ->
  exists t', ops_run t os = Some t' /\ ib_wf t' /\ ib_readable t' = fold_left op_spec os (ib_readable t).
Proof.
  revert t. induction os as [|o os IH]; intros t Hwf Hok; [by exists t|]. destruct Hok as [Ho Hok].
  assert (exists t', op_run t o = Some t' /\ ib_wf t' /\ ib_readable t' = op_spec (ib_readable t) o)
    as (t' & Hrun & Hwf' & Hr).
  { destruct o as [n bs|n]; cbn [op_run op_ok op_spec] in *; [destruct Ho; by apply ib_receive_spec|].
    eexists. split; [done|]. by apply ib_consume_spec. }
  cbn [ops_run fold_left]. rewrite Hrun. cbn. rewrite <- Hr in Hok |- *. by apply IH.
Qed.

(** C36: the buffer refines a byte queue.  Whatever sequence of socket reads and
    consumptions is performed on a fresh buffer, every [prepare] returns
    (the doubling loop ends), the positions stay ordered within the storage
    and the readable bytes are exactly the bytes received and not yet
    consumed, in order, whatever fresh storage holds. *)
Theorem byte_buffer_refines_queue (garbage : Z -> bytes) (os : list buf_op) :
  storage_ok garbage -> ops_ok [] os ->
  exists b, @ops_run _ (ByteBuffer.buffer garbage) ByteBuffer.new os = Some b
    /\ ByteBuffer.wf b
    /\ ByteBuffer.readable b = fold_left op_spec os []
    /\ ByteBuffer.size b = zlen (fold_left op_spec os []).
Proof.
  intros Hg Hok. pose proof (ByteBuffer_laws garbage Hg) as Hlaws.
  destruct (@ops_refine _ _ Hlaws ByteBuffer.new os) as (b & Hrun & Hwf & Hr); [apply (@ib_empty_wf _ _ Hlaws)|done|].
  exists b. split; [done|]. split; [done|]. split; [done|].
  change (fold_left op_spec os []) with (fold_left op_spec os (@ib_readable _ (buffer garbage) ByteBuffer.new)).
  rewrite <- Hr. by apply (@ib_size_readable _ _ Hlaws).
Qed.

Definition demo_ops : list buf_op := [OpReceive 16384 (B "GET / HTTP/1.1"); OpConsume 4; OpReceive 16384 (B "more")].

Lemma byte_buffer_refines_queue_witness :
  exists b, @ops_run _ (ByteBuffer.buffer (fun n => replicate (Z.to_nat n) SP)) ByteBuffer.new demo_ops = Some b
    /\ ByteBuffer.wf b
    /\ ByteBuffer.readable b = fold_left op_spec demo_ops []
    /\ ByteBuffer.size b = zlen (fold_left op_spec demo_ops []).
Proof.
  apply byte_buffer_refines_queue.
  - intros n Hn. unfold zlen. rewrite length_replicate. lia.
  - vm_compute. repeat split; intros [=].
Defined.
