(* ===== verification/UniqueFd.v ===== *)
(** * [src/util/unique_fd.hpp]: ownership of file descriptors

    An owner is its member [fd_] ([-1]: empty); the calls of [::close] are the
    list an operation returns.  A program is a sequence of operations on
    named owners; [world] records the live owners, what was closed, and what
    was handed in and out. *)

From S2P Require Import Prelude.
From stdpp Require Import fin_maps.

Open Scope Z_scope.

(** ** The class *)

(** [UniqueFd() noexcept = default]. *)
Definition UniqueFd_new : Z := -1.
Definition valid (fd_ : Z) : bool := fd_ >=? 0.

(** [release()]: the descriptor returned and the new [fd_]. *)
Definition release (fd_ : Z) : Z * Z := (fd_, -1).

(** [reset(fd)]: the descriptors closed and the new [fd_]. *)
Definition reset (fd_ fd : Z) : list Z * Z := (if fd_ >=? 0 then [fd_] else [], fd).

(** [~UniqueFd()]. *)
Definition destroy (fd_ : Z) : list Z := (reset fd_ (-1)).1.

(** ** Programs over owners *)

Inductive fd_op : Set :=
  | Construct (v : nat) (fd : Z)
  | MoveConstruct (v from : nat)
  | MoveAssign (v from : nat)
  | Reset (v : nat) (fd : Z)
  | Release (v : nat)
  | Destroy (v : nat).

Record world := mkWorld {
  owners : gmap nat Z;
  closed : list Z;
  acquired : list Z;
  released : list Z }.

Definition world_new : world := mkWorld ∅ [] [] [].

(** The descriptors among the values handed around. *)
Definition fds (l : list Z) : list Z := filter (fun fd => valid fd = true) l.

(** [None]: the operation names an owner that is not alive, or constructs one that is. *)
Definition fd_step (w : world) (o : fd_op) : option world :=
  match o with
  | Construct v fd =>
      match owners w !! v with
      | Some _ => None
      | None => Some (mkWorld (<[v := fd]> (owners w)) (closed w) (acquired w ++ fds [fd]) (released w))
      end
  | MoveConstruct v from =>
      match owners w !! v, owners w !! from with
      | None, Some x =>
          let '(fd, x') := release x in
          Some (mkWorld (<[v := fd]> (<[from := x']> (owners w))) (closed w) (acquired w) (released w))
      | _, _ => None
      end
  | MoveAssign v from =>
      match owners w !! v, owners w !! from with
      | Some _, Some x =>
          if decide (v = from) then Some w
          else
            let '(fd, x') := release x in
            let m := <[from := x']> (owners w) in
            match m !! v with
            | None => None
            | Some y =>
                let '(cl, y') := reset y fd in
                Some (mkWorld (<[v := y']> m) (closed w ++ cl) (acquired w) (released w))
            end
      | _, _ => None
      end
  | Reset v fd =>
      match owners w !! v with
      | None => None
      | Some y =>
          let '(cl, y') := reset y fd in
          Some (mkWorld (<[v := y']> (owners w)) (closed w ++ cl) (acquired w ++ fds [fd]) (released w))
      end
  | Release v =>
      match owners w !! v with
      | None => None
      | Some x =>
          let '(fd, x') := release x in
          Some (mkWorld (<[v := x']> (owners w)) (closed w) (acquired w) (released w ++ fds [fd]))
      end
  | Destroy v =>
      match owners w !! v with
      | None => None
      | Some x => Some (mkWorld (base.delete v (owners w)) (closed w ++ destroy x) (acquired w) (released w))
      end
  end.

Fixpoint fd_run (w : world) (os : list fd_op) : option world :=
  match os with
  | [] => Some w
  | o :: os' => w' ← fd_step w o; fd_run w' os'
  end.

(** ** Conservation of descriptors *)

Definition held (m : gmap nat Z) : list Z := fds (map_to_list m).*2.

Definition conserved (w : world) : Prop :=
  held (owners w) ++ closed w ++ released w ≡ₚ acquired w.

Lemma fds_app a b : fds (a ++ b) = fds a ++ fds b.
Proof. apply filter_app. Qed.

Lemma fds_cons x l : fds (x :: l) = fds [x] ++ fds l.
Proof. apply (fds_app [x]). Qed.

#[export] Instance fds_proper : Proper ((≡ₚ) ==> (≡ₚ)) fds.
Proof. intros l k H. unfold fds. by rewrite H. Qed.

Lemma held_insert m v fd : m !! v = None -> held (<[v := fd]> m) ≡ₚ fds [fd] ++ held m.
Proof.
  intros H. unfold held. rewrite (map_to_list_insert m v fd H). cbn [fmap list_fmap]. by rewrite fds_cons.
Qed.

Lemma held_lookup m v x : m !! v = Some x -> held m ≡ₚ fds [x] ++ held (base.delete v m).
Proof.
  intros H. rewrite <- (insert_delete_id m v x H) at 1. apply held_insert. apply lookup_delete_eq.
Qed.

(** Replacing what [v] holds. *)
Lemma held_update m v x y : m !! v = Some x -> fds [x] ++ held (<[v := y]> m) ≡ₚ fds [y] ++ held m.
Proof.
  intros H. rewrite <- (insert_delete_eq m v y), held_insert by apply lookup_delete_eq.
  rewrite (held_lookup m v x H). rewrite !app_assoc. f_equiv. apply Permutation_app_comm.
Qed.

Lemma fds_none : fds [-1] = [].
Proof. reflexivity. Qed.

Lemma closed_by_reset x fd : reset x fd = (fds [x], fd).
Proof. unfold reset, fds, valid. cbn. destruct (x >=? 0) eqn:E; cbn; by rewrite ?decide_True, ?decide_False by congruence. Qed.

Lemma held_update_none m v x : m !! v = Some x -> fds [x] ++ held (<[v := -1]> m) ≡ₚ held m.
Proof. intros H. by rewrite held_update by done. Qed.

(** Moving what [from] holds into [v], closing what [v] held. *)
Lemma held_move m v from x y :
  v <> from -> m !! from = Some x -> m !! v = Some y ->
  fds [y] ++ held (<[v := x]> (<[from := -1]> m)) ≡ₚ held m.
Proof.
  intros Hne Hf Hv. rewrite held_update by (rewrite lookup_insert_ne; done). by apply held_update_none.
Qed.

(** Every operation conserves descriptors. *)
Lemma fd_step_conserved w o w' : fd_step w o = Some w' -> conserved w -> conserved w'.
Proof.
  unfold conserved. intros Hs Hc.
  destruct o as [v fd|v from|v from|v fd|v|v]; cbn [fd_step release] in Hs;
    destruct (owners w !! v) as [y|] eqn:Hv; try discriminate.
  - injection Hs as <-. cbn [owners closed acquired released].
    rewrite <- Hc, held_insert by done. solve_Permutation.
  - destruct (owners w !! from) as [x|] eqn:Hf; [|done]. injection Hs as <-. cbn [owners closed acquired released].
    rewrite <- Hc, held_insert by (rewrite lookup_insert_ne; congruence).
    rewrite <- (held_update_none (owners w) from x) by done. solve_Permutation.
  - destruct (owners w !! from) as [x|] eqn:Hf; [|done]. destruct (decide (v = from)); [by simplify_eq|].
    rewrite lookup_insert_ne, Hv, closed_by_reset in Hs by done. injection Hs as <-.
    cbn [owners closed acquired released].
    rewrite <- Hc. rewrite <- (held_move (owners w) v from x y) by done. solve_Permutation.
  - rewrite closed_by_reset in Hs. injection Hs as <-. cbn [owners closed acquired released]. rewrite <- Hc.
    transitivity ((fds [y] ++ held (<[v := fd]> (owners w))) ++ closed w ++ released w); [solve_Permutation|].
    rewrite held_update by done. solve_Permutation.
  - injection Hs as <-. cbn [owners closed acquired released].
    rewrite <- Hc. rewrite <- (held_update_none (owners w) v y) by done. solve_Permutation.
  - injection Hs as <-. cbn [owners closed acquired released].
    rewrite <- Hc. unfold destroy. rewrite closed_by_reset. cbn [fst].
    rewrite (held_lookup (owners w) v y) by done. solve_Permutation.
Qed.

Lemma fd_run_conserved os w w' : fd_run w os = Some w' -> conserved w -> conserved w'.
Proof.
  revert w. induction os as [|o os IH]; intros w H Hc; cbn in H; [by simplify_eq|].
  destruct (fd_step w o) eqn:E; [|done]. eauto using fd_step_conserved.
Qed.

(** C37: descriptors are never leaked and never closed twice.  After any sequence of
    constructions, moves (self-moves included), resets, releases and
    destructions, the descriptors handed in are exactly those held by a live
    owner, those closed and those released, each counted once; so when every
    owner is gone and none was released, each descriptor handed in has been
    closed exactly once. *)
Theorem unique_fd_closed_once (os : list fd_op) (w : world) :
  fd_run world_new os = Some w ->
  held (owners w) ++ closed w ++ released w ≡ₚ acquired w
  /\ (NoDup (acquired w) -> NoDup (held (owners w) ++ closed w ++ released w))
  /\ (owners w = ∅ -> released w = [] -> closed w ≡ₚ acquired w).
Proof.
  intros H. pose proof (fd_run_conserved os world_new w H) as Hc.
  specialize (Hc ltac:(unfold conserved; reflexivity)). unfold conserved in Hc. split; [done|]. split.
  - by rewrite Hc.
  - intros Ho Hr. rewrite Ho, Hr, app_nil_r in Hc. done.
Qed.

Definition demo_program : list fd_op :=
  [Construct 0 7; Construct 1 (-1); MoveAssign 1 0; MoveAssign 1 1; Reset 1 9; Destroy 0; Destroy 1].

Lemma unique_fd_closed_once_witness :
  exists w, fd_run world_new demo_program = Some w /\ closed w = [7; 9] /\ closed w ≡ₚ acquired w.
Proof.
  eexists. split; [vm_compute; reflexivity|]. split; [reflexivity|].
  eapply (unique_fd_closed_once demo_program); [vm_compute; reflexivity|reflexivity..].
Defined.
