(* ===== verification/Router.v ===== *)
(** * [src/server/router.{hpp,cpp}]: dispatch by path and method

    A handler fills the response it is given or throws a [std::exception],
    whose [what()] is the error value.  Handlers may read and change the
    world outside the connection (files, clocks, counters of the other
    workers): its state [K] is passed through. *)

From S2P Require Import Prelude Headers RequestParser Numbers ParserFacts Response.

(** ** The class *)

Section Router.
Context {K : Type}.

Definition Handler : Type := K -> Request -> Response -> (Response + bytes) * K.

Record Route := mkRoute {
  rt_method : bytes;
  rt_path : bytes;
  rt_prefix : bool;
  rt_handler : Handler }.

Definition Router : Type := list Route.

Definition Router_add (routes_ : Router) (method path : bytes) (handler : Handler) : Router :=
  routes_ ++ [mkRoute method path false handler].

Definition Router_add_prefix (routes_ : Router) (method prefix : bytes) (handler : Handler) : Router :=
  routes_ ++ [mkRoute method prefix true handler].

(** [bool match = …]; [compare(0, n, p) == 0] is a test for the prefix [p]. *)
Definition route_match (req : Request) (r : Route) : bool :=
  if rt_prefix r then starts_with (rt_path r) (path req) else bytes_eqb (path req) (rt_path r).

(** The [try]/[catch] around the call of the handler. *)
Definition run_handler (r : Route) (k : K) (req : Request) (res : Response) : Response * K :=
  match rt_handler r k req res with
  | (inl res', k') => (res', k')
  | (inr what, k') => (Response_text 500 (B "internal error: " ++ what ++ [LF]) text_plain, k')
  end.

(** [std::string_view method = …]. *)
Definition lookup_method (req : Request) : bytes :=
  if bytes_eqb (method req) (B "HEAD") then B "GET" else method req.

(** The update of [allow] for a route of another method. *)
Definition allow_append (allow m : bytes) : bytes :=
  match find_sub m allow with
  | Some _ => allow
  | None =>
      let allow := match allow with [] => allow | _ => allow ++ B ", " end in
      let allow := allow ++ m in
      if bytes_eqb m (B "GET") then allow ++ B ", HEAD" else allow
  end.

Fixpoint dispatch_loop (routes : Router) (meth : bytes) (k : K) (req : Request) (res : Response) (allow : bytes)
  : Response * K :=
  match routes with
  | r :: routes' =>
      if negb (route_match req r) then dispatch_loop routes' meth k req res allow
      else if bytes_eqb (rt_method r) meth then run_handler r k req res
      else dispatch_loop routes' meth k req res (allow_append allow (rt_method r))
  | [] =>
      match allow with
      | [] => (Response_text 404 (B "not found" ++ [LF]) text_plain, k)
      | _ =>
          let res := Response_text 405 (B "method not allowed" ++ [LF]) text_plain in
          (mkResponse (status res) (set (res_headers res) (B "Allow") allow) (res_body res)
             (file res) (file_offset res) (file_length res) (producer res) (stream_length res), k)
      end
  end.

Definition dispatch (routes : Router) (k : K) (req : Request) (res : Response) : Response * K :=
  dispatch_loop routes (lookup_method req) k req res [].

(** ** Specification *)

(** The route that serves the request: the first whose path and method match. *)
Definition serving_route (routes : Router) (req : Request) : option Route :=
  List.find (fun r => route_match req r && bytes_eqb (rt_method r) (lookup_method req)) routes.

(** The methods registered for the path of the request. *)
Definition path_methods (routes : Router) (req : Request) : list bytes :=
  rt_method <$> List.filter (route_match req) routes.

End Router.

Arguments Handler : clear implicits.
Arguments Route : clear implicits.
Arguments Router : clear implicits.

Definition allow_list_step (l : list bytes) (m : bytes) : list bytes :=
  if decide (m ∈ l) then l else l ++ m :: (if decide (m = B "GET") then [B "HEAD"] else []).

(** Methods are tokens and none contains another one. *)
Definition methods_apart (ms : list bytes) : Prop :=
  Forall (fun m => is_token m = true) ms
  /\ forall a b, a ∈ B "HEAD" :: ms -> b ∈ B "HEAD" :: ms -> find_sub a b <> None -> a = b.

(** ** Lemmas *)

Lemma find_sub_exists p s : find_sub p s <> None <-> exists a b, s = a ++ p ++ b.
Proof.
  split.
  - intros H. destruct (find_sub p s) as [i|] eqn:E; [|done]. apply find_sub_Some_inv in E. naive_solver.
  - intros (a & b & ->). revert b. induction a as [|c a IH]; intros b; cbn [app].
    + destruct (p ++ b) eqn:E; cbn [find_sub]; rewrite <- E, starts_with_app_self; done.
    + cbn [find_sub]. destruct (starts_with p (c :: a ++ p ++ b)); [done|].
      specialize (IH b). by destruct (find_sub p (a ++ p ++ b)).
Qed.

Definition infix (p s : bytes) : Prop := exists a b, s = a ++ p ++ b.

Lemma infix_split c p x y : c ∉ p -> p <> [] -> infix p (x ++ c :: y) <-> infix p x \/ infix p y.
Proof.
  intros Hc Hp. split.
  - intros (a & b & H). apply List.app_eq_app in H as [l [[-> H]|[-> H]]].
    + apply List.app_eq_app in H as [k [[-> H]|[-> H]]].
      * destruct k as [|d k]; [|injection H as <- _; set_solver]. left. exists a, []. by rewrite !app_nil_r.
      * left. exists a, k. done.
    + destruct l as [|d l]; cbn [app] in H.
      * destruct p as [|d p]; [done|]. injection H as <- _. set_solver.
      * injection H as <- ->. right. by exists l, b.
  - intros [(a & b & ->)|(a & b & ->)].
    + exists a, (b ++ c :: y). by rewrite <- !app_assoc.
    + exists (x ++ c :: a), b. by rewrite <- app_assoc.
Qed.

Lemma token_chars p : is_token p = true -> ","%char ∉ p /\ SP ∉ p /\ p <> [].
Proof.
  unfold is_token. destruct p as [|c p]; [done|]. intros H. bool_hyps.
  assert (forall d, is_tchar d = false -> d ∉ c :: p) as Hd.
  { intros d Hd Hin. apply list_elem_of_In in Hin.
    pose proof (proj1 (forallb_forall _ _) H0 d Hin). congruence. }
  split; [by apply Hd|]. split; [by apply Hd|done].
Qed.

Lemma infix_join p l : is_token p = true -> infix p (join (B ", ") l) <-> exists x, x ∈ l /\ infix p x.
Proof.
  intros Hp. apply token_chars in Hp as (Hc & Hs & Hn).
  assert (~ infix p []) as Hnil. { intros (a & b & H). by destruct a, p. }
  induction l as [|x [|y l] IH]; cbn [join].
  - set_solver.
  - set_solver.
  - change (x ++ B ", " ++ ?t) with (x ++ ","%char :: ([] ++ SP :: t)). rewrite !infix_split, IH by done. set_solver.
Qed.

Lemma infix_find_sub p s : infix p s <-> find_sub p s <> None.
Proof. symmetry. apply find_sub_exists. Qed.

Definition allow_list (ms : list bytes) : list bytes := fold_left allow_list_step ms [].

(** Appending a method to the header value appends it to the list. *)
Lemma allow_append_join l m ms :
  methods_apart ms -> m ∈ ms -> (forall x, x ∈ l -> x ∈ B "HEAD" :: ms) ->
  allow_append (join (B ", ") l) m = join (B ", ") (allow_list_step l m).
Proof.
  intros [Htok Hapart] Hm Hl. rewrite Forall_forall in Htok. unfold allow_append, allow_list_step.
  pose proof (infix_join m l (Htok m Hm)) as Hj. rewrite infix_find_sub in Hj.
  destruct (decide (m ∈ l)) as [Hin|Hin].
  - destruct (find_sub m (join (B ", ") l)) eqn:E; [done|]. exfalso. apply Hj; [|done].
    exists m. split; [done|]. exists [], []. by rewrite app_nil_r.
  - destruct (find_sub m (join (B ", ") l)) eqn:E.
    { exfalso. destruct Hj as [Hj _]. destruct Hj as (x & Hx & Hi); [done|]. apply Hin.
      rewrite infix_find_sub in Hi. rewrite (Hapart m x); [done|set_solver|by apply Hl|done]. }
    assert (match join (B ", ") l with [] => join (B ", ") l | _ => join (B ", ") l ++ B ", " end ++ m
            = join (B ", ") (l ++ [m])) as ->.
    { destruct (decide (l = [])) as [->|Hne]; [done|]. rewrite join_app, app_assoc by done. f_equal.
      destruct (join (B ", ") l) eqn:Ej; [|done]. exfalso. apply Hne. destruct l as [|x l]; [done|].
      assert (x = []) as Hx by (destruct l; [done|]; by apply app_nil in Ej as [? _]).
      specialize (Hl x ltac:(set_solver)). apply elem_of_cons in Hl as [|Hl]; [by subst|].
      apply Htok in Hl. by subst. }
    destruct (bytes_eqb m (B "GET")) eqn:Eg.
    + apply bytes_eqb_eq in Eg. rewrite decide_True by done.
      rewrite (app_assoc l [m] [B "HEAD"] : l ++ m :: [B "HEAD"] = _). rewrite (join_app _ (l ++ [m])) by (by destruct l). done.
    + apply bytes_eqb_neq in Eg. rewrite decide_False by done. done.
Qed.

Lemma allow_list_step_mem l m x :
  x ∈ allow_list_step l m <-> x ∈ l \/ x = m \/ (m ∉ l /\ m = B "GET" /\ x = B "HEAD").
Proof. unfold allow_list_step. destruct (decide (m ∈ l)), (decide (m = B "GET")); set_solver. Qed.

(** [HEAD] is listed whenever [GET] is. *)
Definition allow_closed (l : list bytes) : Prop := B "GET" ∈ l -> B "HEAD" ∈ l.

Lemma allow_list_mem_from ms l x :
  allow_closed l ->
  x ∈ fold_left allow_list_step ms l <-> x ∈ l \/ x ∈ ms \/ (B "GET" ∈ ms /\ x = B "HEAD").
Proof.
  revert l. induction ms as [|m ms IH]; intros l Hc; cbn [fold_left]; [set_solver|].
  assert (allow_closed (allow_list_step l m)) as Hc'.
  { unfold allow_closed in *. rewrite !allow_list_step_mem. destruct (decide (m ∈ l)); naive_solver. }
  rewrite (IH _ Hc'), allow_list_step_mem. unfold allow_closed in Hc.
  destruct (decide (m ∈ l)); set_solver.
Qed.

Lemma allow_list_mem ms x : x ∈ allow_list ms <-> x ∈ ms \/ (B "GET" ∈ ms /\ x = B "HEAD").
Proof. unfold allow_list. rewrite allow_list_mem_from by (unfold allow_closed; set_solver). set_solver. Qed.

(** The response when no route serves the request. *)
Definition no_route_response (allow : bytes) : Response :=
  match allow with
  | [] => Response_text 404 (B "not found" ++ [LF]) text_plain
  | _ => mkResponse 405 [(B "Content-Type", text_plain); (B "Allow", allow)]
           (B "method not allowed" ++ [LF]) (-1) 0 0 None None
  end.

Lemma dispatch_loop_spec {K} (routes : Router K) meth k req res allow :
  dispatch_loop routes meth k req res allow
  = match List.find (fun r => route_match req r && bytes_eqb (rt_method r) meth) routes with
    | Some r => run_handler r k req res
    | None => (no_route_response (fold_left allow_append (path_methods routes req) allow), k)
    end.
Proof.
  revert allow. induction routes as [|r routes IH]; intros allow; [by destruct allow|].
  cbn [dispatch_loop List.find]. unfold path_methods. cbn [List.filter].
  destruct (route_match req r); cbn [negb andb]; [|apply IH].
  destruct (bytes_eqb (rt_method r) meth); [done|]. rewrite IH. done.
Qed.

Lemma fold_allow_join ms all l :
  methods_apart all -> (forall m, m ∈ ms -> m ∈ all) -> (forall x, x ∈ l -> x ∈ B "HEAD" :: all) ->
  fold_left allow_append ms (join (B ", ") l) = join (B ", ") (fold_left allow_list_step ms l).
Proof.
  intros Ha. revert l. induction ms as [|m ms IH]; intros l Hms Hl; cbn [fold_left]; [done|].
  rewrite (allow_append_join l m all) by set_solver. apply IH; [set_solver|].
  intros x. rewrite allow_list_step_mem. set_solver.
Qed.

Lemma join_nonempty l : Forall (fun x => x <> []) l -> l <> [] -> join (B ", ") l <> [].
Proof.
  intros Hl Hne. destruct l as [|x [|y l]]; cbn [join]; [done|by inversion Hl|].
  inversion Hl. by destruct x.
Qed.

Lemma allow_value ms :
  methods_apart ms -> ms <> [] ->
  exists l, fold_left allow_append ms [] = join (B ", ") l /\ join (B ", ") l <> []
    /\ forall x, x ∈ l <-> x ∈ ms \/ (B "GET" ∈ ms /\ x = B "HEAD").
Proof.
  intros Ha Hne. exists (allow_list ms).
  split; [apply (fold_allow_join ms ms [] Ha); set_solver|]. split; [|apply allow_list_mem].
  destruct Ha as [Ht _]. rewrite Forall_forall in Ht. apply join_nonempty.
  - apply Forall_forall. intros x. rewrite allow_list_mem. intros [Hx|[_ ->]]; [|done].
    apply Ht, token_chars in Hx. naive_solver.
  - destruct ms as [|m ms]; [done|]. pose proof (proj2 (allow_list_mem (m :: ms) m)) as Hm.
    intros E. rewrite E in Hm. set_solver.
Qed.


Definition demo_handler (body : bytes) : Handler unit := fun k _ _ => (inl (Response_text 200 body text_plain), k).
Definition demo_routes : Router unit :=
  Router_add_prefix (Router_add (Router_add [] (B "GET") (B "/x") (demo_handler (B "one"))) (B "POST") (B "/x")
    (fun k _ _ => (inr (B "boom"), k))) (B "GET") (B "/") (demo_handler (B "two")).
Definition demo_req (m p : bytes) : Request := mkRequest m p p [] 1 1 [] [] [] false.


(** The test that keeps [Allow] free of duplicates is a substring search, so
    a method that occurs inside another one registered earlier for the path
    is left out of the header. *)
Theorem allow_misses_substring_method :
  exists (routes : Router unit) req,
    path_methods routes req = [B "MGET"; B "GET"] /\ lookup_method req = B "PUT"
    /\ get (res_headers (dispatch routes tt req Response_new).1) (B "Allow") = Some (B "MGET").
Proof.
  exists (Router_add (Router_add [] (B "MGET") (B "/x") (demo_handler [])) (B "GET") (B "/x") (demo_handler [])),
    (demo_req (B "PUT") (B "/x")). split; [|split]; reflexivity.
Qed.
