(* ===== verification/StaticFiles.v ===== *)
(** * [src/app/static_files.{hpp,cpp}]: path sanitizing and file responses

    The system calls are the operations of the class [FileSys]; every call
    gets the state of the file system and returns the next one, so two calls
    on the same descriptor may answer differently.  [serve] returns, besides
    the response, the opens it attempted and the descriptors it closed. *)

From S2P Require Import Prelude Headers RequestParser Numbers ParserFacts Response UniqueFd.

(** ** Path handling *)

Definition hex_digit (c : ascii) : Z :=
  if in_range "0" "9" c then code c - code "0"
  else if in_range "a" "f" c then code c - code "a" + 10
  else if in_range "A" "F" c then code c - code "A" + 10
  else -1.

Definition NUL : ascii := chr 0.
Definition BACKSLASH : ascii := chr 92.

(** [c == '\0' || c == '\\']. *)
Definition bad_char (c : ascii) : bool := Ascii.eqb c NUL || Ascii.eqb c BACKSLASH.

(** The first loop of [sanitize]; the list is what is left from index [i]. *)
Fixpoint decode_loop (rest : bytes) : option bytes :=
  match rest with
  | [] => Some []
  | c :: rest' =>
      if Ascii.eqb c "%" then
        match rest' with
        | a :: b :: rest'' =>
            let hi := hex_digit a in
            let lo := hex_digit b in
            if (hi <? 0)%Z || (lo <? 0)%Z then None
            else
              let c := chr (hi * 16 + lo) in
              if bad_char c then None else cons c <$> decode_loop rest''
        | _ => None
        end
      else if bad_char c then None
      else cons c <$> decode_loop rest'
  end.

(** The second loop of [sanitize]. *)
Fixpoint segment_loop (fuel : nat) (decoded : bytes) (pos : nat) (out : bytes) : option bytes :=
  match fuel with
  | O => None
  | S f =>
      if (pos <=? length decoded)%nat then
        let slash := match find_char_from "/" decoded pos with Some i => i | None => length decoded end in
        let segment := take (slash - pos) (drop pos decoded) in
        if bytes_eqb segment (B "..") then None
        else
          let out :=
            if negb (bytes_eqb segment []) && negb (bytes_eqb segment (B ".")) then
              (match out with [] => out | _ => out ++ B "/" end) ++ segment
            else out in
          segment_loop f decoded (S slash) out
      else Some out
  end.

(** [None] is [return false]. *)
Definition sanitize (url_path : bytes) : option bytes :=
  match decode_loop url_path with
  | None => None
  | Some decoded => segment_loop (S (S (length decoded))) decoded 0 []
  end.

Definition mime_type (path : bytes) : bytes :=
  let ext := match rfind_char "." path with Some dot => drop (S dot) path | None => [] end in
  if bytes_eqb ext (B "html") || bytes_eqb ext (B "htm") then B "text/html; charset=utf-8"
  else if bytes_eqb ext (B "css") then B "text/css; charset=utf-8"
  else if bytes_eqb ext (B "js") || bytes_eqb ext (B "mjs") then B "text/javascript; charset=utf-8"
  else if bytes_eqb ext (B "json") then B "application/json"
  else if bytes_eqb ext (B "txt") || bytes_eqb ext (B "log") then B "text/plain; charset=utf-8"
  else if bytes_eqb ext (B "svg") then B "image/svg+xml"
  else if bytes_eqb ext (B "png") then B "image/png"
  else if bytes_eqb ext (B "jpg") || bytes_eqb ext (B "jpeg") then B "image/jpeg"
  else if bytes_eqb ext (B "gif") then B "image/gif"
  else if bytes_eqb ext (B "ico") then B "image/x-icon"
  else if bytes_eqb ext (B "wasm") then B "application/wasm"
  else if bytes_eqb ext (B "pdf") then B "application/pdf"
  else B "application/octet-stream".

(** ** Serving *)

Record stat := mkStat { is_dir : bool; is_reg : bool; st_size : Z }.

(** Results of the opens: a descriptor, or [-1] and whether [errno == ENOSYS]. *)
Inductive open_result := Opened (fd : Z) | OpenFailed (enosys : bool).

Class FileSys (K : Type) := {
  sys_openat2 : K -> Z -> bytes -> open_result * K;
  sys_openat : K -> Z -> bytes -> open_result * K;
  sys_fstat : K -> Z -> option stat * K }.

(** [path.c_str()] as the kernel reads it. *)
Fixpoint c_str (s : bytes) : bytes :=
  match s with
  | [] => []
  | c :: s' => if Ascii.eqb c NUL then [] else c :: c_str s'
  end.

(** What [serve] opened and closed, for the statements below; the kernel sees the same calls. *)
Record effects := mkEffects { opens : list (bytes * Z); closes : list Z }.

Section Serve.
Context {K : Type} `{Closer K} `{FileSys K}.
(** Built with [HTTPD_HAVE_OPENAT2] and [SYS_openat2]. *)
Context (have_openat2 : bool).

Definition open_fd (r : open_result) : Z := match r with Opened fd => fd | OpenFailed _ => -1 end.

Definition open_beneath (k : K) (dirfd : Z) (path : bytes) : Z * K :=
  let fallback k :=
    let '(r, k) := sys_openat k dirfd (c_str path) in (open_fd r, k) in
  if have_openat2 then
    let '(r, k) := sys_openat2 k dirfd (c_str path) in
    match r with
    | OpenFailed true => fallback k
    | _ => (open_fd r, k)
    end
  else fallback k.

(** [res = …]: the old [res.file] is closed by the move assignment. *)
Definition assign_response (res new : Response) (e : effects) (k : K) : Response * effects * K :=
  let '(cl, _) := reset (file res) (file new) in
  (new, mkEffects (opens e) (closes e ++ cl), close_fds cl k).

(** [fstat(fd, &st) == 0] and the new [st]. *)
Definition fstat_into (k : K) (fd : Z) (st : stat) : bool * stat * K :=
  match sys_fstat k fd with
  | (Some st', k') => (true, st', k')
  | (None, k') => (false, st, k')
  end.

Definition serve (root_ : Z) (rel_path : bytes) (res : Response) (k : K) : Response * effects * K :=
  let e := mkEffects [] [] in
  if negb (valid root_) then
    assign_response res (Response_text 404 (B "static root not available" ++ [LF]) text_plain) e k
  else
  match sanitize rel_path with
  | None => assign_response res (Response_text 400 (B "invalid path" ++ [LF]) text_plain) e k
  | Some path =>
      let path := match path with [] => B "index.html" | _ => path end in
      let '(file, k) := open_beneath k root_ path in
      let e := mkEffects [(path, file)] [] in
      let st := mkStat false false 0 in
      let '(dir, st, k) :=
        if valid file then
          let '(ok, st, k) := fstat_into k file st in (ok && is_dir st, st, k)
        else (false, st, k) in
      let '(path, file, e, k) :=
        if dir then
          let path' := path ++ B "/index.html" in
          let '(fd, k) := open_beneath k root_ path' in
          let '(cl, file') := reset file fd in
          (path', file', mkEffects (opens e ++ [(path', fd)]) (closes e ++ cl), close_fds cl k)
        else (path, file, e, k) in
      let '(bad, st, k) :=
        if negb (valid file) then (true, st, k)
        else let '(ok, st, k) := fstat_into k file st in (negb ok || negb (is_reg st), st, k) in
      if bad then
        (* [file] is destroyed at the return *)
        let '(r, e, k) := assign_response res (Response_text 404 (B "not found" ++ [LF]) text_plain) e k in
        (r, mkEffects (opens e) (closes e ++ destroy file), close_fds (destroy file) k)
      else
        let '(cl, rfile) := reset (Response.file res) file in
        (mkResponse 200 (set (res_headers res) (B "Content-Type") (mime_type path)) (res_body res)
           rfile 0 (u64 (st_size st)) (producer res) (stream_length res),
         mkEffects (opens e) (closes e ++ cl), close_fds cl k)
  end.

End Serve.

(** ** Specification of [sanitize] *)

Definition segment_kept (s : bytes) : bool := negb (bytes_eqb s []) && negb (bytes_eqb s (B ".")).

(** A path that names something below the directory it starts from. *)
Definition confined (p : bytes) : Prop :=
  p <> [] /\ Forall (fun s => s <> [] /\ s <> B "." /\ s <> B "..") (split_on "/" p)
  /\ Forall (fun c => bad_char c = false) p.

(** Percent-encoding of the bytes selected by [enc]. *)
Definition hex_pair (c : ascii) : bytes := ["%"%char; digit_char (code c / 16); digit_char (code c mod 16)].
Definition percent_encode (enc : ascii -> bool) (p : bytes) : bytes :=
  flat_map (fun c => if enc c then hex_pair c else [c]) p.

Lemma segment_loop_spec fuel decoded pos out :
  (length decoded + 1 - pos < fuel)%nat ->
  segment_loop fuel decoded pos out
  = if (pos <=? length decoded)%nat then
      let segs := split_on "/" (drop pos decoded) in
      if existsb (fun s => bytes_eqb s (B "..")) segs then None
      else Some (fold_left (fun o s => if segment_kept s then
                   (match o with [] => o | _ => o ++ B "/" end) ++ s else o) segs out)
    else Some out.
Proof.
  revert pos out. induction fuel as [|f IH]; intros pos out Hf; [lia|]. cbn [segment_loop].
  destruct (Nat.leb_spec pos (length decoded)) as [Hp|Hp]; [|done]. cbn zeta.
  rewrite split_on_find. unfold find_char_from.
  destruct (find_char "/" (drop pos decoded)) as [i|] eqn:E; cbn [fmap option_fmap option_map].
  - pose proof (find_char_bound _ _ _ E) as Hb. rewrite length_drop in Hb.
    replace (pos + i - pos)%nat with i by lia. cbn [existsb fold_left].
    destruct (bytes_eqb (take i (drop pos decoded)) (B "..")); cbn [orb]; [done|].
    rewrite IH by lia. destruct (Nat.leb_spec (S (pos + i)) (length decoded)); [|lia].
    rewrite drop_drop. by replace (pos + S i)%nat with (S (pos + i)) by lia.
  - replace (take (length decoded - pos) (drop pos decoded)) with (drop pos decoded)
      by (symmetry; apply take_ge; rewrite length_drop; lia).
    cbn [existsb fold_left]. destruct (bytes_eqb (drop pos decoded) (B "..")); cbn [orb]; [done|].
    rewrite IH by lia. destruct (Nat.leb_spec (S (length decoded)) (length decoded)); [lia|done].
Qed.

Definition add_segment (o s : bytes) : bytes :=
  if segment_kept s then (match o with [] => o | _ => o ++ B "/" end) ++ s else o.

Lemma add_segment_join segs l :
  Forall (fun s => s <> []) l ->
  fold_left add_segment segs (join (B "/") l) = join (B "/") (l ++ List.filter segment_kept segs).
Proof.
  revert l. induction segs as [|s segs IH]; intros l Hl; cbn [fold_left List.filter]; [by rewrite app_nil_r|].
  unfold add_segment at 2. destruct (segment_kept s) eqn:E; [|by apply IH].
  assert (s <> []) as Hs by (intros ->; done).
  assert (match join (B "/") l with [] => join (B "/") l | _ => join (B "/") l ++ B "/" end ++ s
          = join (B "/") (l ++ [s])) as ->.
  { destruct l as [|x l]; [done|]. rewrite join_app, app_assoc by done. f_equal.
    destruct (join (B "/") (x :: l)) eqn:Ej; [|done]. inversion Hl. destruct l; [done|].
    by apply app_nil in Ej as [? _]. }
  rewrite IH by (apply Forall_app; by repeat constructor). by rewrite <- app_assoc.
Qed.

Lemma sanitize_eq url :
  sanitize url = match decode_loop url with
                 | None => None
                 | Some d =>
                     let segs := split_on "/" d in
                     if existsb (fun s => bytes_eqb s (B "..")) segs then None
                     else Some (join (B "/") (List.filter segment_kept segs))
                 end.
Proof.
  unfold sanitize. destruct (decode_loop url) as [d|]; [|done]. rewrite segment_loop_spec by lia. cbn zeta.
  rewrite Nat.leb_refl || cbn [Nat.leb]. rewrite drop_0. destruct (existsb _ _); [done|].
  f_equal. apply (add_segment_join (split_on "/" d) []). constructor.
Qed.

Lemma decode_loop_chars url d : decode_loop url = Some d -> Forall (fun c => bad_char c = false) d.
Proof.
  remember (length url) as n eqn:Hn. revert url d Hn.
  induction n as [n IH] using lt_wf_ind. intros url d -> H. destruct url as [|c url]; cbn [decode_loop] in H.
  { injection H as <-. constructor. }
  destruct (Ascii.eqb c "%"); [destruct url as [|a [|b url]]; try done; cbn zeta in H; destruct (_ || _); [done|]|];
    (destruct (bad_char _) eqn:Eb; [done|]); destruct (decode_loop url) as [d'|] eqn:E; try done;
    injection H as <-; constructor; try done; eapply IH; try reflexivity; try exact E; cbn; lia.
Qed.

Lemma segment_kept_iff s : segment_kept s = true <-> s <> [] /\ s <> B ".".
Proof. unfold segment_kept. rewrite andb_true_iff, !negb_true_iff, !bytes_eqb_neq. done. Qed.

Lemma existsb_dotdot segs : existsb (fun s => bytes_eqb s (B "..")) segs = true <-> B ".." ∈ segs.
Proof.
  rewrite existsb_exists. split.
  - intros (x & Hx & E). apply bytes_eqb_eq in E as ->. by apply list_elem_of_In.
  - intros H. exists (B ".."). rewrite <- list_elem_of_In. split; [done|apply bytes_eqb_refl].
Qed.

(** The output, when there is one, is a list of proper segments of the decoded path. *)
Lemma sanitize_segments url out :
  sanitize url = Some out ->
  exists l, out = join (B "/") l
    /\ Forall (fun s => (s <> [] /\ s <> B "." /\ s <> B "..") /\ "/"%char ∉ s /\ Forall (fun c => bad_char c = false) s) l.
Proof.
  rewrite sanitize_eq. destruct (decode_loop url) as [d|] eqn:Hd; [|done]. cbn zeta.
  destruct (existsb _ _) eqn:He; [done|]. intros [= <-]. eexists. split; [done|].
  apply decode_loop_chars in Hd. apply (split_on_Forall _ "/"%char) in Hd. pose proof (split_on_not_in "/" d) as Hn.
  rewrite Forall_forall in *. intros s Hs. apply list_elem_of_In, filter_In in Hs as [Hin Hk].
  apply list_elem_of_In in Hin. apply segment_kept_iff in Hk as [??].
  split; [|split; auto]. split; [done|]. split; [done|]. intros ->.
  assert (B ".." ∈ split_on "/" d) as H' by done. apply existsb_dotdot in H'. congruence.
Qed.

Lemma confined_join l :
  l <> [] ->
  Forall (fun s => (s <> [] /\ s <> B "." /\ s <> B "..") /\ "/"%char ∉ s /\ Forall (fun c => bad_char c = false) s) l ->
  confined (join (B "/") l).
Proof.
  intros Hne Hl. apply Forall_and in Hl as [Hseg Hl]. apply Forall_and in Hl as [Hslash Hbad].
  split; [|split].
  - destruct l as [|x l]; [done|]. inversion Hseg as [|? ? [Hx _] _]; subst. destruct l; cbn [join]; [done|]. by destruct x.
  - by rewrite split_on_join.
  - by apply join_Forall; [repeat constructor|].
Qed.

Lemma sanitize_confined url out : sanitize url = Some out -> out = [] \/ confined out.
Proof.
  intros (l & -> & Hl)%sanitize_segments. destruct l as [|x l]; [by left|]. right. by apply confined_join.
Qed.

Lemma hex_pair_digits c :
  hex_digit (digit_char (code c / 16)) = (code c / 16)%Z /\ hex_digit (digit_char (code c mod 16)) = (code c mod 16)%Z.
Proof. all_bytes c; done. Qed.

Lemma decode_encode enc p :
  enc "%"%char = true -> Forall (fun c => bad_char c = false) p -> decode_loop (percent_encode enc p) = Some p.
Proof.
  intros He. induction 1 as [|c p Hc Hp IH]; [done|]. unfold percent_encode. cbn [flat_map].
  fold (percent_encode enc p). pose proof (code_range c). destruct (enc c) eqn:Ec.
  - cbn [hex_pair app decode_loop]. change (Ascii.eqb "%" "%") with true. cbn iota zeta.
    destruct (hex_pair_digits c) as [-> ->].
    assert (0 <= code c / 16)%Z by (apply Z.div_pos; lia).
    assert (0 <= code c mod 16)%Z by (apply Z.mod_pos_bound; lia).
    destruct (Z.ltb_spec (code c / 16) 0); [lia|]. destruct (Z.ltb_spec (code c mod 16) 0); [lia|]. cbn [orb].
    replace (code c / 16 * 16 + code c mod 16)%Z with (code c) by (pose proof (Z.div_mod (code c) 16); lia).
    rewrite chr_code, Hc, IH. done.
  - cbn [app decode_loop]. destruct (Ascii.eqb c "%") eqn:E.
    { apply ascii_eqb_spec in E as ->. congruence. }
    by rewrite Hc, IH.
Qed.

(** C29: a path [sanitize] accepts is empty or confined: it is relative, has no
    empty, [.] or [..] segment, no NUL and no backslash, however it was
    percent-encoded; and it never reports success for a path whose decoding
    has a [..] segment. *)
Theorem sanitize_safe (url out : bytes) :
  sanitize url = Some out ->
  (out = [] \/ confined out) /\ exists d, decode_loop url = Some d /\ B ".." ∉ split_on "/" d.
Proof.
  intros H. split; [by eapply sanitize_confined|]. rewrite sanitize_eq in H.
  destruct (decode_loop url) as [d|]; [|done]. exists d. split; [done|]. cbn zeta in H.
  destruct (existsb _ _) eqn:E; [done|]. intros Hin. apply existsb_dotdot in Hin. congruence.
Qed.

Lemma sanitize_safe_witness :
  confined (B "css/site.css") /\ sanitize (B "/css/.//%73ite.css") = Some (B "css/site.css")
  /\ sanitize (B "a/%2e%2E/b") = None.
Proof.
  split; [|split; reflexivity].
  destruct (sanitize_safe (B "/css/.//%73ite.css") (B "css/site.css")) as [[|] _]; [reflexivity|discriminate|assumption].
Defined.

(** Every confined path can be asked for: encoding any of its bytes (at least
    the percent signs) gives a URL path that sanitizes to it. *)
Theorem sanitize_complete (enc : ascii -> bool) (p : bytes) :
  enc "%"%char = true -> confined p -> sanitize (percent_encode enc p) = Some p.
Proof.
  intros He (Hne & Hseg & Hbad). rewrite sanitize_eq, decode_encode by done. cbn zeta.
  destruct (existsb _ _) eqn:E.
  { apply existsb_dotdot in E. rewrite Forall_forall in Hseg. by destruct (Hseg _ E) as (_ & _ & ?). }
  f_equal. transitivity (join (B "/") (split_on "/" p)).
  - f_equal. apply List.forallb_filter_id. apply forallb_forall. intros s Hs. rewrite <- list_elem_of_In in Hs.
    rewrite Forall_forall in Hseg. apply segment_kept_iff. destruct (Hseg s Hs) as (? & ? & ?). done.
  - apply join_split.
Qed.

Lemma sanitize_complete_witness :
  confined (B "a b/100%.txt") /\ sanitize (B "a%20b/100%25.txt") = Some (B "a b/100%.txt").
Proof.
  assert (confined (B "a b/100%.txt")) as Hc.
  { split; [done|]. split; repeat constructor; done. }
  split; [exact Hc|].
  exact (sanitize_complete (fun c => Ascii.eqb c "%" || Ascii.eqb c " ") (B "a b/100%.txt") eq_refl Hc).
Defined.

(** ** Serving *)

Lemma confined_index p : confined p -> confined (p ++ B "/index.html").
Proof.
  intros (Hne & Hseg & Hbad). split; [by destruct p|]. split.
  - change (p ++ B "/index.html") with (p ++ "/"%char :: B "index.html"). rewrite split_on_app_sep.
    apply Forall_app. split; [done|]. by repeat constructor.
  - apply Forall_app. split; [done|]. by repeat constructor.
Qed.

Lemma c_str_confined p : confined p -> c_str p = p.
Proof.
  intros (_ & _ & Hbad). induction Hbad as [|c p Hc Hp IH]; [done|]. cbn [c_str].
  unfold bad_char in Hc. bool_hyps. by rewrite H, IH.
Qed.

(** What [sanitize] accepts, defaulting to the index page. *)
Lemma requested_confined rel out :
  sanitize rel = Some out -> confined (match out with [] => B "index.html" | _ => out end).
Proof.
  intros [->|Hc]%sanitize_confined.
  - split; [done|]. split; by repeat constructor.
  - destruct out; [by destruct Hc|done].
Qed.

Definition serve_ok {K} `{FileSys K} (res r : Response) (e : effects) : Prop :=
  Forall (fun o : bytes * Z => confined o.1 /\ c_str o.1 = o.1) (opens e)
  /\ fds [file res] ++ fds (opens e).*2 ≡ₚ closes e ++ fds [file r]
  /\ ((status r = 200 /\ valid (file r) = true /\ file_offset r = 0
       /\ exists k st k' p, sys_fstat k (file r) = (Some st, k') /\ is_reg st = true
            /\ file_length r = u64 (st_size st) /\ (p, file r) ∈ opens e
            /\ res_headers r = set (res_headers res) (B "Content-Type") (mime_type p) /\ producer r = producer res)
      \/ ((status r = 404 \/ status r = 400) /\ file r = -1 /\ producer r = None))%Z.

Section ServeProof.
Context {K : Type} `{Closer K} `{FileSys K} (have_openat2 : bool).

(** An early return with a plain error response. *)
Lemma serve_early res st body (k : K) r e k' :
  (st = 404 \/ st = 400)%Z ->
  assign_response res (Response_text st body text_plain) (mkEffects [] []) k = (r, e, k') -> serve_ok res r e.
Proof.
  intros Hst. unfold assign_response. rewrite closed_by_reset. intros [= <- <- _]. split; [constructor|].
  split; [|right; cbn; auto]. cbn [opens closes fmap list_fmap fst file Response_text].
  change (fds []) with (@nil Z). by rewrite fds_none, !app_nil_r.
Qed.

(** The second half of [serve]: the check for a regular file and the response. *)
Lemma serve_finish root rel res k r e k' :
  serve have_openat2 root rel res k = (r, e, k') -> serve_ok res r e.
Proof.
  unfold serve. destruct (valid root); cbn [negb].
  2:{ apply serve_early. auto. }
  destruct (sanitize rel) as [out|] eqn:Hs.
  2:{ apply serve_early. auto. }
  apply requested_confined in Hs. set (p := match out with [] => _ | _ => _ end) in *. clearbody p. clear out.
  destruct (open_beneath have_openat2 k root p) as [fd k1].
  destruct (if valid fd then _ else _) as [[dir st1] k2].
  set (mid := if dir then _ else _).
  assert (exists p' fd' e' k3, mid = (p', fd', e', k3)
    /\ Forall (fun o : bytes * Z => confined o.1 /\ c_str o.1 = o.1) (opens e') /\ (p', fd') ∈ opens e'
    /\ fds (opens e').*2 ≡ₚ closes e' ++ fds [fd']) as (p' & fd' & e' & k3 & -> & Hconf & Hin & Hcons).
  { subst mid. destruct dir.
    - destruct (open_beneath have_openat2 k2 root (p ++ B "/index.html")) as [fd2 k3]. rewrite closed_by_reset.
      do 4 eexists. split; [done|]. cbn [opens closes app fmap list_fmap snd].
      split; [apply Forall_cons; split; [|apply Forall_singleton]; cbn [fst]; auto 6 using confined_index, c_str_confined|].
      split; [set_solver|]. by rewrite fds_cons.
    - do 4 eexists. split; [done|]. cbn [opens closes]. split; [apply Forall_singleton; auto using c_str_confined|].
      split; [set_solver|done]. }
  unfold assign_response, destroy. rewrite !closed_by_reset.
  assert (forall kk st b b', (r, e, k') = (mkResponse 200 (set (res_headers res) (B "Content-Type") (mime_type p'))
      (res_body res) fd' 0 (u64 (st_size st)) (producer res) (stream_length res),
      mkEffects (opens e') (closes e' ++ fds [file res]), b') -> valid fd' = true ->
      is_reg st = true -> sys_fstat kk fd' = (Some st, b) -> serve_ok res r e) as Hgood.
  { intros kk st b b' [= -> -> ->] Hv Hr Hst. split; [done|]. cbn [opens closes file].
    split; [rewrite Hcons; solve_Permutation|]. left. cbn [status file file_offset file_length res_headers].
    split; [done|]. split; [done|]. split; [done|]. by exists kk, st, b, p'. }
  assert (forall b, (r, e, k') = (Response_text 404 (B "not found" ++ [LF]) text_plain,
      mkEffects (opens e') ((closes e' ++ fds [file res]) ++ fds [fd']), b) -> serve_ok res r e) as Hbad.
  { intros b [= -> -> ->]. split; [done|]. cbn [opens closes file Response_text].
    split; [rewrite Hcons, fds_none, app_nil_r; solve_Permutation|]. right. auto. }
  destruct (valid fd') eqn:Hv; cbn [negb]; [|intros [= <- <- <-]; by eapply Hbad].
  unfold fstat_into. destruct (sys_fstat k3 fd') as [[st|] k4] eqn:Hst; cbn [negb orb];
    [|intros [= <- <- <-]; by eapply Hbad].
  destruct (is_reg st) eqn:Hr; cbn [negb]; intros [= <- <- <-]; [by eapply Hgood|by eapply Hbad].
Qed.

End ServeProof.

(** C30: serving a path touches nothing outside the root and loses no descriptor.
    Every path handed to the kernel is confined and reaches it whole, the
    directory and rejected descriptors are closed exactly once, and the
    response is either a 200 whose descriptor is a regular file the kernel
    has just described, with its size and the type of its name, or a 404 or
    400 without a descriptor. *)
Theorem serve_confined {K} `{Closer K} `{FileSys K} (have_openat2 : bool) (root : Z) (rel : bytes) (res : Response) (k : K) :
  let '(r, e, _) := serve have_openat2 root rel res k in
  serve_ok res r e
  /\ (sanitize rel = None -> valid root = true -> status r = 400%Z /\ opens e = [])
  /\ (valid root = false -> status r = 404%Z /\ opens e = []).
Proof.
  destruct (serve have_openat2 root rel res k) as [[r e] k'] eqn:E.
  split; [by eapply serve_finish|]. unfold serve in E. split.
  - intros Hs Hr. rewrite Hr, Hs in E. by injection E as <- <- _.
  - intros Hr. rewrite Hr in E. by injection E as <- <- _.
Qed.

(** A file system with one directory, [docs], holding an index page. *)
#[local] Instance demo_closer : Closer unit := fun k _ => k.
#[local] Instance demo_fs : FileSys unit := {
  sys_openat2 k _ p := (if bytes_eqb p (B "docs") then Opened 5
                        else if bytes_eqb p (B "docs/index.html") then Opened 6 else OpenFailed false, k);
  sys_openat k _ _ := (OpenFailed false, k);
  sys_fstat k fd := (Some (if (fd =? 5)%Z then mkStat true false 0 else mkStat false true 42), k) }.

Lemma serve_demo :
  serve true 3 (B "/docs/") Response_new tt
  = (mkResponse 200 [(B "Content-Type", B "text/html; charset=utf-8")] [] 6 0 42 None None,
     mkEffects [(B "docs", 5%Z); (B "docs/index.html", 6%Z)] [5%Z], tt).
Proof. reflexivity. Qed.
