(* ===== verification/Metrics.v ===== *)
(** * [src/obs/metrics.{hpp,cpp}]: counters, latency histogram, text rendering

    The scalar counters are indexed by [Field], the pointer-to-member type of
    the source.  A counter has one writer, so [bump] is a plain update of the
    worker's block; a scrape reads a block per worker (load by load in
    [Scrape]).  Floating point values
    and their [printf] conversions are parameters of the rendering. *)

From S2P Require Import Prelude.

Open Scope Z_scope.

(** ** Data *)

Module Field.
Inductive t : Set :=
  | connections_accepted | connections_closed | connections_timed_out | accept_errors
  | requests | parse_errors | bytes_received | bytes_sent | bytes_sendfile
  | loop_wakeups | loop_events | latency_sum_us.
End Field.

#[export] Instance Field_eq_dec : EqDecision Field.t.
Proof. solve_decision. Defined.

Record WorkerMetrics := mkMetrics {
  counter : Field.t -> Z;
  responses_by_class : list Z;
  latency_buckets : list Z }.

Definition kLatencyBuckets : nat := 24.

Definition WorkerMetrics_new : WorkerMetrics :=
  mkMetrics (fun _ => 0) (replicate 6 0) (replicate kLatencyBuckets 0).

(** [bump] on a scalar counter and on an element of the two arrays. *)
Definition bump (f : Field.t) (n : Z) (m : WorkerMetrics) : WorkerMetrics :=
  mkMetrics (fun g => if decide (g = f) then u64 (counter m f + n) else counter m g)
    (responses_by_class m) (latency_buckets m).
Definition bump_class (cls : nat) (m : WorkerMetrics) : WorkerMetrics :=
  mkMetrics (counter m) (alter (fun v => u64 (v + 1)) cls (responses_by_class m)) (latency_buckets m).
Definition bump_bucket (idx : nat) (m : WorkerMetrics) : WorkerMetrics :=
  mkMetrics (counter m) (responses_by_class m) (alter (fun v => u64 (v + 1)) idx (latency_buckets m)).

(** [__builtin_clzll(v)] for [v > 0]. *)
Definition clzll (v : Z) : Z := 63 - Z.log2 v.

Definition latency_index (us : Z) : nat :=
  let idx := if us =? 0 then 0%nat else Z.to_nat (64 - clzll us) in
  if (kLatencyBuckets <=? idx)%nat then (kLatencyBuckets - 1)%nat else idx.

Definition observe_latency_us (us : Z) (m : WorkerMetrics) : WorkerMetrics :=
  bump Field.latency_sum_us us (bump_bucket (latency_index us) m).

(** ** Rendering *)

Section Render.
Context {double : Type}.
Context (of_u64 : Z -> double) (div_1e6 : double -> double).
(** ["%.17g"] and ["%g"]. *)
Context (fmt_17g fmt_g : double -> bytes).

Definition header (out name type help : bytes) : bytes :=
  let out := out ++ B "# HELP " ++ name ++ B " " ++ help ++ [LF] in
  out ++ B "# TYPE " ++ name ++ B " " ++ type ++ [LF].

Definition sample (out name labels : bytes) (value : double) : bytes :=
  let buf := fmt_17g value in
  let out := out ++ name in
  let out := match labels with [] => out | _ => out ++ B "{" ++ labels ++ B "}" end in
  out ++ B " " ++ buf ++ [LF].

Definition worker_label (i : nat) : bytes := B "worker=" ++ [DQUOTE] ++ to_string (Z.of_nat i) ++ [DQUOTE].

(** The loops [for (i = 0; i < ws.size(); ++i)] over the workers, from index [i]. *)
Fixpoint per_worker_loop (out name : bytes) (value : WorkerMetrics -> double) (i : nat) (ws : list WorkerMetrics) : bytes :=
  match ws with
  | [] => out
  | w :: ws' => per_worker_loop (sample out name (worker_label i) (value w)) name value (S i) ws'
  end.

Definition per_worker (out : bytes) (ws : list WorkerMetrics) (name type help : bytes) (field : Field.t) : bytes :=
  per_worker_loop (header out name type help) name (fun w => of_u64 (counter w field)) 0 ws.

(** [sum += load(…)] over the workers. *)
Definition sum_over (v : WorkerMetrics -> Z) (ws : list WorkerMetrics) (acc : Z) : Z :=
  fold_left (fun s w => u64 (s + v w)) ws acc.

Definition total (out : bytes) (ws : list WorkerMetrics) (name help : bytes) (field : Field.t) : bytes :=
  let sum := sum_over (fun w => counter w field) ws 0 in
  sample (header out name (B "counter") help) name [] (of_u64 sum).

(** Two loads may race with the writer; a scrape never reports a wrapped value. *)
Definition active_connections (w : WorkerMetrics) : double :=
  let closed := counter w Field.connections_closed in
  let accepted := counter w Field.connections_accepted in
  if accepted >=? closed then of_u64 (u64 (accepted - closed)) else of_u64 0.

Fixpoint class_loop (out : bytes) (ws : list WorkerMetrics) (cls : list nat) : bytes :=
  match cls with
  | [] => out
  | c :: cls' =>
      let sum := sum_over (fun w => nth c (responses_by_class w) 0) ws 0 in
      class_loop (sample out (B "httpd_responses_total")
                    (B "code=" ++ [DQUOTE] ++ to_string (Z.of_nat c) ++ B "xx" ++ [DQUOTE]) (of_u64 sum)) ws cls'
  end.

Definition le_label (b : nat) : bytes :=
  B "le=" ++ [DQUOTE] ++ fmt_g (div_1e6 (of_u64 (Z.shiftl 1 (Z.of_nat b)))) ++ [DQUOTE].

(** [for (b = 0; b < kLatencyBuckets; ++b)], [n] rounds left, from [b]. *)
Fixpoint bucket_loop (n b : nat) (out : bytes) (ws : list WorkerMetrics) (cumulative : Z) : bytes * Z :=
  match n with
  | O => (out, cumulative)
  | S n' =>
      let cumulative := sum_over (fun w => nth b (latency_buckets w) 0) ws cumulative in
      if (b + 1 =? kLatencyBuckets)%nat then (out, cumulative)
      else bucket_loop n' (S b)
             (sample out (B "httpd_request_duration_seconds_bucket") (le_label b) (of_u64 cumulative)) ws cumulative
  end.

(** The part of [render_prometheus] after the gauges. *)
Definition render_counters (out : bytes) (ws : list WorkerMetrics) : bytes :=
  let out := per_worker out ws (B "httpd_connections_accepted_total") (B "counter") (B "Accepted TCP connections.")
               Field.connections_accepted in
  let out := per_worker out ws (B "httpd_requests_total") (B "counter") (B "Requests dispatched to a handler.")
               Field.requests in
  let out := total out ws (B "httpd_connections_timed_out_total") (B "Connections closed by idle/header timeouts.")
               Field.connections_timed_out in
  let out := total out ws (B "httpd_accept_errors_total") (B "accept4() failures (EMFILE, ENOBUFS, ...).")
               Field.accept_errors in
  let out := total out ws (B "httpd_parse_errors_total") (B "Requests rejected by the HTTP parser.")
               Field.parse_errors in
  let out := total out ws (B "httpd_bytes_received_total") (B "Bytes read from client sockets.") Field.bytes_received in
  let out := total out ws (B "httpd_bytes_sent_total") (B "Bytes written to client sockets (all paths).")
               Field.bytes_sent in
  let out := total out ws (B "httpd_bytes_sendfile_total") (B "Bytes sent zero-copy via sendfile(2).")
               Field.bytes_sendfile in
  let out := per_worker out ws (B "httpd_eventloop_wakeups_total") (B "counter") (B "epoll_wait() returns.")
               Field.loop_wakeups in
  let out := per_worker out ws (B "httpd_eventloop_events_total") (B "counter") (B "Events delivered by epoll_wait().")
               Field.loop_events in
  let out := header out (B "httpd_responses_total") (B "counter") (B "Responses by status class.") in
  let out := class_loop out ws (seq 1 5) in
  let out := header out (B "httpd_request_duration_seconds") (B "histogram")
               (B "Time from the first byte of a request until its response is queued.") in
  let '(out, cumulative) := bucket_loop kLatencyBuckets 0 out ws 0 in
  let out := sample out (B "httpd_request_duration_seconds_bucket") (B "le=" ++ [DQUOTE] ++ B "+Inf" ++ [DQUOTE])
               (of_u64 cumulative) in
  let sum_us := sum_over (fun w => counter w Field.latency_sum_us) ws 0 in
  let out := sample out (B "httpd_request_duration_seconds_sum") [] (div_1e6 (of_u64 sum_us)) in
  sample out (B "httpd_request_duration_seconds_count") [] (of_u64 cumulative).

Definition render_prometheus (ws : list WorkerMetrics) (uptime_seconds : double) : bytes :=
  let out := header [] (B "httpd_uptime_seconds") (B "gauge") (B "Seconds since the server started.") in
  let out := sample out (B "httpd_uptime_seconds") [] uptime_seconds in
  let out := header out (B "httpd_connections_active") (B "gauge") (B "Open client connections per worker.") in
  let out := per_worker_loop out (B "httpd_connections_active") active_connections 0 ws in
  render_counters out ws.

End Render.

(** ** The histogram *)

Definition observe_all (samples : list Z) (m : WorkerMetrics) : WorkerMetrics :=
  fold_left (fun m us => observe_latency_us us m) samples m.

Definition worker_of (samples : list Z) : WorkerMetrics := observe_all samples WorkerMetrics_new.

(** The samples below [2 ^ b] microseconds. *)
Definition count_below (b : nat) (samples : list Z) : Z :=
  zlen (List.filter (fun us => us <? 2 ^ Z.of_nat b) samples).

Definition count_index (b : nat) (samples : list Z) : Z :=
  zlen (List.filter (fun us => (latency_index us =? b)%nat) samples).

Lemma latency_index_lt us : (latency_index us < kLatencyBuckets)%nat.
Proof. unfold latency_index, kLatencyBuckets. cbn zeta. destruct (us =? 0), (24 <=? _)%nat eqn:E; try lia. apply Nat.leb_gt in E. lia. Qed.

(** Below the open-ended last bucket, index [b] means [2^(b-1) <= us < 2^b]. *)
Lemma latency_index_spec us b :
  0 <= us < 2 ^ 64 -> (b < 23)%nat -> (latency_index us <= b)%nat <-> us < 2 ^ Z.of_nat b.
Proof.
  intros Hus Hb. unfold latency_index, clzll, kLatencyBuckets.
  destruct (Z.eqb_spec us 0) as [->|Hnz]; cbn zeta.
  { cbn [Nat.leb]. pose proof (Z.pow_pos_nonneg 2 (Z.of_nat b)). lia. }
  pose proof (Z.log2_nonneg us). rewrite Z.log2_lt_pow2 by lia.
  destruct (Nat.leb_spec 24 (Z.to_nat (64 - (63 - Z.log2 us)))); lia.
Qed.

Lemma zlen_filter_le {A} (f : A -> bool) (l : list A) : 0 <= zlen (List.filter f l) <= zlen l.
Proof. unfold zlen. pose proof (filter_length_le f l). lia. Qed.

(** A bucket counts the samples of its index. *)
Lemma observe_all_bucket samples m b :
  length (latency_buckets m) = kLatencyBuckets -> (b < kLatencyBuckets)%nat ->
  0 <= nth b (latency_buckets m) 0 -> nth b (latency_buckets m) 0 + count_index b samples < 2 ^ 64 ->
  nth b (latency_buckets (observe_all samples m)) 0 = nth b (latency_buckets m) 0 + count_index b samples.
Proof.
  revert m. induction samples as [|us samples IH]; intros m Hl Hb Hn Hs.
  { unfold count_index, zlen. cbn. lia. }
  assert (nth b (latency_buckets (observe_latency_us us m)) 0
          = nth b (latency_buckets m) 0 + (if (latency_index us =? b)%nat then 1 else 0)) as Hone.
  { cbn [latency_buckets observe_latency_us bump bump_bucket].
    pose proof (zlen_filter_le (fun us => (latency_index us =? b)%nat) samples) as Hf.
    unfold count_index in Hs. cbn [List.filter] in Hs.
    destruct (lookup_lt_is_Some_2 (latency_buckets m) b) as [v Hv]; [lia|].
    rewrite (nth_lookup_Some _ _ _ _ Hv) in *. apply nth_lookup_Some. destruct (Nat.eqb_spec (latency_index us) b) as [->|Hne].
    - rewrite list_lookup_alter_eq, Hv. cbn. rewrite u64_small; [done|]. unfold zlen in *. cbn [length] in Hs. lia.
    - rewrite list_lookup_alter_ne by done. rewrite Hv. f_equal. lia. }
  assert (count_index b (us :: samples) = (if (latency_index us =? b)%nat then 1 else 0) + count_index b samples) as Hc.
  { unfold count_index, zlen. cbn [List.filter]. destruct (latency_index us =? b)%nat; cbn [length]; lia. }
  rewrite Hc in Hs |- *. cbn [observe_all fold_left]. fold (observe_all samples (observe_latency_us us m)).
  rewrite IH, Hone; [lia|..|done| |].
  - cbn. by rewrite length_alter.
  - rewrite Hone. destruct (_ =? _)%nat; lia.
  - rewrite Hone. lia.
Qed.

Lemma worker_of_bucket samples b :
  (b < kLatencyBuckets)%nat -> zlen samples < 2 ^ 64 ->
  nth b (latency_buckets (worker_of samples)) 0 = count_index b samples.
Proof.
  intros Hb Hs. pose proof (zlen_filter_le (fun us => (latency_index us =? b)%nat) samples).
  assert (nth b (latency_buckets WorkerMetrics_new) 0 = 0) as H0 by (apply nth_lookup_Some, lookup_replicate; done).
  unfold worker_of. rewrite observe_all_bucket, H0; [done|done|done|lia|]. unfold count_index. rewrite H0. lia.
Qed.

Lemma count_index_app b s t : count_index b (s ++ t) = count_index b s + count_index b t.
Proof. unfold count_index. by rewrite List.filter_app, zlen_app. Qed.

(** Summing a bucket over the workers counts the samples of all of them. *)
Lemma sum_over_buckets b ss acc :
  (b < kLatencyBuckets)%nat -> 0 <= acc -> zlen (concat ss) < 2 ^ 64 -> acc + count_index b (concat ss) < 2 ^ 64 ->
  sum_over (fun w => nth b (latency_buckets w) 0) (worker_of <$> ss) acc = acc + count_index b (concat ss).
Proof.
  intros Hb. revert acc. induction ss as [|s ss IH]; intros acc Ha Hs Hc.
  { unfold sum_over, count_index, zlen. cbn. lia. }
  cbn [fmap list_fmap concat] in *. rewrite zlen_app in Hs. rewrite count_index_app in *.
  pose proof (zlen_nonneg s). pose proof (zlen_nonneg (concat ss)).
  pose proof (zlen_filter_le (fun us => (latency_index us =? b)%nat) s).
  pose proof (zlen_filter_le (fun us => (latency_index us =? b)%nat) (concat ss)).
  unfold sum_over in *. cbn [fold_left]. rewrite worker_of_bucket by lia. unfold count_index in *.
  rewrite u64_small by lia. rewrite IH; lia.
Qed.

(** The samples of an index below [b]. *)
Definition count_lt (b : nat) (samples : list Z) : Z :=
  zlen (List.filter (fun us => (latency_index us <? b)%nat) samples).

Lemma count_lt_succ b samples : count_lt (S b) samples = count_lt b samples + count_index b samples.
Proof.
  unfold count_lt, count_index, zlen. induction samples as [|us samples IH]; [done|]. cbn [List.filter].
  destruct (Nat.ltb_spec (latency_index us) (S b)), (Nat.ltb_spec (latency_index us) b),
    (Nat.eqb_spec (latency_index us) b); cbn [length]; lia.
Qed.

Lemma count_lt_all samples : count_lt kLatencyBuckets samples = zlen samples.
Proof.
  unfold count_lt. f_equal. apply List.forallb_filter_id. apply forallb_forall. intros us _.
  apply Nat.ltb_lt, latency_index_lt.
Qed.

Lemma count_lt_below b samples :
  Forall (fun us => 0 <= us < 2 ^ 64) samples -> (b < 23)%nat -> count_lt (S b) samples = count_below b samples.
Proof.
  intros Hs Hb. unfold count_lt, count_below. f_equal. apply List.filter_ext_in. intros us Hin.
  rewrite <- list_elem_of_In in Hin. rewrite Forall_forall in Hs.
  pose proof (latency_index_spec us b (Hs us Hin) Hb).
  destruct (Nat.ltb_spec (latency_index us) (S b)), (Z.ltb_spec us (2 ^ Z.of_nat b)); lia.
Qed.

Lemma bucket_loop_spec {double : Type} (of_u64 : Z -> double) div_1e6 fmt_17g fmt_g ss n b out :
  zlen (concat ss) < 2 ^ 64 -> Forall (fun us => 0 <= us < 2 ^ 64) (concat ss) -> (S n + b = kLatencyBuckets)%nat ->
  bucket_loop of_u64 div_1e6 fmt_17g fmt_g (S n) b out (worker_of <$> ss) (count_lt b (concat ss))
  = (fold_left (fun o b => sample fmt_17g o (B "httpd_request_duration_seconds_bucket")
                  (le_label of_u64 div_1e6 fmt_g b) (of_u64 (count_below b (concat ss)))) (seq b n) out,
     zlen (concat ss)).
Proof.
  intros Hs Hr. revert b out. induction n as [|n IH]; intros b out Hb; cbn [bucket_loop].
  all: pose proof (zlen_filter_le (fun us => (latency_index us <? b)%nat) (concat ss)) as Hlt.
  all: pose proof (count_lt_succ b (concat ss)) as Hsucc.
  all: pose proof (zlen_filter_le (fun us => (latency_index us <? S b)%nat) (concat ss)) as Hle.
  all: pose proof (zlen_nonneg (concat ss)).
  all: rewrite (sum_over_buckets b ss (count_lt b (concat ss))), <- Hsucc by (unfold kLatencyBuckets, count_lt in *; lia).
  - replace (S b) with kLatencyBuckets by lia. rewrite count_lt_all.
    destruct (Nat.eqb_spec (b + 1) kLatencyBuckets); [done|lia].
  - destruct (Nat.eqb_spec (b + 1) kLatencyBuckets); [lia|]. cbn [seq fold_left].
    fold (@bucket_loop double of_u64 div_1e6 fmt_17g fmt_g).
    rewrite <- (count_lt_below b) by (unfold kLatencyBuckets in *; done || lia). apply IH. lia.
Qed.


