(* ===== verification/Scrape.v ===== *)
(** * [src/obs/metrics.cpp]: a scrape that races with the workers

    [Metrics.render_prometheus] reads a memory that stands still.  In the
    program every number is loaded on its own, with relaxed atomics, while
    the workers go on counting.  Here every load is explicit: [mem t i l] is
    what the load number [t] of the scrape returns when it reads location [l]
    of worker [i].  Relaxed loads promise only coherence: of one location,
    a later load does not return an older value; loads of different
    locations are not related. *)

From S2P Require Import Prelude Metrics.

Open Scope Z_scope.

Inductive loc : Set := LField (f : Field.t) | LClass (c : nat) | LBucket (b : nat).

(** The number at a location of a block. *)
Definition value (l : loc) (w : WorkerMetrics) : Z :=
  match l with
  | LField f => counter w f
  | LClass c => nth c (responses_by_class w) 0
  | LBucket b => nth b (latency_buckets w) 0
  end.

Definition loc_ok (l : loc) : Prop :=
  match l with LField _ => True | LClass c => (c < 6)%nat | LBucket b => (b < kLatencyBuckets)%nat end.

Section Scrape.
Context {double : Type} (of_u64 : Z -> double) (div_1e6 : double -> double) (fmt_17g fmt_g : double -> bytes).
Context (mem : nat -> nat -> loc -> Z).

(** [load]: the value and the number of the next load. *)
Definition load (i : nat) (l : loc) (t : nat) : Z * nat := (mem t i l, S t).

(** ** The code, load by load *)

(** The loops run over the workers [i], …, [i + n - 1]. *)
Fixpoint load_each (out name : bytes) (f : Field.t) (n i t : nat) : bytes * nat :=
  match n with
  | O => (out, t)
  | S n' =>
      let '(v, t) := load i (LField f) t in
      load_each (sample fmt_17g out name (worker_label i) (of_u64 v)) name f n' (S i) t
  end.

Fixpoint load_gauges (out name : bytes) (n i t : nat) : bytes * nat :=
  match n with
  | O => (out, t)
  | S n' =>
      let '(closed, t) := load i (LField Field.connections_closed) t in
      let '(accepted, t) := load i (LField Field.connections_accepted) t in
      let active := if accepted >=? closed then of_u64 (u64 (accepted - closed)) else of_u64 0 in
      load_gauges (sample fmt_17g out name (worker_label i) active) name n' (S i) t
  end.

Fixpoint load_sum (l : loc) (n i : nat) (acc : Z) (t : nat) : Z * nat :=
  match n with
  | O => (acc, t)
  | S n' => let '(v, t) := load i l t in load_sum l n' (S i) (u64 (acc + v)) t
  end.

Definition load_per_worker (out : bytes) (n : nat) (name type help : bytes) (f : Field.t) (t : nat) : bytes * nat :=
  load_each (header out name type help) name f n 0 t.

Definition load_total (out : bytes) (n : nat) (name help : bytes) (f : Field.t) (t : nat) : bytes * nat :=
  let '(sum, t) := load_sum (LField f) n 0 0 t in
  (sample fmt_17g (header out name (B "counter") help) name [] (of_u64 sum), t).

Fixpoint load_classes (out : bytes) (n : nat) (cls : list nat) (t : nat) : bytes * nat :=
  match cls with
  | [] => (out, t)
  | c :: cls' =>
      let '(sum, t) := load_sum (LClass c) n 0 0 t in
      load_classes (sample fmt_17g out (B "httpd_responses_total")
                      (B "code=" ++ [DQUOTE] ++ to_string (Z.of_nat c) ++ B "xx" ++ [DQUOTE]) (of_u64 sum)) n cls' t
  end.

Fixpoint load_buckets (m b : nat) (out : bytes) (n : nat) (cumulative : Z) (t : nat) : bytes * Z * nat :=
  match m with
  | O => (out, cumulative, t)
  | S m' =>
      let '(cumulative, t) := load_sum (LBucket b) n 0 cumulative t in
      if (b + 1 =? kLatencyBuckets)%nat then (out, cumulative, t)
      else load_buckets m' (S b)
             (sample fmt_17g out (B "httpd_request_duration_seconds_bucket") (le_label of_u64 div_1e6 fmt_g b) (of_u64 cumulative))
             n cumulative t
  end.

Definition scrape_counters (out : bytes) (n t : nat) : bytes * nat :=
  let '(out, t) := load_per_worker out n (B "httpd_connections_accepted_total") (B "counter") (B "Accepted TCP connections.")
                     Field.connections_accepted t in
  let '(out, t) := load_per_worker out n (B "httpd_requests_total") (B "counter") (B "Requests dispatched to a handler.")
                     Field.requests t in
  let '(out, t) := load_total out n (B "httpd_connections_timed_out_total") (B "Connections closed by idle/header timeouts.")
                     Field.connections_timed_out t in
  let '(out, t) := load_total out n (B "httpd_accept_errors_total") (B "accept4() failures (EMFILE, ENOBUFS, ...).")
                     Field.accept_errors t in
  let '(out, t) := load_total out n (B "httpd_parse_errors_total") (B "Requests rejected by the HTTP parser.")
                     Field.parse_errors t in
  let '(out, t) := load_total out n (B "httpd_bytes_received_total") (B "Bytes read from client sockets.") Field.bytes_received t in
  let '(out, t) := load_total out n (B "httpd_bytes_sent_total") (B "Bytes written to client sockets (all paths).")
                     Field.bytes_sent t in
  let '(out, t) := load_total out n (B "httpd_bytes_sendfile_total") (B "Bytes sent zero-copy via sendfile(2).")
                     Field.bytes_sendfile t in
  let '(out, t) := load_per_worker out n (B "httpd_eventloop_wakeups_total") (B "counter") (B "epoll_wait() returns.")
                     Field.loop_wakeups t in
  let '(out, t) := load_per_worker out n (B "httpd_eventloop_events_total") (B "counter") (B "Events delivered by epoll_wait().")
                     Field.loop_events t in
  let out := header out (B "httpd_responses_total") (B "counter") (B "Responses by status class.") in
  let '(out, t) := load_classes out n (seq 1 5) t in
  let out := header out (B "httpd_request_duration_seconds") (B "histogram")
               (B "Time from the first byte of a request until its response is queued.") in
  let '(out, cumulative, t) := load_buckets kLatencyBuckets 0 out n 0 t in
  let out := sample fmt_17g out (B "httpd_request_duration_seconds_bucket") (B "le=" ++ [DQUOTE] ++ B "+Inf" ++ [DQUOTE])
               (of_u64 cumulative) in
  let '(sum_us, t) := load_sum (LField Field.latency_sum_us) n 0 0 t in
  let out := sample fmt_17g out (B "httpd_request_duration_seconds_sum") [] (div_1e6 (of_u64 sum_us)) in
  (sample fmt_17g out (B "httpd_request_duration_seconds_count") [] (of_u64 cumulative), t).

Definition scrape_head (uptime_seconds : double) : bytes :=
  let out := header [] (B "httpd_uptime_seconds") (B "gauge") (B "Seconds since the server started.") in
  let out := sample fmt_17g out (B "httpd_uptime_seconds") [] uptime_seconds in
  header out (B "httpd_connections_active") (B "gauge") (B "Open client connections per worker.").

(** [render_prometheus] for [n] workers; its first load has number [t]. *)
Definition scrape (n : nat) (uptime_seconds : double) (t : nat) : bytes * nat :=
  let '(out, t) := load_gauges (scrape_head uptime_seconds) (B "httpd_connections_active") n 0 t in
  scrape_counters out n t.

(** ** When a location is loaded *)

(** The number of the load, after the first of [scrape_counters], that reads
    location [l] of worker [i]; [connections_closed] is read before it. *)
Definition turn (l : loc) : nat :=
  match l with
  | LField Field.connections_accepted => 0
  | LField Field.requests => 1
  | LField Field.connections_timed_out => 2
  | LField Field.accept_errors => 3
  | LField Field.parse_errors => 4
  | LField Field.bytes_received => 5
  | LField Field.bytes_sent => 6
  | LField Field.bytes_sendfile => 7
  | LField Field.loop_wakeups => 8
  | LField Field.loop_events => 9
  | LClass c => 9 + c
  | LBucket b => 15 + b
  | LField Field.latency_sum_us => 39
  | LField Field.connections_closed => 0
  end.

(** What the scrape saw of worker [i]. *)
Definition seen (n t i : nat) : WorkerMetrics :=
  let v l := mem (t + turn l * n + i) i l in
  mkMetrics (fun f => v (LField f)) ((fun c => v (LClass c)) <$> seq 0 6) ((fun b => v (LBucket b)) <$> seq 0 kLatencyBuckets).

Definition snapshot (n t : nat) : list WorkerMetrics := seen n t <$> seq 0 n.

Lemma nth_map_seq (g : nat -> Z) m i : (i < m)%nat -> nth i (g <$> seq 0 m) 0 = g i.
Proof.
  intros Hi. rewrite (nth_indep _ 0 (g 0%nat)) by (rewrite length_fmap, length_seq; lia).
  change (g <$> seq 0 m) with (map g (seq 0 m)). by rewrite map_nth, seq_nth.
Qed.

Lemma seen_value n t i l : loc_ok l -> value l (seen n t i) = mem (t + turn l * n + i) i l.
Proof. destruct l; cbn [loc_ok value seen counter responses_by_class latency_buckets]; intros Hl; [done|..]; by rewrite nth_map_seq. Qed.

(** ** Each loop reads the snapshot *)

Lemma load_each_spec ws out name f n i t :
  (forall j, (j < n)%nat -> counter (ws (i + j)%nat) f = mem (t + j) (i + j) (LField f)) ->
  load_each out name f n i t = (per_worker_loop fmt_17g out name (fun w => of_u64 (counter w f)) i (ws <$> seq i n), (t + n)%nat).
Proof.
  revert out i t. induction n as [|n IH]; intros out i t Hm; cbn [load_each seq fmap list_fmap per_worker_loop]; [f_equal; lia|].
  unfold load. pose proof (Hm 0%nat ltac:(lia)) as H0. rewrite !Nat.add_0_r in H0. rewrite <- H0, IH; [f_equal; lia|].
  intros j Hj. specialize (Hm (S j) ltac:(lia)). by rewrite <- !Nat.add_succ_comm in Hm.
Qed.

Lemma load_sum_spec ws l n i acc t :
  (forall j, (j < n)%nat -> value l (ws (i + j)%nat) = mem (t + j) (i + j) l) ->
  load_sum l n i acc t = (sum_over (value l) (ws <$> seq i n) acc, (t + n)%nat).
Proof.
  revert i acc t. induction n as [|n IH]; intros i acc t Hm; cbn [load_sum seq fmap list_fmap]; [unfold sum_over; f_equal; lia|].
  unfold load. pose proof (Hm 0%nat ltac:(lia)) as H0. rewrite !Nat.add_0_r in H0. rewrite <- H0, IH; [unfold sum_over; cbn [fold_left]; f_equal; lia|].
  intros j Hj. specialize (Hm (S j) ltac:(lia)). by rewrite <- !Nat.add_succ_comm in Hm.
Qed.

Lemma load_per_worker_spec ws out n name type help f t :
  (forall j, (j < n)%nat -> counter (ws j) f = mem (t + j) j (LField f)) ->
  load_per_worker out n name type help f t = (per_worker of_u64 fmt_17g out (ws <$> seq 0 n) name type help f, (t + n)%nat).
Proof. intros Hm. unfold load_per_worker, per_worker. by apply load_each_spec. Qed.

Lemma load_total_spec ws out n name help f t :
  (forall j, (j < n)%nat -> counter (ws j) f = mem (t + j) j (LField f)) ->
  load_total out n name help f t = (total of_u64 fmt_17g out (ws <$> seq 0 n) name help f, (t + n)%nat).
Proof. intros Hm. unfold load_total, total. by rewrite (load_sum_spec ws) by exact Hm. Qed.

Lemma load_classes_spec ws out n c m t :
  (forall d j, (d < m)%nat -> (j < n)%nat -> value (LClass (c + d)) (ws j) = mem (t + d * n + j) j (LClass (c + d))) ->
  load_classes out n (seq c m) t = (class_loop of_u64 fmt_17g out (ws <$> seq 0 n) (seq c m), (t + m * n)%nat).
Proof.
  revert out c t. induction m as [|m IH]; intros out c t Hm; cbn [seq load_classes class_loop]; [f_equal; lia|].
  rewrite (load_sum_spec ws).
  - rewrite IH; [f_equal; lia|]. intros d j Hd Hj. specialize (Hm (S d) j ltac:(lia) Hj). rewrite <- Nat.add_succ_comm in Hm.
    rewrite Hm. f_equal. lia.
  - intros j Hj. specialize (Hm 0%nat j ltac:(lia) Hj). rewrite Nat.add_0_r in Hm. cbn [Nat.add]. rewrite Hm. f_equal. lia.
Qed.

Lemma load_buckets_spec ws m b out n cum t :
  (m + b = kLatencyBuckets)%nat ->
  (forall d j, (d < m)%nat -> (j < n)%nat -> value (LBucket (b + d)) (ws j) = mem (t + d * n + j) j (LBucket (b + d))) ->
  load_buckets m b out n cum t = (bucket_loop of_u64 div_1e6 fmt_17g fmt_g m b out (ws <$> seq 0 n) cum, (t + m * n)%nat).
Proof.
  revert b out cum t. induction m as [|m IH]; intros b out cum t Hb Hm; cbn [load_buckets bucket_loop]; [f_equal; lia|].
  rewrite (load_sum_spec ws).
  - change (sum_over (value (LBucket b))) with (sum_over (fun w => nth b (latency_buckets w) 0)).
    destruct (Nat.eqb_spec (b + 1) kLatencyBuckets); [f_equal; lia|]. rewrite IH; [f_equal; lia|lia|].
    intros d j Hd Hj. specialize (Hm (S d) j ltac:(lia) Hj). rewrite <- Nat.add_succ_comm in Hm. rewrite Hm. f_equal. lia.
  - intros j Hj. specialize (Hm 0%nat j ltac:(lia) Hj). rewrite Nat.add_0_r in Hm. cbn [Nat.add]. rewrite Hm. f_equal. lia.
Qed.

Lemma seen_counter n t f s :
  s = (t + turn (LField f) * n)%nat -> forall j, (j < n)%nat -> counter (seen n t j) f = mem (s + j) j (LField f).
Proof. intros -> j _. done. Qed.

Lemma scrape_counters_spec out n t :
  scrape_counters out n t = (render_counters of_u64 div_1e6 fmt_17g fmt_g out (snapshot n t), (t + 40 * n)%nat).
Proof.
  unfold scrape_counters, render_counters, snapshot.
  do 2 rewrite (load_per_worker_spec (seen n t)) by (apply seen_counter; cbn [turn]; lia).
  do 6 rewrite (load_total_spec (seen n t)) by (apply seen_counter; cbn [turn]; lia).
  do 2 rewrite (load_per_worker_spec (seen n t)) by (apply seen_counter; cbn [turn]; lia).
  rewrite (load_classes_spec (seen n t)).
  2:{ intros d j Hd Hj. rewrite seen_value by (cbn; lia). f_equal. cbn [turn]. lia. }
  rewrite (load_buckets_spec (seen n t)); [|done|].
  2:{ intros d j Hd Hj. rewrite seen_value by (cbn; unfold kLatencyBuckets in *; lia). f_equal. cbn [turn]. lia. }
  destruct (bucket_loop _ _ _ _ _ _ _ _ _) as [out1 cum].
  rewrite (load_sum_spec (seen n t)) by (intros j Hj; cbn [value]; apply seen_counter; [unfold kLatencyBuckets; cbn [turn]; lia|done]).
  f_equal. unfold kLatencyBuckets. lia.
Qed.

(** The gauge of worker [i]: two loads. *)
Definition gauge (t i : nat) : Z :=
  let closed := mem (t + 2 * i) i (LField Field.connections_closed) in
  let accepted := mem (t + 2 * i + 1) i (LField Field.connections_accepted) in
  if accepted >=? closed then u64 (accepted - closed) else 0.

Definition print_gauges (g : nat -> Z) (workers : list nat) (out : bytes) : bytes :=
  fold_left (fun o i => sample fmt_17g o (B "httpd_connections_active") (worker_label i) (of_u64 (g i))) workers out.

Lemma load_gauges_spec out n i t :
  load_gauges out (B "httpd_connections_active") n i (t + 2 * i) = (print_gauges (gauge t) (seq i n) out, (t + 2 * (i + n))%nat).
Proof.
  revert out i. induction n as [|n IH]; intros out i; cbn [load_gauges seq]; [rewrite Nat.add_0_r; done|].
  unfold load. replace (S (S (t + 2 * i))) with (t + 2 * S i)%nat by lia. rewrite IH. f_equal; [|lia].
  unfold print_gauges. cbn [fold_left]. f_equal. unfold gauge. replace (S (t + 2 * i)) with (t + 2 * i + 1)%nat by lia.
  by destruct (_ >=? _).
Qed.

Lemma scrape_spec n up t :
  scrape n up t = (render_counters of_u64 div_1e6 fmt_17g fmt_g (print_gauges (gauge t) (seq 0 n) (scrape_head up))
                     (snapshot n (t + 2 * n)), (t + 42 * n)%nat).
Proof.
  unfold scrape. pose proof (load_gauges_spec (scrape_head up) n 0 t) as Hg. rewrite Nat.mul_0_r, Nat.add_0_r in Hg. rewrite Hg.
  rewrite scrape_counters_spec. f_equal. lia.
Qed.

End Scrape.

(** Of one location, a later load does not return an older (smaller) value. *)
Definition coherent (mem : nat -> nat -> loc -> Z) : Prop :=
  (forall s s' i l, (s <= s')%nat -> mem s i l <= mem s' i l) /\ forall s i l, 0 <= mem s i l < 2 ^ 64.

Lemma snapshot_lookup mem n t i w : snapshot mem n t !! i = Some w -> (i < n)%nat /\ w = seen mem n t i.
Proof.
  unfold snapshot. rewrite list_lookup_fmap. intros (j & Hj & ->)%fmap_Some. apply lookup_seq in Hj as [-> Hi]. done.
Qed.

(** C38: a scrape that races with the workers reports numbers
    that existed.  Whatever the workers count meanwhile, and even if relaxed
    loads of different counters are reordered, the text is the rendering of
    one block per worker in which every counter has a value between the one
    it had when the scrape began and the one it had when it ended; each
    gauge of open connections is the difference of two such values, never a
    wrapped one and never more than the number of accepted connections
    reported with it.  It takes 42 loads per worker. *)
Theorem scrape_consistent {double : Type} (of_u64 : Z -> double) (div_1e6 : double -> double) (fmt_17g fmt_g : double -> bytes)
  (mem : nat -> nat -> loc -> Z) (n : nat) (uptime : double) (t : nat) :
  coherent mem ->
  exists (ws : list WorkerMetrics) (g : nat -> Z),
    scrape of_u64 div_1e6 fmt_17g fmt_g mem n uptime t
      = (render_counters of_u64 div_1e6 fmt_17g fmt_g (print_gauges of_u64 fmt_17g g (seq 0 n) (scrape_head fmt_17g uptime)) ws,
         (t + 42 * n)%nat)
    /\ length ws = n
    /\ forall i w, ws !! i = Some w ->
         (forall l, loc_ok l -> mem t i l <= value l w <= mem (t + 42 * n)%nat i l)
         /\ 0 <= g i <= counter w Field.connections_accepted
         /\ exists accepted closed, g i = Z.max 0 (accepted - closed)
              /\ mem t i (LField Field.connections_accepted) <= accepted <= counter w Field.connections_accepted
              /\ mem t i (LField Field.connections_closed) <= closed <= mem (t + 42 * n)%nat i (LField Field.connections_closed).
Proof.
  intros [Hm Hr]. exists (snapshot mem n (t + 2 * n)), (gauge mem t). split; [apply scrape_spec|].
  split; [unfold snapshot; by rewrite length_fmap, length_seq|]. intros i w [Hi ->]%snapshot_lookup. split.
  { intros l Hl. rewrite seen_value by done. assert (turn l <= 39)%nat by (destruct l as [[]| |]; cbn in *; unfold kLatencyBuckets in *; lia).
    split; apply Hm; nia. }
  set (c := mem (t + 2 * i)%nat i (LField Field.connections_closed)). set (a := mem (t + 2 * i + 1)%nat i (LField Field.connections_accepted)).
  assert (gauge mem t i = Z.max 0 (a - c)) as Hg.
  { unfold gauge. fold a c. pose proof (Hr (t + 2 * i)%nat i (LField Field.connections_closed)) as Hc.
    pose proof (Hr (t + 2 * i + 1)%nat i (LField Field.connections_accepted)) as Ha. fold a in Ha. fold c in Hc.
    destruct (Z.geb_spec a c); [rewrite u64_small by lia|]; lia. }
  assert (a <= counter (seen mem n (t + 2 * n) i) Field.connections_accepted) as Ha by (apply Hm; lia).
  pose proof (Hr (t + 2 * i)%nat i (LField Field.connections_closed)) as Hc. fold c in Hc.
  pose proof (Hr (t + 2 * i + 1)%nat i (LField Field.connections_accepted)) as Ha0. fold a in Ha0.
  split; [lia|]. exists a, c. split; [done|]. split; [split; [apply Hm; lia|done]|]. split; apply Hm; lia.
Qed.

(** A worker accepts a connection and closes one between any two loads. *)
Lemma scrape_consistent_witness :
  let mem s (_ : nat) l := match l with LField Field.connections_accepted | LField Field.connections_closed => Z.of_nat (Nat.min s 1000) | _ => 7 end in
  coherent mem
  /\ exists ws g, (scrape id id to_string to_string mem 2 0 0).1
         = render_counters id id to_string to_string (print_gauges id to_string g (seq 0 2) (scrape_head to_string 0)) ws
       /\ length ws = 2%nat /\ forall i w, ws !! i = Some w -> 0 <= g i <= counter w Field.connections_accepted.
Proof.
  set (mem := fun s _ l => _).
  assert (coherent mem) as Hc. { split; [intros s s' i [[]| |] Hs|intros s i [[]| |]]; cbn; lia. }
  split; [exact Hc|]. destruct (scrape_consistent id id to_string to_string mem 2 0 0 Hc) as (ws & g & Hs & Hl & Hw).
  exists ws, g. split; [exact (f_equal fst Hs)|]. split; [exact Hl|]. intros i w Hi. apply (Hw i w Hi).
Defined.

(** ** Without a race *)

Lemma nth_seq_id {A} (d : A) (l : list A) : (fun i => nth i l d) <$> seq 0 (length l) = l.
Proof.
  apply list_eq. intros i. rewrite list_lookup_fmap. destruct (decide (i < length l)%nat) as [Hi|Hi].
  - rewrite lookup_seq_lt by done. cbn. by destruct (nth_lookup_or_length l i d) as [->|]; [|lia].
  - rewrite lookup_seq_ge, lookup_ge_None_2 by lia. done.
Qed.

Definition block_ok (w : WorkerMetrics) : Prop := length (responses_by_class w) = 6%nat /\ length (latency_buckets w) = kLatencyBuckets.

Lemma snapshot_still ws t :
  Forall block_ok ws -> snapshot (fun _ i l => value l (nth i ws WorkerMetrics_new)) (length ws) t = ws.
Proof.
  intros Hw. etrans; [|apply (nth_seq_id WorkerMetrics_new)]. unfold snapshot. apply list_fmap_ext. intros j i Hi.
  apply lookup_seq in Hi as [-> Hi]. cbn [Nat.add]. destruct (nth_lookup_or_length ws j WorkerMetrics_new) as [Hj|]; [|lia].
  destruct (Forall_lookup_1 _ _ _ _ Hw Hj) as [H6 H24]. unfold seen. destruct (nth j ws WorkerMetrics_new) as [cn cl bu].
  cbn [value counter responses_by_class latency_buckets] in *. f_equal; [rewrite <- H6|rewrite <- H24]; apply nth_seq_id.
Qed.

Lemma print_gauges_loop {double : Type} (of_u64 : Z -> double) fmt_17g g v ws i out :
  (forall j w, ws !! j = Some w -> of_u64 (g (i + j)%nat) = v w) ->
  print_gauges of_u64 fmt_17g g (seq i (length ws)) out = per_worker_loop fmt_17g out (B "httpd_connections_active") v i ws.
Proof.
  revert i out. induction ws as [|w ws IH]; intros i out Hg; [done|]. cbn [length seq per_worker_loop]. unfold print_gauges. cbn [fold_left].
  rewrite <- (Hg 0%nat w eq_refl), Nat.add_0_r. apply IH. intros j w' Hj. rewrite Nat.add_succ_comm. by apply Hg.
Qed.

(** When nobody counts meanwhile, the scrape is [render_prometheus]. *)
Theorem scrape_quiescent {double : Type} (of_u64 : Z -> double) (div_1e6 : double -> double) (fmt_17g fmt_g : double -> bytes)
  (ws : list WorkerMetrics) (uptime : double) (t : nat) :
  Forall block_ok ws ->
  scrape of_u64 div_1e6 fmt_17g fmt_g (fun _ i l => value l (nth i ws WorkerMetrics_new)) (length ws) uptime t
  = (render_prometheus of_u64 div_1e6 fmt_17g fmt_g ws uptime, (t + 42 * length ws)%nat).
Proof.
  intros Hw. rewrite scrape_spec, snapshot_still by done. f_equal. unfold render_prometheus. f_equal.
  apply (print_gauges_loop _ _ _ (active_connections of_u64)). intros j w Hj.
  unfold gauge, active_connections. cbn [value Nat.add]. rewrite (nth_lookup_Some _ _ _ _ Hj). by destruct (_ >=? _).
Qed.
