(* ===== verification/Connection.v ===== *)
(** * [src/server/server.cpp]: one connection of a worker

    Definitions only; the theorems are in [ConnectionFacts].  A member
    function of [Worker] that takes [Connection& c] becomes a function from
    the connection and the environment (the worker's metrics, its date cache
    and the kernel) to their new values.  The input buffer is any
    implementation of [InBuffer]; the system calls are the operations of the
    class [Kernel].  [now_us_] and [draining_] do not change while a
    connection is driven: they are parameters, as are the router and
    [max_in_buffer_].  Positions in [out] are [nat]. *)

From S2P Require Import Prelude Headers RequestParser Numbers ParserFacts Response ByteBuffer Router Metrics.

(** ** Constants *)

Definition kReadSize : Z := 16 * 1024.
Definition kOutHighWater : Z := 256 * 1024.
Definition kProducerLowWater : Z := 64 * 1024.
Definition kSendfileMax : Z := Z.shiftl 1 20.
Definition kMaxEvents : Z := 256.
Definition kAcceptBatch : nat := 64.

(** [max_in_buffer_], as the constructor of [Worker] computes it. *)
Definition max_in_buffer (l : ParserLimits) : Z :=
  Z.max (64 * 1024) (u64 (max_request_line l + max_header_bytes l)).

(** ** The kernel

    [EAGAIN] stands for [EWOULDBLOCK] too; [EOTHER] for every other error.  A
    [recv] that returns 0 yields no bytes; [sendfile] yields the bytes it
    moved, of which the program sees the number.  [wire k fd] is what the
    socket [fd] has accepted for transmission so far; the program never reads it. *)
Inductive errno : Set := EINTR | EAGAIN | EOTHER.

Class Kernel (K : Type) := {
  #[global] kernel_closer :: Closer K;
  sys_recv : K -> Z -> Z -> (bytes + errno) * K;
  sys_send : K -> Z -> bytes -> (Z + errno) * K;
  sys_sendfile : K -> Z -> Z -> Z -> Z -> (bytes + errno) * K;
  sys_shutdown : K -> Z -> K;
  sys_mono_us : K -> Z * K;
  sys_time : K -> Z * K;
  strftime_gmt : Z -> bytes;
  wire : K -> Z -> bytes }.

(** ** Data *)

Record DateCache := mkDate { cached_ : Z; date_text : bytes }.
Definition DateCache_new : DateCache := mkDate (-1) [].

Section Connection.
Context {T : Type} `{InBuffer T}.
Context {K : Type} `{Kernel K}.

Record Connection := mkConn {
  c_fd : Z;
  c_in : T;
  c_parser : RequestParser;
  c_out : bytes;
  c_out_off : nat;
  c_file : Z;
  c_file_off : Z;
  c_file_left : Z;
  c_producer : option BodyProducer;
  c_trailers : Headers;
  c_chunked : bool;
  c_stream_sized : bool;
  c_stream_left : Z;
  c_can_read : bool;
  c_can_write : bool;
  c_peer_closed : bool;
  c_close_after_write : bool;
  c_continue_sent : bool;
  c_last_active_us : Z;
  c_request_start_us : Z }.

Definition Connection_new (fd : Z) (limits : ParserLimits) (now : Z) : Connection :=
  mkConn fd ib_empty (RequestParser_new limits) [] 0 (-1) 0 0 None [] false false 0
    true true false false false now 0.

(** Assignments to groups of members. *)
Definition set_input (b : T) (p : RequestParser) (c : Connection) : Connection :=
  mkConn (c_fd c) b p (c_out c) (c_out_off c) (c_file c) (c_file_off c) (c_file_left c) (c_producer c)
    (c_trailers c) (c_chunked c) (c_stream_sized c) (c_stream_left c) (c_can_read c) (c_can_write c)
    (c_peer_closed c) (c_close_after_write c) (c_continue_sent c) (c_last_active_us c) (c_request_start_us c).
Definition set_out (o : bytes) (off : nat) (c : Connection) : Connection :=
  mkConn (c_fd c) (c_in c) (c_parser c) o off (c_file c) (c_file_off c) (c_file_left c) (c_producer c)
    (c_trailers c) (c_chunked c) (c_stream_sized c) (c_stream_left c) (c_can_read c) (c_can_write c)
    (c_peer_closed c) (c_close_after_write c) (c_continue_sent c) (c_last_active_us c) (c_request_start_us c).
Definition set_file (f off left : Z) (c : Connection) : Connection :=
  mkConn (c_fd c) (c_in c) (c_parser c) (c_out c) (c_out_off c) f off left (c_producer c)
    (c_trailers c) (c_chunked c) (c_stream_sized c) (c_stream_left c) (c_can_read c) (c_can_write c)
    (c_peer_closed c) (c_close_after_write c) (c_continue_sent c) (c_last_active_us c) (c_request_start_us c).
Definition set_stream (pr : option BodyProducer) (tr : Headers) (chunked sized : bool) (left : Z) (c : Connection)
  : Connection :=
  mkConn (c_fd c) (c_in c) (c_parser c) (c_out c) (c_out_off c) (c_file c) (c_file_off c) (c_file_left c) pr
    tr chunked sized left (c_can_read c) (c_can_write c)
    (c_peer_closed c) (c_close_after_write c) (c_continue_sent c) (c_last_active_us c) (c_request_start_us c).
Definition set_ready (rd wr : bool) (c : Connection) : Connection :=
  mkConn (c_fd c) (c_in c) (c_parser c) (c_out c) (c_out_off c) (c_file c) (c_file_off c) (c_file_left c)
    (c_producer c) (c_trailers c) (c_chunked c) (c_stream_sized c) (c_stream_left c) rd wr
    (c_peer_closed c) (c_close_after_write c) (c_continue_sent c) (c_last_active_us c) (c_request_start_us c).
Definition set_flags (peer close cont : bool) (c : Connection) : Connection :=
  mkConn (c_fd c) (c_in c) (c_parser c) (c_out c) (c_out_off c) (c_file c) (c_file_off c) (c_file_left c)
    (c_producer c) (c_trailers c) (c_chunked c) (c_stream_sized c) (c_stream_left c) (c_can_read c) (c_can_write c)
    peer close cont (c_last_active_us c) (c_request_start_us c).
Definition set_times (active start : Z) (c : Connection) : Connection :=
  mkConn (c_fd c) (c_in c) (c_parser c) (c_out c) (c_out_off c) (c_file c) (c_file_off c) (c_file_left c)
    (c_producer c) (c_trailers c) (c_chunked c) (c_stream_sized c) (c_stream_left c) (c_can_read c) (c_can_write c)
    (c_peer_closed c) (c_close_after_write c) (c_continue_sent c) active start.

(** Assignments to one member. *)
Definition append_out (s : bytes) (c : Connection) : Connection := set_out (c_out c ++ s) (c_out_off c) c.
Definition set_can_read (b : bool) (c : Connection) : Connection := set_ready b (c_can_write c) c.
Definition set_can_write (b : bool) (c : Connection) : Connection := set_ready (c_can_read c) b c.
Definition set_peer_closed (c : Connection) : Connection :=
  set_flags true (c_close_after_write c) (c_continue_sent c) c.
Definition set_close_after_write (c : Connection) : Connection :=
  set_flags (c_peer_closed c) true (c_continue_sent c) c.
Definition set_continue_sent (b : bool) (c : Connection) : Connection :=
  set_flags (c_peer_closed c) (c_close_after_write c) b c.
Definition set_last_active (t : Z) (c : Connection) : Connection := set_times t (c_request_start_us c) c.
Definition set_request_start (t : Z) (c : Connection) : Connection := set_times (c_last_active_us c) t c.

Definition out_pending (c : Connection) : nat := length (c_out c) - c_out_off c.
Definition body_source_active (c : Connection) : bool :=
  fd_valid (c_file c) || match c_producer c with Some _ => true | None => false end.
Definition has_output (c : Connection) : bool := (0 <? out_pending c)%nat || body_source_active c.

(** The worker's members the functions on a connection use. *)
Record Env := mkEnv {
  e_metrics : WorkerMetrics;
  e_date : DateCache;
  e_kern : K }.

Definition count (f : Field.t) (n : Z) (e : Env) : Env := mkEnv (bump f n (e_metrics e)) (e_date e) (e_kern e).
Definition set_kern (k : K) (e : Env) : Env := mkEnv (e_metrics e) (e_date e) k.

(** [DateCache::get] and the call [date_.get(std::time(nullptr))]. *)
Definition DateCache_get (d : DateCache) (now : Z) : bytes * DateCache :=
  let d := if negb (now =? cached_ d)%Z then mkDate now (strftime_gmt now) else d in
  (date_text d, d).

Definition get_date (e : Env) : bytes * Env :=
  let '(now, k) := sys_time (e_kern e) in
  let '(s, d) := DateCache_get (e_date e) now in
  (s, mkEnv (e_metrics e) d k).

Section Worker.
Context (router_ : Router K) (now_us_ : Z) (draining_ : bool) (max_in_buffer_ : Z).

(** ** Responses *)

Definition record_response (c : Connection) (status : Z) (e : Env) : Connection * Env :=
  let e := count Field.requests 1 e in
  let cls := Z.quot status 100 in
  let e := if ((cls >=? 1) && (cls <=? 5))%Z
           then mkEnv (bump_class (Z.to_nat cls) (e_metrics e)) (e_date e) (e_kern e) else e in
  let e := if negb (c_request_start_us c =? 0)%Z then
             let '(now, k) := sys_mono_us (e_kern e) in
             mkEnv (observe_latency_us (u64 (now - c_request_start_us c)) (e_metrics e)) (e_date e) k
           else e in
  (set_request_start 0 c, e).

Definition dispatch (c : Connection) (req : Request) (e : Env) : Connection * Env :=
  let '(res, k) := Router.dispatch router_ (e_kern e) req Response_new in
  let e := set_kern k e in
  let keep := keep_alive req && negb draining_ in
  let '(date, e) := get_date e in
  let opts := mkHeadOptions keep (is_http10 req) date in
  let '(out, framing) := write_head (c_out c) res opts in
  let c := set_out out (c_out_off c) c in
  let c := if negb keep || bool_decide (framing = CloseDelimited) then set_close_after_write c else c in
  let '(c, e, file) :=
    if negb (bytes_eqb (method req) (B "HEAD")) && negb (bool_decide (framing = FramingNone)) then
      if fd_valid (file res) then
        if (file_length res >? 0)%Z then
          (* [c.file = std::move(res.file)] closes what [c.file] held *)
          let e := if fd_valid (c_file c) then set_kern (sys_close (e_kern e) (c_file c)) e else e in
          (set_file (file res) (file_offset res) (file_length res) c, e, -1)
        else (c, e, file res)
      else
        match producer res with
        | Some pr =>
            let sized := match stream_length res with Some _ => true | None => false end in
            let left := match stream_length res with Some n => n | None => 0 end in
            let pr' := if negb (sized && (left =? 0)) then Some pr else c_producer c in
            (set_stream pr' [] (bool_decide (framing = Chunked)) sized left c, e, file res)
        | None => (append_out (res_body res) c, e, file res)
        end
    else (c, e, file res)%Z in
  let '(c, e) := record_response c (status res) e in
  (* [~Response] *)
  (c, if fd_valid file then set_kern (sys_close (e_kern e) file) e else e).

Definition queue_error (c : Connection) (status : Z) (detail : bytes) (e : Env) : Connection * Env :=
  let res := Response_text status (reason_phrase status ++ B ": " ++ detail ++ [LF]) text_plain in
  let '(date, e) := get_date e in
  let opts := mkHeadOptions false false date in
  let '(out, _) := write_head (c_out c) res opts in
  let c := append_out (res_body res) (set_out out (c_out_off c) c) in
  record_response (set_close_after_write c) status e.

(** ** Parsing and dispatching *)

Definition continue_line : bytes := B "HTTP/1.1 100 Continue" ++ kCRLF ++ kCRLF.

(** One round of the [while] of [process]: [inl] when the loop goes on. *)
Definition process_round (c : Connection) (e : Env) (progress : bool)
  : (Connection * Env) + (bool * Connection * Env) :=
  if c_close_after_write c || body_source_active c || negb (Z.of_nat (out_pending c) <? kOutHighWater)%Z
  then inr (progress, c, e)
  else
    let data := ib_readable (c_in c) in
    match data with
    | [] => inr (progress, c, e)
    | _ =>
        let c := if (c_request_start_us c =? 0)%Z then set_request_start now_us_ c else c in
        let '(p, used) := feed (c_parser c) data in
        let c := set_input (ib_consume (c_in c) (Z.of_nat used)) p c in
        let progress := progress || negb (used =? 0)%nat in
        if failed p then
          let e := count Field.parse_errors 1 e in
          let '(c, e) := queue_error c (status_for (error_ p)) (error_detail_ p) e in
          inr (true, c, e)
        else
          let '(c, progress) :=
            if expect_continue (req_ p) && negb (c_continue_sent c) && headers_complete p && negb (done p)
            then (set_continue_sent true (append_out continue_line c), true)
            else (c, progress) in
          if negb (done p) then inr (progress, c, e)
          else
            let '(req, p) := take_request p in
            let '(c, e) := dispatch (set_input (c_in c) p c) req e in
            inl (set_continue_sent false c, e)
    end.

Fixpoint process_loop (fuel : nat) (c : Connection) (e : Env) (progress : bool)
  : option (bool * Connection * Env) :=
  match fuel with
  | O => None
  | S f =>
      match process_round c e progress with
      | inr r => Some r
      | inl (c, e) => process_loop f c e true
      end
  end.

(** Every round that goes on consumes input ([ConnectionFacts.process_spec]). *)
Definition process_fuel (c : Connection) : nat := S (length (ib_readable (c_in c))).
Definition process (c : Connection) (e : Env) : bool * Connection * Env :=
  match process_loop (process_fuel c) c e false with
  | Some r => r
  | None => (false, c, e)
  end.

(** ** Reading *)

(** The [while] of [do_read]; [None] when the fuel is used up.  The result is
    the value returned, [progress], the connection and the environment. *)
Fixpoint do_read (fuel : nat) (c : Connection) (e : Env) (progress : bool)
  : option (bool * bool * Connection * Env) :=
  if (ib_size (c_in c) <? max_in_buffer_)%Z then
    match fuel with
    | O => None
    | S f =>
        let '(r, k) := sys_recv (e_kern e) (c_fd c) kReadSize in
        let e := set_kern k e in
        match r with
        | inl [] => Some (true, true, set_peer_closed c, e)
        | inl bs =>
            match ib_receive (c_in c) kReadSize bs with
            | None => None
            | Some b =>
                let c := set_last_active now_us_ (set_input b (c_parser c) c) in
                do_read f c (count Field.bytes_received (zlen bs) e) true
            end
        | inr EINTR => do_read f c e progress
        | inr EAGAIN => Some (true, progress, set_can_read false c, e)
        | inr EOTHER => Some (false, progress, c, e)
        end
    end
  else Some (true, progress, c, e).

(** ** Writing *)

(** One round of the [while] of [refill_from_producer]: [None] is [return
    false] (a thrown exception, a breach of the contract, an overrun). *)
Definition refill_round (c : Connection) : option (bool * Connection) :=
  match c_producer c with
  | None => None
  | Some pr =>
      match produce pr [] (c_trailers c) with
      | None => None
      | Some (more, piece, tr, pr') =>
          if more && match piece with [] => true | _ => false end then None
          else
            let c := set_stream (Some pr') tr (c_chunked c) (c_stream_sized c) (c_stream_left c) c in
            if c_stream_sized c then
              if (zlen piece >? c_stream_left c)%Z then None
              else
                let left := u64 (c_stream_left c - zlen piece) in
                let c := append_out piece (set_stream (Some pr') tr (c_chunked c) true left c) in
                Some (if (left =? 0)%Z then false else more, c)
            else if c_chunked c then Some (more, set_out (append_chunk (c_out c) piece) (c_out_off c) c)
            else Some (more, append_out piece c)
      end
  end.

Fixpoint refill_loop (fuel : nat) (c : Connection) (more : bool) : option (bool * Connection) :=
  if more && (zlen (c_out c) <? kProducerLowWater)%Z then
    match fuel with
    | O => None
    | S f =>
        match refill_round c with
        | None => None
        | Some (more, c) => refill_loop f c more
        end
    end
  else Some (more, c).

(** A round that goes on appends at least one byte, so this is enough
    ([ConnectionFacts.refill_loop_fuel]). *)
Definition refill_fuel : nat := Z.to_nat kProducerLowWater.

(** The [if (!more)] at the end of [refill_from_producer]. *)
Definition finish_stream (c : Connection) : Connection :=
  let tr := c_trailers c in
  let c := set_stream None tr (c_chunked c) (c_stream_sized c) (c_stream_left c) c in
  let c := if c_chunked c then set_out (append_last_chunk (c_out c) tr) (c_out_off c) c else c in
  let c := if c_stream_sized c && negb (c_stream_left c =? 0)%Z then set_close_after_write c else c in
  set_stream None [] (c_chunked c) (c_stream_sized c) (c_stream_left c) c.

(** [None] is [return false]. *)
Definition refill_from_producer (c : Connection) : option Connection :=
  match refill_loop refill_fuel c true with
  | None => None
  | Some (more, c) => Some (if more then c else finish_stream c)
  end.

(** What one round of the [while] of [do_write] does with the loop. *)
Inductive wround := WContinue | WBreak | WFalse.

Definition after_send (sent : nat) (c : Connection) : Connection :=
  let off := (c_out_off c + sent)%nat in
  if (off =? length (c_out c))%nat then set_out [] 0 c
  else if (length (c_out c) / 2 <? off)%nat then set_out (drop off (c_out c)) 0 c
  else set_out (c_out c) off c.

Definition write_round (c : Connection) (e : Env) (progress : bool) : wround * bool * Connection * Env :=
  if (0 <? out_pending c)%nat then
    let want := out_pending c in
    let '(r, k) := sys_send (e_kern e) (c_fd c) (drop (c_out_off c) (c_out c)) in
    let e := set_kern k e in
    match r with
    | inr EINTR => (WContinue, progress, c, e)
    | inr EAGAIN => (WBreak, progress, set_can_write false c, e)
    | inr EOTHER => (WFalse, progress, c, e)
    | inl n =>
        let sent := Z.to_nat n in
        let e := count Field.bytes_sent n e in
        let c := after_send sent (set_last_active now_us_ c) in
        if (sent <? want)%nat then (WBreak, true, set_can_write false c, e) else (WContinue, true, c, e)
    end
  else if fd_valid (c_file c) then
    let want := Z.min (c_file_left c) kSendfileMax in
    let '(r, k) := sys_sendfile (e_kern e) (c_fd c) (c_file c) (c_file_off c) want in
    let e := set_kern k e in
    match r with
    | inr EINTR => (WContinue, progress, c, e)
    | inr EAGAIN => (WBreak, progress, set_can_write false c, e)
    | inr EOTHER => (WFalse, progress, c, e)
    | inl [] => (WFalse, progress, c, e)
    | inl bs =>
        let sent := zlen bs in
        let left := u64 (c_file_left c - sent) in
        let e := count Field.bytes_sendfile sent (count Field.bytes_sent sent e) in
        let c := set_last_active now_us_ (set_file (c_file c) (c_file_off c + sent) left c) in
        if (left =? 0)%Z then
          (WContinue, true, set_file (-1) (c_file_off c) left c, set_kern (sys_close (e_kern e) (c_file c)) e)
        else if (sent <? want)%Z then (WBreak, true, set_can_write false c, e)
        else (WContinue, true, c, e)
    end
  else
    match c_producer c with
    | Some _ =>
        match refill_from_producer c with
        | None => (WFalse, progress, c, e)
        | Some c => (WContinue, true, c, e)
        end
    | None => (WBreak, progress, c, e)
    end.

(** The result is the value returned, [progress], the connection and the environment. *)
Fixpoint do_write (fuel : nat) (c : Connection) (e : Env) (progress : bool)
  : option (bool * bool * Connection * Env) :=
  if c_can_write c then
    match fuel with
    | O => None
    | S f =>
        match write_round c e progress with
        | (WFalse, progress, c, e) => Some (false, progress, c, e)
        | (WBreak, progress, c, e) => Some (true, progress, c, e)
        | (WContinue, progress, c, e) => do_write f c e progress
        end
    end
  else Some (true, progress, c, e).

(** ** The event loop's step on a connection *)

(** [while (::recv(fd, sink, sizeof sink, 0) > 0) {}]. *)
Fixpoint discard (fuel : nat) (fd : Z) (k : K) : option K :=
  match fuel with
  | O => None
  | S f =>
      match sys_recv k fd 4096 with
      | (inl (_ :: _), k) => discard f fd k
      | (_, k) => Some k
      end
  end.

(** One round of the [for (;;)]: [None] when a loop inside does not end
    within its fuel, else whether to [return false], [progress], and the rest. *)
Definition drive_round (fuel : nat) (c : Connection) (e : Env) : option (bool * bool * Connection * Env) :=
  match
    (if c_can_read c && negb (c_peer_closed c) && negb (c_close_after_write c) && (ib_size (c_in c) <? max_in_buffer_)%Z
     then do_read fuel c e false
     else Some (true, false, c, e))
  with
  | None => None
  | Some (ok, progress, c, e) =>
      if negb ok then Some (false, progress, c, e)
      else
        let '(did, c, e) := process c e in
        let progress := progress || did in
        if c_can_write c && has_output c then do_write fuel c e progress
        else Some (true, progress, c, e)
  end.

(** The result is the value returned ([false]: close the connection). *)
Fixpoint drive (fuel : nat) (c : Connection) (e : Env) : option (bool * Connection * Env) :=
  match fuel with
  | O => None
  | S f =>
      match drive_round f c e with
      | None => None
      | Some (ok, progress, c, e) =>
          if negb ok then Some (false, c, e)
          else if progress then drive f c e
          else if has_output c then Some (true, c, e)
          else if c_close_after_write c then
            match discard f (c_fd c) (sys_shutdown (e_kern e) (c_fd c)) with
            | None => None
            | Some k => Some (false, c, set_kern k e)
            end
          else Some (negb (c_peer_closed c), c, e)
      end
  end.

End Worker.
End Connection.

Arguments Connection : clear implicits.
Arguments Env : clear implicits.

(** Reduces members of updated connections and environments. *)
Ltac conn_simpl :=
  cbn [c_fd c_in c_parser c_out c_out_off c_file c_file_off c_file_left c_producer c_trailers c_chunked
       c_stream_sized c_stream_left c_can_read c_can_write c_peer_closed c_close_after_write c_continue_sent
       c_last_active_us c_request_start_us set_input set_out set_file set_stream set_ready set_flags set_times
       append_out set_can_read set_can_write set_peer_closed set_close_after_write set_continue_sent
       set_last_active set_request_start e_kern e_metrics e_date count set_kern fst snd] in *.
