(* ===== verification/CallFrame.v ===== *)
(** * What the functions on a connection do to the kernel

    Between reading and writing, the functions on a connection only read
    clocks, close descriptors and call handlers; the other calls are on the
    socket of the connection.  A preorder on kernel states that these respect
    is respected by [process], and by [drive].  [ConnectionLiveness] uses
    this for the budget of readiness, [KernelFrame] for the whole event loop,
    [Conversation] for what sockets delivered. *)

From S2P Require Import Prelude Headers RequestParser Numbers ParserFacts Response ByteBuffer Router Metrics Connection.

Open Scope Z_scope.

(** [R] holds between the states before and after every call that does not use a socket. *)
Class QuietRel {K : Type} `{Kernel K} (R : K -> K -> Prop) := {
  #[global] rel_preorder :: PreOrder R;
  rel_close : forall k fd, R k (sys_close k fd);
  rel_mono : forall k, R k (sys_mono_us k).2;
  rel_time : forall k, R k (sys_time k).2 }.

Definition router_rel {K : Type} (R : K -> K -> Prop) (router : Router K) : Prop :=
  Forall (fun r => forall k req res, R k (rt_handler r k req res).2) router.

Section Quiet.
Context {T : Type} `{InBuffer T}.
Context {K : Type} `{Kernel K} (R : K -> K -> Prop) `{!QuietRel R}.
Context (router_ : Router K) (Hrouter : router_rel R router_).

#[local] Abbreviation Conn := (Connection T).
#[local] Abbreviation env := (Env K).
#[local] Abbreviation RE e e' := (R (e_kern e) (e_kern e')).

Lemma close_if_rel fd (e : env) : RE e (if fd_valid fd then set_kern (sys_close (e_kern e) fd) e else e).
Proof. destruct (fd_valid fd); [apply rel_close|done]. Qed.

Lemma dispatch_loop_rel rs m k req res a : router_rel R rs -> R k (dispatch_loop rs m k req res a).2.
Proof.
  intros Hr. revert a. induction Hr as [|r rs Hr1 _ IH]; intros a; cbn [dispatch_loop]; [by destruct a|].
  destruct (negb _); [done|]. destruct (bytes_eqb _ _); [|done]. unfold run_handler. specialize (Hr1 k req res).
  by destruct (rt_handler r k req res) as [[?|?] ?].
Qed.

Lemma get_date_rel (e : env) : RE e (get_date e).2.
Proof.
  unfold get_date. pose proof (rel_time (e_kern e)) as Ht. destruct (sys_time (e_kern e)) as [now k]. by destruct (DateCache_get _ _).
Qed.

Lemma record_response_rel (c : Conn) s (e : env) : RE e (record_response c s e).2.
Proof.
  unfold record_response. cbn [snd]. match goal with |- context [if negb _ then _ else ?x] => set (e1 := x) end.
  assert (e_kern e1 = e_kern e) as <- by (subst e1; by destruct (_ && _)). clearbody e1. destruct (negb _); [|done].
  pose proof (rel_mono (e_kern e1)) as Hm. by destruct (sys_mono_us (e_kern e1)).
Qed.

Lemma dispatch_rel d (c : Conn) req (e : env) : RE e (dispatch router_ d c req e).2.
Proof.
  unfold dispatch. pose proof (dispatch_loop_rel router_ (lookup_method req) (e_kern e) req Response_new [] Hrouter) as Hd.
  unfold Router.dispatch. destruct (dispatch_loop _ _ _ _ _ _) as [res k]. cbn [snd] in Hd.
  pose proof (get_date_rel (set_kern k e)) as Hg. destruct (get_date (set_kern k e)) as [date e1]. cbn [snd e_kern set_kern] in Hg.
  destruct (write_head _ _ _) as [out fr].
  match goal with |- context [if negb _ || _ then _ else ?x] =>
    generalize (if negb (keep_alive req && negb d) || bool_decide (fr = CloseDelimited) then set_close_after_write x else x) end.
  intros c1.
  match goal with |- context [if ?b then _ else (c1, e1, file res)] => set (step := if b then _ else (c1, e1, file res)) end.
  assert (R (e_kern e1) (e_kern step.1.2)) as Hs.
  { subst step. destruct (_ && _); [|done]. destruct (fd_valid (file res)); [|by destruct (producer res)].
    destruct (_ >? 0); [apply close_if_rel|done]. }
  clearbody step. destruct step as [[c3 e3] f]. cbn [fst snd] in Hs.
  pose proof (record_response_rel c3 (status res) e3) as Hr. destruct (record_response c3 (status res) e3) as [c4 e4]. cbn [snd] in Hr |- *.
  etrans; [exact Hd|]. etrans; [exact Hg|]. etrans; [exact Hs|]. etrans; [exact Hr|]. apply close_if_rel.
Qed.

Lemma queue_error_rel (c : Conn) s d (e : env) : RE e (queue_error c s d e).2.
Proof.
  unfold queue_error. pose proof (get_date_rel e) as Hd. destruct (get_date e) as [date e1]. destruct (write_head _ _ _) as [out fr].
  etrans; [exact Hd|]. apply record_response_rel.
Qed.

Lemma process_round_rel now d (c : Conn) (e : env) p :
  match process_round router_ now d c e p with inl (_, e') => RE e e' | inr (_, _, e') => RE e e' end.
Proof.
  unfold process_round. destruct (_ || _ || _); [done|]. destruct (ib_readable (c_in c)) as [|b bs]; [done|].
  destruct (feed _ _) as [p1 used]. destruct (failed p1).
  - match goal with |- context [queue_error ?x ?s ?t ?y] => pose proof (queue_error_rel x s t y) as Hq; destruct (queue_error x s t y) end. exact Hq.
  - match goal with |- context [if ?b then (set_continue_sent true ?x, true) else ?y] =>
      destruct (if b then (set_continue_sent true x, true) else y) as [c3 pr] end.
    destruct (done p1); cbn [negb]; [|reflexivity]. cbn [take_request].
    match goal with |- context [dispatch ?r ?d ?x ?y e] => pose proof (dispatch_rel d x y e) as Hd; destruct (dispatch r d x y e) end. exact Hd.
Qed.

Lemma process_loop_rel now d fuel (c : Conn) (e : env) p b c' e' :
  process_loop router_ now d fuel c e p = Some (b, c', e') -> RE e e'.
Proof.
  revert c e p. induction fuel as [|f IH]; intros c e p; cbn [process_loop]; [done|].
  pose proof (process_round_rel now d c e p) as Hr. destruct (process_round _ _ _ _ _ _) as [[c1 e1]|[[b1 c1] e1]].
  - intros Hl%IH. by etrans.
  - by intros [= _ _ <-].
Qed.

Lemma process_rel now d (c : Conn) (e : env) : RE e (process router_ now d c e).2.
Proof.
  unfold process. destruct (process_loop _ _ _ _ _ _ _) as [[[b c'] e']|] eqn:E; [by eapply process_loop_rel|done].
Qed.

End Quiet.

(** ** The socket of a connection *)

(** [R] holds between the states before and after every call on a socket that satisfies [P]. *)
Class SocketRel {K : Type} `{Kernel K} (P : Z -> Prop) (R : K -> K -> Prop) := {
  #[global] rel_quiet :: QuietRel R;
  rel_recv : forall k fd n, P fd -> R k (sys_recv k fd n).2;
  rel_send : forall k fd bs, P fd -> R k (sys_send k fd bs).2;
  rel_sendfile : forall k fd f off n, P fd -> R k (sys_sendfile k fd f off n).2;
  rel_shutdown : forall k fd, P fd -> R k (sys_shutdown k fd) }.

Section SameSocket.
Context {T : Type} `{InBuffer T} {K : Type} `{Kernel K} (router_ : Router K).
#[local] Abbreviation Conn := (Connection T).
#[local] Abbreviation env := (Env K).

Lemma dispatch_fd d (c : Conn) req (e : env) : c_fd (dispatch router_ d c req e).1 = c_fd c.
Proof.
  unfold dispatch. destruct (Router.dispatch _ _ _ _) as [res k]. destruct (get_date _) as [date e1]. destruct (write_head _ _ _) as [out fr].
  destruct (negb (keep_alive req && negb d) || _), (negb _ && negb _); try done; destruct (fd_valid (file res));
    [destruct (_ >? 0)|destruct (producer res)|destruct (_ >? 0)|destruct (producer res)]; done.
Qed.

Lemma queue_error_fd (c : Conn) s t (e : env) : c_fd (queue_error c s t e).1 = c_fd c.
Proof. unfold queue_error. destruct (get_date e), (write_head _ _ _). done. Qed.

Lemma process_round_fd now d (c : Conn) (e : env) p :
  match process_round router_ now d c e p with inl (c', _) => c_fd c' = c_fd c | inr (_, c', _) => c_fd c' = c_fd c end.
Proof.
  unfold process_round. destruct (_ || _ || _); [done|]. destruct (ib_readable (c_in c)) as [|b bs]; [done|].
  set (c1 := if _ =? 0 then _ else c). assert (c_fd c1 = c_fd c) as <- by (subst c1; by destruct (_ =? 0)). clearbody c1.
  destruct (feed _ _) as [p1 used]. destruct (failed p1).
  - match goal with |- context [queue_error ?x ?s ?t ?y] => pose proof (queue_error_fd x s t y) as Hq; destruct (queue_error x s t y) end. exact Hq.
  - destruct (_ && _ && _ && _), (done p1); cbn [negb take_request]; try done;
      match goal with |- context [dispatch ?r ?d ?x ?y e] => pose proof (dispatch_fd d x y e) as Hq; destruct (dispatch r d x y e) end; exact Hq.
Qed.

Lemma process_fd now d (c : Conn) (e : env) : c_fd (process router_ now d c e).1.2 = c_fd c.
Proof.
  unfold process. destruct (process_loop _ _ _ _ _ _ _) as [[[b c'] e']|] eqn:E; [|done]. cbn [fst snd]. revert E. generalize (process_fuel c) false.
  intros fuel. revert c e. induction fuel as [|f IH]; intros c e p; cbn [process_loop]; [done|].
  pose proof (process_round_fd now d c e p) as Hr. destruct (process_round _ _ _ _ _ _) as [[c1 e1]|[[b1 c1] e1]]; [|by intros [= _ <- _]].
  intros Hl%IH. congruence.
Qed.

Lemma refill_fd (c c' : Conn) : refill_from_producer c = Some c' -> c_fd c' = c_fd c.
Proof.
  unfold refill_from_producer. destruct (refill_loop refill_fuel c true) as [[more c1]|] eqn:E; [|done].
  assert (c_fd c1 = c_fd c) as <-; [|destruct more; intros [= <-]; [done|]; unfold finish_stream; by repeat case_match].
  revert E. generalize refill_fuel true. intros fuel. revert c. induction fuel as [|f IH]; intros c b; cbn [refill_loop];
    (destruct (b && _); [|by intros [= _ <-]]); [done|].
  destruct (refill_round c) as [[m c2]|] eqn:Er; [|done]. intros Hl%IH. rewrite Hl. revert Er. unfold refill_round. repeat case_match; by intros [= _ <-].
Qed.

Lemma write_round_fd now (c : Conn) (e : env) p : c_fd (write_round now c e p).1.2 = c_fd c.
Proof.
  unfold write_round. destruct (0 <? _)%nat.
  { destruct (sys_send _ _ _) as [[n|[]] k]; try done. unfold after_send. repeat case_match; done. }
  destruct (fd_valid (c_file c)); [destruct (sys_sendfile _ _ _ _ _) as [[[|b0 bs]|[]] k]; try done; cbn zeta; by repeat case_match|].
  destruct (c_producer c); [|done]. destruct (refill_from_producer c) as [c1|] eqn:Er; [|done]. by apply refill_fd in Er.
Qed.
End SameSocket.

Section Sockets.
Context {T : Type} `{InBuffer T}.
Context {K : Type} `{Kernel K} (R : K -> K -> Prop) (router_ : Router K) (Hrouter : router_rel R router_).
Context (P : Z -> Prop) `{!SocketRel P R}.

#[local] Abbreviation Conn := (Connection T).
#[local] Abbreviation env := (Env K).
#[local] Abbreviation RE e e' := (R (e_kern e) (e_kern e')).

Lemma do_read_rel now m fuel (c : Conn) (e : env) p ok pr c' e' :
  P (c_fd c) -> do_read now m fuel c e p = Some (ok, pr, c', e') -> RE e e' /\ c_fd c' = c_fd c.
Proof.
  intros HP. revert c e p HP. induction fuel as [|f IH]; intros c e p HP; cbn [do_read]; (destruct (_ <? m); [|by intros [= _ _ <- <-]]); [done|].
  pose proof (rel_recv (e_kern e) (c_fd c) kReadSize HP) as Hq.
  destruct (sys_recv (e_kern e) (c_fd c) kReadSize) as [[[|b bs]|[]] k]; cbn [snd] in Hq; try (by intros [= _ _ <- <-]).
  - destruct (ib_receive _ _ _) as [i|]; [|done]. intros [Hr Hfd]%IH; [|done]. split; [by etrans|done].
  - intros [Hr Hfd]%IH; [|done]. split; [by etrans|done].
Qed.

Lemma write_round_rel now (c : Conn) (e : env) p : P (c_fd c) -> RE e (write_round now c e p).2.
Proof.
  intros HP. unfold write_round. destruct (0 <? _)%nat.
  { pose proof (rel_send (e_kern e) (c_fd c) (drop (c_out_off c) (c_out c)) HP) as Hq.
    destruct (sys_send _ _ _) as [[n|[]] k]; try exact Hq. by destruct (_ <? _)%nat. }
  destruct (fd_valid (c_file c)); [|destruct (c_producer c); [|done]; by destruct (refill_from_producer c)].
  match goal with |- context [sys_sendfile ?a ?b ?x ?y ?z] =>
    pose proof (rel_sendfile a b x y z HP) as Hq; destruct (sys_sendfile a b x y z) as [[[|b0 bs]|[]] k] end; try exact Hq.
  cbn zeta. destruct (_ =? 0); [|by destruct (_ <? _)]. cbn [snd]. etrans; [exact Hq|apply rel_close].
Qed.

Lemma do_write_rel now fuel (c : Conn) (e : env) p ok pr c' e' :
  P (c_fd c) -> do_write now fuel c e p = Some (ok, pr, c', e') -> RE e e' /\ c_fd c' = c_fd c.
Proof.
  revert c e p. induction fuel as [|f IH]; intros c e p HP; cbn [do_write]; (destruct (c_can_write c); [|by intros [= _ _ <- <-]]); [done|].
  pose proof (write_round_rel now c e p HP) as Hr. pose proof (write_round_fd now c e p) as Hfd.
  destruct (write_round _ _ _ _) as [[[[] p1] c1] e1]; cbn [fst snd] in *; try (by intros [= _ _ <- <-]).
  intros [Hl Hfd']%IH; [|by rewrite Hfd]. split; [by etrans|congruence].
Qed.

Lemma discard_rel fuel fd k k' : P fd -> discard fuel fd k = Some k' -> R k k'.
Proof.
  intros HP. revert k. induction fuel as [|f IH]; intros k; cbn [discard]; [done|]. pose proof (rel_recv k fd 4096 HP) as Hq.
  destruct (sys_recv k fd 4096) as [[[|b bs]|x] k1]; [by intros [= <-]| |by intros [= <-]]. intros Hd%IH. by etrans.
Qed.

Lemma drive_round_rel now d m fuel (c : Conn) (e : env) ok pr c' e' :
  P (c_fd c) -> drive_round router_ now d m fuel c e = Some (ok, pr, c', e') -> RE e e' /\ c_fd c' = c_fd c.
Proof.
  intros HP. unfold drive_round.
  match goal with |- context [if ?b then do_read _ _ fuel c e false else ?y] =>
    destruct (if b then do_read now m fuel c e false else y) as [[[[ok2 p2] c2] e2]|] eqn:Ed; [|done];
    assert (RE e e2 /\ c_fd c2 = c_fd c) as [Hr2 Hf2] by (destruct b; [by eapply do_read_rel|by injection Ed as _ _ <- <-]) end.
  destruct ok2; cbn [negb]; [|by intros [= _ _ <- <-]]. pose proof (process_rel R router_ Hrouter now d c2 e2) as Hp.
  pose proof (process_fd router_ now d c2 e2) as Hf3. destruct (process _ _ _ _ _) as [[did c3] e3]. cbn [fst snd] in *.
  destruct (c_can_write c3 && has_output c3).
  - intros [Hw Hf4]%do_write_rel; [|by rewrite Hf3, Hf2]. split; [etrans; [exact Hr2|]; by etrans|congruence].
  - intros [= _ _ <- <-]. split; [by etrans|congruence].
Qed.

Lemma drive_rel now d m fuel (c : Conn) (e : env) ok c' e' :
  P (c_fd c) -> drive router_ now d m fuel c e = Some (ok, c', e') -> RE e e' /\ c_fd c' = c_fd c.
Proof.
  revert c e. induction fuel as [|f IH]; intros c e HP; cbn [drive]; [done|].
  destruct (drive_round _ _ _ _ f c e) as [[[[ok1 p1] c1] e1]|] eqn:Er; [|done]. apply drive_round_rel in Er as [Hr1 Hf1]; [|done].
  destruct ok1; cbn [negb]; [|by intros [= _ <- <-]]. destruct p1.
  { intros [Hd Hf2]%IH; [|by rewrite Hf1]. split; [by etrans|congruence]. }
  destruct (has_output c1); [by intros [= _ <- <-]|]. destruct (c_close_after_write c1); [|by intros [= _ <- <-]].
  destruct (discard _ _ _) as [k|] eqn:Ed; [|done]. intros [= _ <- <-]. split; [|done]. etrans; [exact Hr1|].
  rewrite Hf1 in Ed. etrans; [apply (rel_shutdown _ (c_fd c) HP)|]. by eapply discard_rel.
Qed.

End Sockets.
