(* ===== verification/ConnectionFacts.v ===== *)
(** * Connections: termination, order and conservation

    The theorems hold for every input buffer that satisfies [InBufferLaws]
    and every kernel that satisfies [KernelLaws]. *)

From S2P Require Import Prelude Headers RequestParser Numbers ParserFacts ParserSegmentation.
From S2P Require Import Response ChunkCodec ResponseHead ByteBuffer Router Metrics Connection.

(** ** The parser on a full buffer *)

(** A round that stops without consuming anything changed nothing or failed. *)
Lemma feed_round_stuck p rest :
  parser_wf p -> r_continue (feed_round p rest) = false -> r_used (feed_round p rest) = 0%nat ->
  r_parser (feed_round p rest) = p \/ failed (r_parser (feed_round p rest)) = true.
Proof.
  intros Hp. unfold feed_round, feed_request_line, feed_headers, feed_body, feed_chunk_data_end, feed_chunk_size.
  change (length kCRLF) with 2%nat.
  destruct (state_ p); repeat cases_goal; round_simpl; intros Hc Hu; try done; try lia; auto.
  - destruct (parse_request_line_cases (take n rest) p) as [(? & ? & _ & Hr)|(? & Hr & _)];
      rewrite Hr in *; simplify_eq/=. by right.
  - destruct (parse_chunk_size_cases (take n rest) p) as [(? & ? & _ & Hr)|[Hr|(? & Hr & _)]];
      [apply Hp..| | |]; rewrite Hr in *; simplify_eq/=. by right.
Qed.

Lemma feed_stuck p data :
  parser_wf p -> (feed p data).2 = 0%nat -> (feed p data).1 = p \/ failed (feed p data).1 = true.
Proof.
  intros Hp Hu. pose proof (feed_feeds p data Hp) as H. remember (feed p data).1 as q. remember (feed p data).2 as n.
  clear Heqq Heqn. inv H; [by apply feed_round_stuck|].
  pose proof (feed_round_progress p data Hp ltac:(done)). lia.
Qed.

(** A request is never finished without consuming input. *)
Lemma feed_done_used p data :
  parser_wf p -> final p = false -> done (feed p data).1 = true -> (0 < (feed p data).2)%nat.
Proof.
  intros Hp Hf Hd. destruct (Nat.eq_0_gt_0_cases (feed p data).2) as [Hu|Hu]; [|done].
  destruct (feed_stuck p data Hp Hu) as [E|E].
  - rewrite E in Hd. unfold final in Hf. by rewrite Hd in Hf.
  - unfold done, failed in *. by destruct (state_ (feed p data).1).
Qed.

(** The limits under which a full input buffer cannot block the parser. *)
Definition buffer_fits (l : ParserLimits) : Prop :=
  (2 <= max_header_bytes l /\ max_chunk_line l + 2 <= max_in_buffer l)%Z.

Lemma feed_headers_full (trailing : bool) p rest :
  parser_wf p -> fits rest -> (max_header_bytes (limits_ p) <= zlen rest)%Z ->
  let r := feed_headers trailing p rest in r_continue r = true \/ failed (r_parser r) = true.
Proof.
  intros Hp Hfit Hlen. pose proof (limits_ok_bounds _ (wf_limits _ Hp)) as Hl.
  pose proof (wf_header_bytes _ Hp) as Hhb. unfold fits in *. pose proof (zlen_nonneg rest).
  unfold feed_headers. destruct (find_sub kCRLF rest) as [eol|] eqn:Ee; cbn zeta.
  - destruct (_ >? _)%Z; [by right|]. destruct (eol =? 0)%nat.
    + destruct trailing; [by left|].
      destruct (finish_headers_cases (with_header_bytes (u64 (header_bytes_ p + Z.of_nat (eol + length kCRLF))) p))
        as [(? & ? & _ & ->)|(_ & ? & ? & -> & _)]; [by right|by left].
    + destruct (_ >? _)%Z; [by right|]. match goal with |- context [parse_field_line ?l ?ih ?q] =>
        destruct (parse_field_line_cases l ih q) as [(? & ? & _ & ->)|(? & _ & ->)] end; [by right|by left].
  - rewrite u64_small by lia. destruct (Z.gtb_spec (header_bytes_ p + zlen rest + 1) (max_header_bytes (limits_ p)));
      [by right|lia].
Qed.

Lemma feed_round_full p rest :
  parser_wf p -> final p = false -> buffer_fits (limits_ p) -> fits rest -> (max_in_buffer (limits_ p) <= zlen rest)%Z ->
  r_continue (feed_round p rest) = true \/ failed (r_parser (feed_round p rest)) = true.
Proof.
  intros Hp Hf [Hh Hc] Hfit Hlen. pose proof (limits_ok_bounds _ (wf_limits _ Hp)) as Hl.
  unfold max_in_buffer in *. rewrite u64_small in * by lia. unfold final, done, failed in Hf.
  unfold feed_round. destruct (state_ p) eqn:Hs; try done.
  - unfold feed_request_line. destruct (find_sub kCRLF rest) as [eol|] eqn:Ee.
    + destruct (eol =? 0)%nat; [by left|]. destruct (_ >? _)%Z; [by right|].
      destruct (parse_request_line_cases (take eol rest) p) as [(? & ? & _ & ->)|(? & -> & _)]; [by right|by left].
    + rewrite u64_small by lia. destruct (Z.gtb_spec (zlen rest) (max_request_line (limits_ p) + 1)); [by right|lia].
  - apply feed_headers_full; [done..|lia].
  - unfold feed_body. destruct rest; [unfold zlen in *; cbn in *; lia|by left].
  - unfold feed_chunk_size. destruct (find_sub kCRLF rest) as [eol|] eqn:Ee.
    + destruct (_ >? _)%Z; [by right|].
      destruct (parse_chunk_size_cases (take eol rest) p) as [(? & ? & _ & ->)|[->|(? & -> & _)]];
        [apply Hp..|by right|by left|by left].
    + rewrite u64_small by lia. destruct (Z.gtb_spec (zlen rest) (max_chunk_line (limits_ p) + 1)); [by right|lia].
  - unfold feed_body. destruct rest; [unfold zlen in *; cbn in *; lia|by left].
  - unfold feed_chunk_data_end. change (zlen kCRLF) with 2%Z. destruct (Z.ltb_spec (zlen rest) 2); [lia|].
    destruct (negb _); [by right|by left].
  - apply feed_headers_full; [done..|lia].
Qed.

Lemma feed_full p data :
  parser_wf p -> final p = false -> buffer_fits (limits_ p) -> fits data -> (max_in_buffer (limits_ p) <= zlen data)%Z ->
  (0 < (feed p data).2)%nat \/ failed (feed p data).1 = true.
Proof.
  intros Hp Hf Hb Hfit Hlen. pose proof (feed_feeds p data Hp) as H.
  destruct (feed_round_full p data Hp Hf Hb Hfit Hlen) as [Hr|Hr].
  - left. pose proof (feed_round_progress p data Hp Hr). inv H; [congruence|lia].
  - pose proof (feed_round_wf p data Hp) as Hw. inv H; [by right|].
    right. assert (final (r_parser (feed_round p data)) = true) as Hfin by (unfold final; by rewrite Hr, orb_true_r).
    match goal with H : feeds _ (drop _ _) _ _ |- _ => destruct (feeds_final _ _ _ _ Hfin H) as [-> _] end. done.
Qed.

(** ** Laws of the kernel *)

(** Documented behaviour of the calls: a transfer moves no more than it was
    asked to, and what a socket accepted is what was offered, in order. *)
Class KernelLaws (K : Type) `{Kernel K} := {
  recv_bound : forall k fd n bs k', sys_recv k fd n = (inl bs, k') -> (zlen bs <= n)%Z;
  recv_wire : forall k fd n fd', wire (sys_recv k fd n).2 fd' = wire k fd';
  send_spec : forall k fd bs n k', sys_send k fd bs = (inl n, k') ->
    (0 <= n <= zlen bs)%Z /\ wire k' fd = wire k fd ++ take (Z.to_nat n) bs;
  send_error : forall k fd bs x k', sys_send k fd bs = (inr x, k') -> wire k' fd = wire k fd;
  sendfile_spec : forall k fd f off want bs k', sys_sendfile k fd f off want = (inl bs, k') ->
    (zlen bs <= want)%Z /\ wire k' fd = wire k fd ++ bs;
  sendfile_error : forall k fd f off want x k', sys_sendfile k fd f off want = (inr x, k') -> wire k' fd = wire k fd;
  shutdown_wire : forall k fd fd', wire (sys_shutdown k fd) fd' = wire k fd';
  close_wire : forall k fd fd', wire (sys_close k fd) fd' = wire k fd';
  mono_wire : forall k fd', wire (sys_mono_us k).2 fd' = wire k fd';
  time_wire : forall k fd', wire (sys_time k).2 fd' = wire k fd' }.

(** What a handler may return: lengths that fit their members. *)
Definition response_ok (r : Response) : Prop :=
  (0 <= file_length r < 2 ^ 64)%Z /\ (0 <= file_offset r)%Z /\ match stream_length r with Some n => (0 <= n < 2 ^ 64)%Z | None => True end.

(** Handlers do not write to client sockets and return such responses. *)
Definition router_ok {K} `{Kernel K} (router : Router K) : Prop :=
  Forall (fun r => forall k req res, response_ok res ->
    match rt_handler r k req res with
    | (inl res', k') => response_ok res' /\ forall fd, wire k' fd = wire k fd
    | (inr _, k') => forall fd, wire k' fd = wire k fd
    end) router.

Lemma router_ok_dispatch {K} `{Kernel K} (router : Router K) k req :
  router_ok router ->
  response_ok (Router.dispatch router k req Response_new).1
  /\ forall fd, wire (Router.dispatch router k req Response_new).2 fd = wire k fd.
Proof.
  intros Hr. assert (forall s b c, response_ok (Response_text s b c)) as Ht by (intros; split_and!; cbn; done).
  unfold Router.dispatch. rewrite dispatch_loop_spec. destruct (List.find _ router) as [r|] eqn:E.
  - apply List.find_some in E as [Hin _]. rewrite <- list_elem_of_In in Hin. unfold router_ok in Hr.
    rewrite Forall_forall in Hr. specialize (Hr r Hin k req Response_new ltac:(by split_and!)). unfold run_handler.
    destruct (rt_handler r k req Response_new) as [[res|what] k']; [done|by split].
  - split; [|done]. cbn [fst]. unfold no_route_response. destruct (fold_left _ _ _); [done|]. split_and!; cbn; done.
Qed.

Section Facts.
Context {T : Type} `{InBufferLaws T}.
Context {K : Type} `{KernelLaws K}.
Context (router_ : Router K) (now_us_ : Z) (draining_ : bool) (max_in_ : Z).
Context (Hrouter : router_ok router_).

#[local] Abbreviation Conn := (Connection T).
#[local] Abbreviation env := (Env K).

(** The bytes of [out] the kernel has not accepted. *)
Definition pending (c : Conn) : bytes := drop (c_out_off c) (c_out c).

Definition sent_so_far (c : Conn) (e : env) : bytes := wire (e_kern e) (c_fd c).

Record conn_ok (c : Conn) : Prop := {
  co_parser : parser_wf (c_parser c);
  co_idle : final (c_parser c) = true -> c_close_after_write c = true;
  co_in : ib_wf (c_in c);
  co_off : c_out c = [] /\ c_out_off c = 0%nat \/ (c_out_off c < length (c_out c))%nat;
  co_file : fd_valid (c_file c) = true -> (0 < c_file_left c < 2 ^ 64 /\ 0 <= c_file_off c)%Z;
  co_stream : is_Some (c_producer c) -> c_stream_sized c = true -> (0 < c_stream_left c < 2 ^ 64)%Z }.

Lemma pending_length c : out_pending c = length (pending c).
Proof. unfold out_pending, pending. by rewrite length_drop. Qed.

(** What queueing a response may change: [out] grows and the body source is set. *)
Record queued (t : bytes) (c c' : Conn) : Prop := {
  q_out : c_out c' = c_out c ++ t;
  q_off : c_out_off c' = c_out_off c;
  q_fd : c_fd c' = c_fd c;
  q_in : c_in c' = c_in c;
  q_parser : c_parser c' = c_parser c;
  q_ready : c_can_read c' = c_can_read c /\ c_can_write c' = c_can_write c /\ c_peer_closed c' = c_peer_closed c;
  q_close : c_close_after_write c = true -> c_close_after_write c' = true;
  q_continue : c_continue_sent c' = c_continue_sent c }.

Lemma get_date_wire (e : env) fd : wire (e_kern (get_date e).2) fd = wire (e_kern e) fd.
Proof.
  unfold get_date. destruct (sys_time (e_kern e)) as [now k] eqn:E. pose proof (time_wire (e_kern e) fd) as Hw.
  rewrite E in Hw. by destruct (DateCache_get _ _).
Qed.

(** [get_date] changes the date cache and advances the kernel by one [time]. *)
Lemma get_date_env (e : env) : (get_date e).2 = mkEnv (e_metrics e) (e_date (get_date e).2) (sys_time (e_kern e)).2.
Proof. unfold get_date. destruct (sys_time (e_kern e)). by destruct (DateCache_get _ _). Qed.

Lemma record_response_date (c : Conn) s (e : env) : e_date (record_response c s e).2 = e_date e.
Proof. unfold record_response. destruct (_ && _), (negb (c_request_start_us c =? 0)%Z); cbn [snd]; try destruct (sys_mono_us _); done. Qed.

Lemma record_response_spec (c : Conn) s (e : env) :
  let '(c', e') := record_response c s e in
  c' = set_request_start 0 c /\ forall fd, wire (e_kern e') fd = wire (e_kern e) fd.
Proof.
  unfold record_response. split; [done|]. intros fd.
  destruct (c_request_start_us c =? 0)%Z; cbn [negb]; [by destruct (_ && _)|].
  destruct (sys_mono_us _) as [now k] eqn:E. cbn [e_kern].
  pose proof (mono_wire (e_kern e) fd) as Hw.
  destruct (_ && _); cbn [e_kern count] in E; rewrite E in Hw; done.
Qed.

Lemma close_if_wire (b : bool) fd0 (e : env) fd :
  wire (e_kern (if b then set_kern (sys_close (e_kern e) fd0) e else e)) fd = wire (e_kern e) fd.
Proof. destruct b; [|done]. apply close_wire. Qed.

(** The text a response adds to [out] when it is queued. *)
Definition response_text (res : Response) (opts : HeadOptions) (head_only : bool) : bytes :=
  (write_head [] res opts).1
  ++ (if negb head_only && negb (bool_decide ((write_head [] res opts).2 = FramingNone))
         && negb (fd_valid (file res)) && match producer res with None => true | Some _ => false end
      then res_body res else []).

Lemma write_head_append out res opts :
  write_head out res opts = (out ++ (write_head [] res opts).1, (write_head [] res opts).2).
Proof. by rewrite !write_head_text. Qed.

Lemma conn_ok_append t (c : Conn) : conn_ok c -> conn_ok (append_out t c).
Proof.
  intros [? ? ? Hoff]. split; conn_simpl; try done. rewrite length_app.
  destruct Hoff as [[-> ->]|]; [|lia]. destruct t; [by left|right; cbn; lia].
Qed.

Lemma conn_ok_close (c : Conn) : conn_ok c -> conn_ok (set_close_after_write c).
Proof. intros []. by split. Qed.

Lemma conn_ok_start t (c : Conn) : conn_ok c -> conn_ok (set_request_start t c).
Proof. intros []. by split. Qed.

Lemma queued_append t t' (c c' : Conn) : queued t c c' -> queued (t ++ t') c (append_out t' c').
Proof. intros []. split; conn_simpl; try done. rewrite app_assoc. congruence. Qed.

Lemma queued_close t (c c' : Conn) : queued t c c' -> queued t c (set_close_after_write c').
Proof. intros []. by split. Qed.

Lemma queued_start t z (c c' : Conn) : queued t c c' -> queued t c (set_request_start z c').
Proof. intros []. by split. Qed.

Lemma queued_refl (c : Conn) : queued [] c c.
Proof. split; try done. by rewrite app_nil_r. Qed.

(** Queueing the head: [out] grows, and the connection may be marked for closing. *)
Lemma queue_head t (b : bool) (c : Conn) :
  conn_ok c ->
  let c' := if b then set_close_after_write (append_out t c) else append_out t c in
  queued t c c' /\ conn_ok c' /\ c_file c' = c_file c /\ c_producer c' = c_producer c.
Proof.
  intros Hc. pose proof (queued_append [] t c c (queued_refl c)) as Hq. destruct b; cbn zeta.
  - split; [by apply queued_close|]. split; [|done]. by apply conn_ok_close, conn_ok_append.
  - split; [done|]. split; [|done]. by apply conn_ok_append.
Qed.

Lemma dispatch_queues (c : Conn) req (e : env) :
  conn_ok c -> body_source_active c = false ->
  let '(res, k) := Router.dispatch router_ (e_kern e) req Response_new in
  let '(c', e') := dispatch router_ draining_ c req e in
  (exists date, queued (response_text res (mkHeadOptions (keep_alive req && negb draining_) (is_http10 req) date)
      (bytes_eqb (method req) (B "HEAD"))) c c' /\ get_date (set_kern k e) = (date, mkEnv (e_metrics e) (e_date e') (sys_time k).2))
  /\ conn_ok c' /\ forall fd, wire (e_kern e') fd = wire (e_kern e) fd.
Proof.
  intros Hc Hb. unfold dispatch.
  destruct (router_ok_dispatch router_ (e_kern e) req Hrouter) as [(Hfl & Hfo & Hsl) Hw].
  destruct (Router.dispatch router_ (e_kern e) req Response_new) as [res k] eqn:Er. cbn [fst snd] in *.
  pose proof (get_date_wire (set_kern k e)) as Hd. pose proof (get_date_env (set_kern k e)) as Hdt.
  destruct (get_date (set_kern k e)) as [date e1]. cbn [snd e_kern set_kern] in Hd.
  assert (forall fd, wire (e_kern e1) fd = wire (e_kern e) fd) as Hw1 by (intros fd; by rewrite Hd, Hw). clear Hd Hw Er.
  set (opts := mkHeadOptions _ _ date). rewrite write_head_append. unfold response_text.
  destruct (write_head [] res opts) as [t fr] eqn:Eh. cbn [fst snd].
  change (set_out (c_out c ++ t) (c_out_off c) c) with (append_out t c).
  set (c2 := if negb _ || _ then _ else _).
  destruct (queue_head t (negb (keep_alive req && negb draining_) || bool_decide (fr = CloseDelimited)) c Hc)
    as (Hq & Hok & Hf & Hp). fold c2 in Hq, Hok, Hf, Hp. clearbody c2.
  unfold body_source_active in Hb. apply orb_false_elim in Hb as [Hbf Hbp].
  match goal with |- context [if ?b then _ else (c2, e1, file res)] => set (step := if b then _ else (c2, e1, file res)) end.
  set (body := if negb (bytes_eqb (method req) (B "HEAD")) && negb (bool_decide (fr = FramingNone))
                  && negb (fd_valid (file res)) && match producer res with None => true | Some _ => false end
               then res_body res else []).
  assert (let '(c3, e3, _) := step in queued (t ++ body) c c3 /\ conn_ok c3
            /\ (forall fd, wire (e_kern e3) fd = wire (e_kern e) fd) /\ e_date e3 = e_date e1) as Hstep.
  { subst step body. rewrite Hf, Hbf. destruct (negb _ && negb _); cbn [andb]; [|by rewrite app_nil_r].
    destruct (fd_valid (file res)); cbn [negb andb].
    - rewrite app_nil_r. destruct (Z.gtb_spec (file_length res) 0); [|done].
      split; [by destruct Hq|]. split; [|done]. destruct Hok. split; try done. conn_simpl. lia.
    - destruct (producer res) as [pr|]; [rewrite app_nil_r|].
      + split; [by destruct Hq|]. split; [|done]. destruct Hok. split; try done. conn_simpl.
        rewrite Hp. destruct (c_producer c); [done|]. destruct (stream_length res) as [n|]; [|done].
        destruct (Z.eqb_spec n 0); cbn [negb andb]; [by intros []|]. lia.
      + split; [by apply queued_append|]. split; [by apply conn_ok_append|done]. }
  clearbody step. destruct step as [[c3 e3] f]. destruct Hstep as (Hq3 & Hok3 & Hw3 & Hd3).
  pose proof (record_response_spec c3 (status res) e3) as Hr. pose proof (record_response_date c3 (status res) e3) as Hd4.
  destruct (record_response c3 (status res) e3) as [c4 e4]. cbn [snd] in Hd4. destruct Hr as [-> Hw4].
  split; [exists date; split; [subst opts; rewrite Eh; by apply queued_start|]|].
  { cbn [snd] in Hdt. rewrite Hdt. do 2 f_equal. destruct (fd_valid f); cbn [e_date set_kern]; congruence. }
  split; [by apply conn_ok_start|]. intros fd. by rewrite close_if_wire, Hw4, Hw3.
Qed.

(** The text of the response to a request that does not parse. *)
Definition error_text (p : RequestParser) (date : bytes) : bytes :=
  let s := status_for (error_ p) in
  response_text (Response_text s (reason_phrase s ++ B ": " ++ error_detail_ p ++ [LF]) text_plain)
    (mkHeadOptions false false date) false.

Lemma queue_error_spec (c : Conn) p (e : env) :
  conn_ok c ->
  let '(c', e') := queue_error c (status_for (error_ p)) (error_detail_ p) e in
  (exists date, queued (error_text p date) c c') /\ conn_ok c' /\ c_close_after_write c' = true
  /\ forall fd, wire (e_kern e') fd = wire (e_kern e) fd.
Proof.
  intros Hc. unfold queue_error, error_text, response_text.
  pose proof (get_date_wire e) as Hd. destruct (get_date e) as [date e1]. cbn [snd] in Hd.
  set (res := Response_text _ _ _). rewrite write_head_append.
  assert ((write_head [] res (mkHeadOptions false false date)).2 <> FramingNone) as Hn.
  { rewrite write_head_text. cbn [snd]. unfold choose_framing, res. by destruct (error_ p). }
  change (append_out (res_body res) (set_out (c_out c ++ ?t) (c_out_off c) c))
    with (append_out (res_body res) (append_out t c)).
  match goal with |- context [record_response ?c0 ?s ?e0] =>
    pose proof (record_response_spec c0 s e0) as Hr; destruct (record_response c0 s e0) as [c4 e4] end.
  destruct Hr as [-> Hw]. cbn [negb andb].
  split; [|split; [|split; [done|intros fd; by rewrite Hw, Hd]]].
  - exists date. rewrite bool_decide_eq_false_2 by done.
    apply queued_start, queued_close, queued_append, (queued_append [] _ c c), queued_refl.
  - by apply conn_ok_start, conn_ok_close, conn_ok_append, conn_ok_append.
Qed.

(** What a step of [process] does: it appends to [out], consumes a prefix of the input and leaves the socket alone. *)
Record grows (c : Conn) (e : env) (c' : Conn) (e' : env) : Prop := {
  g_out : exists t, c_out c' = c_out c ++ t;
  g_off : c_out_off c' = c_out_off c;
  g_fd : c_fd c' = c_fd c;
  g_in : exists n, ib_readable (c_in c') = drop n (ib_readable (c_in c));
  g_limits : limits_ (c_parser c') = limits_ (c_parser c);
  g_ready : c_can_read c' = c_can_read c /\ c_can_write c' = c_can_write c /\ c_peer_closed c' = c_peer_closed c;
  g_wire : forall fd, wire (e_kern e') fd = wire (e_kern e) fd }.

Lemma grows_id c e : grows c e c e.
Proof. split; try done; [exists []; by rewrite app_nil_r|by exists 0%nat]. Qed.

Lemma grows_trans c e c1 e1 c2 e2 : grows c e c1 e1 -> grows c1 e1 c2 e2 -> grows c e c2 e2.
Proof.
  intros [(t1 & Ho1) Hf1 Hd1 (n1 & Hi1) Hl1 (Hr1 & Hw1 & Hp1) Hk1] [(t2 & Ho2) Hf2 Hd2 (n2 & Hi2) Hl2 (Hr2 & Hw2 & Hp2) Hk2].
  split; try congruence.
  - exists (t1 ++ t2). by rewrite Ho2, Ho1, app_assoc.
  - exists (n1 + n2)%nat. by rewrite Hi2, Hi1, drop_drop.
  - split; [congruence|]. split; congruence.
Qed.

Lemma grows_queued t (c c' : Conn) (e e' : env) :
  queued t c c' -> (forall fd, wire (e_kern e') fd = wire (e_kern e) fd) -> grows c e c' e'.
Proof. intros [] Hw. split; try done; [by exists t| |congruence]. exists 0%nat. by rewrite drop_0; congruence. Qed.

(** Feeding the parser and consuming what it used. *)
Lemma feed_step (c : Conn) (e : env) t0 :
  conn_ok c -> c_close_after_write c = false ->
  let r := feed (c_parser c) (ib_readable (c_in c)) in
  let c' := set_input (ib_consume (c_in c) (Z.of_nat r.2)) r.1 (set_request_start t0 c) in
  grows c e c' e /\ ib_readable (c_in c') = drop r.2 (ib_readable (c_in c))
  /\ (final r.1 = false -> conn_ok c')
  /\ (r.2 <= length (ib_readable (c_in c)))%nat.
Proof.
  intros Hc Hcl. cbn zeta. pose proof (feed_used (c_parser c) (ib_readable (c_in c)) (co_parser c Hc)) as Hu.
  pose proof (feed_wf (c_parser c) (ib_readable (c_in c)) (co_parser c Hc)) as Hwf.
  pose proof (feeds_limits _ _ _ _ (feed_feeds (c_parser c) (ib_readable (c_in c)) (co_parser c Hc))) as Hlim.
  destruct (feed (c_parser c) (ib_readable (c_in c))) as [p used]. cbn [fst snd] in *.
  destruct (ib_consume_spec (c_in c) (Z.of_nat used)) as [Hiw Hir]; [apply Hc|unfold zlen; lia|].
  rewrite Nat2Z.id in Hir. split; [|split; [done|split; [|done]]].
  - split; conn_simpl; try done; [exists []; by rewrite app_nil_r|by exists used].
  - intros Hfin. destruct Hc. split; conn_simpl; try done. congruence.
Qed.

Lemma queue_error_close (c : Conn) s d (e : env) : queue_error (set_close_after_write c) s d e = queue_error c s d e.
Proof. unfold queue_error. by destruct (get_date e). Qed.

(** Marking the connection does not disturb what was queued. *)
Lemma conn_ok_failed (c : Conn) t0 b p :
  conn_ok c -> ib_wf b -> parser_wf p -> conn_ok (set_close_after_write (set_input b p (set_request_start t0 c))).
Proof. intros []. by split. Qed.

Lemma grows_close (c : Conn) e c' e' : grows c e c' e' -> grows c e (set_close_after_write c') e'.
Proof. intros []. by split. Qed.

Lemma grows_continue b (c : Conn) e c' e' : grows c e c' e' -> grows c e (set_continue_sent b c') e'.
Proof. intros []. by split. Qed.

Lemma conn_ok_continue b (c : Conn) : conn_ok c -> conn_ok (set_continue_sent b c).
Proof. intros []. by split. Qed.

Lemma start_if (b : bool) t (c : Conn) :
  (if b then set_request_start t c else c) = set_request_start (if b then t else c_request_start_us c) c.
Proof. destruct b; [done|]. by destruct c. Qed.

Lemma conn_ok_reset (c : Conn) : conn_ok c -> conn_ok (set_input (c_in c) (reset (c_parser c)) c).
Proof. intros []. split; try done. conn_simpl. by apply parser_wf_reset. Qed.

(** The part of a round after the parser has been fed and has not failed. *)
Lemma process_fed_spec (c : Conn) (e : env) p (progress : bool) :
  conn_ok (set_input (c_in c) (reset p) c) -> (final p = false -> conn_ok c) -> parser_wf p -> c_parser c = p -> body_source_active c = false ->
  failed p = false ->
  match
    (let '(c, progress) :=
       if expect_continue (req_ p) && negb (c_continue_sent c) && headers_complete p && negb (done p)
       then (set_continue_sent true (append_out continue_line c), true)
       else (c, progress) in
     if negb (done p) then inr (progress, c, e)
     else
       let '(req, p) := take_request p in
       let '(c, e) := dispatch router_ draining_ (set_input (c_in c) p c) req e in
       inl (set_continue_sent false c, e))
  with
  | inl (c', e') => done p = true /\ grows c e c' e' /\ conn_ok c'
  | inr (b, c', e') => done p = false /\ grows c e c' e' /\ conn_ok c'
  end.
Proof.
  intros Hr Hc Hp Ecp Hb Hf. destruct (done p) eqn:Hd.
  - rewrite andb_false_r. cbn [negb take_request].
    pose proof (dispatch_queues (set_input (c_in c) (reset p) c) (req_ p) e Hr Hb) as Hs.
    destruct (Router.dispatch router_ (e_kern e) (req_ p) Response_new) as [res kd].
    destruct (dispatch router_ draining_ (set_input (c_in c) (reset p) c) (req_ p) e) as [c1 e1].
    destruct Hs as ((date & Hq & _) & Hok & Hw). split; [done|].
    split; [|by apply conn_ok_continue]. apply grows_continue. eapply grows_queued in Hq; [|exact Hw].
    destruct Hq. split; try done. by rewrite Ecp.
  - assert (conn_ok c) as Hok by (apply Hc; unfold final; by rewrite Hd, Hf). cbn [negb].
    destruct (_ && _ && _ && true).
    + split; [done|]. split; [|by apply conn_ok_continue, conn_ok_append]. apply grows_continue.
      eapply grows_queued; [|done]. apply (queued_append [] _ c c), queued_refl.
    + split; [done|]. split; [apply grows_id|done].
Qed.

Lemma process_round_spec (c : Conn) (e : env) (progress : bool) :
  conn_ok c ->
  match process_round router_ now_us_ draining_ c e progress with
  | inl (c', e') =>
      grows c e c' e' /\ conn_ok c' /\ (length (ib_readable (c_in c')) < length (ib_readable (c_in c)))%nat
  | inr (_, c', e') => grows c e c' e' /\ conn_ok c'
  end.
Proof.
  intros Hc. unfold process_round.
  destruct (c_close_after_write c || body_source_active c || negb _) eqn:Eg; [split; [apply grows_id|done]|].
  bool_hyps. destruct (ib_readable (c_in c)) as [|b0 bs] eqn:Edata; [split; [apply grows_id|done]|]. rewrite <- Edata.
  rewrite start_if. generalize (if (c_request_start_us c =? 0)%Z then now_us_ else c_request_start_us c).
  intros t0. conn_simpl.
  pose proof (feed_step c e t0 Hc ltac:(done)) as (Hg & Hin & Hok & Hu). cbn zeta in *.
  pose proof (feed_wf (c_parser c) (ib_readable (c_in c)) (co_parser c Hc)) as Hwf.
  pose proof (feed_done_used (c_parser c) (ib_readable (c_in c)) (co_parser c Hc)) as Hdone.
  assert (final (c_parser c) = false) as Hfin.
  { destruct (final (c_parser c)) eqn:E; [|done]. apply (co_idle c Hc) in E. congruence. }
  specialize (Hdone Hfin). destruct (feed (c_parser c) (ib_readable (c_in c))) as [p used] eqn:Ef.
  cbn [fst snd] in *. set (c1 := set_input _ p _) in *.
  assert (ib_wf (ib_consume (c_in c) (Z.of_nat used))) as Hib.
  { apply ib_consume_spec; [apply Hc|unfold zlen; lia]. }
  destruct (failed p) eqn:Hfp.
  - rewrite <- queue_error_close.
    pose proof (queue_error_spec (set_close_after_write c1) p (count Field.parse_errors 1 e)) as Hq.
    destruct (queue_error (set_close_after_write c1) _ _ _) as [c2 e2].
    destruct Hq as ((date & Hq) & Hok2 & _ & Hw); [by apply conn_ok_failed|].
    split; [|done]. eapply grows_trans; [apply grows_close, Hg|]. by eapply grows_queued.
  - assert (conn_ok (set_input (c_in c1) (reset p) c1)) as Hreset.
    { destruct Hc. split; try done. conn_simpl. by apply parser_wf_reset. }
    pose proof (process_fed_spec c1 e p (progress || negb (used =? 0)%nat) Hreset Hok Hwf eq_refl ltac:(done) Hfp) as Hs.
    change (c_continue_sent c1) with (c_continue_sent c) in Hs.
    match type of Hs with match ?x with _ => _ end => destruct x as [[c2 e2]|[[b c2] e2]] end;
      destruct Hs as (Hd & Hg2 & Hok2).
    + split; [by eapply grows_trans|]. split; [done|]. destruct (g_in _ _ _ _ Hg2) as [n ->]. rewrite Hin.
      specialize (Hdone Hd). rewrite !length_drop. lia.
    + split; [by eapply grows_trans|done].
Qed.

(** ** [process] *)

Lemma process_loop_spec fuel (c : Conn) (e : env) (progress : bool) :
  conn_ok c -> (length (ib_readable (c_in c)) < fuel)%nat ->
  exists b c' e', process_loop router_ now_us_ draining_ fuel c e progress = Some (b, c', e')
    /\ grows c e c' e' /\ conn_ok c'.
Proof.
  revert c e progress. induction fuel as [|f IH]; intros c e progress Hc Hf; [lia|]. cbn [process_loop].
  pose proof (process_round_spec c e progress Hc) as Hr.
  destruct (process_round router_ now_us_ draining_ c e progress) as [[c1 e1]|[[b c1] e1]].
  - destruct Hr as (Hg & Hok & Hlt). destruct (IH c1 e1 true Hok ltac:(lia)) as (b & c2 & e2 & -> & Hg2 & Hok2).
    exists b, c2, e2. split; [done|]. split; [by eapply grows_trans|done].
  - exists b, c1, e1. done.
Qed.

Lemma process_spec (c : Conn) (e : env) :
  conn_ok c ->
  let '(b, c', e') := process router_ now_us_ draining_ c e in
  process_loop router_ now_us_ draining_ (process_fuel c) c e false = Some (b, c', e')
  /\ grows c e c' e' /\ conn_ok c'.
Proof.
  intros Hc. unfold process.
  destruct (process_loop_spec (process_fuel c) c e false Hc) as (b & c' & e' & -> & Hg & Hok); [unfold process_fuel; lia|].
  done.
Qed.

(** ** [do_read] *)

(** Reading only appends to the input buffer. *)
Record reads (c : Conn) (e : env) (c' : Conn) (e' : env) : Prop := {
  rd_in : exists bs, ib_readable (c_in c') = ib_readable (c_in c) ++ bs;
  rd_out : c_out c' = c_out c /\ c_out_off c' = c_out_off c;
  rd_body : c_file c' = c_file c /\ c_file_off c' = c_file_off c /\ c_file_left c' = c_file_left c
            /\ c_producer c' = c_producer c;
  rd_fd : c_fd c' = c_fd c;
  rd_parser : c_parser c' = c_parser c;
  rd_close : c_close_after_write c' = c_close_after_write c;
  rd_wire : forall fd, wire (e_kern e') fd = wire (e_kern e) fd }.

Lemma reads_trans c e c1 e1 c2 e2 : reads c e c1 e1 -> reads c1 e1 c2 e2 -> reads c e c2 e2.
Proof.
  intros [(t1 & Hi1) [] (?&?&?&?)] [(t2 & Hi2) [] (?&?&?&?)]. split; try congruence.
  - exists (t1 ++ t2). by rewrite Hi2, Hi1, app_assoc.
  - split; congruence.
  - split_and!; congruence.
Qed.

Lemma do_read_spec fuel (c : Conn) (e : env) pr ok pr' c' e' :
  conn_ok c -> (max_in_ + kReadSize <= ib_max)%Z ->
  do_read now_us_ max_in_ fuel c e pr = Some (ok, pr', c', e') ->
  reads c e c' e' /\ conn_ok c'
  /\ (zlen (ib_readable (c_in c)) < max_in_ + kReadSize -> zlen (ib_readable (c_in c')) < max_in_ + kReadSize)%Z.
Proof.
  intros Hc Hmax. revert c e pr Hc. induction fuel as [|f IH]; intros c e pr Hc; cbn [do_read].
  all: rewrite (ib_size_readable (c_in c) (co_in c Hc)).
  all: assert (reads c e c e) as Hrefl by (split; try done; exists []; by rewrite app_nil_r).
  all: destruct (Z.ltb_spec (zlen (ib_readable (c_in c))) max_in_) as [Hsz|Hsz]; try done.
  all: try (intros [= <- <- <- <-]; done).
  pose proof (recv_wire (e_kern e) (c_fd c) kReadSize) as Hw. pose proof (recv_bound (e_kern e) (c_fd c) kReadSize) as Hb.
  destruct (sys_recv (e_kern e) (c_fd c) kReadSize) as [r k]. cbn [snd] in Hw.
  assert (forall d, reads c e d e -> reads c e d (set_kern k e)) as Hk.
  { intros d []. split; try done. }
  destruct r as [[|b0 bs]|[]].
  - intros [= <- <- <- <-]. split; [apply Hk; by destruct Hrefl|]. split; [destruct Hc; by split|done].
  - destruct (ib_receive_spec (c_in c) kReadSize (b0 :: bs) (co_in c Hc)) as (b & -> & Hbw & Hbr);
      [by eapply Hb|unfold kReadSize in *; lia|]. intros Hrec.
    apply IH in Hrec as (Hr & Hok & Hlen).
    + split; [|split; [done|]].
      * eapply reads_trans; [|exact Hr]. split; conn_simpl; try done. by exists (b0 :: bs).
      * intros _. apply Hlen. conn_simpl. rewrite Hbr, zlen_app. specialize (Hb _ _ eq_refl). lia.
    + destruct Hc. split; conn_simpl; try done.
  - intros Hrec. apply IH in Hrec as (Hr & Hok & Hlen); [|done]. split; [|done].
    eapply reads_trans; [apply Hk, Hrefl|done].
  - intros [= <- <- <- <-]. split; [apply Hk; by destruct Hrefl|]. split; [destruct Hc; by split|done].
  - intros [= <- <- <- <-]. split; [apply Hk; by destruct Hrefl|]. split; [destruct Hc; by split|done].
Qed.

(** ** [refill_from_producer] *)

(** A refill changes [out] and the stream members only. *)
Definition refilled (c c' : Conn) : Prop :=
  exists t pr tr left, c' = set_out (c_out c ++ t) (c_out_off c) (set_stream pr tr (c_chunked c) (c_stream_sized c) left c).

Lemma append_chunk_nonempty data : data <> [] -> append_chunk [] data <> [].
Proof. unfold append_chunk, append_number. destruct data; [done|]. intros _ E. apply app_nil in E as [_ E]. done. Qed.

Definition stream_ok (c : Conn) : Prop := c_stream_sized c = true -> (0 < c_stream_left c < 2 ^ 64)%Z.

(** The effect of one call of the producer. *)
Lemma refill_round_spec (c : Conn) more c' :
  stream_ok c -> refill_round c = Some (more, c') ->
  exists t pr' tr left,
    c' = set_out (c_out c ++ t) (c_out_off c) (set_stream (Some pr') tr (c_chunked c) (c_stream_sized c) left c)
    /\ (more = true -> t <> [])
    /\ (c_stream_sized c = true ->
        (0 <= left < 2 ^ 64 /\ zlen t = c_stream_left c - left /\ (more = true -> 0 < left))%Z).
Proof.
  intros Hs. unfold refill_round. destruct (c_producer c) as [pr|]; [|done].
  destruct (produce pr [] (c_trailers c)) as [[[[m piece] tr] pr']|]; [|done].
  destruct (m && _) eqn:Em; [done|].
  assert (m = true -> piece <> []) as Hne by (intros -> ->; done). conn_simpl. unfold stream_ok in Hs.
  destruct (c_stream_sized c) eqn:Esz.
  - specialize (Hs eq_refl). pose proof (zlen_nonneg piece).
    destruct (Z.gtb_spec (zlen piece) (c_stream_left c)); [done|]. rewrite u64_small by lia. intros [= <- <-].
    exists piece, pr', tr, (c_stream_left c - zlen piece)%Z. conn_simpl. split; [done|]. split.
    + destruct (_ =? 0)%Z; [done|auto].
    + intros _. split; [lia|]. split; [lia|]. destruct (Z.eqb_spec (c_stream_left c - zlen piece) 0); [done|lia].
  - destruct (c_chunked c); intros [= <- <-].
    + exists (append_chunk [] piece), pr', tr, (c_stream_left c). rewrite append_chunk_app.
      split; [done|]. split; [|done]. intros Hm. by apply append_chunk_nonempty, Hne.
    + exists piece, pr', tr, (c_stream_left c). done.
Qed.

(** The effect of the loop: what it appended, and for a sized stream how much of the announced length it used up. *)
Definition refill_post (c : Conn) (more more' : bool) (c' : Conn) : Prop :=
  exists t pr tr left,
    c' = set_out (c_out c ++ t) (c_out_off c) (set_stream pr tr (c_chunked c) (c_stream_sized c) left c)
    /\ (c_stream_sized c = true -> (zlen t = c_stream_left c - left)%Z
        /\ (more' = true -> 0 < left < 2 ^ 64)%Z /\ (0 <= c_stream_left c < 2 ^ 64 -> 0 <= left < 2 ^ 64)%Z)
    /\ (is_Some (c_producer c) -> is_Some pr)
    /\ (more' = true -> (zlen (c_out c) < kProducerLowWater)%Z -> t <> []).

Lemma refill_stop (c : Conn) (more : bool) :
  (more = true -> stream_ok c) -> more && (zlen (c_out c) <? kProducerLowWater)%Z = false -> refill_post c more more c.
Proof.
  intros Hs Hg. exists [], (c_producer c), (c_trailers c), (c_stream_left c).
  split; [rewrite app_nil_r; by destruct c|]. split; [|split; [done|]].
  - intros Hsz. split; [by rewrite Z.sub_diag|]. split; [|done]. intros Hm. by apply Hs.
  - intros -> Hlt. cbn [andb] in Hg. lia.
Qed.

Lemma refill_loop_false fuel (c : Conn) : refill_loop fuel c false = Some (false, c).
Proof. by destruct fuel. Qed.

Lemma refill_loop_spec fuel (c : Conn) more more' c' :
  (more = true -> stream_ok c) -> refill_loop fuel c more = Some (more', c') -> refill_post c more more' c'.
Proof.
  revert c more. induction fuel as [|f IH]; intros c more Hs; cbn [refill_loop]; destruct (more && _) eqn:Em.
  1: done.
  1,3: intros [= <- <-]; by apply refill_stop.
  apply andb_prop in Em as [-> _]. specialize (Hs eq_refl).
  destruct (refill_round c) as [[m1 c1]|] eqn:Er; [|done].
  apply (refill_round_spec c m1 c1 Hs) in Er as (t & pr & tr & left & -> & Hne & Hleft). intros Hl.
  assert (more' = true -> m1 = true) as Hm1 by (intros ->; destruct m1; [done|]; by rewrite refill_loop_false in Hl).
  apply IH in Hl as (t2 & pr2 & tr2 & left2 & -> & Hz & Hsome & _).
  - exists (t ++ t2), pr2, tr2, left2. conn_simpl. split; [by rewrite app_assoc|].
    split; [|split; [intros _; apply Hsome; eauto|]].
    2:{ intros Hm _ E. apply app_nil in E as [-> _]. by apply Hne; [apply Hm1|]. }
    intros Hsz. specialize (Hleft Hsz). specialize (Hz Hsz).
    rewrite zlen_app. split; [lia|]. split; [|lia]. by apply Hz.
  - intros ->. unfold stream_ok. conn_simpl. intros Hsz. specialize (Hleft Hsz).
    destruct Hleft as (? & ? & Hpos). specialize (Hpos eq_refl). lia.
Qed.

(** Fuel beyond the low-water mark changes nothing: every round that goes on appends a byte. *)
Lemma refill_loop_fuel fuel extra (c : Conn) more :
  (more = true -> stream_ok c) -> (kProducerLowWater - zlen (c_out c) <= Z.of_nat fuel)%Z ->
  refill_loop (fuel + extra) c more = refill_loop fuel c more.
Proof.
  revert c more. induction fuel as [|f IH]; intros c more Hs Hf.
  - assert (more && (zlen (c_out c) <? kProducerLowWater)%Z = false) as E.
    { apply andb_false_iff. right. apply Z.ltb_ge. lia. }
    destruct extra; cbn [refill_loop Nat.add]; by rewrite E.
  - cbn [refill_loop Nat.add]. destruct (more && _) eqn:Em; [|done]. apply andb_prop in Em as [-> _].
    destruct (refill_round c) as [[m1 c1]|] eqn:Er; [|done].
    apply (refill_round_spec c m1 c1 (Hs eq_refl)) in Er as (t & pr & tr & left & -> & Hne & Hleft).
    destruct m1.
    + apply IH.
      * intros _. unfold stream_ok. conn_simpl. intros Hsz. specialize (Hleft Hsz).
        destruct Hleft as (? & ? & Hpos). specialize (Hpos eq_refl). lia.
      * conn_simpl. rewrite zlen_app. specialize (Hne eq_refl). destruct t; [done|]. unfold zlen in *. cbn [length]. lia.
    + by destruct f, extra.
Qed.

(** The members a refill leaves alone. *)
Record refill_frame (c c' : Conn) : Prop := {
  rf_fd : c_fd c' = c_fd c;
  rf_in : c_in c' = c_in c /\ c_parser c' = c_parser c;
  rf_file : c_file c' = c_file c /\ c_file_off c' = c_file_off c /\ c_file_left c' = c_file_left c;
  rf_ready : c_can_read c' = c_can_read c /\ c_can_write c' = c_can_write c /\ c_peer_closed c' = c_peer_closed c;
  rf_kind : c_stream_sized c' = c_stream_sized c /\ c_chunked c' = c_chunked c;
  rf_continue : c_continue_sent c' = c_continue_sent c;
  rf_close : c_close_after_write c = true -> c_close_after_write c' = true }.

Lemma append_last_chunk_out out tr : append_last_chunk out tr = out ++ append_last_chunk [] tr.
Proof. unfold append_last_chunk. rewrite !fold_field_lines. by rewrite <- !app_assoc. Qed.

Lemma finish_stream_eq (c : Conn) :
  finish_stream c
  = set_flags (c_peer_closed c) (c_close_after_write c || (c_stream_sized c && negb (c_stream_left c =? 0)%Z))
      (c_continue_sent c)
      (set_out (if c_chunked c then append_last_chunk (c_out c) (c_trailers c) else c_out c) (c_out_off c)
         (set_stream None [] (c_chunked c) (c_stream_sized c) (c_stream_left c) c)).
Proof.
  destruct c as [fd i p o off f fo fl pr tr ch sz left cr cw pc ca cs la rs]. unfold finish_stream. conn_simpl.
  destruct ch, sz; cbn [andb]; conn_simpl; destruct (left =? 0)%Z; cbn [negb]; conn_simpl;
    by rewrite ?orb_true_r, ?orb_false_r.
Qed.

(** A refill that succeeds appends to [out]; it ends the stream or makes progress.  Of a sized stream it appends
    what it takes off the announced length, and ending short of it marks the connection for closing. *)
Lemma refill_spec (c c' : Conn) :
  conn_ok c -> is_Some (c_producer c) -> c_out c = [] -> refill_from_producer c = Some c' ->
  c_out_off c' = c_out_off c /\ refill_frame c c' /\ conn_ok c'
    /\ (c_producer c' = None \/ c_out c' <> [])
    /\ (c_stream_sized c = true -> c_chunked c = false ->
        (zlen (c_out c') = c_stream_left c - c_stream_left c' /\ 0 <= c_stream_left c'
         /\ (c_producer c' = None -> c_stream_left c' = 0 \/ c_close_after_write c' = true))%Z).
Proof.
  intros Hc Hpr Hout. unfold refill_from_producer.
  assert (stream_ok c) as Hs by (unfold stream_ok; by apply (co_stream c Hc)).
  assert (c_out_off c = 0%nat) as Hoff by (destruct (co_off c Hc) as [[]|Ho]; [done|rewrite Hout in Ho; cbn in Ho; lia]).
  destruct (refill_loop refill_fuel c true) as [[more c1]|] eqn:El; [|done].
  apply refill_loop_spec in El as (t & pr & tr & left & -> & Hz & Hsome & Hne); [|done].
  rewrite Hout in *. cbn [app] in *. destruct more; [|rewrite finish_stream_eq]; conn_simpl; intros [= <-]; conn_simpl.
  - split; [done|]. split; [by split; conn_simpl|]. specialize (Hne eq_refl ltac:(done)).
    split; [|split; [by right|]].
    + destruct Hc. split; conn_simpl; try done; [right; rewrite Hoff; destruct t; [done|cbn; lia]|].
      intros _ Hsz. by apply Hz.
    + intros Hsz _. specialize (Hz Hsz). specialize (Hs Hsz). split; [lia|]. split; [lia|]. by destruct Hsome as [p ->].
  - split; [done|]. split; [split; conn_simpl; try done; by intros ->|]. split; [|split; [by left|]].
    + destruct Hc. split; conn_simpl; try done;
        [|rewrite Hoff; destruct (if c_chunked c then _ else _); [by left|right; cbn; lia]].
      intros Hf. by rewrite (co_idle0 Hf).
    + intros Hsz ->. specialize (Hz Hsz). specialize (Hs Hsz). split; [lia|]. split; [lia|]. intros _.
      rewrite Hsz. destruct (Z.eqb_spec left 0); [by left|right]. apply orb_true_r.
Qed.

(** ** [do_write] *)

(** The contents of the files being served, and that they do not change while they are. *)
Context (file_content : Z -> bytes).
Definition file_stable : Prop :=
  forall k fd f off want bs k', sys_sendfile k fd f off want = (inl bs, k') ->
    bs = take (length bs) (drop (Z.to_nat off) (file_content f)).

(** What is still to come from the file of the response in flight. *)
Definition file_rest (c : Conn) : bytes :=
  if fd_valid (c_file c) then take (Z.to_nat (c_file_left c)) (drop (Z.to_nat (c_file_off c)) (file_content (c_file c)))
  else [].

(** The stream of output: accepted by the kernel, waiting in [out], to come from the file. *)
Definition output (c : Conn) (e : env) : bytes := sent_so_far c e ++ pending c ++ file_rest c.

Record writes (c : Conn) (e : env) (c' : Conn) (e' : env) : Prop := {
  wr_fd : c_fd c' = c_fd c;
  wr_in : c_in c' = c_in c /\ c_parser c' = c_parser c;
  wr_peer : c_peer_closed c' = c_peer_closed c /\ c_can_read c' = c_can_read c;
  wr_out : file_stable -> exists q, output c' e' = output c e ++ q /\ (c_producer c = None -> q = [] /\ c_producer c' = None) }.

Lemma after_send_pending n (c : Conn) :
  conn_ok c -> (n <= length (pending c))%nat ->
  conn_ok (after_send n c) /\ pending (after_send n c) = drop n (pending c).
Proof.
  intros Hc Hn. unfold after_send, pending in *. rewrite drop_drop, length_drop in *.
  destruct (Nat.eqb_spec (c_out_off c + n) (length (c_out c))) as [He|He];
    [|destruct (Nat.ltb_spec (length (c_out c) / 2) (c_out_off c + n))]; conn_simpl.
  - split; [destruct Hc; split; conn_simpl; try done; by left|]. rewrite He, drop_all. done.
  - split; [|done]. destruct Hc. split; conn_simpl; try done. right. rewrite length_drop.
    destruct co_off0 as [[E ?]|]; [rewrite E in *; cbn in *; lia|lia].
  - split; [|done]. destruct Hc. split; conn_simpl; try done. right.
    destruct co_off0 as [[E ?]|]; [rewrite E in *; cbn in *; lia|lia].
Qed.

Lemma writes_same (c c' : Conn) (e e' : env) :
  c_fd c' = c_fd c -> c_in c' = c_in c /\ c_parser c' = c_parser c ->
  c_peer_closed c' = c_peer_closed c /\ c_can_read c' = c_can_read c ->
  c_producer c' = c_producer c -> (file_stable -> output c' e' = output c e) -> writes c e c' e'.
Proof.
  intros ? ? ? Hp Ho. split; try done. intros Hst. exists []. rewrite app_nil_r. split; [by apply Ho|]. by rewrite Hp.
Qed.

(** A send moves bytes from [out] to the wire. *)
Lemma send_round_spec (c : Conn) (e : env) (pr : bool) w pr' c' e' :
  conn_ok c -> (0 < out_pending c)%nat -> write_round now_us_ c e pr = (w, pr', c', e') ->
  writes c e c' e' /\ conn_ok c'.
Proof.
  intros Hc Hp. unfold write_round. rewrite (proj2 (Nat.ltb_lt _ _) Hp). fold (pending c).
  pose proof (send_spec (e_kern e) (c_fd c) (pending c)) as Hs. pose proof (send_error (e_kern e) (c_fd c) (pending c)) as Hx.
  destruct (sys_send (e_kern e) (c_fd c) (pending c)) as [[n|x] k].
  - destruct (Hs n k eq_refl) as [Hn Hw]. cbn zeta.
    destruct (after_send_pending (Z.to_nat n) (set_last_active now_us_ c)) as [Hok Hpend];
      [destruct Hc; by split|unfold pending, zlen in *; conn_simpl; lia|].
    assert (writes c e (after_send (Z.to_nat n) (set_last_active now_us_ c)) (count Field.bytes_sent n (set_kern k e))) as Hwr.
    { assert (forall c0 : Conn, c_fd (after_send (Z.to_nat n) c0) = c_fd c0 /\ c_in (after_send (Z.to_nat n) c0) = c_in c0
        /\ c_parser (after_send (Z.to_nat n) c0) = c_parser c0 /\ c_peer_closed (after_send (Z.to_nat n) c0) = c_peer_closed c0
        /\ c_can_read (after_send (Z.to_nat n) c0) = c_can_read c0 /\ c_producer (after_send (Z.to_nat n) c0) = c_producer c0
        /\ file_rest (after_send (Z.to_nat n) c0) = file_rest c0) as Hfr.
      { intros c0. unfold after_send, file_rest. destruct (_ =? _)%nat; [done|]. by destruct (_ <? _)%nat. }
      specialize (Hfr (set_last_active now_us_ c)). conn_simpl. destruct Hfr as (Hfd & Hin & Hpa & Hpc & Hcr & Hpr & Hfi).
      apply writes_same; try done. intros _. unfold output, sent_so_far. rewrite Hfd, Hpend, Hfi. conn_simpl. rewrite Hw.
      rewrite <- app_assoc. f_equal. rewrite app_assoc. f_equal. apply take_drop. }
    destruct (_ <? _)%nat; intros [= <- <- <- <-]; [|done]. split; [by destruct Hwr|]. destruct Hok. by split.
  - specialize (Hx x k eq_refl).
    assert (forall c0 : Conn, c_fd c0 = c_fd c -> pending c0 = pending c -> file_rest c0 = file_rest c ->
      output c0 (set_kern k e) = output c e) as Ho.
    { intros c0 Hf Hpe Hfi. unfold output, sent_so_far. conn_simpl. by rewrite Hf, Hpe, Hfi, Hx. }
    destruct x; intros [= <- <- <- <-]; (split; [apply writes_same; auto|done || (destruct Hc; by split)]).
Qed.

(** [sendfile] moves bytes of the file to the wire. *)
Lemma sendfile_round_spec (c : Conn) (e : env) (pr : bool) w pr' c' e' :
  conn_ok c -> out_pending c = 0%nat -> fd_valid (c_file c) = true ->
  write_round now_us_ c e pr = (w, pr', c', e') -> writes c e c' e' /\ conn_ok c'.
Proof.
  intros Hc Hp Hf. unfold write_round. rewrite Hp, Hf. cbn [Nat.ltb Nat.leb].
  destruct (co_file c Hc Hf) as [Hl Ho].
  set (want := Z.min (c_file_left c) kSendfileMax).
  pose proof (sendfile_spec (e_kern e) (c_fd c) (c_file c) (c_file_off c) want) as Hs.
  pose proof (sendfile_error (e_kern e) (c_fd c) (c_file c) (c_file_off c) want) as Hx.
  assert (file_stable -> forall bs k, sys_sendfile (e_kern e) (c_fd c) (c_file c) (c_file_off c) want = (inl bs, k) ->
    bs = take (length bs) (drop (Z.to_nat (c_file_off c)) (file_content (c_file c)))) as Hcont by (intros Hst; by apply Hst).
  destruct (sys_sendfile (e_kern e) (c_fd c) (c_file c) (c_file_off c) want) as [[bs|x] k].
  - destruct (Hs bs k eq_refl) as [Hn Hw]. assert (file_stable -> bs = take (length bs) (drop (Z.to_nat (c_file_off c)) (file_content (c_file c))))
      as Hc1 by (intros Hst; by eapply Hcont).
    assert (pending c = []) as Hpn by (apply length_zero_iff_nil; by rewrite <- pending_length).
    assert (zlen bs <= c_file_left c)%Z as Hle by (unfold want in Hn; lia). pose proof (zlen_nonneg bs).
    destruct bs as [|b0 bs'] eqn:Ebs.
    { intros [= <- <- <- <-]. split; [|done]. apply writes_same; try done. intros _.
      unfold output, sent_so_far. conn_simpl. by rewrite Hw, app_nil_r. }
    rewrite <- Ebs in *. rewrite u64_small by lia. cbn zeta. conn_simpl.
    assert (forall c0 e0, c_fd c0 = c_fd c -> pending c0 = [] ->
      (forall fd, wire (e_kern e0) fd = wire k fd) ->
      file_rest c0 = take (Z.to_nat (c_file_left c - zlen bs)) (drop (Z.to_nat (c_file_off c + zlen bs)) (file_content (c_file c))) ->
      file_stable -> output c0 e0 = output c e) as Hout.
    { intros c0 e0 Hfd Hpe Hwk Hfi Hst. unfold output, sent_so_far. rewrite Hpe, Hpn, Hfi, Hfd, Hwk, Hw. unfold file_rest. rewrite Hf.
      cbn [app]. rewrite <- app_assoc. f_equal. rewrite (Hc1 Hst) at 1.
      replace (Z.to_nat (c_file_off c + zlen bs)) with (Z.to_nat (c_file_off c) + length bs)%nat by (unfold zlen in *; lia).
      rewrite <- drop_drop, take_take_drop. f_equal. unfold zlen in *. lia. }
    destruct (Z.eqb_spec (c_file_left c - zlen bs) 0) as [Hz|Hz]; [|destruct (Z.ltb_spec (zlen bs) want)];
      intros [= <- <- <- <-].
    + split; [apply writes_same; try done; apply Hout; try done|destruct Hc; by split].
      * intros fd. conn_simpl. apply close_wire.
      * rewrite Hz. done.
    + split; [apply writes_same; try done; apply Hout; try done; unfold file_rest; conn_simpl; by rewrite Hf|].
      destruct Hc. split; conn_simpl; try done. intros _. lia.
    + split; [apply writes_same; try done; apply Hout; try done; unfold file_rest; conn_simpl; by rewrite Hf|].
      destruct Hc. split; conn_simpl; try done. intros _. lia.
  - specialize (Hx x k eq_refl).
    assert (forall c0 : Conn, c_fd c0 = c_fd c -> pending c0 = pending c -> file_rest c0 = file_rest c ->
      output c0 (set_kern k e) = output c e) as Ho'.
    { intros c0 Hfd Hpe Hfi. unfold output, sent_so_far. conn_simpl. by rewrite Hfd, Hpe, Hfi, Hx. }
    destruct x; intros [= <- <- <- <-]; (split; [apply writes_same; auto|done || (destruct Hc; by split)]).
Qed.

Lemma pending_nil_out (c : Conn) : conn_ok c -> out_pending c = 0%nat -> c_out c = [] /\ c_out_off c = 0%nat.
Proof. intros Hc Hp. unfold out_pending in Hp. destruct (co_off c Hc) as [|]; [done|lia]. Qed.

(** With nothing pending and no file, the producer is asked for more. *)
Lemma producer_round_spec (c : Conn) (e : env) (pr : bool) w pr' c' e' :
  conn_ok c -> out_pending c = 0%nat -> fd_valid (c_file c) = false ->
  write_round now_us_ c e pr = (w, pr', c', e') -> writes c e c' e' /\ conn_ok c'.
Proof.
  intros Hc Hp Hf. unfold write_round. rewrite Hp, Hf. cbn [Nat.ltb Nat.leb].
  destruct (c_producer c) as [p|] eqn:Epr.
  - destruct (refill_from_producer c) as [c1|] eqn:Er.
    + intros [= <- <- <- <-]. destruct (pending_nil_out c Hc Hp) as [Ho Hoff].
      destruct (refill_spec c c1 Hc ltac:(by rewrite Epr) Ho Er) as (Hoff1 & [] & Hok & _ & _).
      split; [|done]. split; try done; [naive_solver|]. intros _. exists (c_out c1). split; [|by rewrite Epr].
      destruct rf_file0 as (Hf1 & _ & _). unfold output, sent_so_far, pending, file_rest.
      by rewrite Hf1, Hf, Hoff1, Hoff, Ho, rf_fd0, !app_nil_r.
    + intros [= <- <- <- <-]. split; [|done]. by apply writes_same.
  - intros [= <- <- <- <-]. split; [|done]. by apply writes_same.
Qed.

Lemma write_round_spec (c : Conn) (e : env) (pr : bool) w pr' c' e' :
  conn_ok c -> write_round now_us_ c e pr = (w, pr', c', e') -> writes c e c' e' /\ conn_ok c'.
Proof.
  intros Hc Hw. destruct (Nat.eq_0_gt_0_cases (out_pending c)) as [Hp|Hp]; [|by eapply send_round_spec].
  destruct (fd_valid (c_file c)) eqn:Hf; [by eapply sendfile_round_spec|by eapply producer_round_spec].
Qed.

Lemma writes_trans c e c1 e1 c2 e2 : writes c e c1 e1 -> writes c1 e1 c2 e2 -> writes c e c2 e2.
Proof.
  intros [Hf1 [] [] Ho1] [Hf2 [] [] Ho2]. split; try congruence; [split; congruence..|].
  intros Hst. destruct (Ho1 Hst) as (q1 & Hq1 & Hn1), (Ho2 Hst) as (q2 & Hq2 & Hn2). exists (q1 ++ q2).
  split; [by rewrite Hq2, Hq1, app_assoc|]. intros Hn. destruct (Hn1 Hn) as [-> Hn'].
  destruct (Hn2 Hn') as [-> ?]. done.
Qed.

Lemma do_write_spec fuel (c : Conn) (e : env) pr ok pr' c' e' :
  conn_ok c -> do_write now_us_ fuel c e pr = Some (ok, pr', c', e') ->
  writes c e c' e' /\ conn_ok c'.
Proof.
  revert c e pr. induction fuel as [|f IH]; intros c e pr Hc; cbn [do_write];
    (destruct (c_can_write c); [|intros [= <- <- <- <-]; split; [by apply writes_same|done]]); [done|].
  destruct (write_round now_us_ c e pr) as [[[w pr1] c1] e1] eqn:Ew.
  destruct (write_round_spec c e pr w pr1 c1 e1 Hc Ew) as [Hw1 Hok1].
  destruct w; [|intros [= <- <- <- <-]; done|intros [= <- <- <- <-]; done].
  intros Hrec. destruct (IH _ _ _ Hok1 Hrec) as [Hw2 Hok2]. split; [by eapply writes_trans|done].
Qed.

(** ** [drive] *)

(** Driving a connection keeps everything that was queued, in order, and only adds to it. *)
Record drives (c : Conn) (e : env) (c' : Conn) (e' : env) : Prop := {
  dr_fd : c_fd c' = c_fd c;
  dr_out : file_stable -> exists q, output c' e' = output c e ++ q }.

Lemma drives_trans c e c1 e1 c2 e2 : drives c e c1 e1 -> drives c1 e1 c2 e2 -> drives c e c2 e2.
Proof.
  intros [Hf1 Ho1] [Hf2 Ho2]. split; [congruence|]. intros Hst. destruct (Ho1 Hst) as [q1 Hq1], (Ho2 Hst) as [q2 Hq2].
  exists (q1 ++ q2). by rewrite Hq2, Hq1, app_assoc.
Qed.

Lemma reads_drives c e c' e' : reads c e c' e' -> drives c e c' e'.
Proof.
  intros [_ [Ho Hoff] (Hf & Hfo & Hfl & _) Hfd _ _ Hw]. split; [done|]. intros _. exists [].
  unfold output, sent_so_far, pending, file_rest. by rewrite Ho, Hoff, Hf, Hfo, Hfl, Hfd, Hw, app_nil_r.
Qed.

Lemma writes_drives c e c' e' : writes c e c' e' -> drives c e c' e'.
Proof. intros [Hf _ _ Ho]. split; [done|]. intros Hst. destruct (Ho Hst) as (q & Hq & _). by exists q. Qed.

(** While a body is being sent, or the connection is to be closed, pipelined requests wait. *)
Lemma process_blocked (c : Conn) (e : env) :
  c_close_after_write c || body_source_active c || negb (Z.of_nat (out_pending c) <? kOutHighWater)%Z = true ->
  process router_ now_us_ draining_ c e = (false, c, e).
Proof. intros Hb. unfold process, process_fuel. cbn [process_loop]. unfold process_round. by rewrite Hb. Qed.

Lemma process_drives (c : Conn) (e : env) b c' e' :
  conn_ok c -> process router_ now_us_ draining_ c e = (b, c', e') ->
  drives c e c' e' /\ conn_ok c' /\ c_peer_closed c' = c_peer_closed c /\ c_can_read c' = c_can_read c
  /\ c_can_write c' = c_can_write c.
Proof.
  intros Hc Hp. pose proof (process_spec c e Hc) as Hs. rewrite Hp in Hs. destruct Hs as (_ & Hg & Hok).
  pose proof (g_ready _ _ _ _ Hg) as (Hcr & Hcw & Hpc). split; [|done].
  destruct (body_source_active c) eqn:Ea.
  { rewrite process_blocked in Hp by (by rewrite Ea, orb_true_r). simplify_eq. split; [done|].
    intros _. exists []. by rewrite app_nil_r. }
  unfold body_source_active in Ea. apply orb_false_elim in Ea as [Ef _].
  destruct Hg as [(t & Ho) Hoff Hfd _ _ _ Hw]. split; [done|]. intros _. exists (t ++ file_rest c').
  unfold output, sent_so_far, pending. rewrite Ho, Hoff, Hfd, Hw.
  assert (c_out_off c <= length (c_out c))%nat by (destruct (co_off c Hc) as [[-> ->]|]; cbn; lia).
  rewrite drop_app_le by done. unfold file_rest at 2. rewrite Ef, app_nil_r. by rewrite <- !app_assoc.
Qed.

Lemma drive_round_spec fuel (c : Conn) (e : env) ok pr c' e' :
  conn_ok c -> (max_in_ + kReadSize <= ib_max)%Z ->
  drive_round router_ now_us_ draining_ max_in_ fuel c e = Some (ok, pr, c', e') ->
  drives c e c' e' /\ conn_ok c'.
Proof.
  intros Hc Hmax. unfold drive_round.
  set (rd := if _ && _ && _ && _ then do_read now_us_ max_in_ fuel c e false else _).
  assert (match rd with
          | Some (_, _, c1, e1) => drives c e c1 e1 /\ conn_ok c1
          | None => True
          end) as Hrd.
  { subst rd. destruct (_ && _ && _ && _).
    - destruct (do_read now_us_ max_in_ fuel c e false) as [[[[ok1 pr1] c1] e1]|] eqn:Er; [|done].
      apply do_read_spec in Er as (Hr & Hok & _); [|done..]. split; [by apply reads_drives|done].
    - split; [|done]. split; [done|]. intros _. exists []. by rewrite app_nil_r. }
  destruct rd as [[[[ok1 pr1] c1] e1]|]; [|done]. destruct Hrd as [Hd1 Hok1].
  destruct ok1; cbn [negb]; [|intros [= <- <- <- <-]; done].
  destruct (process router_ now_us_ draining_ c1 e1) as [[did c2] e2] eqn:Ep.
  apply process_drives in Ep as (Hd2 & Hok2 & _); [|done].
  destruct (_ && _).
  - intros Hw. apply do_write_spec in Hw as [Hw Hok3]; [|done..]. split; [|done].
    eapply drives_trans; [exact Hd1|]. eapply drives_trans; [exact Hd2|]. by apply writes_drives.
  - intros [= <- <- <- <-]. split; [by eapply drives_trans|done].
Qed.

Lemma discard_wire fuel fd0 k k' : discard fuel fd0 k = Some k' -> forall fd, wire k' fd = wire k fd.
Proof.
  revert k. induction fuel as [|f IH]; intros k; cbn [discard]; [done|].
  pose proof (recv_wire k fd0 4096) as Hw. destruct (sys_recv k fd0 4096) as [[[|b bs]|x] k1]; cbn [snd] in Hw.
  - intros [= <-]. done.
  - intros Hd fd. by rewrite (IH k1 Hd fd).
  - intros [= <-]. done.
Qed.

Lemma drive_spec fuel (c : Conn) (e : env) ok c' e' :
  conn_ok c -> (max_in_ + kReadSize <= ib_max)%Z ->
  drive router_ now_us_ draining_ max_in_ fuel c e = Some (ok, c', e') ->
  drives c e c' e' /\ conn_ok c'.
Proof.
  intros Hc Hmax. revert c e Hc. induction fuel as [|f IH]; intros c e Hc; cbn [drive]; [done|].
  destruct (drive_round router_ now_us_ draining_ max_in_ f c e) as [[[[ok1 pr1] c1] e1]|] eqn:Er; [|done].
  apply drive_round_spec in Er as [Hd1 Hok1]; [|done..].
  destruct ok1; cbn [negb]; [|intros [= <- <- <-]; done].
  destruct pr1; [intros Hrec; apply IH in Hrec as [Hd2 Hok2]; [|done]; split; [by eapply drives_trans|done]|].
  destruct (has_output c1); [intros [= <- <- <-]; done|].
  destruct (c_close_after_write c1); [|intros [= <- <- <-]; done].
  destruct (discard f (c_fd c1) _) as [k|] eqn:Ed; [|done]. intros [= <- <- <-]. split; [|done].
  eapply drives_trans; [exact Hd1|]. split; [done|]. intros _. exists [].
  unfold output, sent_so_far. conn_simpl. rewrite (discard_wire _ _ _ _ Ed), shutdown_wire, app_nil_r. done.
Qed.

End Facts.
