(* ===== verification/ConnectionLiveness.v ===== *)
(** * Connections: every loop ends and no readiness is lost

    [FiniteReadiness] is the assumption under which the edge-triggered loops
    return: the kernel delivers or accepts data (or interrupts a call) only
    finitely often before it answers that the call would block. *)

From S2P Require Import Prelude Headers RequestParser Numbers ParserFacts ParserSegmentation.
From S2P Require Import Response ChunkCodec ResponseHead ByteBuffer Router Metrics Connection CallFrame ConnectionFacts.

Open Scope Z_scope.

(** Whether the answer of a transfer may be followed by another one at once. *)
Definition ready {A} (r : A + errno) (empty : A -> bool) : bool :=
  match r with
  | inl a => negb (empty a)
  | inr EINTR => true
  | inr _ => false
  end.

Definition no_bytes (bs : bytes) : bool := match bs with [] => true | _ => false end.

Class FiniteReadiness (K : Type) `{Kernel K} := {
  budget : K -> nat;
  recv_budget : forall k fd n, (budget (sys_recv k fd n).2
    + (if ready (sys_recv k fd n).1 no_bytes then 1 else 0) <= budget k)%nat;
  send_budget : forall k fd bs, (budget (sys_send k fd bs).2
    + (if ready (sys_send k fd bs).1 (fun _ => false) then 1 else 0) <= budget k)%nat;
  sendfile_budget : forall k fd f off want, (budget (sys_sendfile k fd f off want).2
    + (if ready (sys_sendfile k fd f off want).1 no_bytes then 1 else 0) <= budget k)%nat;
  shutdown_budget : forall k fd, (budget (sys_shutdown k fd) <= budget k)%nat;
  close_budget : forall k fd, (budget (sys_close k fd) <= budget k)%nat;
  mono_budget : forall k, (budget (sys_mono_us k).2 <= budget k)%nat;
  time_budget : forall k, (budget (sys_time k).2 <= budget k)%nat }.

(** Handlers do not make sockets ready. *)
Definition router_finite {K} `{FiniteReadiness K} (router : Router K) : Prop :=
  Forall (fun r => forall k req res, (budget (rt_handler r k req res).2 <= budget k)%nat) router.

Section Liveness.
Context {T : Type} `{InBufferLaws T}.
Context {K : Type} `{KernelLaws K} {FR : FiniteReadiness K}.
Context (router_ : Router K) (now_us_ : Z) (draining_ : bool) (max_in_ : Z).
Context (Hrouter : router_ok router_) (Hfinite : router_finite router_).

#[local] Abbreviation Conn := (Connection T).
#[local] Abbreviation env := (Env K).

Definition e_budget (e : env) : nat := budget (e_kern e).

(** ** Parsing and dispatching use up no readiness *)

Lemma budget_quiet : QuietRel (fun k k' : K => (budget k' <= budget k)%nat).
Proof. split; [split; [by intros k|by intros a b d; lia]|apply close_budget|apply mono_budget|apply time_budget]. Qed.

Lemma dispatch_budget (c : Conn) req (e : env) :
  (e_budget (dispatch router_ draining_ c req e).2 <= e_budget e)%nat.
Proof. exact (dispatch_rel (QuietRel0 := budget_quiet) _ router_ Hfinite draining_ c req e). Qed.

Lemma queue_error_budget (c : Conn) s d (e : env) : (e_budget (queue_error c s d e).2 <= e_budget e)%nat.
Proof. exact (queue_error_rel (QuietRel0 := budget_quiet) _ c s d e). Qed.

(** ** The measure *)

Definition flag (b : bool) : Z := if b then 1 else 0.

(** The producer is about to be asked for more. *)
Definition wants_refill (c : Conn) : bool :=
  (out_pending c =? 0)%nat && match c_producer c with Some _ => true | None => false end.

Definition measure (c : Conn) (e : env) : Z :=
  (2 * kReadSize + 3) * Z.of_nat (e_budget e) + 2 * zlen (ib_readable (c_in c))
  + flag (negb (c_continue_sent c)) + flag (negb (c_close_after_write c)) + flag (negb (c_peer_closed c))
  + flag (wants_refill c).

Lemma response_text_nonempty res opts b : response_text res opts b <> [].
Proof. unfold response_text. rewrite write_head_text. done. Qed.

Lemma queued_no_refill t (c c' : Conn) : conn_ok c -> queued t c c' -> t <> [] -> wants_refill c' = false.
Proof.
  intros Hc [Ho Hoff] Ht. unfold wants_refill, out_pending. rewrite Ho, Hoff, length_app.
  destruct (Nat.eqb_spec (length (c_out c) + length t - c_out_off c) 0); [|done].
  destruct t; [done|]. destruct (co_off c Hc) as [[E1 E2]|]; [rewrite E1, E2 in *|]; cbn in *; lia.
Qed.

Lemma idle_no_refill (c : Conn) : body_source_active c = false -> wants_refill c = false.
Proof. unfold body_source_active, wants_refill. intros [_ ->]%orb_false_elim. apply andb_false_r. Qed.

Lemma flag_range b : 0 <= flag b <= 1.
Proof. destruct b; done. Qed.

(** What a round starts from: the parser fed and its input consumed. *)
Definition fed (t0 : Z) (c : Conn) : Conn :=
  let r := feed (c_parser c) (ib_readable (c_in c)) in
  set_input (ib_consume (c_in c) (Z.of_nat r.2)) r.1 (set_request_start t0 c).

Definition used (c : Conn) : Z := Z.of_nat (feed (c_parser c) (ib_readable (c_in c))).2.

Section Round.
Context (c : Conn) (e : env) (t0 : Z).
Context (Hc : conn_ok c) (Hcl : c_close_after_write c = false) (Hb : body_source_active c = false).
#[local] Abbreviation p := (feed (c_parser c) (ib_readable (c_in c))).1.

Lemma fed_input : zlen (ib_readable (c_in (fed t0 c))) = zlen (ib_readable (c_in c)) - used c.
Proof.
  destruct (feed_step c e t0 Hc Hcl) as (_ & Hin & _ & Hu). unfold fed, used. cbn zeta in *.
  rewrite Hin. by apply zlen_drop.
Qed.

Lemma fed_in_wf : ib_wf (c_in (fed t0 c)).
Proof.
  pose proof (feed_used (c_parser c) (ib_readable (c_in c)) (co_parser c Hc)).
  unfold fed. conn_simpl. apply ib_consume_spec; [apply Hc|unfold zlen; lia].
Qed.

Lemma round_parser_wf : parser_wf p.
Proof. apply feed_wf, Hc. Qed.

Lemma round_done_used : done p = true -> 0 < used c.
Proof.
  intros Hd. unfold used. pose proof (feed_done_used (c_parser c) (ib_readable (c_in c)) (co_parser c Hc)) as Hu.
  destruct (final (c_parser c)) eqn:E; [apply (co_idle c Hc) in E; congruence|]. specialize (Hu eq_refl Hd). lia.
Qed.

(** The parser rejects: the connection is marked for closing. *)
Lemma measure_failed :
  let '(c', e') := queue_error (fed t0 c) (status_for (error_ p)) (error_detail_ p) (count Field.parse_errors 1 e) in
  measure c' e' < measure c e.
Proof.
  rewrite <- queue_error_close.
  assert (conn_ok (set_close_after_write (fed t0 c))) as Hok by (apply conn_ok_failed; [done|apply fed_in_wf|apply round_parser_wf]).
  pose proof (queue_error_spec (set_close_after_write (fed t0 c)) p (count Field.parse_errors 1 e) Hok) as Hq.
  pose proof (queue_error_budget (set_close_after_write (fed t0 c)) (status_for (error_ p)) (error_detail_ p)
    (count Field.parse_errors 1 e)) as Hbud.
  destruct (queue_error (set_close_after_write (fed t0 c)) _ _ _) as [c2 e2]. cbn [snd] in Hbud.
  destruct Hq as ((date & Hq) & _ & Hcl2 & _). pose proof fed_input as Hlen. unfold used in Hlen.
  unfold measure. rewrite (queued_no_refill _ _ _ Hok Hq ltac:(apply response_text_nonempty)).
  rewrite Hcl2, Hcl, (idle_no_refill c Hb), (q_continue _ _ _ Hq), (q_in _ _ _ Hq).
  destruct (q_ready _ _ _ Hq) as (_ & _ & ->). unfold e_budget, fed, kReadSize in *. conn_simpl.
  cbn [flag negb]. lia.
Qed.

(** A complete request is dispatched: input was consumed. *)
Lemma measure_dispatched :
  done p = true ->
  let '(c', e') := dispatch router_ draining_ (set_input (c_in (fed t0 c)) (reset p) (fed t0 c)) (req_ p) e in
  measure (set_continue_sent false c') e' < measure c e.
Proof.
  intros Hd. set (c1 := set_input _ (reset p) _).
  assert (conn_ok c1) as Hok.
  { pose proof fed_in_wf. destruct Hc. split; try done. apply parser_wf_reset, round_parser_wf. }
  pose proof (dispatch_queues router_ draining_ Hrouter c1 (req_ p) e Hok ltac:(done)) as Hs.
  pose proof (dispatch_budget c1 (req_ p) e) as Hbud.
  destruct (dispatch router_ draining_ c1 (req_ p) e) as [c2 e2]. cbn [snd] in Hbud.
  destruct (Router.dispatch router_ (e_kern e) (req_ p) Response_new) as [res kd].
  destruct Hs as ((date & Hq & _) & _ & _). pose proof fed_input as Hlen. pose proof (round_done_used Hd) as Hu.
  pose proof (queued_no_refill _ _ _ Hok Hq ltac:(apply response_text_nonempty)) as Hnr.
  unfold measure. change (wants_refill (set_continue_sent false c2)) with (wants_refill c2).
  rewrite Hnr, Hcl, (idle_no_refill c Hb). conn_simpl. rewrite (q_in _ _ _ Hq).
  destruct (q_ready _ _ _ Hq) as (_ & _ & ->). subst c1. conn_simpl. rewrite Hlen.
  change (c_peer_closed (fed t0 c)) with (c_peer_closed c).
  pose proof (flag_range (negb (c_continue_sent c))). pose proof (flag_range (negb (c_close_after_write c2))).
  cbn [flag negb] in *. unfold kReadSize. lia.
Qed.

(** More input is needed: what was consumed counts, and so does an interim response. *)
Lemma measure_fed : measure (fed t0 c) e = measure c e - 2 * used c.
Proof.
  unfold measure. rewrite fed_input, (idle_no_refill c Hb), (idle_no_refill (fed t0 c)) by done.
  unfold fed. conn_simpl. lia.
Qed.

Lemma measure_continue (c1 : Conn) :
  body_source_active c1 = false -> c_continue_sent c1 = false ->
  measure (set_continue_sent true (append_out continue_line c1)) e = measure c1 e - 1.
Proof.
  intros Hb1 Hs. unfold measure. rewrite (idle_no_refill c1 Hb1), idle_no_refill by done. conn_simpl. rewrite Hs.
  cbn [flag negb]. lia.
Qed.

End Round.

(** A round of [process] that makes progress lowers the measure. *)
Lemma process_round_measure (c : Conn) (e : env) (progress : bool) :
  conn_ok c ->
  match process_round router_ now_us_ draining_ c e progress with
  | inl (c', e') => measure c' e' < measure c e
  | inr (b, c', e') => measure c' e' <= measure c e /\ (b = true -> progress = true \/ measure c' e' < measure c e)
  end.
Proof.
  intros Hc. unfold process_round.
  destruct (c_close_after_write c || body_source_active c || negb _) eqn:Eg; [split; [done|auto]|]. bool_hyps.
  destruct (ib_readable (c_in c)) as [|b0 bs] eqn:Edata; [split; [done|auto]|]. rewrite <- Edata.
  rewrite start_if. generalize (if c_request_start_us c =? 0 then now_us_ else c_request_start_us c). intros t0.
  pose proof (measure_failed c e t0 Hc ltac:(done) ltac:(done)) as Hfail.
  pose proof (measure_dispatched c e t0 Hc ltac:(done) ltac:(done)) as Hdisp.
  pose proof (measure_fed c e t0 Hc ltac:(done) ltac:(done)) as Hfed.
  pose proof (measure_continue e (fed t0 c) ltac:(done)) as Hcont. unfold fed, used in *. conn_simpl.
  destruct (feed (c_parser c) (ib_readable (c_in c))) as [p n]. conn_simpl.
  destruct (failed p).
  { destruct (queue_error _ _ _ _) as [c2 e2]. split; [lia|auto]. }
  destruct (done p) eqn:Hd; cbn [negb andb].
  - rewrite andb_false_r. cbn [take_request]. specialize (Hdisp eq_refl). conn_simpl.
    destruct (dispatch _ _ _ _ _) as [c2 e2]. done.
  - rewrite andb_true_r. destruct (_ && _ && _) eqn:Ec.
    + bool_hyps. specialize (Hcont ltac:(done)). split; [lia|]. intros _. right. lia.
    + split; [lia|]. intros Hp. destruct progress; [by left|right]. cbn [orb] in Hp.
      destruct (Nat.eqb_spec n 0); [done|lia].
Qed.

Lemma process_loop_measure fuel (c : Conn) (e : env) (progress : bool) b c' e' :
  conn_ok c -> process_loop router_ now_us_ draining_ fuel c e progress = Some (b, c', e') ->
  measure c' e' <= measure c e /\ (b = true -> progress = true \/ measure c' e' < measure c e)
  /\ (progress = true -> b = true).
Proof.
  revert c e progress. induction fuel as [|f IH]; intros c e progress Hc; cbn [process_loop]; [done|].
  pose proof (process_round_measure c e progress Hc) as Hm.
  pose proof (process_round_spec router_ now_us_ draining_ Hrouter c e progress Hc) as Hs.
  destruct (process_round router_ now_us_ draining_ c e progress) as [[c1 e1]|[[b1 c1] e1]] eqn:Er.
  - destruct Hs as (_ & Hok & _). intros Hl. destruct (IH c1 e1 true Hok Hl) as (Hle & _ & Hb).
    split; [lia|]. split; [intros _; right; lia|]. auto.
  - intros [= <- <- <-]. split; [apply Hm|]. split; [apply Hm|]. intros ->. clear -Er. unfold process_round in Er.
    repeat (cases_in Er; simplify_eq/=; try done).
Qed.

Lemma process_measure (c : Conn) (e : env) b c' e' :
  conn_ok c -> process router_ now_us_ draining_ c e = (b, c', e') ->
  measure c' e' <= measure c e /\ (b = true -> measure c' e' < measure c e).
Proof.
  intros Hc Hp. pose proof (process_spec router_ now_us_ draining_ Hrouter c e Hc) as Hs. rewrite Hp in Hs.
  destruct Hs as (Hl & _). apply process_loop_measure in Hl as (Hle & Hb & _); [|done]. split; [done|].
  intros Hbt. by destruct (Hb Hbt).
Qed.

(** ** Reading *)

Lemma do_read_live fuel (c : Conn) (e : env) (pr : bool) :
  conn_ok c -> max_in_ + kReadSize <= ib_max -> c_peer_closed c = false -> (e_budget e < fuel)%nat ->
  exists ok pr' c' e', do_read now_us_ max_in_ fuel c e pr = Some (ok, pr', c', e')
    /\ measure c' e' <= measure c e /\ (pr' = true -> pr = true \/ measure c' e' < measure c e)
    /\ (e_budget e' <= e_budget e)%nat
    /\ (ok = true -> pr' = false -> c_can_read c' = false \/ max_in_ <= zlen (ib_readable (c_in c'))).
Proof.
  intros Hc Hmax. revert c e pr Hc. induction fuel as [|f IH]; intros c e pr Hc Hpc Hf; [lia|]. cbn [do_read].
  rewrite (ib_size_readable (c_in c) (co_in c Hc)).
  destruct (Z.ltb_spec (zlen (ib_readable (c_in c))) max_in_) as [Hsz|Hsz].
  2:{ exists true, pr, c, e. split; [done|]. split; [done|]. split; [auto|]. split; [done|]. by right. }
  pose proof (recv_budget (e_kern e) (c_fd c) kReadSize) as Hbud. pose proof (recv_bound (e_kern e) (c_fd c) kReadSize) as Hb.
  destruct (sys_recv (e_kern e) (c_fd c) kReadSize) as [r k]. cbn [fst snd] in Hbud.
  fold (e_budget (set_kern k e)) in *. fold (e_budget e) in *.
  assert (forall c0 : Conn, c_in c0 = c_in c -> c_continue_sent c0 = c_continue_sent c ->
    c_close_after_write c0 = c_close_after_write c -> c_peer_closed c0 = c_peer_closed c -> wants_refill c0 = wants_refill c ->
    measure c0 (set_kern k e) = measure c e + (2 * kReadSize + 3) * (Z.of_nat (budget k) - Z.of_nat (e_budget e))) as Hm.
  { intros c0 Hi Hcs Hca Hpcl Hwr. unfold measure. rewrite Hi, Hcs, Hca, Hpcl, Hwr.
    change (e_budget (set_kern k e)) with (budget k). lia. }
  assert (0 < 2 * kReadSize + 3) by done.
  destruct r as [[|b0 bs]|[]]; cbn [ready no_bytes negb] in Hbud.
  - do 4 eexists. split; [done|]. assert (measure (set_peer_closed c) (set_kern k e) < measure c e).
    { unfold measure, e_budget in *. conn_simpl. rewrite Hpc. cbn [flag negb].
      change (wants_refill (set_peer_closed c)) with (wants_refill c). nia. }
    split; [lia|]. split; [auto|]. split; [unfold e_budget in *; conn_simpl; lia|done].
  - destruct (ib_receive_spec (c_in c) kReadSize (b0 :: bs) (co_in c Hc)) as (b & -> & Hbw & Hbr);
      [by eapply Hb|unfold kReadSize in *; lia|].
    set (c1 := set_last_active now_us_ (set_input b (c_parser c) c)).
    set (e1 := count Field.bytes_received (zlen (b0 :: bs)) (set_kern k e)).
    assert (conn_ok c1) as Hok1 by (destruct Hc; by split).
    assert (measure c1 e1 < measure c e).
    { specialize (Hb _ _ eq_refl). unfold measure, e_budget in *. subst c1 e1. conn_simpl. rewrite Hbr, zlen_app.
      change (wants_refill (set_last_active now_us_ (set_input b (c_parser c) c))) with (wants_refill c). nia. }
    destruct (IH c1 e1 true Hok1 Hpc) as (ok & pr' & c' & e' & Hrun & Hle & Hpr & Hbu & Hend).
    { unfold e_budget in *. subst e1. conn_simpl. lia. }
    exists ok, pr', c', e'. split; [done|]. split; [lia|]. split; [intros _; right; lia|].
    split; [unfold e_budget in *; subst e1; conn_simpl; lia|done].
  - destruct (IH c (set_kern k e) pr Hc Hpc) as (ok & pr' & c' & e' & Hrun & Hle & Hpr & Hbu & Hend).
    { unfold e_budget in *. conn_simpl. lia. }
    specialize (Hm c eq_refl eq_refl eq_refl eq_refl eq_refl).
    exists ok, pr', c', e'. split; [done|]. unfold e_budget in *. conn_simpl. split; [nia|].
    split; [intros Hp; destruct (Hpr Hp); [by left|right; nia]|]. split; [lia|done].
  - specialize (Hm (set_can_read false c) eq_refl eq_refl eq_refl eq_refl eq_refl).
    do 4 eexists. split; [done|]. unfold e_budget in *. conn_simpl. split; [nia|]. split; [auto|]. split; [lia|]. by left.
  - specialize (Hm c eq_refl eq_refl eq_refl eq_refl eq_refl).
    do 4 eexists. split; [done|]. unfold e_budget in *. conn_simpl. split; [nia|]. split; [auto|]. split; [lia|done].
Qed.

(** ** Writing *)

Definition write_measure (c : Conn) (e : env) : Z := 2 * Z.of_nat (e_budget e) + flag (wants_refill c).

(** What a round of [do_write] leaves unchanged, as far as the measure is concerned. *)
Definition write_frame (c c' : Conn) : Prop :=
  c_in c' = c_in c /\ c_continue_sent c' = c_continue_sent c /\ c_peer_closed c' = c_peer_closed c
  /\ (c_close_after_write c = true -> c_close_after_write c' = true).

Lemma write_frame_measure (c c' : Conn) (e e' : env) :
  write_frame c c' -> (e_budget e' <= e_budget e)%nat ->
  (write_measure c' e' <= write_measure c e -> measure c' e' <= measure c e)
  /\ (write_measure c' e' < write_measure c e -> measure c' e' < measure c e).
Proof.
  intros (Hi & Hcs & Hpc & Hca) Hb. unfold measure, write_measure. rewrite Hi, Hcs, Hpc.
  assert (flag (negb (c_close_after_write c')) <= flag (negb (c_close_after_write c))).
  { destruct (c_close_after_write c); [by rewrite Hca|]. apply flag_range. }
  unfold kReadSize. pose proof (flag_range (wants_refill c)). pose proof (flag_range (wants_refill c')). lia.
Qed.

(** A round of [do_write] lowers its measure, or ends the loop with the socket
    blocked or nothing to write. *)
Definition write_live (pr : bool) (c : Conn) (e : env) (w : wround) (pr' : bool) (c' : Conn) (e' : env) : Prop :=
  write_frame c c' /\ (e_budget e' <= e_budget e)%nat
  /\ (pr' = true -> pr = true \/ write_measure c' e' < write_measure c e)
  /\ match w with
     | WContinue => write_measure c' e' < write_measure c e
     | WBreak => write_measure c' e' <= write_measure c e /\ (c_can_write c' = false \/ has_output c' = false)
     | WFalse => write_measure c' e' <= write_measure c e
     end.

Lemma live_intro pr (c : Conn) (e : env) w pr' c' e' :
  write_frame c c' -> flag (wants_refill c') <= flag (wants_refill c) + 1 ->
  (e_budget e' < e_budget e)%nat -> (w = WBreak -> c_can_write c' = false) -> write_live pr c e w pr' c' e'.
Proof.
  intros Hf Hw Hb Hc. unfold write_live, write_measure. split; [done|]. split; [lia|]. split; [right; lia|].
  destruct w; [lia| |lia]. split; [lia|]. left. by apply Hc.
Qed.

(** Nothing was transferred and the loop ends. *)
Lemma live_end pr (c : Conn) (e : env) w c' e' :
  write_frame c c' -> wants_refill c' = wants_refill c ->
  (e_budget e' <= e_budget e)%nat -> w <> WContinue -> (w = WBreak -> c_can_write c' = false) -> write_live pr c e w pr c' e'.
Proof.
  intros Hf Hw Hb Hne Hc. unfold write_live, write_measure. rewrite Hw. split; [done|]. split; [lia|]. split; [auto|].
  destruct w; [done| |lia]. split; [lia|]. left. by apply Hc.
Qed.

Lemma send_round_live (c : Conn) (e : env) (pr : bool) w pr' c' e' :
  (0 < out_pending c)%nat -> write_round now_us_ c e pr = (w, pr', c', e') -> write_live pr c e w pr' c' e'.
Proof.
  intros Hp. unfold write_round. rewrite (proj2 (Nat.ltb_lt _ _) Hp).
  assert (forall c0 : Conn, flag (wants_refill c0) <= flag (wants_refill c) + 1) as Hwr.
  { intros c0. pose proof (flag_range (wants_refill c)). pose proof (flag_range (wants_refill c0)). lia. }
  pose proof (send_budget (e_kern e) (c_fd c) (drop (c_out_off c) (c_out c))) as Hb.
  destruct (sys_send _ _ _) as [r k]. cbn [fst snd] in Hb.
  destruct r as [n|x]; [|destruct x]; cbn [ready negb] in Hb.
  - assert (forall c0 : Conn, write_frame c0 (after_send (Z.to_nat n) c0)) as Hfr.
    { intros c0. unfold write_frame, after_send. destruct (_ =? _)%nat; [done|]. by destruct (_ <? _)%nat. }
    specialize (Hfr (set_last_active now_us_ c)). cbn zeta.
    destruct (_ <? _)%nat; intros [= <- <- <- <-]; apply live_intro; try done; unfold e_budget; conn_simpl; lia.
  - intros [= <- <- <- <-]. apply live_intro; try done. unfold e_budget. conn_simpl. lia.
  - intros [= <- <- <- <-]. apply live_end; try done. unfold e_budget. conn_simpl. lia.
  - intros [= <- <- <- <-]. apply live_end; try done. unfold e_budget. conn_simpl. lia.
Qed.

Lemma sendfile_round_live (c : Conn) (e : env) (pr : bool) w pr' c' e' :
  out_pending c = 0%nat -> fd_valid (c_file c) = true -> write_round now_us_ c e pr = (w, pr', c', e') ->
  write_live pr c e w pr' c' e'.
Proof.
  intros Hp Hf. unfold write_round. rewrite Hp, Hf. cbn [Nat.ltb Nat.leb].
  assert (forall c0 : Conn, flag (wants_refill c0) <= flag (wants_refill c) + 1) as Hwr.
  { intros c0. pose proof (flag_range (wants_refill c)). pose proof (flag_range (wants_refill c0)). lia. }
  pose proof (sendfile_budget (e_kern e) (c_fd c) (c_file c) (c_file_off c) (Z.min (c_file_left c) kSendfileMax)) as Hb.
  destruct (sys_sendfile _ _ _ _ _) as [r k]. cbn [fst snd] in Hb.
  destruct r as [[|b0 bs]|x]; [| |destruct x]; cbn [ready no_bytes negb] in Hb; cbn zeta.
  - intros [= <- <- <- <-]. apply live_end; try done. unfold e_budget. conn_simpl. lia.
  - pose proof (close_budget k (c_file c)) as Hcl.
    destruct (_ =? 0); [|destruct (_ <? _)]; intros [= <- <- <- <-];
      apply live_intro; try done; unfold e_budget; conn_simpl; lia.
  - intros [= <- <- <- <-]. apply live_intro; try done. unfold e_budget. conn_simpl. lia.
  - intros [= <- <- <- <-]. apply live_end; try done. unfold e_budget. conn_simpl. lia.
  - intros [= <- <- <- <-]. apply live_end; try done. unfold e_budget. conn_simpl. lia.
Qed.

Lemma producer_round_live (c : Conn) (e : env) (pr : bool) w pr' c' e' :
  conn_ok c -> out_pending c = 0%nat -> fd_valid (c_file c) = false ->
  write_round now_us_ c e pr = (w, pr', c', e') -> write_live pr c e w pr' c' e'.
Proof.
  intros Hc Hp Hf. unfold write_round. rewrite Hp, Hf. cbn [Nat.ltb Nat.leb].
  destruct (c_producer c) as [q|] eqn:Epr.
  - destruct (refill_from_producer c) as [c1|] eqn:Er; intros [= <- <- <- <-]; [|by apply live_end].
    destruct (pending_nil_out c Hc Hp) as [Ho Hoff].
    destruct (refill_spec c c1 Hc ltac:(by rewrite Epr) Ho Er) as (Hoff1 & [] & Hok & Hprog & _).
    assert (wants_refill c = true) as Hw by (unfold wants_refill; by rewrite Hp, Epr).
    assert (wants_refill c1 = false) as Hw1.
    { unfold wants_refill, out_pending. rewrite Hoff1, Hoff, Nat.sub_0_r. destruct Hprog as [->|Hne]; [apply andb_false_r|].
      by destruct (c_out c1). }
    unfold write_live, write_measure. rewrite Hw, Hw1. cbn [flag]. split; [|split; [done|split; [right; lia|lia]]].
    split; [naive_solver|]. split; [done|]. split; [naive_solver|done].
  - intros [= <- <- <- <-]. unfold write_live. split; [done|]. split; [done|]. split; [auto|]. split; [done|].
    right. unfold has_output, body_source_active. by rewrite Hp, Hf, Epr.
Qed.

Lemma write_round_live (c : Conn) (e : env) (pr : bool) w pr' c' e' :
  conn_ok c -> write_round now_us_ c e pr = (w, pr', c', e') -> write_live pr c e w pr' c' e'.
Proof.
  intros Hc Hw. destruct (Nat.eq_0_gt_0_cases (out_pending c)) as [Hp|Hp]; [|by eapply send_round_live].
  destruct (fd_valid (c_file c)) eqn:Hf; [by eapply sendfile_round_live|by eapply producer_round_live].
Qed.

Lemma do_write_live fuel (c : Conn) (e : env) (pr : bool) :
  conn_ok c -> write_measure c e < Z.of_nat fuel ->
  exists ok pr' c' e', do_write now_us_ fuel c e pr = Some (ok, pr', c', e')
    /\ write_frame c c' /\ (e_budget e' <= e_budget e)%nat /\ write_measure c' e' <= write_measure c e
    /\ (pr' = true -> pr = true \/ write_measure c' e' < write_measure c e)
    /\ (ok = true -> c_can_write c' = false \/ has_output c' = false).
Proof.
  revert c e pr. induction fuel as [|f IH]; intros c e pr Hc Hf.
  { unfold write_measure in Hf. pose proof (flag_range (wants_refill c)). lia. }
  cbn [do_write]. destruct (c_can_write c) eqn:Ecw; [|exists true, pr, c, e; do 4 (split; [done|]); split; [auto|by left]].
  destruct (write_round now_us_ c e pr) as [[[w pr1] c1] e1] eqn:Ew.
  pose proof (write_round_live c e pr w pr1 c1 e1 Hc Ew) as (Hfr & Hb & Hp & Hw).
  pose proof (write_round_spec now_us_ max_in_ (fun _ => []) c e pr w pr1 c1 e1 Hc Ew) as [_ Hok1].
  destruct w.
  - destruct (IH c1 e1 pr1 Hok1 ltac:(lia)) as (ok & pr' & c' & e' & Hrun & Hfr2 & Hb2 & Hle & Hp2 & Hend).
    exists ok, pr', c', e'. split; [done|]. destruct Hfr as (? & ? & ? & ?), Hfr2 as (? & ? & ? & ?).
    split; [split_and!; [congruence..|auto]|]. split; [lia|]. split; [lia|]. split; [right; lia|done].
  - exists true, pr1, c1, e1. split; [done|]. split; [done|]. split; [done|]. split; [lia|]. split; [done|]. intros _. apply Hw.
  - exists false, pr1, c1, e1. split; [done|]. split; [done|]. split; [done|]. split; [lia|]. split; [done|done].
Qed.

(** A pass of [do_write] without progress leaves the connection as it was. *)
Lemma do_write_idle fuel (c : Conn) (e : env) (pr : bool) ok pr' c' e' :
  do_write now_us_ fuel c e pr = Some (ok, pr', c', e') ->
  (pr = true -> pr' = true) /\ (pr' = false -> c' = c \/ c' = set_can_write false c).
Proof.
  revert c e pr. induction fuel as [|f IH]; intros c e pr; cbn [do_write].
  all: destruct (c_can_write c); [|intros [= <- <- <- <-]; auto]; try done.
  destruct (write_round now_us_ c e pr) as [[[w pr1] c1] e1] eqn:Ew.
  assert ((pr = true -> pr1 = true) /\ (pr1 = false -> c1 = c \/ (w <> WContinue /\ c1 = set_can_write false c))) as [Hm Hi].
  { clear IH. unfold write_round in Ew. repeat (cases_in Ew; simplify_eq/=; auto 6 with congruence).
    all: split; [done|]; intros; right; done. }
  destruct w; intros Hr; simplify_eq; [|split; [done|naive_solver]..].
  destruct (IH c1 e1 pr1 Hr) as [Hm2 Hi2]. split; [auto|]. intros Hp.
  destruct pr1; [by rewrite Hm2 in Hp|]. destruct (Hi eq_refl) as [->|[? _]]; [auto|done].
Qed.

(** ** The input buffer never blocks the parser *)

Definition in_bound (c : Conn) : Prop := zlen (ib_readable (c_in c)) < max_in_ + kReadSize.

Lemma process_full (c : Conn) (e : env) :
  conn_ok c -> c_close_after_write c = false -> body_source_active c = false -> Z.of_nat (out_pending c) < kOutHighWater ->
  buffer_fits (limits_ (c_parser c)) -> max_in_ = max_in_buffer (limits_ (c_parser c)) -> max_in_ + kReadSize <= ib_max ->
  in_bound c -> max_in_ <= zlen (ib_readable (c_in c)) ->
  (process router_ now_us_ draining_ c e).1.1 = true.
Proof.
  intros Hc Hcl Hb Hhw Hfit Hmi Hmax Hbound Hfull. pose proof (process_spec router_ now_us_ draining_ Hrouter c e Hc) as Hs.
  destruct (process router_ now_us_ draining_ c e) as [[b c'] e']. destruct Hs as (Hl & _). cbn [fst].
  unfold process_fuel in Hl. cbn [process_loop] in Hl.
  assert (match process_round router_ now_us_ draining_ c e false with inl _ => True | inr (b, _, _) => b = true end) as Hr.
  { unfold process_round. rewrite Hcl, Hb, (proj2 (Z.ltb_lt _ _) Hhw). cbn [orb negb].
    assert (0 < max_in_) by (rewrite Hmi; unfold max_in_buffer; lia).
    destruct (ib_readable (c_in c)) as [|b0 bs] eqn:Ed; [unfold zlen in Hfull; cbn in Hfull; lia|]. rewrite <- Ed.
    rewrite start_if. conn_simpl.
    assert (final (c_parser c) = false) as Hfin.
    { destruct (final (c_parser c)) eqn:E; [|done]. apply (co_idle c Hc) in E. congruence. }
    pose proof (feed_full (c_parser c) (ib_readable (c_in c)) (co_parser c Hc) Hfin Hfit) as Hf.
    destruct (feed (c_parser c) (ib_readable (c_in c))) as [p n]. cbn [fst snd] in Hf.
    destruct Hf as [Hn|Hn]; [unfold fits, in_bound, ib_max in *; rewrite Ed in *; lia|rewrite Ed in *; lia| |].
    - destruct (Nat.eqb_spec n 0); [lia|]. cbn [negb orb]. destruct (failed p); [by destruct (queue_error _ _ _ _)|].
      destruct (_ && _ && _ && _), (negb (done p)); try done; cbn [take_request]; by destruct (dispatch _ _ _ _ _).
    - rewrite Hn. by destruct (queue_error _ _ _ _). }
  pose proof (process_round_spec router_ now_us_ draining_ Hrouter c e false Hc) as Hspec.
  destruct (process_round router_ now_us_ draining_ c e false) as [[c1 e1]|[[b1 c1] e1]]; [|by simplify_eq].
  destruct Hspec as (_ & Hok & _). by apply (process_loop_measure _ _ _ _ _ _ _ Hok Hl).
Qed.

(** ** [drive] *)

Section Drive.
Context (l : ParserLimits) (Hfit : buffer_fits l) (Hmi : max_in_ = max_in_buffer l) (Hmax : max_in_ + kReadSize <= ib_max).

Record live (c : Conn) : Prop := {
  lv_ok : conn_ok c;
  lv_bound : in_bound c;
  lv_limits : limits_ (c_parser c) = l }.

Lemma measure_budget (c : Conn) (e : env) : 2 * Z.of_nat (e_budget e) + 1 + flag (wants_refill c) <= measure c e + 1.
Proof.
  unfold measure. pose proof (zlen_nonneg (ib_readable (c_in c))). pose proof (flag_range (negb (c_continue_sent c))).
  pose proof (flag_range (negb (c_close_after_write c))). pose proof (flag_range (negb (c_peer_closed c))).
  unfold kReadSize. lia.
Qed.

(** The part of a round that reads. *)
Lemma read_phase_live fuel (c : Conn) (e : env) :
  live c -> measure c e < Z.of_nat fuel ->
  exists ok pr c1 e1,
    (if c_can_read c && negb (c_peer_closed c) && negb (c_close_after_write c) && (ib_size (c_in c) <? max_in_)
     then do_read now_us_ max_in_ fuel c e false else Some (true, false, c, e)) = Some (ok, pr, c1, e1)
    /\ live c1 /\ measure c1 e1 <= measure c e /\ (pr = true -> measure c1 e1 < measure c e)
    /\ (ok = true -> pr = false -> c_can_read c1 = true -> c_peer_closed c1 = false -> c_close_after_write c1 = false ->
        max_in_ <= zlen (ib_readable (c_in c1))).
Proof.
  intros [Hc Hb Hl] Hf. pose proof (measure_budget c e). pose proof (flag_range (wants_refill c)).
  rewrite (ib_size_readable (c_in c) (co_in c Hc)).
  destruct (c_can_read c && negb (c_peer_closed c) && negb (c_close_after_write c) && _) eqn:Eg.
  - bool_hyps. destruct (do_read_live fuel c e false Hc Hmax ltac:(done) ltac:(lia))
      as (ok & pr & c1 & e1 & Hrun & Hle & Hpr & _ & Hend).
    destruct (do_read_spec now_us_ max_in_ fuel c e false ok pr c1 e1 Hc Hmax Hrun) as (Hr & Hok & Hbd).
    exists ok, pr, c1, e1. split; [done|]. split; [split; [done|by apply Hbd|by rewrite (rd_parser _ _ _ _ Hr)]|].
    split; [done|]. split; [intros Hp; by destruct (Hpr Hp)|]. intros Hk Hp Hcr _ _. destruct (Hend Hk Hp); [congruence|done].
  - exists true, false, c, e. split; [done|]. split; [done|]. split; [done|]. split; [done|]. intros _ _ Hcr Hpc Hcl.
    rewrite Hcr, Hpc, Hcl in Eg. cbn [andb negb] in Eg. lia.
Qed.

(** The connection waits for the kernel: for room if it has output, for input if it has none. *)
Definition quiescent (c : Conn) : Prop :=
  (has_output c = true -> c_can_write c = false)
  /\ (has_output c = false -> c_close_after_write c = false -> c_peer_closed c = false -> c_can_read c = false).

Lemma no_output_idle (c : Conn) : has_output c = false -> out_pending c = 0%nat /\ body_source_active c = false.
Proof. unfold has_output. intros [Hp Hb]%orb_false_elim. apply Nat.ltb_ge in Hp. split; [lia|done]. Qed.

(** No output after [process] without progress: the input buffer was not full. *)
Lemma process_not_full (c c' : Conn) (e e' : env) :
  live c -> process router_ now_us_ draining_ c e = (false, c', e') -> has_output c' = false ->
  c_close_after_write c = false -> ~ max_in_ <= zlen (ib_readable (c_in c)).
Proof.
  intros [Hc Hb Hl] Hp Hno Hcl Hfull. pose proof (process_spec router_ now_us_ draining_ Hrouter c e Hc) as Hs.
  rewrite Hp in Hs. destruct Hs as (_ & Hg & _). apply no_output_idle in Hno as [Hpend Hact].
  assert (body_source_active c = false) as Hbs.
  { destruct (body_source_active c) eqn:E; [|done].
    rewrite process_blocked in Hp by (by rewrite E, orb_true_r). simplify_eq. congruence. }
  assert (out_pending c = 0%nat) as Hp0.
  { destruct Hg as [(t & Ho) Hoff]. unfold out_pending in *. rewrite Ho, Hoff, length_app in Hpend. lia. }
  pose proof (process_full c e Hc Hcl Hbs ltac:(by rewrite Hp0) ltac:(by rewrite Hl) ltac:(by rewrite Hl) Hmax Hb Hfull) as Ht.
  by rewrite Hp in Ht.
Qed.

Lemma process_live (c c' : Conn) (e e' : env) b : live c -> process router_ now_us_ draining_ c e = (b, c', e') -> live c'.
Proof.
  intros [Hc Hb Hl] Hp. pose proof (process_spec router_ now_us_ draining_ Hrouter c e Hc) as Hs.
  rewrite Hp in Hs. destruct Hs as (_ & [_ _ _ (n & Hin) Hlim] & Hok). split; [done| |congruence].
  unfold in_bound in *. rewrite Hin. unfold zlen in *. rewrite length_drop. lia.
Qed.

Lemma drive_round_live fuel (c : Conn) (e : env) :
  live c -> measure c e < Z.of_nat fuel ->
  exists ok pr c' e', drive_round router_ now_us_ draining_ max_in_ fuel c e = Some (ok, pr, c', e')
    /\ live c' /\ measure c' e' <= measure c e /\ (pr = true -> measure c' e' < measure c e)
    /\ (ok = true -> pr = false -> quiescent c').
Proof.
  intros Hlv Hf. unfold drive_round.
  destruct (read_phase_live fuel c e Hlv Hf) as (ok1 & pr1 & c1 & e1 & -> & Hlv1 & Hle1 & Hlt1 & Hend1).
  destruct ok1; cbn [negb]; [|exists false, pr1, c1, e1; split; [done|]; split; [done|]; split; [done|]; split; [done|done]].
  destruct (process router_ now_us_ draining_ c1 e1) as [[did c2] e2] eqn:Ep.
  pose proof (process_live c1 c2 e1 e2 did Hlv1 Ep) as Hlv2.
  destruct (process_measure c1 e1 did c2 e2 (lv_ok c1 Hlv1) Ep) as [Hle2 Hlt2].
  destruct (process_drives router_ now_us_ draining_ Hrouter (fun _ => []) c1 e1 did c2 e2 (lv_ok c1 Hlv1) Ep)
    as (_ & _ & Hpc2 & Hcr2 & Hcw2).
  destruct (c_can_write c2 && has_output c2) eqn:Ew.
  - destruct (do_write_live fuel c2 e2 (pr1 || did) (lv_ok c2 Hlv2)) as (ok & pr & c3 & e3 & Hrun & Hfr & Hb3 & Hle3 & Hpr3 & Hend3).
    { pose proof (measure_budget c2 e2). unfold write_measure. lia. }
    pose proof (do_write_spec now_us_ max_in_ (fun _ => []) fuel c2 e2 (pr1 || did) ok pr c3 e3 (lv_ok c2 Hlv2) Hrun) as [Hw Hok3].
    destruct (do_write_idle fuel c2 e2 _ ok pr c3 e3 Hrun) as [Hm Hidle].
    destruct (write_frame_measure c2 c3 e2 e3 Hfr Hb3) as [Hmle Hmlt].
    exists ok, pr, c3, e3. split; [done|]. split.
    { destruct Hfr as (Hi & _). destruct (wr_in _ _ _ _ _ Hw) as [_ Hpa]. destruct Hlv2. split; [done| |congruence].
      unfold in_bound in *. by rewrite Hi. }
    split; [specialize (Hmle ltac:(lia)); lia|]. split.
    { intros Hp. destruct (Hpr3 Hp) as [Hpd|Hlt]; [|specialize (Hmlt Hlt); lia]. specialize (Hmle ltac:(lia)).
      apply orb_prop in Hpd as [Hpd|Hpd]; [specialize (Hlt1 Hpd)|specialize (Hlt2 Hpd)]; lia. }
    intros Hk Hp. split; [intros Ho; destruct (Hend3 Hk); [done|congruence]|]. intros Hno Hcl Hpc.
    assert (has_output c2 = false) as Hno2.
    { destruct (Hidle Hp) as [->| ->]; [done|]. exact Hno. }
    rewrite Hno2, andb_false_r in Ew. done.
  - exists true, (pr1 || did), c2, e2. split; [done|]. split; [done|]. split; [lia|]. split.
    { intros Hpd. apply orb_prop in Hpd as [Hpd|Hpd]; [specialize (Hlt1 Hpd)|specialize (Hlt2 Hpd)]; lia. }
    intros _ Hp. split; [intros Ho; rewrite Ho, andb_true_r in Ew; done|]. intros Hno Hcl Hpc.
    apply orb_false_elim in Hp as [-> ->]. destruct (c_can_read c2) eqn:E; [|done]. exfalso.
    destruct (c_close_after_write c1) eqn:E1.
    { rewrite process_blocked in Ep by (by rewrite E1). simplify_eq. congruence. }
    eapply (process_not_full c1 c2); [done|exact Ep|done|done|]. apply Hend1; congruence.
Qed.

Lemma discard_live fuel fd k : (budget k < fuel)%nat -> exists k', discard fuel fd k = Some k'.
Proof.
  revert k. induction fuel as [|f IH]; intros k Hf; [lia|]. cbn [discard].
  pose proof (recv_budget k fd 4096) as Hb. destruct (sys_recv k fd 4096) as [[[|b bs]|x] k1]; cbn [fst snd ready no_bytes negb] in Hb; eauto.
  apply IH. lia.
Qed.

Lemma drive_live fuel (c : Conn) (e : env) :
  live c -> measure c e + 1 < Z.of_nat fuel ->
  exists ok c' e', drive router_ now_us_ draining_ max_in_ fuel c e = Some (ok, c', e') /\ live c'
    /\ (ok = true -> (has_output c' = true /\ c_can_write c' = false)
                    \/ (has_output c' = false /\ c_can_read c' = false)).
Proof.
  revert c e. induction fuel as [|f IH]; intros c e Hlv Hf; [unfold measure in Hf|].
  { pose proof (measure_budget c e). pose proof (flag_range (wants_refill c)). unfold measure in *. lia. }
  cbn [drive]. destruct (drive_round_live f c e Hlv ltac:(lia)) as (ok & pr & c1 & e1 & -> & Hlv1 & Hle & Hlt & Hq).
  destruct ok; cbn [negb]; [|exists false, c1, e1; done].
  destruct pr; [apply IH; [done|specialize (Hlt eq_refl); lia]|].
  destruct (Hq eq_refl eq_refl) as [Hw Hr].
  destruct (has_output c1) eqn:Ho; [exists true, c1, e1; auto 6|].
  destruct (c_close_after_write c1) eqn:Hcl.
  - destruct (discard_live f (c_fd c1) (sys_shutdown (e_kern e1) (c_fd c1))) as [k ->]; [|by exists false, c1, (set_kern k e1)].
    pose proof (shutdown_budget (e_kern e1) (c_fd c1)). pose proof (measure_budget c1 e1).
    pose proof (flag_range (wants_refill c1)). unfold e_budget in *. lia.
  - exists (negb (c_peer_closed c1)), c1, e1. split; [done|]. split; [done|]. destruct (c_peer_closed c1) eqn:Hpc; [done|].
    intros _. right. auto.
Qed.

End Drive.
End Liveness.
