(* ===== verification/Ownership.v ===== *)
(** * Who owns which descriptor

    [opened k] is the set of descriptors the process has open in the state
    [k] of the kernel; the program never reads it.  [holds R l k] says that
    the descriptors [l] are open, distinct and owned by the component at
    hand, and that everything else that is open is [R]: it belongs to the
    rest of the process.  The kernel's [close] is specified for open
    descriptors only, so a proof that a component keeps [R] shows that it
    closes nothing twice and nothing it does not own. *)

From S2P Require Import Prelude Headers RequestParser Numbers ParserFacts Response ByteBuffer Router Metrics Connection.
From S2P Require Import ConnectionFacts.

Open Scope Z_scope.

(** ** The view of the kernel *)

Class FdView (K : Type) := opened : K -> gset Z.

Class FdLaws (K : Type) `{Kernel K} `{FdView K} := {
  close_opened : forall k fd, fd ∈ opened k -> opened (sys_close k fd) = opened k ∖ {[fd]};
  recv_opened : forall k fd n, opened (sys_recv k fd n).2 = opened k;
  send_opened : forall k fd bs, opened (sys_send k fd bs).2 = opened k;
  sendfile_opened : forall k fd f off n, opened (sys_sendfile k fd f off n).2 = opened k;
  shutdown_opened : forall k fd, opened (sys_shutdown k fd) = opened k;
  mono_opened : forall k, opened (sys_mono_us k).2 = opened k;
  time_opened : forall k, opened (sys_time k).2 = opened k }.

(** The descriptor of an owner, if it has one. *)
Definition owned_fd (fd : Z) : list Z := if fd_valid fd then [fd] else [].

Definition holds {K} `{FdView K} (R : gset Z) (l : list Z) (k : K) : Prop :=
  NoDup l /\ (list_to_set l : gset Z) ## R /\ opened k = R ∪ list_to_set l.

#[export] Instance holds_perm {K} `{FdView K} : Proper (eq ==> (≡ₚ) ==> eq ==> iff) (holds (K := K)).
Proof. intros R ? <- l l' Hl k ? <-. unfold holds. by rewrite Hl. Qed.

Section Holds.
Context {K : Type} `{FdView K}.
Implicit Types (R : gset Z) (l : list Z) (k : K).

(** Framing: what one part of a list of owners does, it does beside the others. *)
Lemma holds_app R l1 l2 k :
  holds R (l1 ++ l2) k <-> holds (R ∪ list_to_set l2) l1 k /\ NoDup l2 /\ (list_to_set l2 : gset Z) ## R.
Proof.
  unfold holds. rewrite NoDup_app, list_to_set_app_L. split.
  - intros ((Hn1 & Hd & Hn2) & Hr & Ho). split; [|split; [done|set_solver]].
    split; [done|]. split; [set_solver|]. rewrite Ho. set_solver.
  - intros ((Hn1 & Hd & Ho) & Hn2 & Hr). split; [|split; [set_solver|rewrite Ho; set_solver]].
    split; [done|]. split; [|done]. intros x Hx1 Hx2. set_solver.
Qed.

Lemma holds_same R l k k' : opened k' = opened k -> holds R l k -> holds R l k'.
Proof. intros E. unfold holds. by rewrite E. Qed.

Lemma holds_removed R fd l k k' : opened k' = opened k ∖ {[fd]} -> holds R (fd :: l) k -> holds R l k'.
Proof.
  intros E (Hn & Hd & Ho). apply NoDup_cons in Hn as [Hfd Hn]. cbn [list_to_set] in *.
  split; [done|]. split; [set_solver|]. rewrite E, Ho. set_solver.
Qed.

Lemma holds_open R fd l k k' :
  holds R l k -> fd ∉ opened k -> opened k' = opened k ∪ {[fd]} -> holds R (fd :: l) k'.
Proof.
  intros (Hn & Hd & Ho) Hfd E. rewrite Ho in Hfd. split; [|split].
  - apply NoDup_cons. split; [|done]. set_solver.
  - cbn [list_to_set]. set_solver.
  - rewrite E, Ho. cbn [list_to_set]. set_solver.
Qed.

Lemma holds_NoDup R l k : holds R l k -> NoDup l.
Proof. by intros [? _]. Qed.

Lemma holds_fresh R l k fd : holds R l k -> fd ∉ opened k -> fd ∉ l.
Proof. intros (_ & _ & Ho) Hfd Hl. apply Hfd. rewrite Ho. set_solver. Qed.

End Holds.

Section Close.
Context {K : Type} `{FdLaws K}.
Implicit Types (R : gset Z) (l : list Z) (k : K).

Lemma holds_close R fd l k : holds R (fd :: l) k -> holds R l (sys_close k fd).
Proof. intros Hh. eapply holds_removed; [|exact Hh]. apply close_opened. destruct Hh as (_ & _ & ->). set_solver. Qed.

(** Closing an owner that may be empty. *)
Lemma holds_close_owned R fd l k :
  holds R (owned_fd fd ++ l) k -> holds R l (if fd_valid fd then sys_close k fd else k).
Proof. unfold owned_fd. destruct (fd_valid fd); [|done]. apply holds_close. Qed.

End Close.

(** A handler, called with an empty response, owns what it returns and nothing else. *)
Definition handler_fds {K} `{FdView K} (h : Handler K) : Prop :=
  forall k req, match h k req Response_new with
  | (inl res, k') => forall R l, holds R l k -> holds R (owned_fd (file res) ++ l) k'
  | (inr _, k') => forall R l, holds R l k -> holds R l k'
  end.

Definition router_fds {K} `{FdView K} (router : Router K) : Prop := Forall (fun r => handler_fds (rt_handler r)) router.

Lemma router_fds_dispatch {K} `{FdView K} (router : Router K) k req :
  router_fds router ->
  forall R l, holds R l k ->
  holds R (owned_fd (file (Router.dispatch router k req Response_new).1) ++ l) (Router.dispatch router k req Response_new).2.
Proof.
  intros Hr R l Hl. unfold Router.dispatch. rewrite dispatch_loop_spec. destruct (List.find _ router) as [r|] eqn:E.
  - apply List.find_some in E as [Hin _]. rewrite <- list_elem_of_In in Hin.
    unfold router_fds in Hr. rewrite Forall_forall in Hr. specialize (Hr r Hin k req). unfold run_handler.
    destruct (rt_handler r k req Response_new) as [[res|what] k']; by apply Hr.
  - cbn [fst snd]. unfold no_route_response. by destruct (fold_left _ _ _).
Qed.

(** ** One step of a connection *)

(** The counters the functions on a connection do not touch. *)
Definition loop_counter (f : Field.t) : bool :=
  match f with
  | Field.connections_accepted | Field.connections_closed | Field.connections_timed_out | Field.accept_errors
  | Field.loop_wakeups | Field.loop_events => true
  | _ => false
  end.

(** Once the head of the request is complete it stays so, unless parsing fails. *)
Definition past_head (p : RequestParser) : bool := headers_complete p || failed p.

Lemma parse_chunk_size_past line p : past_head p = true -> past_head (parse_chunk_size line p).1 = true.
Proof. intros Hp. unfold parse_chunk_size. by repeat cases_goal. Qed.

Lemma parse_field_line_past line ih p : past_head p = true -> past_head (parse_field_line line ih p).1 = true.
Proof. intros Hp. unfold parse_field_line. by repeat cases_goal. Qed.

Lemma feed_round_past p rest : past_head p = true -> past_head (r_parser (feed_round p rest)) = true.
Proof.
  intros Hp. unfold feed_round. destruct (state_ p) eqn:Es;
    try (by unfold past_head, headers_complete, failed in Hp; rewrite Es in Hp); try exact Hp.
  - unfold feed_body. by repeat cases_goal.
  - unfold feed_chunk_size. destruct (find_sub _ _); [|by repeat cases_goal]. cases_goal; [done|].
    pose proof (parse_chunk_size_past (take n rest) p Hp). destruct (parse_chunk_size _ p) as [p1 []]; done.
  - unfold feed_body. by repeat cases_goal.
  - unfold feed_chunk_data_end. by repeat cases_goal.
  - unfold feed_headers. destruct (find_sub _ _); [|by repeat cases_goal]. cases_goal; [done|]. cases_goal; [done|].
    cases_goal; [done|]. match goal with |- context [parse_field_line ?l ?ih ?p0] =>
      pose proof (parse_field_line_past l ih p0 Hp); destruct (parse_field_line l ih p0) as [p1 []]; done end.
Qed.

Lemma feed_loop_past fuel p data n r :
  past_head p = true -> feed_loop fuel p data n = Some r -> past_head r.1 = true.
Proof.
  revert p n. induction fuel as [|f IH]; intros p n Hp; cbn [feed_loop]; [done|].
  pose proof (feed_round_past p (drop n data) Hp) as Hr. destruct (r_continue _); [by apply IH|by intros [= <-]].
Qed.

Lemma feed_past p data : past_head p = true -> past_head (feed p data).1 = true.
Proof.
  intros Hp. unfold feed. destruct (feed_loop _ _ _ _) as [r|] eqn:E; [|done]. by eapply feed_loop_past.
Qed.

Section Steps.
Context {T : Type} `{InBuffer T}.
Context {K : Type} `{Kernel K} `{!KernelLaws K} `{!FdView K} `{!FdLaws K}.
Context (now_us_ : Z).

#[local] Abbreviation Conn := (Connection T).
#[local] Abbreviation env := (Env K).

Definition sent_bytes (e : env) : Z := counter (e_metrics e) Field.bytes_sent.

(** What the functions on a connection do to everything around it: the socket
    stays the same; the file of the response is the only descriptor that
    changes hands; the counter of bytes sent follows the socket; activity is
    dated now; and the clock of the request head keeps running until the
    head is complete. *)
Record steps (c : Conn) (e : env) (c' : Conn) (e' : env) : Prop := {
  st_fd : c_fd c' = c_fd c;
  st_fds : forall R l, holds R (owned_fd (c_file c) ++ l) (e_kern e) -> holds R (owned_fd (c_file c') ++ l) (e_kern e');
  st_counts : forall f, loop_counter f = true -> counter (e_metrics e') f = counter (e_metrics e) f;
  st_sent : exists q, wire (e_kern e') (c_fd c) = wire (e_kern e) (c_fd c) ++ q
    /\ u64 (sent_bytes e') = u64 (sent_bytes e + zlen q);
  st_active : c_last_active_us c' = c_last_active_us c \/ c_last_active_us c' = now_us_;
  st_start : c_request_start_us c' = 0 \/ c_request_start_us c' = now_us_
    \/ (c_request_start_us c' = c_request_start_us c
        /\ (headers_complete (c_parser c) = true -> headers_complete (c_parser c') = true)) }.

Lemma steps_refl c e : steps c e c e.
Proof. split; auto. exists []. rewrite app_nil_r, Z.add_0_r. auto. Qed.

Lemma steps_trans c e c1 e1 c2 e2 : steps c e c1 e1 -> steps c1 e1 c2 e2 -> steps c e c2 e2.
Proof.
  intros [Hf1 Hh1 Hc1 (q1 & Hw1 & Hs1) Ha1 Ht1] [Hf2 Hh2 Hc2 (q2 & Hw2 & Hs2) Ha2 Ht2]. split.
  - congruence.
  - auto.
  - intros f Hf. by rewrite Hc2, Hc1.
  - exists (q1 ++ q2). rewrite Hf1 in Hw2. rewrite Hw2, Hw1, <- app_assoc. split; [done|].
    rewrite Hs2, <- u64_mod_add, Hs1, u64_mod_add, zlen_app. f_equal. lia.
  - destruct Ha2 as [->|]; auto.
  - destruct Ht2 as [?|[?|[-> Hm2]]]; auto. destruct Ht1 as [?|[?|[-> Hm1]]]; auto 6.
Qed.

(** A step that leaves the socket and the counters alone. *)
Lemma steps_quiet c e c' e' :
  c_fd c' = c_fd c ->
  (forall R l, holds R (owned_fd (c_file c) ++ l) (e_kern e) -> holds R (owned_fd (c_file c') ++ l) (e_kern e')) ->
  (forall f, loop_counter f || bool_decide (f = Field.bytes_sent) = true -> counter (e_metrics e') f = counter (e_metrics e) f) ->
  wire (e_kern e') (c_fd c) = wire (e_kern e) (c_fd c) ->
  c_last_active_us c' = c_last_active_us c ->
  (c_request_start_us c' = 0 \/ (c_request_start_us c' = c_request_start_us c /\ c_parser c' = c_parser c)) ->
  steps c e c' e'.
Proof.
  intros Hf Hh Hc Hw Ha Ht. split; auto.
  - intros f Hl. apply Hc. by rewrite Hl.
  - exists []. unfold sent_bytes. rewrite Hw, app_nil_r, Hc, Z.add_0_r by done. auto.
  - destruct Ht as [?|[? ->]]; auto.
Qed.

(** ** Responses *)

(** The environment changes only in what [steps_quiet] allows. *)
Record env_quiet (e e' : env) : Prop := {
  eq_opened : opened (e_kern e') = opened (e_kern e);
  eq_counts : forall f, loop_counter f || bool_decide (f = Field.bytes_sent) = true ->
    counter (e_metrics e') f = counter (e_metrics e) f;
  eq_wire : forall fd, wire (e_kern e') fd = wire (e_kern e) fd }.

#[export] Instance env_quiet_preorder : PreOrder env_quiet.
Proof.
  split; [by intros e; split|]. intros a b c [Ho1 Hc1 Hw1] [Ho2 Hc2 Hw2].
  split; [congruence|intros f Hf; by rewrite Hc2, Hc1|intros fd; by rewrite Hw2].
Qed.

Lemma count_quiet f n (e : env) :
  loop_counter f || bool_decide (f = Field.bytes_sent) = false -> env_quiet e (count f n e).
Proof.
  intros Hf. split; [done| |done]. intros g Hg. cbn [e_metrics count counter bump]. rewrite decide_False; [done|].
  intros ->. by rewrite Hf in Hg.
Qed.

Lemma get_date_quiet (e : env) : env_quiet e (get_date e).2.
Proof.
  pose proof (get_date_wire e) as Hw. unfold get_date in *. pose proof (time_opened (e_kern e)) as Ho.
  destruct (sys_time (e_kern e)) as [now k]. by destruct (DateCache_get _ _).
Qed.

Lemma record_response_quiet (c : Conn) s (e : env) :
  (record_response c s e).1 = set_request_start 0 c /\ env_quiet e (record_response c s e).2.
Proof.
  unfold record_response. split; [done|]. cbn [snd].
  match goal with |- context [if negb _ then _ else ?x] => set (e1 := x) end.
  assert (env_quiet e e1) as He1.
  { subst e1. etrans; [by apply (count_quiet Field.requests 1)|]. destruct (_ && _); [by split|done]. }
  destruct (negb _); [|done]. etrans; [exact He1|]. clearbody e1.
  pose proof (mono_opened (e_kern e1)) as Ho. pose proof (fun fd => mono_wire (e_kern e1) fd) as Hw.
  destruct (sys_mono_us (e_kern e1)) as [now k]. split; [done| |done]. intros f Hf. cbn [e_metrics observe_latency_us bump counter bump_bucket].
  rewrite decide_False; [done|]. by intros ->.
Qed.

(** The step of [dispatch] that hands the body of the response to the connection. *)
Lemma quiet_step (c c' : Conn) (e e' : env) :
  c_fd c' = c_fd c -> c_file c' = c_file c -> env_quiet e e' -> c_last_active_us c' = c_last_active_us c ->
  (c_request_start_us c' = 0 \/ (c_request_start_us c' = c_request_start_us c /\ c_parser c' = c_parser c)) -> steps c e c' e'.
Proof.
  intros Hf Hfile [Ho Hc Hw] Ha Ht. apply steps_quiet; try done. intros R l. rewrite Hfile. by apply holds_same.
Qed.

Context (router_ : Router K) (draining_ : bool).
Context (Hrouter : router_ok router_) (Hfds : router_fds router_).

(** The end of [dispatch]: what the response still owns is closed. *)
Lemma close_owned_step (fd : Z) (e : env) R l :
  holds R (owned_fd fd ++ l) (e_kern e) ->
  holds R l (e_kern (if fd_valid fd then set_kern (sys_close (e_kern e) fd) e else e)).
Proof. intros Hh. apply holds_close_owned in Hh. by destruct (fd_valid fd). Qed.

Lemma dispatch_steps (c : Conn) req (e : env) :
  let '(c', e') := dispatch router_ draining_ c req e in steps c e c' e' /\ c_request_start_us c' = 0.
Proof.
  unfold dispatch.
  destruct (router_ok_dispatch router_ (e_kern e) req Hrouter) as [_ Hw].
  pose proof (router_fds_dispatch router_ (e_kern e) req Hfds) as Hh.
  destruct (Router.dispatch router_ (e_kern e) req Response_new) as [res k]. cbn [fst snd] in *.
  pose proof (get_date_quiet (set_kern k e)) as [Ho Hc Hwd]. destruct (get_date (set_kern k e)) as [date e1]. cbn [snd] in *.
  destruct (write_head _ _ _) as [out fr]. set (c2 := if negb _ || _ then _ else _).
  assert (c_fd c2 = c_fd c /\ c_file c2 = c_file c /\ c_last_active_us c2 = c_last_active_us c) as (Hf2 & Hfile2 & Ha2).
  { subst c2. by destruct (_ || _). }
  clearbody c2.
  match goal with |- context [if ?b then _ else (c2, e1, file res)] => set (step := if b then _ else (c2, e1, file res)) end.
  assert (let '(c3, e3, f) := step in c_fd c3 = c_fd c /\ c_last_active_us c3 = c_last_active_us c
    /\ (forall fd, wire (e_kern e3) fd = wire (e_kern e) fd) /\ e_metrics e3 = e_metrics e1
    /\ (forall R l, holds R (owned_fd (c_file c) ++ l) (e_kern e) -> holds R (owned_fd f ++ owned_fd (c_file c3) ++ l) (e_kern e3))) as Hstep.
  { assert (forall fd, wire (e_kern e1) fd = wire (e_kern e) fd) as Hw1 by (intros fd; by rewrite Hwd, Hw).
    assert (forall R l, holds R (owned_fd (c_file c) ++ l) (e_kern e) ->
      holds R (owned_fd (file res) ++ owned_fd (c_file c) ++ l) (e_kern e1)) as Hh1.
    { intros R l Hl. eapply holds_same; [exact Ho|]. by apply Hh. }
    subst step. destruct (negb _ && negb _); [|by rewrite Hfile2].
    destruct (fd_valid (file res)) eqn:Ev; [|destruct (producer res); conn_simpl; by rewrite Hfile2].
    destruct (file_length res >? 0); [|by rewrite Hfile2].
    conn_simpl. rewrite Hf2, Ha2, Hfile2. split; [done|]. split; [done|].
    split; [intros fd; rewrite close_if_wire; apply Hw1|]. split; [by destruct (fd_valid (c_file c))|].
    intros R l Hl. cbn [owned_fd fd_valid Z.geb Z.compare app]. change (owned_fd (-1)) with (@nil Z). cbn [app].
    apply close_owned_step. rewrite Permutation_app_swap_app. by apply Hh1. }
  clearbody step. destruct step as [[c3 e3] f]. destruct Hstep as (Hf3 & Ha3 & Hw3 & Hm3 & Hh3).
  destruct (record_response_quiet c3 (status res) e3) as [Hc4 [Ho4 Hm4 Hw4]].
  destruct (record_response c3 (status res) e3) as [c4 e4]. cbn [fst snd] in *. subst c4. split; [|done].
  apply steps_quiet; conn_simpl; [done| | | |done|by left].
  - intros R l Hl. apply close_owned_step. eapply holds_same; [exact Ho4|]. by apply Hh3.
  - intros g Hg. rewrite <- (Hc g Hg), <- Hm3, <- (Hm4 g Hg). by destruct (fd_valid f).
  - by rewrite close_if_wire, Hw4, Hw3.
Qed.

Lemma queue_error_steps (c : Conn) s d (e : env) :
  let '(c', e') := queue_error c s d e in steps c e c' e' /\ c_request_start_us c' = 0.
Proof.
  unfold queue_error. pose proof (get_date_quiet e) as Hd. destruct (get_date e) as [date e1]. cbn [snd] in Hd.
  destruct (write_head _ _ _) as [out fr].
  match goal with |- context [record_response ?c0 ?st ?e0] =>
    destruct (record_response_quiet c0 st e0) as [Hc Hq]; destruct (record_response c0 st e0) as [c4 e4] end.
  cbn [fst snd] in *. subst c4. split; [|done]. apply quiet_step; try done; [by etrans|by left].
Qed.

(** ** Parsing *)

(** A step that ends a request, from a connection with another parser. *)
Lemma steps_restart (c c1 c' : Conn) (e e' : env) :
  c_fd c1 = c_fd c -> c_file c1 = c_file c -> c_last_active_us c1 = c_last_active_us c ->
  steps c1 e c' e' -> c_request_start_us c' = 0 -> steps c e c' e'.
Proof.
  intros Hf Hfile Ha [Hf1 Hh1 Hc1 Hs1 Ha1 _] Hz. split; auto.
  - congruence.
  - intros R l. rewrite <- Hfile. apply Hh1.
  - by rewrite <- Hf.
  - by rewrite <- Ha.
Qed.

(** A step after the input has been handed to the parser. *)
Lemma steps_fed (c c2 c' : Conn) (e e' : env) :
  c_fd c2 = c_fd c -> c_file c2 = c_file c -> c_last_active_us c2 = c_last_active_us c ->
  c_request_start_us c2 = (if c_request_start_us c =? 0 then now_us_ else c_request_start_us c) ->
  (past_head (c_parser c) = true -> past_head (c_parser c2) = true) ->
  steps c2 e c' e' -> c_request_start_us c' = 0 \/ failed (c_parser c2) = false -> steps c e c' e'.
Proof.
  intros Hf Hfile Ha Hst Hp Hs [Hz|Hnf].
  - by eapply steps_restart.
  - refine (steps_trans _ _ _ _ _ _ _ Hs). split; auto.
    + intros R l. by rewrite Hfile.
    + exists []. rewrite app_nil_r, Z.add_0_r. auto.
    + rewrite Hst. destruct (c_request_start_us c =? 0); [auto|]. right; right. split; [done|]. intros Hc.
      unfold past_head in Hp. rewrite Hnf, Hc, orb_false_r in Hp. by apply Hp.
Qed.

Lemma process_round_steps (c : Conn) (e : env) (progress : bool) :
  match process_round router_ now_us_ draining_ c e progress with
  | inl (c', e') => steps c e c' e'
  | inr (_, c', e') => steps c e c' e'
  end.
Proof.
  unfold process_round. destruct (_ || _ || _); [apply steps_refl|].
  destruct (ib_readable (c_in c)) as [|b data] eqn:Ed; [apply steps_refl|]. rewrite <- Ed. clear Ed.
  set (c1 := if (c_request_start_us c =? 0) then set_request_start now_us_ c else c).
  assert (c_parser c1 = c_parser c /\ c_fd c1 = c_fd c /\ c_file c1 = c_file c /\ c_last_active_us c1 = c_last_active_us c
    /\ c_request_start_us c1 = (if c_request_start_us c =? 0 then now_us_ else c_request_start_us c)) as (Hp1 & Hf1 & Hfi1 & Ha1 & Hs1).
  { subst c1. by destruct (c_request_start_us c =? 0). }
  clearbody c1. rewrite Hp1. pose proof (feed_past (c_parser c) (ib_readable (c_in c))) as Hpast.
  destruct (feed (c_parser c) (ib_readable (c_in c))) as [p used]. cbn [fst] in Hpast.
  pose proof (fun c' e' => steps_fed c (set_input (ib_consume (c_in c1) (Z.of_nat used)) p c1) c' e e' Hf1 Hfi1 Ha1 Hs1 Hpast) as Hvia.
  set (c2 := set_input _ p c1) in *. cbn [c_parser set_input] in Hvia. change (c_parser c2) with p in Hvia.
  destruct (failed p) eqn:Ef.
  - pose proof (queue_error_steps c2 (status_for (error_ p)) (error_detail_ p) (count Field.parse_errors 1 e)) as Hq.
    destruct (queue_error _ _ _ _) as [c3 e3]. destruct Hq as [Hq Hz]. apply Hvia; [|by left].
    eapply steps_trans; [|exact Hq]. apply quiet_step; auto. by apply count_quiet.
  - match goal with |- context [if ?b then (set_continue_sent true ?x, true) else _] =>
      set (c3 := if b then set_continue_sent true x else c2); set (pr := if b then true else progress || negb (used =? 0)%nat);
      assert ((if b then (set_continue_sent true x, true) else (c2, progress || negb (used =? 0)%nat)) = (c3, pr)) as ->
        by (by subst c3 pr; destruct b) end.
    assert (steps c2 e c3 e) as Hs3 by (subst c3; destruct (_ && _); [by apply quiet_step; auto|apply steps_refl]).
    destruct (done p); cbn [negb]; [|apply Hvia; auto].
    cbn [take_request]. pose proof (dispatch_steps (set_input (c_in c3) (reset p) c3) (req_ p) e) as Hd.
    destruct (dispatch _ _ _ _ _) as [c4 e4]. destruct Hd as [Hd Hz]. apply Hvia; [|by left].
    eapply steps_trans; [exact Hs3|]. apply (steps_restart c3 (set_input (c_in c3) (reset p) c3)); try done.
    eapply steps_trans; [exact Hd|]. by apply quiet_step; auto.
Qed.

Lemma process_loop_steps fuel (c : Conn) (e : env) progress b c' e' :
  process_loop router_ now_us_ draining_ fuel c e progress = Some (b, c', e') -> steps c e c' e'.
Proof.
  revert c e progress. induction fuel as [|f IH]; intros c e progress; cbn [process_loop]; [done|].
  pose proof (process_round_steps c e progress) as Hr. destruct (process_round _ _ _ _ _ _) as [[c1 e1]|[[b1 c1] e1]].
  - intros Hl. eapply steps_trans; [exact Hr|]. by eapply IH.
  - by intros [= <- <- <-].
Qed.

Lemma process_steps (c : Conn) (e : env) :
  let '(_, c', e') := process router_ now_us_ draining_ c e in steps c e c' e'.
Proof.
  unfold process. destruct (process_loop _ _ _ _ _ _ _) as [[[b c'] e']|] eqn:E; [by eapply process_loop_steps|apply steps_refl].
Qed.

(** ** Reading and writing *)

(** A call that changes neither the descriptors nor what was sent. *)
Lemma kern_quiet k (e : env) :
  opened k = opened (e_kern e) -> (forall fd, wire k fd = wire (e_kern e) fd) -> env_quiet e (set_kern k e).
Proof. intros Ho Hw. by split. Qed.

Lemma recv_quiet fd n (e : env) : env_quiet e (set_kern (sys_recv (e_kern e) fd n).2 e).
Proof. apply kern_quiet; [apply recv_opened|intros; apply recv_wire]. Qed.

(** A step dated now. *)
Lemma active_step (c c' : Conn) (e e' : env) :
  c_fd c' = c_fd c -> c_file c' = c_file c -> env_quiet e e' -> c_last_active_us c' = now_us_ ->
  c_request_start_us c' = c_request_start_us c -> c_parser c' = c_parser c -> steps c e c' e'.
Proof.
  intros Hf Hfile [Ho Hc Hw] Ha Ht Hp. split; auto.
  - intros R l. rewrite Hfile. by apply holds_same.
  - intros f Hl. apply Hc. by rewrite Hl.
  - exists []. unfold sent_bytes. rewrite Hw, app_nil_r, Hc, Z.add_0_r by done. auto.
  - rewrite Ht, Hp. auto.
Qed.

Context (max_in_ : Z).

Lemma do_read_steps fuel (c : Conn) (e : env) progress ok pr c' e' :
  do_read now_us_ max_in_ fuel c e progress = Some (ok, pr, c', e') -> steps c e c' e'.
Proof.
  revert c e progress. induction fuel as [|f IH]; intros c e progress; cbn [do_read];
    (destruct (ib_size (c_in c) <? max_in_); [|intros [= _ _ <- <-]; apply steps_refl]); [done|].
  pose proof (recv_quiet (c_fd c) kReadSize e) as Hq.
  destruct (sys_recv (e_kern e) (c_fd c) kReadSize) as [[[|b bs]|x] k]; cbn [snd] in Hq.
  - intros [= _ _ <- <-]. by apply quiet_step; auto.
  - destruct (ib_receive _ _ _) as [i|]; [|done]. intros Hr. eapply steps_trans; [|by eapply IH].
    apply active_step; try done. etrans; [exact Hq|by apply count_quiet].
  - destruct x; [intros Hr; eapply steps_trans; [|by eapply IH]|intros [= _ _ <- <-]..]; by apply quiet_step; auto.
Qed.

(** Refilling touches the output and the stream only. *)
Definition refills (c c' : Conn) : Prop :=
  c_fd c' = c_fd c /\ c_file c' = c_file c /\ c_parser c' = c_parser c
  /\ c_last_active_us c' = c_last_active_us c /\ c_request_start_us c' = c_request_start_us c.

Lemma refill_round_frame (c : Conn) m c' : refill_round c = Some (m, c') -> refills c c'.
Proof.
  unfold refill_round, refills. destruct (c_producer c) as [pr|]; [|done].
  destruct (produce _ _ _) as [[[[more piece] tr] pr']|]; [|done]. destruct (more && _); [done|]. conn_simpl.
  destruct (c_stream_sized c); [destruct (_ >? _); [done|]|destruct (c_chunked c)]; by intros [= _ <-].
Qed.

Lemma refill_loop_frame f (c : Conn) m m' c' : refill_loop f c m = Some (m', c') -> refills c c'.
Proof.
  revert c m. induction f as [|f IH]; intros c m; cbn [refill_loop]; (destruct (m && _); [|by intros [= _ <-]]); [done|].
  destruct (refill_round c) as [[m1 c1]|] eqn:Er; [|done]. intros Hl. apply IH in Hl. apply refill_round_frame in Er.
  unfold refills in *. intuition congruence.
Qed.

Lemma refill_steps (c c' : Conn) (e : env) : refill_from_producer c = Some c' -> steps c e c' e.
Proof.
  unfold refill_from_producer. destruct (refill_loop _ c true) as [[m c1]|] eqn:E; [|done]. apply refill_loop_frame in E.
  intros [= <-]. destruct E as (Hf & Hfi & Hp & Ha & Hs).
  assert (refills c1 (if m then c1 else finish_stream c1)) as (Hf2 & Hfi2 & Hp2 & Ha2 & Hs2).
  { destruct m; [done|]. unfold finish_stream. conn_simpl. unfold refills. destruct (c_chunked c1); conn_simpl; by destruct (_ && _). }
  apply quiet_step; [congruence|congruence|reflexivity|congruence|right; split; congruence].
Qed.

(** Bytes the socket accepted, counted. *)
Lemma sent_step (c c' : Conn) (e e' : env) q :
  c_fd c' = c_fd c ->
  (forall R l, holds R (owned_fd (c_file c) ++ l) (e_kern e) -> holds R (owned_fd (c_file c') ++ l) (e_kern e')) ->
  wire (e_kern e') (c_fd c) = wire (e_kern e) (c_fd c) ++ q ->
  (forall f, loop_counter f = true -> counter (e_metrics e') f = counter (e_metrics e) f) ->
  sent_bytes e' = u64 (sent_bytes e + zlen q) -> c_last_active_us c' = now_us_ ->
  c_request_start_us c' = c_request_start_us c -> c_parser c' = c_parser c -> steps c e c' e'.
Proof.
  intros Hf Hh Hw Hc Hs Ha Ht Hp. split; auto.
  - exists q. split; [done|]. rewrite Hs. apply Zmod_mod.
  - rewrite Ht, Hp. auto.
Qed.

Lemma after_send_frame n (c : Conn) :
  c_fd (after_send n c) = c_fd c /\ c_file (after_send n c) = c_file c /\ c_parser (after_send n c) = c_parser c
  /\ c_last_active_us (after_send n c) = c_last_active_us c /\ c_request_start_us (after_send n c) = c_request_start_us c.
Proof. unfold after_send. by repeat case_match. Qed.

Lemma write_round_steps (c : Conn) (e : env) progress :
  let '(_, _, c', e') := write_round now_us_ c e progress in steps c e c' e'.
Proof.
  unfold write_round. destruct (0 <? out_pending c)%nat.
  { pose proof (send_opened (e_kern e) (c_fd c) (drop (c_out_off c) (c_out c))) as Ho.
    pose proof (fun x k' => send_error (e_kern e) (c_fd c) (drop (c_out_off c) (c_out c)) x k') as Herr.
    pose proof (fun x k' => send_spec (e_kern e) (c_fd c) (drop (c_out_off c) (c_out c)) x k') as Hok.
    destruct (sys_send _ _ _) as [[n|x] k]; cbn [snd] in Ho.
    2:{ specialize (Herr x k eq_refl). destruct x; apply steps_quiet; conn_simpl; auto; intros R l; by apply holds_same. }
    destruct (Hok n k eq_refl) as [Hn Hw]. pose proof (after_send_frame (Z.to_nat n) (set_last_active now_us_ c)) as Hfr.
    set (c1 := after_send _ _) in *. clearbody c1. conn_simpl. destruct Hfr as (Hf1 & Hfi1 & Hp1 & Ha1 & Hs1).
    assert (forall c', c_fd c' = c_fd c1 -> c_file c' = c_file c1 -> c_parser c' = c_parser c1 ->
      c_last_active_us c' = c_last_active_us c1 -> c_request_start_us c' = c_request_start_us c1 ->
      steps c e c' (count Field.bytes_sent n (set_kern k e))) as Hgo.
    { rewrite Hf1, Hfi1, Hp1, Ha1, Hs1. intros c' Hf Hfi Hp Ha Hs.
      apply (sent_step c c' e _ (take (Z.to_nat n) (drop (c_out_off c) (c_out c))) Hf); conn_simpl; [|exact Hw| |  |done..].
      - rewrite Hfi. intros R l. by apply holds_same.
      - intros f Hf'. cbn [counter bump]. rewrite decide_False; [done|]. by intros ->.
      - unfold sent_bytes. cbn [count e_metrics counter bump set_kern]. rewrite decide_True by done. do 2 f_equal.
        unfold zlen in *. rewrite length_take. lia. }
    destruct (_ <? _)%nat; by apply Hgo. }
  destruct (fd_valid (c_file c)) eqn:Ev; [|destruct (c_producer c); [|apply steps_refl];
    destruct (refill_from_producer c) as [c'|] eqn:E; [by apply refill_steps|apply steps_refl]].
  set (want := Z.min _ _).
  pose proof (sendfile_opened (e_kern e) (c_fd c) (c_file c) (c_file_off c) want) as Ho.
  pose proof (fun x k' => sendfile_error (e_kern e) (c_fd c) (c_file c) (c_file_off c) want x k') as Herr.
  pose proof (fun x k' => sendfile_spec (e_kern e) (c_fd c) (c_file c) (c_file_off c) want x k') as Hok.
  destruct (sys_sendfile _ _ _ _ _) as [[bs|x] k]; cbn [snd] in Ho.
  2:{ specialize (Herr x k eq_refl). destruct x; apply steps_quiet; conn_simpl; auto; intros R l; by apply holds_same. }
  destruct (Hok bs k eq_refl) as [_ Hw]. destruct bs as [|b bs].
  { rewrite app_nil_r in Hw. apply steps_quiet; conn_simpl; auto. intros R l; by apply holds_same. }
  set (q := b :: bs) in *. clearbody q.
  assert (forall R l, holds R (owned_fd (c_file c) ++ l) (e_kern e) -> holds R (owned_fd (c_file c) ++ l) k) as Hh.
  { intros R l. by apply holds_same. }
  set (m' := bump Field.bytes_sendfile (zlen q) (bump Field.bytes_sent (zlen q) (e_metrics e))).
  assert (forall f, loop_counter f = true -> counter m' f = counter (e_metrics e) f) as Hm.
  { intros f Hf. subst m'. cbn [counter bump]. by rewrite !decide_False by (by intros ->). }
  assert (counter m' Field.bytes_sent = u64 (sent_bytes e + zlen q)) as Hs by (by subst m'; cbn [counter bump]).
  cbn zeta. conn_simpl.
  destruct (u64 (c_file_left c - zlen q) =? 0).
  - apply (sent_step c _ e _ q); conn_simpl; [done| |by rewrite close_wire|exact Hm|exact Hs|done..].
    intros R l Hl. apply Hh in Hl. apply holds_close_owned in Hl. by rewrite Ev in Hl.
  - destruct (zlen q <? want); apply (sent_step c _ e _ q); conn_simpl; [done|exact Hh|exact Hw|exact Hm|exact Hs|done..].
Qed.

Lemma do_write_steps fuel (c : Conn) (e : env) progress ok pr c' e' :
  do_write now_us_ fuel c e progress = Some (ok, pr, c', e') -> steps c e c' e'.
Proof.
  revert c e progress. induction fuel as [|f IH]; intros c e progress; cbn [do_write];
    (destruct (c_can_write c); [|intros [= _ _ <- <-]; apply steps_refl]); [done|].
  pose proof (write_round_steps c e progress) as Hr. destruct (write_round _ _ _ _) as [[[[] p1] c1] e1].
  - intros Hl. eapply steps_trans; [exact Hr|by eapply IH].
  - by intros [= _ _ <- <-].
  - by intros [= _ _ <- <-].
Qed.

(** ** Driving a connection *)

Lemma discard_quiet fuel fd (e : env) k k' :
  env_quiet e (set_kern k e) -> discard fuel fd k = Some k' -> env_quiet e (set_kern k' e).
Proof.
  revert k. induction fuel as [|f IH]; intros k Hq; cbn [discard]; [done|].
  assert (env_quiet e (set_kern (sys_recv k fd 4096).2 e)) as Hq'.
  { etrans; [exact Hq|]. apply (recv_quiet fd 4096 (set_kern k e)). }
  destruct (sys_recv k fd 4096) as [[[|b bs]|x] k1]; cbn [snd] in Hq'; [by intros [= <-]|by apply IH|by intros [= <-]].
Qed.

Lemma drive_round_steps fuel (c : Conn) (e : env) ok pr c' e' :
  drive_round router_ now_us_ draining_ max_in_ fuel c e = Some (ok, pr, c', e') -> steps c e c' e'.
Proof.
  unfold drive_round.
  match goal with |- context [if ?b then do_read _ _ fuel c e false else ?y] =>
    destruct (if b then do_read now_us_ max_in_ fuel c e false else y) as [[[[ok1 p1] c1] e1]|] eqn:Er; [|done];
    assert (steps c e c1 e1) as Hs1
      by (destruct b; [by eapply do_read_steps|injection Er as _ _ <- <-; apply steps_refl]) end.
  clear Er. destruct ok1; cbn [negb]; [|by intros [= _ _ <- <-]].
  pose proof (process_steps c1 e1) as Hp. destruct (process _ _ _ _ _) as [[did c2] e2].
  destruct (c_can_write c2 && has_output c2).
  - intros Hw. eapply steps_trans; [exact Hs1|]. eapply steps_trans; [exact Hp|]. by eapply do_write_steps.
  - intros [= _ _ <- <-]. by eapply steps_trans.
Qed.

Lemma drive_steps fuel (c : Conn) (e : env) ok c' e' :
  drive router_ now_us_ draining_ max_in_ fuel c e = Some (ok, c', e') -> steps c e c' e'.
Proof.
  revert c e. induction fuel as [|f IH]; intros c e; cbn [drive]; [done|].
  destruct (drive_round _ _ _ _ f c e) as [[[[ok1 p1] c1] e1]|] eqn:Er; [|done]. apply drive_round_steps in Er.
  destruct ok1; cbn [negb]; [|by intros [= _ <- <-]]. destruct p1; [intros Hd; eapply steps_trans; [exact Er|by eapply IH]|].
  destruct (has_output c1); [by intros [= _ <- <-]|]. destruct (c_close_after_write c1); [|by intros [= _ <- <-]].
  destruct (discard _ _ _) as [k|] eqn:Ed; [|done]. intros [= _ <- <-]. eapply steps_trans; [exact Er|].
  apply quiet_step; auto. eapply discard_quiet; [|exact Ed]. apply kern_quiet; [apply shutdown_opened|intros; apply shutdown_wire].
Qed.

End Steps.
