(* ===== verification/Pipeline.v ===== *)
(** * Pipelined requests and streamed bodies

    End-to-end facts about a connection: requests that arrive back to back
    are answered in order, and what a streamed body puts on the wire is what
    its framing announced. *)

From S2P Require Import Prelude Headers RequestParser Numbers ParserFacts ParserSegmentation.
From S2P Require Import Response ChunkCodec ParserRoundTrip ResponseHead ByteBuffer Router Metrics Connection ConnectionFacts.

Section Pipeline.
Context {T : Type} `{InBufferLaws T}.
Context {K : Type} `{KernelLaws K}.
Context (router_ : Router K) (now_us_ : Z) (draining_ : bool).
Context (Hrouter : router_ok router_).

#[local] Abbreviation Conn := (Connection T).
#[local] Abbreviation env := (Env K).

(** A date the worker may put into a head: the one it has cached, or the text of some time. *)
Definition dated (e : env) (d : bytes) : Prop := d = date_text (e_date e) \/ exists t, d = strftime_gmt t.

Lemma get_date_dated (e e1 : env) d : get_date e = (d, e1) -> dated e d /\ forall d', dated e1 d' -> dated e d'.
Proof.
  unfold get_date, DateCache_get, dated. destruct (sys_time (e_kern e)) as [now k].
  destruct (negb (now =? cached_ (e_date e))%Z); intros [= <- <-]; cbn [date_text e_date]; split; auto; [by eauto|].
  intros d' [->|?]; eauto.
Qed.

(** [t] is the text queued for the response of the routes to [r]. *)
Definition answers (e : env) (r : Request) (t : bytes) : Prop :=
  exists k date, dated e date /\ t = response_text (Router.dispatch router_ k r Response_new).1
    (mkHeadOptions (keep_alive r && negb draining_) (is_http10 r) date) (bytes_eqb (method r) (B "HEAD")).

(** [process] goes no further: a response in flight needs the connection. *)
Definition stopped (c : Conn) : Prop :=
  c_close_after_write c = true \/ body_source_active c = true \/ (kOutHighWater <= Z.of_nat (out_pending c))%Z.

Definition printed (rs : list Request) : bytes := concat (print_request <$> rs).

(** One request is taken from the input and answered. *)
Lemma process_round_request (l : ParserLimits) (r : Request) rest (c : Conn) (e : env) (progress : bool) :
  conn_ok c -> c_parser c = RequestParser_new l -> ib_readable (c_in c) = print_request r ++ rest ->
  limits_ok l = true -> printable r -> within l r -> fits (print_request r ++ rest) -> print_request r <> [] ->
  stopped c
  \/ exists c' e', process_round router_ now_us_ draining_ c e progress = inl (c', e')
       /\ conn_ok c' /\ c_parser c' = RequestParser_new l /\ ib_readable (c_in c') = rest
       /\ (exists t, answers e r t /\ c_out c' = c_out c ++ t) /\ forall d, dated e' d -> dated e d.
Proof.
  intros Hc Hp Hin Hl Hr Hw Hfit Hne.
  destruct (c_close_after_write c || body_source_active c || negb (Z.of_nat (out_pending c) <? kOutHighWater)%Z) eqn:Eg.
  { left. unfold stopped. apply orb_prop in Eg as [[?|?]%orb_prop|?%negb_true_iff]; [by left|by right; left|]. right; right. lia. }
  right. unfold process_round. rewrite Eg. bool_hyps.
  assert (exists b0 bs, print_request r ++ rest = b0 :: bs) as (b0 & bs & Ed) by (destruct (print_request r); [done|eauto]).
  rewrite Hin, Ed. cbn iota. rewrite <- Ed.
  rewrite start_if. conn_simpl. generalize (if (c_request_start_us c =? 0)%Z then now_us_ else c_request_start_us c). intros t0.
  destruct (feed_print_request l r rest Hl Hr Hfit Hw) as (p' & Hfeed & Hd & Hreq).
  pose proof (feed_wf (RequestParser_new l) (print_request r ++ rest) (parser_wf_new l Hl)) as Hwf.
  pose proof (feeds_limits _ _ _ _ (feed_feeds (RequestParser_new l) (print_request r ++ rest) (parser_wf_new l Hl))) as Hlim.
  rewrite Hp, Hfeed. rewrite Hfeed in Hwf, Hlim. cbn [fst] in Hwf, Hlim.
  assert (failed p' = false) as Hf by (unfold done, failed in *; by destruct (state_ p')).
  rewrite Hf, Hd, andb_false_r. cbn [negb take_request]. conn_simpl.
  assert (reset p' = RequestParser_new l) as Hreset by (unfold reset; by rewrite Hlim). rewrite Hreset.
  destruct (ib_consume_spec (c_in c) (Z.of_nat (length (print_request r)))) as [Hbw Hbr];
    [apply Hc|rewrite Hin, zlen_app; pose proof (zlen_nonneg rest); unfold zlen; lia|].
  rewrite Nat2Z.id, Hin, drop_app_length in Hbr.
  match goal with |- context [dispatch router_ draining_ ?x (req_ p') e] => set (c1 := x) end.
  assert (conn_ok c1) as Hok1.
  { destruct Hc. split; try done. apply parser_wf_new. done. }
  pose proof (dispatch_queues router_ draining_ Hrouter c1 (req_ p') e Hok1 ltac:(done)) as Hq.
  destruct (Router.dispatch router_ (e_kern e) (req_ p') Response_new) as [res kd] eqn:Er.
  destruct (dispatch router_ draining_ c1 (req_ p') e) as [c2 e2]. destruct Hq as ((date & Hq & Hdt) & Hok2 & _).
  apply get_date_dated in Hdt as [Hdt Hde].
  do 2 eexists. split; [done|]. split; [by apply conn_ok_continue|]. conn_simpl.
  split; [by rewrite (q_parser _ _ _ Hq)|]. split; [rewrite (q_in _ _ _ Hq); exact Hbr|].
  split; [|exact Hde]. rewrite Hreq in Hq, Er. eexists. split; [|apply (q_out _ _ _ Hq)]. exists (e_kern e), date. by rewrite Er.
Qed.

(** A connection that may not dispatch leaves everything as it is. *)
Lemma process_round_stopped (c : Conn) (e : env) (progress : bool) :
  stopped c -> process_round router_ now_us_ draining_ c e progress = inr (progress, c, e).
Proof.
  intros Hs. unfold process_round.
  assert (c_close_after_write c || body_source_active c || negb (Z.of_nat (out_pending c) <? kOutHighWater)%Z = true) as ->; [|done].
  destruct Hs as [->|[->|Hs]]; [done|by rewrite orb_true_r|]. destruct (Z.ltb_spec (Z.of_nat (out_pending c)) kOutHighWater); [lia|].
  by rewrite orb_true_r.
Qed.

Lemma process_loop_pipeline (l : ParserLimits) rs fuel (c : Conn) (e : env) (progress : bool) b c' e' :
  conn_ok c -> c_parser c = RequestParser_new l -> ib_readable (c_in c) = printed rs ->
  limits_ok l = true -> Forall (fun r => printable r /\ within l r) rs -> fits (printed rs) ->
  process_loop router_ now_us_ draining_ fuel c e progress = Some (b, c', e') ->
  exists served waiting texts, rs = served ++ waiting /\ Forall2 (answers e) served texts
    /\ c_out c' = c_out c ++ concat texts
    /\ ib_readable (c_in c') = printed waiting /\ c_parser c' = RequestParser_new l /\ (waiting = [] \/ stopped c').
Proof.
  intros Hc Hp Hin Hl Hrs Hfit. revert rs c e progress Hc Hp Hin Hrs Hfit.
  induction fuel as [|f IH]; intros rs c e progress Hc Hp Hin Hrs Hfit; cbn [process_loop]; [done|].
  destruct rs as [|r rs].
  { assert (process_round router_ now_us_ draining_ c e progress = inr (progress, c, e)) as ->.
    { unfold process_round. rewrite Hin. by destruct (_ || _ || _). }
    intros [= <- <- <-]. exists [], [], []. split; [done|].
    split; [constructor|]. split; [by rewrite app_nil_r|]. auto. }
  inversion Hrs as [|? ? [Hr Hw] Hrs']; subst. cbn [printed fmap list_fmap concat] in *. fold (printed rs) in *.
  assert (print_request r <> []) as Hne.
  { unfold print_request. intros E. apply app_nil in E as [_ E]. done. }
  destruct (process_round_request l r (printed rs) c e progress) as [Hs|(c1 & e1 & -> & Hok1 & Hp1 & Hin1 & (t & Ht & Ho) & Hd)]; try done.
  - rewrite process_round_stopped by done. intros [= <- <- <-]. exists [], (r :: rs), [].
    split; [done|]. split; [constructor|]. split; [by rewrite app_nil_r|]. auto.
  - intros Hl2. destruct (IH rs c1 e1 true Hok1 Hp1 Hin1 Hrs') as (sv & wt & ts & -> & Ha & Ho2 & Hi2 & Hp2 & Hend); [|done|].
    { unfold fits in *. rewrite zlen_app in Hfit. pose proof (zlen_nonneg (print_request r)). lia. }
    exists (r :: sv), wt, (t :: ts). split; [done|]. split; [constructor; [done|]|].
    { eapply Forall2_impl; [exact Ha|]. intros r' t' (k & d & Hd' & Heq). exists k, d. split; [by apply Hd|done]. }
    split; [|done].
    by rewrite Ho2, Ho, <- app_assoc.
Qed.

End Pipeline.

(** ** Streamed bodies *)

(** The whole run of a producer that keeps its contract: the pieces it
    appends and the trailers it leaves. *)
Inductive produces : BodyProducer -> Headers -> list bytes -> Headers -> Prop :=
| produces_last pr tr piece tr' pr' :
    produce pr [] tr = Some (false, piece, tr', pr') -> produces pr tr [piece] tr'
| produces_more pr tr piece tr1 pr1 ps tr' :
    produce pr [] tr = Some (true, piece, tr1, pr1) -> piece <> [] -> produces pr1 tr1 ps tr' ->
    produces pr tr (piece :: ps) tr'.

Section Streams.
Context {T : Type} `{InBufferLaws T}.
#[local] Abbreviation Conn := (Connection T).

(** A body in chunked coding, with [pieces] and the trailers [tr'] to come. *)
Definition streaming (c : Conn) (pieces : list bytes) (tr' : Headers) : Prop :=
  c_chunked c = true /\ c_stream_sized c = false
  /\ exists pr, c_producer c = Some pr /\ produces pr (c_trailers c) pieces tr'.

(** What goes out when the client keeps reading: refill, send all of [out], refill again. *)
Fixpoint drain_stream (n : nat) (c : Conn) : option bytes :=
  match c_producer c with
  | None => Some []
  | Some _ =>
      match n with
      | O => None
      | S n' =>
          match refill_from_producer c with
          | None => None
          | Some c' => app (c_out c') <$> drain_stream n' (set_out [] 0 c')
          end
      end
  end.

Lemma refill_round_chunked (c : Conn) pieces tr' :
  streaming c pieces tr' ->
  exists piece m c1, refill_round c = Some (m, c1) /\ c_out c1 = append_chunk (c_out c) piece
    /\ if m then piece <> [] /\ exists rest, pieces = piece :: rest /\ streaming c1 rest tr'
       else pieces = [piece] /\ c_trailers c1 = tr' /\ c_chunked c1 = true /\ c_stream_sized c1 = false.
Proof.
  intros (Hch & Hsz & pr & Hpr & Hp). unfold refill_round. rewrite Hpr.
  inversion Hp as [? ? piece ? pr' Hc|? ? piece tr1 pr1 ps ? Hc Hne Hrest]; subst; rewrite Hc; cbn [andb].
  - conn_simpl. rewrite Hsz, Hch. exists piece, false. eexists. split; [done|]. split; [done|]. done.
  - destruct piece as [|b piece]; [done|]. conn_simpl. rewrite Hsz, Hch. exists (b :: piece), true. eexists. split; [done|].
    split; [done|]. split; [done|]. exists ps. split; [done|]. split; [done|]. split; [done|]. by exists pr1.
Qed.

Lemma refill_loop_chunked fuel (c : Conn) pieces tr' :
  streaming c pieces tr' -> (kProducerLowWater - zlen (c_out c) <= Z.of_nat fuel)%Z ->
  (exists c1 ps1 ps2, refill_loop fuel c true = Some (true, c1) /\ pieces = ps1 ++ ps2
     /\ c_out c1 = fold_left append_chunk ps1 (c_out c) /\ streaming c1 ps2 tr'
     /\ ((zlen (c_out c) < kProducerLowWater)%Z -> ps1 <> []))
  \/ exists c1, refill_loop fuel c true = Some (false, c1) /\ c_out c1 = fold_left append_chunk pieces (c_out c)
     /\ c_trailers c1 = tr' /\ c_chunked c1 = true /\ c_stream_sized c1 = false.
Proof.
  revert c pieces. induction fuel as [|f IH]; intros c pieces Hs Hf; cbn [refill_loop andb].
  - destruct (Z.ltb_spec (zlen (c_out c)) kProducerLowWater); [lia|]. left. exists c, [], pieces.
    do 4 (split; [done|]). intros. lia.
  - destruct (Z.ltb_spec (zlen (c_out c)) kProducerLowWater).
    2:{ left. exists c, [], pieces. do 4 (split; [done|]). intros. lia. }
    destruct (refill_round_chunked c pieces tr' Hs) as (piece & m & c1 & -> & Ho & Hm). destruct m.
    + destruct Hm as (Hne & rest & -> & Hs1).
      assert (zlen (c_out c) < zlen (c_out c1))%Z as Hgrow.
      { rewrite Ho, append_chunk_app, zlen_app. pose proof (append_chunk_nonempty piece Hne).
        destruct (append_chunk [] piece) eqn:E; [done|]. unfold zlen. cbn [length]. lia. }
      destruct (IH c1 rest Hs1 ltac:(lia)) as [(c2 & ps1 & ps2 & Hr & -> & Ho2 & Hs2 & _)|(c2 & Hr & Ho2 & Ht)].
      * left. exists c2, (piece :: ps1), ps2. split; [done|]. split; [done|]. split; [by rewrite Ho2, Ho|]. done.
      * right. exists c2. split; [done|]. split; [by rewrite Ho2, Ho|]. done.
    + destruct Hm as (-> & Ht). right. exists c1. rewrite refill_loop_false. split; [done|]. by rewrite Ho.
Qed.

Lemma drain_stream_chunked n (c : Conn) pieces tr' :
  streaming c pieces tr' -> c_out c = [] -> (length pieces <= n)%nat ->
  drain_stream n c = Some (encode_chunked pieces tr').
Proof.
  revert c pieces. induction n as [|n IH]; intros c pieces Hs Ho Hn; cbn [drain_stream].
  all: pose proof Hs as (_ & _ & pr & Hpr & Hp); rewrite Hpr.
  { inversion Hp; subst; cbn in Hn; lia. }
  unfold refill_from_producer.
  destruct (refill_loop_chunked refill_fuel c pieces tr' Hs) as [(c1 & ps1 & ps2 & -> & -> & Ho1 & Hs1 & Hne)|(c1 & -> & Ho1 & Ht & Hch & Hsz)].
  { rewrite Ho. unfold refill_fuel, zlen. cbn [length]. lia. }
  - rewrite Ho in *. specialize (Hne ltac:(done)).
    rewrite (IH (set_out [] 0 c1) ps2); [|done|done|].
    + cbn [fmap option_fmap option_map]. f_equal. rewrite Ho1, fold_append_chunk, !encode_chunked_eq, fmap_app, concat_app.
      cbn [app]. by rewrite <- !app_assoc.
    + rewrite length_app in Hn. destruct ps1; [done|]. cbn in Hn. lia.
  - rewrite finish_stream_eq, Hch, Hsz, Ht, Ho1, Ho. conn_simpl. destruct n; cbn; by rewrite app_nil_r.
Qed.

End Streams.

(** A response with a producer hands the connection its stream: the head goes
    to [out], and the stream members describe the framing chosen. *)
Lemma dispatch_streams {T K : Type} `{Kernel K} (router : Router K) (draining : bool) (c : Connection T) (e : Env K)
    (req : Request) (res : Response) (k : K) (pr : BodyProducer) :
  Router.dispatch router (e_kern e) req Response_new = (res, k) -> producer res = Some pr -> file res = (-1)%Z ->
  status res = 200%Z -> method req <> B "HEAD" ->
  exists date c' e', dispatch router draining c req e = (c', e') /\ date = (get_date (set_kern k e)).1
    /\ c_out c' = c_out c ++ head_text res (mkHeadOptions (keep_alive req && negb draining) (is_http10 req) date)
    /\ c_trailers c' = []
    /\ (c_chunked c' = match stream_length res with Some _ => false | None => negb (is_http10 req) end)
    /\ (c_stream_sized c', c_stream_left c')
       = match stream_length res with Some n => (true, n) | None => (false, 0%Z) end
    /\ c_producer c' = match stream_length res with Some 0%Z => c_producer c | _ => Some pr end.
Proof.
  intros Hd Hpr Hf Hst Hm. unfold dispatch. rewrite Hd. destruct (get_date (set_kern k e)) as [date e1].
  rewrite write_head_text. fold (head_text res (mkHeadOptions (keep_alive req && negb draining) (is_http10 req) date)).
  unfold choose_framing. rewrite Hst, Hf, Hpr. cbn [fst snd Z.quot Z.quotrem Z.eqb orb fd_valid Z.geb Z.compare].
  assert (bytes_eqb (method req) (B "HEAD") = false) as -> by (apply bytes_eqb_neq; done). cbn [negb andb].
  exists date. generalize (head_text res (mkHeadOptions (keep_alive req && negb draining) (is_http10 req) date)). intros head.
  cbn [http10_client].
  destruct (stream_length res) as [[|n|n]|], (is_http10 req), (negb (keep_alive req && negb draining));
    cbn [fst snd bool_decide Framing_eq_dec decide_rel negb andb orb]; unfold record_response; do 2 eexists; (split; [reflexivity|]); (split; [reflexivity|]); done.
Qed.

(** A response with a file hands the connection the descriptor and the range to send. *)
Lemma dispatch_file {T K : Type} `{Kernel K} (router : Router K) (draining : bool) (c : Connection T) (e : Env K)
    (req : Request) (res : Response) (k : K) :
  Router.dispatch router (e_kern e) req Response_new = (res, k) -> fd_valid (file res) = true ->
  status res = 200%Z -> method req <> B "HEAD" ->
  let c' := (dispatch router draining c req e).1 in
  (c_file c', c_file_off c', c_file_left c')
  = if (file_length res >? 0)%Z then (file res, file_offset res, file_length res) else (c_file c, c_file_off c, c_file_left c).
Proof.
  intros Hd Hf Hst Hm. cbn zeta. unfold dispatch. rewrite Hd. destruct (get_date (set_kern k e)) as [date e1].
  destruct (write_head (c_out c) res _) as [out fr] eqn:Eh.
  assert (fr = ContentLength) as ->.
  { rewrite write_head_text in Eh. injection Eh as _ <-. unfold choose_framing. by rewrite Hst, Hf. }
  assert (bytes_eqb (method req) (B "HEAD") = false) as -> by (apply bytes_eqb_neq; done). rewrite Hf.
  rewrite !bool_decide_eq_false_2 by done. cbn [negb andb].
  destruct (negb (keep_alive req && negb draining)), (file_length res >? 0)%Z; unfold record_response; reflexivity.
Qed.
