(* ===== verification/Worker.v ===== *)
(** * [src/server/server.cpp]: the event loop of a worker

    [Worker] keeps the connections by descriptor ([conns_]); the loop [run]
    takes batches of events from [epoll_wait].  The order in which
    [unordered_map] is traversed is the one of [map_to_list].  The
    lines of [run] before the loop are in [Thread]; [perror] only prints. *)

From S2P Require Import Prelude Headers RequestParser Numbers ParserFacts Response ByteBuffer Router Metrics Connection.

Open Scope Z_scope.

(** ** Configuration *)

(** The members of [ServerConfig] the worker reads; durations in milliseconds. *)
Record ServerConfig := mkConfig {
  cfg_idle_timeout : Z;
  cfg_header_timeout : Z;
  cfg_shutdown_grace : Z;
  cfg_limits : ParserLimits }.

Definition ServerConfig_default : ServerConfig := mkConfig 30000 10000 5000 ParserLimits_default.

(** [static_cast<std::uint64_t>(ms.count()) * 1000]. *)
Definition to_us (ms : Z) : Z := u64 (u64 ms * 1000).

Definition idle_timeout_us (cfg : ServerConfig) : Z := to_us (cfg_idle_timeout cfg).
Definition header_timeout_us (cfg : ServerConfig) : Z := to_us (cfg_header_timeout cfg).

(** [std::clamp(v, lo, hi)]. *)
Definition clamp (v lo hi : Z) : Z := if v <? lo then lo else if hi <? v then hi else v.

Definition tick_us (cfg : ServerConfig) : Z :=
  clamp (Z.min (idle_timeout_us cfg) (header_timeout_us cfg) / 4) 10000 1000000.

(** ** System calls of the event loop *)

(** [accept4] fails with [EINTR] or [ECONNABORTED], with [EAGAIN], or otherwise. *)
Inductive accept_error : Set := AcceptRetry | AcceptEmpty | AcceptOther.

(** An event: the descriptor, and whether its flags are among those that make
    the connection readable ([EPOLLIN|EPOLLRDHUP|EPOLLHUP|EPOLLERR]) or
    writable ([EPOLLOUT|EPOLLHUP|EPOLLERR]). *)
Record event := mkEvent { ev_fd : Z; ev_readable : bool; ev_writable : bool }.

Class EventKernel (K : Type) := {
  sys_accept4 : K -> Z -> (Z + accept_error) * K;
  sys_nodelay : K -> Z -> K;
  sys_epoll_add : K -> Z -> Z -> bool * K;
  sys_epoll_del : K -> Z -> Z -> K;
  sys_epoll_wait : K -> Z -> Z -> (list event + errno) * K;
  sys_wake_read : K -> Z -> K }.

(** ** State *)

Section Worker.
Context {T : Type} `{InBuffer T}.
Context {K : Type} `{Kernel K} `{EventKernel K}.
Context (router_ : Router K) (cfg_ : ServerConfig).

Record Worker := mkWorker {
  listener_ : Z;
  epoll_ : Z;
  wake_ : Z;
  conns_ : gmap Z (Connection T);
  env_ : Env K;
  now_us_ : Z;
  draining_ : bool;
  drain_deadline_us_ : Z }.

Definition with_conns (cs : gmap Z (Connection T)) (e : Env K) (w : Worker) : Worker :=
  mkWorker (listener_ w) (epoll_ w) (wake_ w) cs e (now_us_ w) (draining_ w) (drain_deadline_us_ w).
Definition with_env (e : Env K) (w : Worker) : Worker := with_conns (conns_ w) e w.
Definition with_now (t : Z) (e : Env K) (w : Worker) : Worker :=
  mkWorker (listener_ w) (epoll_ w) (wake_ w) (conns_ w) e t (draining_ w) (drain_deadline_us_ w).
Definition wcount (f : Field.t) (n : Z) (w : Worker) : Worker := with_env (count f n (env_ w)) w.
Definition wkern (k : K) (w : Worker) : Worker := with_env (set_kern k (env_ w)) w.

(** [~Connection]: the file of the response in flight and the socket are closed. *)
Definition destroy_connection (c : Connection T) (e : Env K) : Env K :=
  let k := e_kern e in
  let k := if fd_valid (c_file c) then sys_close k (c_file c) else k in
  set_kern (if fd_valid (c_fd c) then sys_close k (c_fd c) else k) e.

(** ** Operations *)

Definition close_connection (fd : Z) (w : Worker) : Worker :=
  match conns_ w !! fd with
  | None => w
  | Some c =>
      wcount Field.connections_closed 1
        (with_conns (base.delete fd (conns_ w)) (destroy_connection c (env_ w)) w)
  end.

Fixpoint accept_loop (n : nat) (w : Worker) : Worker :=
  match n with
  | O => w
  | S n' =>
      match sys_accept4 (e_kern (env_ w)) (listener_ w) with
      | (inr AcceptRetry, k) => accept_loop n' (wkern k w)
      | (inr AcceptEmpty, k) => wkern k w
      | (inr AcceptOther, k) => wcount Field.accept_errors 1 (wkern k w)
      | (inl fd, k) =>
          let k := sys_nodelay k fd in
          let conn := Connection_new fd (cfg_limits cfg_) (now_us_ w) in
          let '(ok, k) := sys_epoll_add k (epoll_ w) fd in
          let w := wkern k w in
          if negb ok then
            let w := wcount Field.accept_errors 1 w in
            accept_loop n' (with_env (destroy_connection conn (env_ w)) w)
          else
            let w := wcount Field.connections_accepted 1 w in
            (* [emplace] keeps the old element when the key is there *)
            match conns_ w !! fd with
            | Some _ => accept_loop n' (with_env (destroy_connection conn (env_ w)) w)
            | None => accept_loop n' (with_conns (<[fd := conn]> (conns_ w)) (env_ w) w)
            end
      end
  end.

Definition on_accept (w : Worker) : Worker := accept_loop kAcceptBatch w.

Definition begin_drain (w : Worker) : Worker :=
  if draining_ w then w
  else
    let deadline := u64 (now_us_ w + to_us (cfg_shutdown_grace cfg_)) in
    if fd_valid (listener_ w) then
      let k := sys_epoll_del (e_kern (env_ w)) (epoll_ w) (listener_ w) in
      let k := sys_close k (listener_ w) in
      mkWorker (-1) (epoll_ w) (wake_ w) (conns_ w) (set_kern k (env_ w)) (now_us_ w) true deadline
    else mkWorker (listener_ w) (epoll_ w) (wake_ w) (conns_ w) (env_ w) (now_us_ w) true deadline.

(** Why [sweep] closes a connection. *)
Inductive verdict : Set := Keep | DropIdle | TimedOut.

#[export] Instance verdict_eq_dec : EqDecision verdict.
Proof. solve_decision. Defined.

Definition judge (draining : bool) (now : Z) (c : Connection T) : verdict :=
  let idle := negb (has_output c) && bool_decide (ib_size (c_in c) = 0) && negb (started (c_parser c)) in
  if draining && idle then DropIdle
  else if negb (c_request_start_us c =? 0) && negb (headers_complete (c_parser c))
          && (u64 (now - c_request_start_us c) >? header_timeout_us cfg_) then TimedOut
  else if u64 (now - c_last_active_us c) >? idle_timeout_us cfg_ then TimedOut
  else Keep.

(** One element of the loop of [sweep]. *)
Definition sweep_one (w : Worker) (x : Z * Connection T) : Worker :=
  let '(fd, c) := x in
  let v := judge (draining_ w) (now_us_ w) c in
  let w := match v with TimedOut => wcount Field.connections_timed_out 1 w | _ => w end in
  match v with
  | Keep => w
  | _ =>
      let w := wcount Field.connections_closed 1 w in
      with_conns (base.delete fd (conns_ w)) (destroy_connection c (env_ w)) w
  end.

Definition sweep (w : Worker) : Worker := fold_left sweep_one (map_to_list (conns_ w)) w.

(** The body of the loop over the events of a batch; [None] when a connection
    is not driven to its end within the fuel. *)
Definition handle_event (fuel : nat) (w : Worker) (ev : event) : option Worker :=
  if ev_fd ev =? wake_ w then Some (begin_drain (wkern (sys_wake_read (e_kern (env_ w)) (wake_ w)) w))
  else if fd_valid (listener_ w) && (ev_fd ev =? listener_ w) then Some (on_accept w)
  else
    match conns_ w !! ev_fd ev with
    | None => Some w
    | Some c =>
        let c := if ev_readable ev then set_can_read true c else c in
        let c := if ev_writable ev then set_can_write true c else c in
        match drive router_ (now_us_ w) (draining_ w) (max_in_buffer (cfg_limits cfg_)) fuel c (env_ w) with
        | None => None
        | Some (ok, c, e) =>
            let w := with_conns (<[ev_fd ev := c]> (conns_ w)) e w in
            Some (if ok then w else close_connection (ev_fd ev) w)
        end
    end.

Fixpoint handle_events (fuel : nat) (w : Worker) (evs : list event) : option Worker :=
  match evs with
  | [] => Some w
  | ev :: evs' =>
      match handle_event fuel w ev with
      | None => None
      | Some w => handle_events fuel w evs'
      end
  end.

(** One pass of the [for (;;)] of [run]: whether the loop goes on, the time
    of the last sweep and the worker. *)
Definition run_once (fuel : nat) (last_sweep : Z) (w : Worker) : option (bool * Z * Worker) :=
  let '(r, k) := sys_epoll_wait (e_kern (env_ w)) (epoll_ w) (tick_us cfg_ / 1000) in
  let w := wkern k w in
  match r with
  | inr EINTR => Some (true, last_sweep, w)
  | inr _ => Some (false, last_sweep, w)
  | inl evs =>
      let '(now, k) := sys_mono_us (e_kern (env_ w)) in
      let w := with_now now (set_kern k (env_ w)) w in
      let w := wcount Field.loop_events (zlen evs) (wcount Field.loop_wakeups 1 w) in
      match handle_events fuel w evs with
      | None => None
      | Some w =>
          let '(last_sweep, w) :=
            if draining_ w || (u64 (now_us_ w - last_sweep) >=? tick_us cfg_) then (now_us_ w, sweep w)
            else (last_sweep, w) in
          let stop := draining_ w && (bool_decide (conns_ w = ∅) || (now_us_ w >=? drain_deadline_us_ w)) in
          Some (negb stop, last_sweep, w)
      end
  end.

(** [while (!conns_.empty()) close_connection(conns_.begin()->first)]. *)
Definition close_all (w : Worker) : Worker :=
  fold_left (fun w (x : Z * Connection T) => close_connection x.1 w) (map_to_list (conns_ w)) w.

(** [run] for at most [n] passes; [inl]: still running. *)
Fixpoint run_loop (n fuel : nat) (last_sweep : Z) (w : Worker) : option (Worker + Worker) :=
  match n with
  | O => Some (inl w)
  | S n' =>
      match run_once fuel last_sweep w with
      | None => None
      | Some (true, last_sweep, w) => run_loop n' fuel last_sweep w
      | Some (false, _, w) => Some (inr (close_all w))
      end
  end.

End Worker.

Arguments Worker : clear implicits.
