(* ===== verification/WorkerFacts.v ===== *)
(** * The event loop: what a sweep does, and draining *)

From S2P Require Import Prelude Headers RequestParser Numbers ParserFacts Response ByteBuffer Router Metrics Connection Worker.

Open Scope Z_scope.

Section WorkerFacts.
Context {T : Type} `{InBuffer T}.
Context {K : Type} `{Kernel K} `{EventKernel K}.
Context (router_ : Router K) (cfg_ : ServerConfig).

#[local] Abbreviation W := (Worker T K).
#[local] Abbreviation Conn := (Connection T).

Definition metric (f : Field.t) (w : W) : Z := counter (e_metrics (env_ w)) f.

#[local] Ltac worker_simpl :=
  cbn [listener_ wake_ conns_ env_ now_us_ draining_ drain_deadline_us_ with_conns with_env with_now wcount wkern
       e_metrics e_date e_kern count set_kern destroy_connection counter bump fst snd] in *.

Lemma u64_u64 a : u64 (u64 a) = u64 a.
Proof. apply Zmod_mod. Qed.

(** What the verdicts of a list of connections amount to. *)
Definition dropped (w : W) (l : list (Z * Conn)) : list (Z * Conn) :=
  List.filter (fun x => match judge cfg_ (draining_ w) (now_us_ w) x.2 with Keep => false | _ => true end) l.
Definition timed_out (w : W) (l : list (Z * Conn)) : list (Z * Conn) :=
  List.filter (fun x => match judge cfg_ (draining_ w) (now_us_ w) x.2 with TimedOut => true | _ => false end) l.

Lemma sweep_fold l (w : W) :
  let w' := fold_left (sweep_one cfg_) l w in
  (draining_ w' = draining_ w /\ now_us_ w' = now_us_ w /\ drain_deadline_us_ w' = drain_deadline_us_ w)
  /\ listener_ w' = listener_ w
  /\ conns_ w' = fold_left (fun m (x : Z * Conn) => base.delete x.1 m) (dropped w l) (conns_ w)
  /\ u64 (metric Field.connections_closed w') = u64 (metric Field.connections_closed w + zlen (dropped w l))
  /\ u64 (metric Field.connections_timed_out w') = u64 (metric Field.connections_timed_out w + zlen (timed_out w l))
  /\ metric Field.connections_accepted w' = metric Field.connections_accepted w.
Proof.
  revert w. induction l as [|[fd c] l IH]; intros w; cbn zeta.
  { unfold zlen. cbn. by rewrite !Z.add_0_r. }
  cbn [fold_left]. destruct (IH (sweep_one cfg_ w (fd, c))) as ((-> & -> & ->) & -> & -> & Hc & Ht & ->).
  assert (draining_ (sweep_one cfg_ w (fd, c)) = draining_ w /\ now_us_ (sweep_one cfg_ w (fd, c)) = now_us_ w
    /\ listener_ (sweep_one cfg_ w (fd, c)) = listener_ w
    /\ drain_deadline_us_ (sweep_one cfg_ w (fd, c)) = drain_deadline_us_ w) as (Hd & Hn & Hls & Hdl).
  { unfold sweep_one. by destruct (judge _ _ _ _). }
  assert (dropped (sweep_one cfg_ w (fd, c)) l = dropped w l /\ timed_out (sweep_one cfg_ w (fd, c)) l = timed_out w l) as [Hdr Hto].
  { unfold dropped, timed_out. by rewrite Hd, Hn. }
  rewrite Hdr, Hto, Hd, Hn, Hls, Hdl in *. do 2 (split; [done|]). clear IH Hdr Hto Hd Hn Hls Hdl.
  unfold dropped, timed_out, metric in *. cbn [List.filter snd]. unfold sweep_one in *.
  destruct (judge cfg_ (draining_ w) (now_us_ w) c) eqn:E; worker_simpl.
  - done.
  - split; [done|]. unfold zlen in *. cbn [length]. repeat rewrite decide_True in Hc by done. split; [|done].
    rewrite Hc, u64_mod_add. f_equal. lia.
  - split; [done|]. unfold zlen in *. cbn [length]. split; [rewrite Hc|split; [rewrite Ht|done]].
    + rewrite decide_True by done. rewrite u64_mod_add. f_equal. worker_simpl. rewrite decide_False by done. lia.
    + rewrite decide_False by done. rewrite decide_True by done. rewrite u64_mod_add. f_equal. lia.
Qed.

Lemma fold_delete_lookup (l : list (Z * Conn)) (m : gmap Z Conn) fd :
  fold_left (fun m (x : Z * Conn) => base.delete x.1 m) l m !! fd = if decide (fd ∈ l.*1) then None else m !! fd.
Proof.
  revert m. induction l as [|[i c] l IH]; intros m; cbn [fold_left fmap list_fmap fst]; [done|].
  rewrite IH. destruct (decide (fd = i)) as [->|Hne].
  - rewrite lookup_delete_eq. destruct (decide (i ∈ l.*1)), (decide (i ∈ i :: l.*1)); set_solver.
  - rewrite lookup_delete_ne by done. destruct (decide (fd ∈ l.*1)), (decide (fd ∈ i :: l.*1)); set_solver.
Qed.

Lemma fold_delete_size (l : list (Z * Conn)) (m : gmap Z Conn) :
  NoDup l.*1 -> (forall x, x ∈ l -> is_Some (m !! x.1)) ->
  Z.of_nat (size (fold_left (fun m (x : Z * Conn) => base.delete x.1 m) l m)) + zlen l = Z.of_nat (size m).
Proof.
  revert m. induction l as [|[i c] l IH]; intros m Hnd Hin; cbn [fold_left fmap list_fmap fst] in *; [unfold zlen; cbn; lia|].
  apply NoDup_cons in Hnd as [Hi Hnd]. pose proof (Hin (i, c) ltac:(set_solver)) as Hs. cbn [fst] in Hs.
  specialize (IH (base.delete i m) Hnd). rewrite map_size_delete_Some in IH by done.
  assert (0 < size m)%nat.
  { destruct Hs as [y Hy]. destruct (decide (size m = 0%nat)) as [E|]; [|lia]. apply map_size_empty_inv in E as ->. done. }
  assert (forall x, x ∈ l -> is_Some (base.delete i m !! x.1)) as Hin'.
  { intros x Hx. rewrite lookup_delete_ne; [apply Hin; set_solver|]. intros E. apply Hi, list_elem_of_fmap. eauto. }
  specialize (IH Hin'). unfold zlen in *. cbn [length]. lia.
Qed.

Lemma dropped_elem (w : W) fd :
  fd ∈ (dropped w (map_to_list (conns_ w))).*1
  <-> exists c, conns_ w !! fd = Some c /\ judge cfg_ (draining_ w) (now_us_ w) c <> Keep.
Proof.
  unfold dropped. rewrite list_elem_of_fmap. split.
  - intros ([i c] & -> & Hx). rewrite list_elem_of_In, filter_In, <- list_elem_of_In, elem_of_map_to_list in Hx.
    destruct Hx as [Hl Hj]. exists c. split; [done|]. intros E. cbn [snd] in Hj. by rewrite E in Hj.
  - intros (c & Hl & Hj). exists (fd, c). split; [done|]. rewrite list_elem_of_In, filter_In, <- list_elem_of_In, elem_of_map_to_list.
    split; [done|]. cbn [snd]. by destruct (judge _ _ _ _).
Qed.

Lemma dropped_nodup (w : W) : NoDup (dropped w (map_to_list (conns_ w))).*1.
Proof.
  pose proof (NoDup_fst_map_to_list (conns_ w)) as Hnd. revert Hnd. unfold dropped. generalize (map_to_list (conns_ w)).
  intros l. induction l as [|x l IH]; intros Hnd; cbn [List.filter]; [done|]. cbn [fmap list_fmap] in Hnd.
  apply NoDup_cons in Hnd as [Hx Hnd]. specialize (IH Hnd). destruct (judge _ _ _ _); [done| |];
    cbn [fmap list_fmap]; apply NoDup_cons; (split; [|done]); intros Hin; apply Hx;
    apply list_elem_of_fmap in Hin as (y & -> & Hy); apply list_elem_of_fmap; exists y;
    (split; [done|]); rewrite list_elem_of_In, filter_In, <- list_elem_of_In in Hy; apply Hy.
Qed.

(** A sweep keeps exactly the connections whose verdict is [Keep]. *)
Lemma sweep_lookup (w : W) fd :
  conns_ (sweep cfg_ w) !! fd
  = match conns_ w !! fd with
    | Some c => match judge cfg_ (draining_ w) (now_us_ w) c with Keep => Some c | _ => None end
    | None => None
    end.
Proof.
  unfold sweep. destruct (sweep_fold (map_to_list (conns_ w)) w) as (_ & _ & Hc & _).
  rewrite Hc, fold_delete_lookup. pose proof (dropped_elem w fd) as He.
  destruct (conns_ w !! fd) as [c|] eqn:E; destruct (decide _) as [Hd|Hd]; try done.
  - apply He in Hd as (c' & [= <-] & Hj). by destruct (judge _ _ _ _).
  - destruct (judge cfg_ (draining_ w) (now_us_ w) c) eqn:Ej; [done|..]; exfalso; apply Hd, He; exists c; rewrite Ej; done.
Qed.

End WorkerFacts.

(** A sweep closes exactly the connections it should and accounts for each.
    After it, a connection is there if and only if it was before and is
    neither idle while the worker drains, nor past the header timeout with
    its request head incomplete, nor inactive for longer than the idle
    timeout; [connections_closed] has grown by the number of connections
    removed and [connections_timed_out] by the number of timeouts among
    them (modulo the width of the counters), and nothing was accepted. *)
Theorem sweep_exact {T : Type} `{InBuffer T} {K : Type} `{Kernel K} (cfg : ServerConfig) (w : Worker T K) :
  let w' := sweep cfg w in
  (forall fd, conns_ w' !! fd
     = match conns_ w !! fd with
       | Some c => match judge cfg (draining_ w) (now_us_ w) c with Keep => Some c | _ => None end
       | None => None
       end)
  /\ u64 (metric Field.connections_closed w')
     = u64 (metric Field.connections_closed w + (Z.of_nat (size (conns_ w)) - Z.of_nat (size (conns_ w'))))
  /\ u64 (metric Field.connections_timed_out w')
     = u64 (metric Field.connections_timed_out w + zlen (timed_out cfg w (map_to_list (conns_ w))))
  /\ metric Field.connections_accepted w' = metric Field.connections_accepted w
  /\ listener_ w' = listener_ w.
Proof.
  cbn zeta. split; [intros fd; apply sweep_lookup|].
  unfold sweep. destruct (sweep_fold cfg (map_to_list (conns_ w)) w) as (_ & Hl & Hc & Hcl & Ht & Ha). split; [|done].
  rewrite Hcl, Hc. f_equal. pose proof (fold_delete_size (dropped cfg w (map_to_list (conns_ w))) (conns_ w)) as Hsz.
    rewrite <- Hsz; [lia|apply dropped_nodup|]. intros x Hx.
    assert (x.1 ∈ (dropped cfg w (map_to_list (conns_ w))).*1) as (c & -> & _)%dropped_elem
      by (apply list_elem_of_fmap; eauto). done.
Qed.
