(* ===== verification/ServerTheorems.v ===== *)
(** * What a connection guarantees

    The theorems about [drive], [process] and [refill_from_producer], with a
    small concrete kernel and router that satisfy their hypotheses. *)

From S2P Require Import Prelude Headers RequestParser Numbers ParserFacts ParserSegmentation.
From S2P Require Import Response ChunkCodec ParserRoundTrip ResponseHead ByteBuffer Router Metrics Connection ConnectionFacts.
From S2P Require Import ConnectionLiveness Pipeline.

Open Scope Z_scope.

(** ** A concrete kernel

    One client: the segments it has sent and how often its socket will take
    output before it blocks. *)
Record DemoKernel := mkDemo { dk_rx : list bytes; dk_room : nat; dk_wire : bytes }.

Definition demo_recv (k : DemoKernel) (n : Z) : (bytes + errno) * DemoKernel :=
  match dk_rx k with
  | [] => (inr EAGAIN, k)
  | s :: rx => if zlen s <=? n then (inl s, mkDemo rx (dk_room k) (dk_wire k)) else (inr EOTHER, k)
  end.

Definition demo_send (k : DemoKernel) (bs : bytes) : (Z + errno) * DemoKernel :=
  match dk_room k with
  | O => (inr EAGAIN, k)
  | S room => (inl (zlen bs), mkDemo (dk_rx k) room (dk_wire k ++ bs))
  end.

#[export] Instance demo_kernel : Kernel DemoKernel := {
  sys_recv k _ n := demo_recv k n;
  sys_send k _ bs := demo_send k bs;
  sys_sendfile k _ _ _ _ := (inr EAGAIN, k);
  sys_shutdown k _ := k;
  kernel_closer k _ := k;
  sys_mono_us k := (77, k);
  sys_time k := (0, k);
  strftime_gmt _ := B "Thu, 01 Jan 1970 00:00:00 GMT";
  wire k _ := dk_wire k }.

#[export] Instance demo_kernel_laws : KernelLaws DemoKernel.
Proof.
  split; try done.
  - intros k fd n bs k'. cbn. unfold demo_recv. destruct (dk_rx k) as [|s rx]; [done|].
    destruct (Z.leb_spec (zlen s) n); [|done]. intros [= <- <-]. lia.
  - intros k fd n fd'. cbn. unfold demo_recv. destruct (dk_rx k); [done|]. by destruct (_ <=? _).
  - intros k fd bs n k'. cbn. unfold demo_send. destruct (dk_room k); [done|]. intros [= <- <-]. pose proof (zlen_nonneg bs).
    split; [lia|]. cbn. unfold zlen. by rewrite Nat2Z.id, take_ge.
  - intros k fd bs x k'. cbn. unfold demo_send. destruct (dk_room k); [|done]. by intros [= <- <-].
  - intros k fd f off want x k'. cbn. by intros [= <- <-].
Qed.

#[export] Instance demo_finite : FiniteReadiness DemoKernel.
Proof.
  refine {| budget k := (length (dk_rx k) + dk_room k)%nat |}.
  - intros k fd n. cbn. unfold demo_recv. destruct (dk_rx k) as [|s rx] eqn:E; cbn [fst snd ready]; [rewrite E; lia|].
    destruct (_ <=? _); cbn [fst snd ready dk_rx dk_room length]; [destruct (negb _); lia|rewrite E; cbn; lia].
  - intros k fd bs. cbn. unfold demo_send. destruct (dk_room k) as [|room] eqn:E; cbn; lia.
  - intros. cbn. lia.
  - intros. cbn. lia.
  - intros. cbn. lia.
  - intros. cbn. lia.
  - intros. cbn. lia.
Defined.

(** A router with a page and a page that echoes the request body. *)
Definition demo_router : Router DemoKernel :=
  Router_add (Router_add [] (B "GET") (B "/hello") (fun k _ _ => (inl (Response_text 200 (B "hi") text_plain), k)))
    (B "POST") (B "/echo") (fun k req _ => (inl (Response_text 200 (body req) text_plain), k)).

Lemma demo_router_ok : router_ok demo_router.
Proof. repeat constructor; cbn; lia. Qed.

Lemma demo_router_finite : router_finite demo_router.
Proof. repeat constructor. Qed.

Definition demo_env (rx : list bytes) (room : nat) : Env DemoKernel :=
  mkEnv WorkerMetrics_new DateCache_new (mkDemo rx room []).

Definition demo_conn : Connection bytes := Connection_new 7 ParserLimits_default 50.

(** A new connection satisfies the invariants. *)
Lemma conn_ok_new {T} `{InBufferLaws T} fd l now : limits_ok l = true -> conn_ok (Connection_new (T := T) fd l now).
Proof.
  intros Hl. split; cbn; try done; [by apply parser_wf_new|apply ib_empty_wf|by left].
Qed.

Lemma live_new {T} `{InBufferLaws T} max_in fd l now :
  limits_ok l = true -> 0 <= max_in -> live max_in l (Connection_new (T := T) fd l now).
Proof.
  intros Hl Hm. split; [by apply conn_ok_new| |done]. unfold in_bound. cbn. rewrite ib_empty_readable. unfold zlen, kReadSize. cbn. lia.
Qed.


(** Two requests in three segments; the socket takes one write. *)
Definition demo_input : list bytes :=
  [B "GET /hello HTTP/1.1" ++ kCRLF ++ B "Host: a" ++ kCRLF; kCRLF ++ B "GET /nope HTTP/1.1" ++ kCRLF;
   B "Host: a" ++ kCRLF ++ kCRLF].




(** Pipelined requests are answered completely and in order.  If the input
    buffer holds printed requests back to back, [process] answers a prefix
    of them, appending to [out] the response of the routes to the first,
    then to the second, and so on, and leaves exactly the others in the
    buffer with the parser at the start of a request.  It stops before the
    end only when the last response closes the connection, has a body still
    to be transmitted, or the output reached its high-water mark. *)
Theorem pipelined_in_order {T : Type} `{InBufferLaws T} {K : Type} `{KernelLaws K}
  (router : Router K) (now : Z) (draining : bool) (l : ParserLimits) (rs : list Request) (c : Connection T) (e : Env K) :
  router_ok router -> conn_ok c -> c_parser c = RequestParser_new l -> ib_readable (c_in c) = printed rs ->
  limits_ok l = true -> Forall (fun r => printable r /\ within l r) rs -> fits (printed rs) ->
  let '(_, c', _) := process router now draining c e in
  exists served waiting texts, rs = served ++ waiting /\ Forall2 (answers router draining e) served texts
    /\ c_out c' = c_out c ++ concat texts
    /\ ib_readable (c_in c') = printed waiting /\ c_parser c' = RequestParser_new l /\ (waiting = [] \/ stopped c').
Proof.
  intros Hr Hc Hp Hin Hl Hrs Hfit. pose proof (process_spec router now draining Hr c e Hc) as Hs.
  destruct (process router now draining c e) as [[b c'] e']. destruct Hs as (Hloop & _).
  by eapply process_loop_pipeline.
Qed.

Lemma pipelined_in_order_witness :
  let c := set_input (print_request demo_post ++ print_request demo_post) (c_parser demo_conn) demo_conn in
  let '(_, c', _) := process demo_router 50 false c (demo_env [] 0) in
  exists served waiting texts, [demo_post; demo_post] = served ++ waiting
    /\ Forall2 (answers demo_router false (demo_env [] 0)) served texts
    /\ c_out c' = c_out c ++ concat texts
    /\ ib_readable (c_in c') = printed waiting /\ c_parser c' = RequestParser_new ParserLimits_default
    /\ (waiting = [] \/ stopped c').
Proof.
  cbn zeta. apply (pipelined_in_order demo_router 50 false ParserLimits_default [demo_post; demo_post]).
  - exact demo_router_ok.
  - destruct (conn_ok_new (T := bytes) 7 ParserLimits_default 50 eq_refl). split; assumption.
  - reflexivity.
  - reflexivity.
  - reflexivity.
  - assert (printable demo_post /\ within ParserLimits_default demo_post) as Hd.
    { split; [exact demo_post_printable|]. vm_compute. repeat split; discriminate. }
    apply Forall_cons; split; [exact Hd|]. apply Forall_cons; split; [exact Hd|]. apply Forall_nil; exact I.
  - vm_compute. reflexivity.
Defined.

(** A streamed body without a length arrives whole.  If the producer keeps its
    contract and yields [pieces] and trailers, the text that
    [refill_from_producer] hands to the socket, refill by refill, is the
    chunked coding of exactly those pieces and trailers, ended by the last
    chunk, whatever their sizes. *)
Theorem chunked_stream_text {T : Type} `{InBufferLaws T} (c : Connection T) (pieces : list bytes) (tr : Headers) :
  streaming c pieces tr -> c_out c = [] -> drain_stream (length pieces) c = Some (encode_chunked pieces tr).
Proof. intros Hs Ho. by apply drain_stream_chunked. Qed.

(** Three lines, then a trailer. *)
Definition demo_producer : BodyProducer :=
  mkProducer nat 3%nat (fun n out tr =>
    match n with
    | O => None
    | 1%nat => Some (false, out ++ B "last", set tr (B "X-Done") (B "yes"), O)
    | S m => Some (true, out ++ B "line" ++ [LF], tr, m)
    end).

Lemma chunked_stream_text_witness :
  drain_stream 3 (set_stream (Some demo_producer) [] true false 0 demo_conn)
  = Some (encode_chunked [B "line" ++ [LF]; B "line" ++ [LF]; B "last"] [(B "X-Done", B "yes")]).
Proof.
  apply (chunked_stream_text (set_stream (Some demo_producer) [] true false 0 demo_conn)
           [B "line" ++ [LF]; B "line" ++ [LF]; B "last"]); [|reflexivity].
  split; [reflexivity|]. split; [reflexivity|]. exists demo_producer. split; [reflexivity|].
  eapply produces_more; [reflexivity|discriminate|]. eapply produces_more; [reflexivity|discriminate|].
  eapply produces_last. reflexivity.
Defined.

(** C27: a streamed body with a length never exceeds it, and falling short is not
    hidden.  A successful refill queues exactly what it takes off the
    announced length; it ends the stream or makes progress; and when it ends
    the stream, the announced length has been reached or the connection is
    marked for closing. *)
Theorem sized_stream_bounded {T : Type} `{InBuffer T} (c c' : Connection T) :
  conn_ok c -> is_Some (c_producer c) -> c_out c = [] -> c_stream_sized c = true -> c_chunked c = false ->
  refill_from_producer c = Some c' ->
  zlen (c_out c') = c_stream_left c - c_stream_left c' /\ 0 <= c_stream_left c'
  /\ (c_producer c' = None \/ c_out c' <> [])
  /\ (c_producer c' = None -> c_stream_left c' = 0 \/ c_close_after_write c' = true).
Proof.
  intros Hc Hp Ho Hs Hch Hr. destruct (refill_spec c c' Hc Hp Ho Hr) as (_ & _ & _ & Hprog & Hsz).
  destruct (Hsz Hs Hch) as (Hz & Hle & Hend). done.
Qed.

Definition demo_sized : Connection bytes := set_stream (Some demo_producer) [] false true 20 demo_conn.

Lemma sized_stream_bounded_witness :
  exists c', refill_from_producer demo_sized = Some c'
    /\ zlen (c_out c') = c_stream_left demo_sized - c_stream_left c' /\ 0 <= c_stream_left c'
    /\ (c_producer c' = None \/ c_out c' <> [])
    /\ (c_producer c' = None -> c_stream_left c' = 0 \/ c_close_after_write c' = true).
Proof.
  eexists. split; [vm_compute; reflexivity|].
  apply (sized_stream_bounded demo_sized); try reflexivity.
  - destruct (conn_ok_new (T := bytes) 7 ParserLimits_default 50 eq_refl). split; try assumption.
    intros _ _. vm_compute. split; reflexivity.
  - exists demo_producer. reflexivity.
Defined.
