(* ===== verification/Conversation.v ===== *)
(** * A connection as a conversation

    What a client may rely on over the whole life of a connection, against a
    reference that knows nothing of buffers, readiness and event loops:
    - [read_all] reads everything the client ever sent in one piece; the
      requests the server answers are the ones it finds, in that order;
    - [follows] is the grammar of what the server says: one response after
      the other, each head with the bytes of its body behind it, nothing
      after a response that closes the connection.
    [delivered] is a ghost of the kernel's state, what a socket has handed to
    the program; [Recorded] adds it to any kernel. *)

From S2P Require Import Prelude Headers RequestParser Numbers ParserFacts ParserSegmentation.
From S2P Require Import Response ChunkCodec ResponseHead ByteBuffer Router Metrics Connection CallFrame ConnectionFacts.
From S2P Require Import ConnectionLiveness Pipeline ServerTheorems.

Open Scope Z_scope.

(** ** Reading a stream in one piece *)

Fixpoint read_loop (fuel : nat) (p : RequestParser) (data : bytes) : list Request * RequestParser :=
  match fuel with
  | O => ([], p)
  | S f =>
      let '(p1, n) := feed p data in
      if done p1 then
        let '(r, p2) := take_request p1 in
        let '(rs, q) := read_loop f p2 (drop n data) in (r :: rs, q)
      else ([], p1)
  end.

(** The requests in [data], and the parser after the last of them has been taken out. *)
Definition read_all (p : RequestParser) (data : bytes) : list Request * RequestParser := read_loop (S (length data)) p data.

Lemma final_reset p : final (reset p) = false.
Proof. done. Qed.

Lemma read_loop_fuel fuel fuel' p data :
  parser_wf p -> final p = false -> (length data < fuel)%nat -> (length data < fuel')%nat ->
  read_loop fuel p data = read_loop fuel' p data.
Proof.
  revert fuel' p data. induction fuel as [|f IH]; intros [|f'] p data Hp Hfin Hf Hf'; try lia. cbn [read_loop].
  pose proof (feed_done_used p data Hp Hfin) as Hu. pose proof (feed_wf p data Hp) as Hw.
  pose proof (feed_used p data Hp) as Hle. destruct (feed p data) as [p1 n]. cbn [fst snd] in *. destruct (done p1); [|done].
  specialize (Hu eq_refl). cbn [take_request].
  rewrite (IH f' (reset p1) (drop n data)); [done|by apply parser_wf_reset|done|rewrite length_drop; lia..].
Qed.

(** Reading [a ++ b] when the parser has been fed [a]. *)
Lemma read_all_feed p a b p1 n :
  parser_wf p -> final p = false -> fits (a ++ b) -> feed p a = (p1, n) ->
  read_all p (a ++ b)
  = if done p1 then (req_ p1 :: (read_all (reset p1) (drop n a ++ b)).1, (read_all (reset p1) (drop n a ++ b)).2)
    else read_all p1 (drop n a ++ b).
Proof.
  intros Hp Hfin Hfit Hf. pose proof (feed_split p a b Hp Hfit) as Hs. pose proof (feed_wf p a Hp) as Hw. pose proof (feed_used p a Hp) as Hu.
  pose proof (feed_done_used p a Hp Hfin) as Hd. rewrite Hf in *. cbn [fst snd] in *. unfold read_all at 1. cbn [read_loop]. rewrite Hs.
  destruct (done p1) eqn:Ed.
  - specialize (Hd eq_refl). rewrite (feed_final p1) by (done || (unfold final; by rewrite Ed)). cbn [fst snd]. rewrite Ed, Nat.add_0_r.
    cbn [take_request]. rewrite drop_app_le by done. unfold read_all.
    rewrite (read_loop_fuel (length (a ++ b)) (S (length (drop n a ++ b)))); [by destruct (read_loop _ _ _)|by apply parser_wf_reset|done|..];
      rewrite ?length_app, ?length_drop; lia.
  - destruct (failed p1) eqn:Ef.
    { unfold read_all. cbn [read_loop]. rewrite !(feed_final p1) by (done || (unfold final; by rewrite Ef, orb_true_r)). cbn [fst snd]. by rewrite Ed. }
    unfold read_all. cbn [read_loop]. destruct (feed p1 (drop n a ++ b)) as [p2 m] eqn:E2. cbn [fst snd].
    destruct (done p2) eqn:Ed2; [|done]. cbn [take_request]. rewrite drop_split by done.
    assert (final p1 = false) as Hf1 by (unfold final; by rewrite Ed, Ef).
    pose proof (feed_done_used p1 (drop n a ++ b) Hw Hf1) as Hu2. pose proof (feed_used p1 (drop n a ++ b) Hw) as Hu3.
    pose proof (feed_wf p1 (drop n a ++ b) Hw) as Hw2. rewrite E2 in *. cbn [fst snd] in *. specialize (Hu2 Ed2).
    rewrite length_app, length_drop in Hu3.
    rewrite (read_loop_fuel (length (a ++ b)) (length (drop n a ++ b)) (reset p2)); [done|by apply parser_wf_reset|done|..];
      rewrite ?length_drop, ?length_app, ?length_drop; lia.
Qed.

(** A parser that has failed, or waits for more. *)
Lemma read_all_stuck p data : feed p data = (p, 0%nat) -> done p = false -> read_all p data = ([], p).
Proof. intros Hf Hd. unfold read_all. cbn [read_loop]. by rewrite Hf, Hd. Qed.

Lemma read_all_failed p data : parser_wf p -> failed p = true -> read_all p data = ([], p).
Proof.
  intros Hp Hf. apply read_all_stuck; [apply feed_final; [done|unfold final; by rewrite Hf, orb_true_r]|].
  unfold done, failed in *. by destruct (state_ p).
Qed.

(** [inp] has been read: [rs] were found, and the rest is what [p] has seen of the next request and [unread]. *)
Definition heard (l : ParserLimits) (inp : bytes) (rs : list Request) (p : RequestParser) (unread : bytes) : Prop :=
  (length unread <= length inp)%nat
  /\ forall more, fits (inp ++ more) ->
     read_all (RequestParser_new l) (inp ++ more) = (rs ++ (read_all p (unread ++ more)).1, (read_all p (unread ++ more)).2).

Lemma heard_new l : heard l [] [] (RequestParser_new l) [].
Proof. split; [done|]. intros more _. cbn [app]. by destruct (read_all _ _). Qed.

Lemma heard_more l inp rs p unread bs : heard l inp rs p unread -> heard l (inp ++ bs) rs p (unread ++ bs).
Proof.
  intros [Hl Hr]. split; [rewrite !length_app; lia|]. intros more Hf. rewrite <- !app_assoc in *. by apply Hr.
Qed.

Lemma heard_fits l inp rs p unread more : heard l inp rs p unread -> fits (inp ++ more) -> fits (unread ++ more).
Proof. intros [Hl _]. unfold fits. rewrite !zlen_app. unfold zlen. lia. Qed.

(** The parser is fed what is unread. *)
Lemma heard_feed l inp rs p unread p1 n :
  parser_wf p -> final p = false -> feed p unread = (p1, n) -> heard l inp rs p unread ->
  if done p1 then heard l inp (rs ++ [req_ p1]) (reset p1) (drop n unread) else heard l inp rs p1 (drop n unread).
Proof.
  intros Hp Hfin Hf Hh. destruct (done p1) eqn:Ed; (split; [rewrite length_drop; destruct Hh; lia|]); intros more Hm;
    rewrite (proj2 Hh more Hm), (read_all_feed p unread more p1 n Hp Hfin (heard_fits _ _ _ _ _ _ Hh Hm) Hf), Ed; [|done].
  cbn [fst snd]. by rewrite <- app_assoc.
Qed.

(** ** What the server says *)

(** A body that is produced while it is sent: the closure, the trailers it
    has set, how it is framed, and what is left of an announced length. *)
Record stream := mkStream { st_producer : BodyProducer; st_trailers : Headers; st_chunked : bool; st_sized : bool; st_left : Z }.

(** One call of the closure: whether there is more, and what it puts on the
    wire; never more than was announced, and never nothing while there is
    more. *)
Definition stream_piece (s : stream) : option (bool * bytes * stream) :=
  match produce (st_producer s) [] (st_trailers s) with
  | None => None
  | Some (more, piece, tr, q) =>
      if more && bool_decide (piece = []) then None
      else if st_sized s then
        let left := st_left s - zlen piece in
        if left <? 0 then None else Some (more && negb (left =? 0), piece, mkStream q tr (st_chunked s) true left)
      else Some (more, if st_chunked s then append_chunk [] piece else piece, mkStream q tr (st_chunked s) false (st_left s))
  end.

(** Several calls; the flag is whether there is more. *)
Inductive gives : stream -> bytes -> bool -> stream -> Prop :=
  | gives_none s : gives s [] true s
  | gives_last s t s' : stream_piece s = Some (false, t, s') -> gives s t false s'
  | gives_more s t s1 ts more s2 : stream_piece s = Some (true, t, s1) -> gives s1 ts more s2 -> gives s (t ++ ts) more s2.

Definition stream_end (s : stream) : bytes := if st_chunked s then append_last_chunk [] (st_trailers s) else [].
Definition stream_short (s : stream) : bool := st_sized s && negb (st_left s =? 0).

(** What is still to come of the body of a response. *)
Inductive source : Type := NoBody | FileBody (f off left : Z) | StreamBody (s : stream).

(** An answer comes with the text queued at once, the body still to come and
    whether it closes the connection; a rejection with the parser that failed.
    [Interim] is [100 Continue]. *)
Inductive utterance : Type :=
  | Answered (req : Request) (text : bytes) (s : source) (closes : bool)
  | Rejected (p : RequestParser) (text : bytes)
  | Interim
  | FilePiece (f off : Z) (bs : bytes)
  | StreamPiece (bs : bytes).

Definition text_of (u : utterance) : bytes :=
  match u with
  | Answered _ t _ _ => t
  | Rejected _ t => t
  | Interim => continue_line
  | FilePiece _ _ bs => bs
  | StreamPiece bs => bs
  end.

Definition requests_of (us : list utterance) : list Request :=
  us ≫= fun u => match u with Answered req _ _ _ => [req] | _ => [] end.

Definition said_text (us : list utterance) : bytes := us ≫= text_of.

(** The grammar; the flag is whether the connection is to be closed. *)
Inductive says : source * bool -> utterance -> source * bool -> Prop :=
  | says_answer req t s cl : says (NoBody, false) (Answered req t s cl) (s, cl)
  | says_reject p t : says (NoBody, false) (Rejected p t) (NoBody, true)
  | says_interim : says (NoBody, false) Interim (NoBody, false)
  | says_file f off left bs cl :
      0 < zlen bs < left -> says (FileBody f off left, cl) (FilePiece f off bs) (FileBody f (off + zlen bs) (left - zlen bs), cl)
  | says_file_end f off bs cl : 0 < zlen bs -> says (FileBody f off (zlen bs), cl) (FilePiece f off bs) (NoBody, cl)
  | says_piece s bs s' cl : gives s bs true s' -> says (StreamBody s, cl) (StreamPiece bs) (StreamBody s', cl)
  | says_piece_end s bs s' cl :
      gives s bs false s' -> says (StreamBody s, cl) (StreamPiece (bs ++ stream_end s')) (NoBody, cl || stream_short s').

Inductive follows : source * bool -> list utterance -> source * bool -> Prop :=
  | follows_nil s : follows s [] s
  | follows_cons s u s1 us s2 : says s u s1 -> follows s1 us s2 -> follows s (u :: us) s2.

Lemma follows_one s u s' : says s u s' -> follows s [u] s'.
Proof. intros Hs. eapply follows_cons; [exact Hs|constructor]. Qed.

Lemma follows_app s us s1 us' s2 : follows s us s1 -> follows s1 us' s2 -> follows s (us ++ us') s2.
Proof. induction 1 as [|s u s1 us s3 Hs _ IH]; [done|]. intros Hf. eapply follows_cons; [exact Hs|by apply IH]. Qed.

(** Nothing follows a response that closes the connection. *)
Lemma follows_closed us st : follows (NoBody, true) us st -> us = [].
Proof. intros H. inversion H as [|? ? ? ? ? Hs]; [done|]. inversion Hs. Qed.

(** The body of a file is sent whole, piece after piece, before anything else. *)
Lemma follows_file f off left cl us st :
  follows (FileBody f off left, cl) us st ->
  exists pieces rest, us = pieces ++ rest
    /\ Forall (fun u => match u with FilePiece f' _ _ => f' = f | _ => False end) pieces
    /\ (rest = [] /\ st.1 <> NoBody \/ zlen (said_text pieces) = left /\ follows (NoBody, cl) rest st).
Proof.
  intros H. remember (FileBody f off left, cl) as s0 eqn:E0. revert off left E0. induction H as [s|s u s1 us s2 Hs Hf IH]; intros off left ->.
  - exists [], []. split; [done|]. split; [constructor|]. by left.
  - inversion Hs as [| | |? ? ? bs ? Hb|? ? bs ? Hb| |]; subst.
    + destruct (IH _ _ eq_refl) as (ps & rest & -> & Hps & Hend). exists (FilePiece f off bs :: ps), rest. split; [done|].
      split; [by constructor|]. destruct Hend as [?|[Hz ?]]; [by left|right]. split; [|done].
      change (said_text (FilePiece f off bs :: ps)) with (bs ++ said_text ps). rewrite zlen_app. lia.
    + exists [FilePiece f off bs], us. split; [done|]. split; [by repeat constructor|]. right. split; [|done].
      unfold said_text. cbn. by rewrite app_nil_r.
Qed.

(** What a response leaves to be sent later, as [dispatch] decides. *)
Definition response_source (res : Response) (head_only : bool) (fr : Framing) : source :=
  if negb head_only && negb (bool_decide (fr = FramingNone)) then
    if fd_valid (file res) then if file_length res >? 0 then FileBody (file res) (file_offset res) (file_length res) else NoBody
    else match producer res with
         | Some q =>
             match stream_length res with
             | Some n => if n =? 0 then NoBody else StreamBody (mkStream q [] (bool_decide (fr = Chunked)) true n)
             | None => StreamBody (mkStream q [] (bool_decide (fr = Chunked)) false 0)
             end
         | None => NoBody
         end
  else NoBody.

(** Where the words come from: the routes, the parser's verdict, or the file at that offset. *)
Definition spoken {K} `{Kernel K} (router : Router K) (u : utterance) : Prop :=
  match u with
  | Answered req t s cl =>
      exists k draining date,
        let res := (Router.dispatch router k req Response_new).1 in
        let opts := mkHeadOptions (keep_alive req && negb draining) (is_http10 req) date in
        let head_only := bytes_eqb (method req) (B "HEAD") in
        let fr := (write_head [] res opts).2 in
        t = response_text res opts head_only /\ s = response_source res head_only fr
        /\ cl = (negb (keep_alive req && negb draining) || bool_decide (fr = CloseDelimited))
  | Rejected p t => failed p = true /\ exists date, t = error_text p date
  | FilePiece f off bs => exists k fd n k', sys_sendfile k fd f off n = (inl bs, k')
  | Interim | StreamPiece _ => True
  end.

(** [delivered k fd] is what [recv] has returned from [fd] so far. *)
Class InputLaws (K : Type) `{Kernel K} := {
  delivered : K -> Z -> bytes;
  recv_delivered : forall k fd n, delivered (sys_recv k fd n).2 fd
    = match (sys_recv k fd n).1 with inl bs => delivered k fd ++ bs | inr _ => delivered k fd end;
  send_delivered : forall k fd bs fd', delivered (sys_send k fd bs).2 fd' = delivered k fd';
  sendfile_delivered : forall k fd f off n fd', delivered (sys_sendfile k fd f off n).2 fd' = delivered k fd';
  shutdown_delivered : forall k fd fd', delivered (sys_shutdown k fd) fd' = delivered k fd';
  #[global] delivered_quiet fd :: QuietRel (fun k k' => delivered k' fd = delivered k fd) }.

(** ** A connection talks *)

Section Talk.
Context {T : Type} `{InBufferLaws T}.
Context {K : Type} `{KernelLaws K} `{!InputLaws K}.
Context (router_ : Router K) (now_us_ : Z) (draining_ : bool) (max_in_ : Z).
Context (Hrouter : router_ok router_) (Hhears : forall fd, router_rel (fun k k' => delivered k' fd = delivered k fd) router_).

#[local] Abbreviation Conn := (Connection T).
#[local] Abbreviation env := (Env K).

Definition stream_of (c : Conn) (q : BodyProducer) : stream :=
  mkStream q (c_trailers c) (c_chunked c) (c_stream_sized c) (c_stream_left c).

Definition source_of (c : Conn) : source :=
  if fd_valid (c_file c) then FileBody (c_file c) (c_file_off c) (c_file_left c)
  else match c_producer c with Some q => StreamBody (stream_of c q) | None => NoBody end.

Definition manner (c : Conn) : source * bool := (source_of c, c_close_after_write c).

(** What has been put on the wire, and what is queued. *)
Definition said (c : Conn) (e : env) : bytes := wire (e_kern e) (c_fd c) ++ pending c.

(** The invariant of connections, and that a response has one body. *)
Definition sound (c : Conn) : Prop := conn_ok c /\ (fd_valid (c_file c) = true -> c_producer c = None).

Lemma manner_sound (c c' : Conn) : conn_ok c' -> c_file c' = c_file c -> c_producer c' = c_producer c -> sound c -> sound c'.
Proof. intros Hok Hf Hp [_ Ho]. split; [done|]. by rewrite Hf, Hp. Qed.

Record talks (us : list utterance) (c : Conn) (e : env) (c' : Conn) (e' : env) : Prop := {
  tk_ok : sound c';
  tk_fd : c_fd c' = c_fd c;
  tk_heard : forall l rs, heard l (delivered (e_kern e) (c_fd c)) rs (c_parser c) (ib_readable (c_in c)) ->
    heard l (delivered (e_kern e') (c_fd c)) (rs ++ requests_of us) (c_parser c') (ib_readable (c_in c'));
  tk_said : said c' e' = said c e ++ said_text us;
  tk_follows : follows (manner c) us (manner c');
  tk_spoken : Forall (spoken router_) us;
  tk_rejected : forall p t, Rejected p t ∈ us -> c_parser c' = p /\ c_close_after_write c' = true;
  tk_closing : c_close_after_write c = true -> c_parser c' = c_parser c /\ c_close_after_write c' = true }.

Lemma talks_trans us us' c e c1 e1 c2 e2 : talks us c e c1 e1 -> talks us' c1 e1 c2 e2 -> talks (us ++ us') c e c2 e2.
Proof.
  intros Ha Hb. split.
  - apply Hb.
  - by rewrite (tk_fd _ _ _ _ _ Hb), (tk_fd _ _ _ _ _ Ha).
  - intros l rs Hh. apply (tk_heard _ _ _ _ _ Ha) in Hh. rewrite <- (tk_fd _ _ _ _ _ Ha) in Hh. apply (tk_heard _ _ _ _ _ Hb) in Hh.
    rewrite (tk_fd _ _ _ _ _ Ha) in Hh. unfold requests_of in *. by rewrite bind_app, app_assoc.
  - unfold said_text in *. by rewrite (tk_said _ _ _ _ _ Hb), (tk_said _ _ _ _ _ Ha), bind_app, <- app_assoc.
  - eapply follows_app; [apply Ha|apply Hb].
  - apply Forall_app. split; [apply Ha|apply Hb].
  - intros p t [Hin|Hin]%elem_of_app; [|by apply (tk_rejected _ _ _ _ _ Hb) in Hin].
    apply (tk_rejected _ _ _ _ _ Ha) in Hin as [<- Hcl]. by apply (tk_closing _ _ _ _ _ Hb).
  - intros Hcl. apply (tk_closing _ _ _ _ _ Ha) in Hcl as [<- Hcl]. by apply (tk_closing _ _ _ _ _ Hb).
Qed.

(** A step that says nothing and hears nothing. *)
Lemma talks_quiet (c : Conn) (e : env) c' e' :
  sound c' -> c_fd c' = c_fd c -> c_parser c' = c_parser c -> ib_readable (c_in c') = ib_readable (c_in c) ->
  delivered (e_kern e') (c_fd c) = delivered (e_kern e) (c_fd c) -> said c' e' = said c e -> manner c' = manner c -> talks [] c e c' e'.
Proof.
  intros Hok Hfd Hp Hin Hd Hs Hm. split; try done.
  - intros l rs. rewrite Hp, Hin, Hd. unfold requests_of. cbn. by rewrite app_nil_r.
  - rewrite Hs. unfold said_text. cbn. by rewrite app_nil_r.
  - rewrite Hm. constructor.
  - intros p t Hin'. by apply not_elem_of_nil in Hin'.
  - intros Hcl. split; [done|]. injection Hm as _ ->. done.
Qed.

Lemma talks_refl (c : Conn) (e : env) : sound c -> talks [] c e c e.
Proof. intros Hc. by apply talks_quiet. Qed.

(** *** Reading *)

Lemma do_read_talks fuel (c : Conn) (e : env) pr ok pr' c' e' :
  sound c -> max_in_ + kReadSize <= ib_max -> do_read now_us_ max_in_ fuel c e pr = Some (ok, pr', c', e') -> talks [] c e c' e'.
Proof.
  intros Hs Hmax. revert c e pr Hs. induction fuel as [|f IH]; intros c e pr Hs; pose proof (proj1 Hs) as Hc; cbn [do_read];
    rewrite (ib_size_readable (c_in c) (co_in c Hc));
    (destruct (Z.ltb_spec (zlen (ib_readable (c_in c))) max_in_) as [Hsz|Hsz]; [|intros [= _ _ <- <-]; by apply talks_refl]); [done|].
  pose proof (recv_wire (e_kern e) (c_fd c) kReadSize) as Hw. pose proof (recv_bound (e_kern e) (c_fd c) kReadSize) as Hb.
  pose proof (recv_delivered (e_kern e) (c_fd c) kReadSize) as Hd.
  destruct (sys_recv (e_kern e) (c_fd c) kReadSize) as [r k]. cbn [fst snd] in *.
  assert (delivered k (c_fd c) = delivered (e_kern e) (c_fd c) -> forall c1, sound c1 -> c_fd c1 = c_fd c -> c_parser c1 = c_parser c ->
    c_in c1 = c_in c -> pending c1 = pending c -> manner c1 = manner c -> talks [] c e c1 (set_kern k e)) as Hq.
  { intros Hdk c1 Hok Hfd Hp Hin Ho Hm. apply talks_quiet; try done; [by rewrite Hin|]. unfold said. by rewrite Hfd, Ho, <- Hw. }
  destruct r as [[|b0 bs]|[]].
  - intros [= _ _ <- <-]. apply Hq; try done; [by rewrite app_nil_r in Hd|]. apply (manner_sound c); try done. by destruct Hc.
  - destruct (ib_receive_spec (c_in c) kReadSize (b0 :: bs) (co_in c Hc)) as (b & -> & Hbw & Hbr); [by eapply Hb|lia|].
    set (c1 := set_last_active _ _). set (e1 := count _ _ _). assert (sound c1) as Hc1 by (apply (manner_sound c); try done; destruct Hc; by split).
    intros Hr. apply (IH c1 e1 true Hc1) in Hr. apply (talks_trans [] [] c e c1 e1); [|exact Hr].
    split; try done; [|unfold said, said_text; cbn; rewrite app_nil_r; by rewrite <- Hw|constructor|intros p t Hin; by apply not_elem_of_nil in Hin].
    intros l rs Hh. cbn [requests_of mbind list_bind]. rewrite app_nil_r. subst c1 e1. conn_simpl. rewrite Hbr, Hd. by apply heard_more.
  - intros Hr. apply (IH c (set_kern k e) pr Hs) in Hr. apply (talks_trans [] [] c e c (set_kern k e)); [by apply Hq|exact Hr].
  - intros [= _ _ <- <-]. apply Hq; try done. apply (manner_sound c); try done. by destruct Hc.
  - intros [= _ _ <- <-]. by apply Hq.
Qed.

(** *** Parsing and dispatching *)

Lemma queued_said t (c c' : Conn) (e e' : env) :
  conn_ok c -> queued t c c' -> (forall fd, wire (e_kern e') fd = wire (e_kern e) fd) -> said c' e' = said c e ++ t.
Proof.
  intros Hc [Ho Hoff Hfd] Hw. unfold said, pending. rewrite Ho, Hoff, Hfd, Hw, drop_app_le, app_assoc; [done|].
  destruct (co_off c Hc) as [[-> ->]|]; cbn; lia.
Qed.

(** The body source and the flag a dispatched response leaves. *)
Lemma dispatch_manner (c : Conn) req (e : env) res k date e1 :
  Router.dispatch router_ (e_kern e) req Response_new = (res, k) -> get_date (set_kern k e) = (date, e1) -> manner c = (NoBody, false) ->
  let keep := keep_alive req && negb draining_ in
  let fr := (write_head [] res (mkHeadOptions keep (is_http10 req) date)).2 in
  let c' := (dispatch router_ draining_ c req e).1 in
  manner c' = (response_source res (bytes_eqb (method req) (B "HEAD")) fr, negb keep || bool_decide (fr = CloseDelimited))
  /\ (fd_valid (c_file c') = true -> c_producer c' = None).
Proof.
  intros Er Ed [= Hsrc Hcl]. cbn zeta. unfold dispatch. rewrite Er, Ed, write_head_append.
  set (fr := (write_head [] res _).2). set (t := (write_head [] res _).1).
  set (cl := negb (keep_alive req && negb draining_) || bool_decide (fr = CloseDelimited)).
  assert (fd_valid (c_file c) = false /\ c_producer c = None) as [Hf Hp]
    by (unfold source_of in Hsrc; destruct (fd_valid (c_file c)); [done|by destruct (c_producer c)]).
  set (c2 := if cl then set_close_after_write _ else _).
  assert (c_file c2 = c_file c /\ c_producer c2 = None /\ c_close_after_write c2 = cl) as (Hf2 & Hp2 & Hcl2)
    by (subst c2; destruct cl; conn_simpl; auto).
  clearbody c2. unfold response_source, record_response. rewrite Hf2, Hf.
  destruct (negb (bytes_eqb (method req) (B "HEAD")) && negb (bool_decide (fr = FramingNone)));
    [|cbn [fst]; unfold manner, source_of; conn_simpl; by rewrite Hf2, Hf, Hp2, Hcl2].
  destruct (fd_valid (file res)) eqn:Ev; [destruct (file_length res >? 0)|destruct (producer res) as [pr|]];
    cbn [fst]; unfold manner, source_of; conn_simpl; rewrite ?Ev, ?Hf2, ?Hf, ?Hp2, ?Hcl2; try done.
  split; [|done]. destruct (stream_length res) as [n|]; cbn [andb negb]; [|done]. by destruct (n =? 0).
Qed.

Lemma dispatch_talks (c : Conn) req (e : env) :
  conn_ok c -> manner c = (NoBody, false) ->
  let '(c', e') := dispatch router_ draining_ c req e in
  sound c' /\ delivered (e_kern e') (c_fd c) = delivered (e_kern e) (c_fd c) /\ (forall fd, wire (e_kern e') fd = wire (e_kern e) fd)
  /\ exists t s cl, queued t c c' /\ spoken router_ (Answered req t s cl) /\ manner c' = (s, cl).
Proof.
  intros Hc Hm. assert (body_source_active c = false) as Hb.
  { injection Hm as Hs _. unfold source_of, body_source_active in *. destruct (fd_valid (c_file c)); [done|]. by destruct (c_producer c). }
  pose proof (dispatch_queues router_ draining_ Hrouter c req e Hc Hb) as Hq.
  pose proof (dispatch_rel _ router_ (Hhears (c_fd c)) draining_ c req e) as Hd.
  destruct (Router.dispatch router_ (e_kern e) req Response_new) as [res k] eqn:Er.
  pose proof (fun date e1 He => dispatch_manner c req e res k date e1 Er He Hm) as Hmn. cbn zeta in Hmn.
  destruct (dispatch router_ draining_ c req e) as [c' e']. destruct Hq as ((date & Hq & Hdate) & Hok & Hw).
  destruct (Hmn _ _ Hdate) as [Hmn' Hone]. split; [done|]. split; [exact Hd|]. split; [done|].
  do 3 eexists. split; [exact Hq|]. split; [|exact Hmn'].
  exists (e_kern e), draining_, date. by rewrite Er.
Qed.

(** An utterance that is queued. *)
Lemma talks_queued u t (c c' : Conn) (e e' : env) p unread :
  sound c' -> c_fd c' = c_fd c -> delivered (e_kern e') (c_fd c) = delivered (e_kern e) (c_fd c) -> text_of u = t -> said c' e' = said c e ++ t ->
  c_parser c' = p -> ib_readable (c_in c') = unread -> c_close_after_write c = false ->
  says (manner c) u (manner c') -> spoken router_ u ->
  (forall q s, u = Rejected q s -> p = q) ->
  (forall l rs, heard l (delivered (e_kern e) (c_fd c)) rs (c_parser c) (ib_readable (c_in c)) ->
     heard l (delivered (e_kern e) (c_fd c)) (rs ++ requests_of [u]) p unread) -> talks [u] c e c' e'.
Proof.
  intros Hok Hfd Hd <- Hs <- <- Hcl Hsays Hsp Hrej Hh. split; try done.
  - intros l rs Hrs. rewrite Hd. by apply Hh.
  - rewrite Hs. unfold said_text. cbn. by rewrite app_nil_r.
  - by apply follows_one.
  - by constructor.
  - intros q s Hin%list_elem_of_singleton. subst u. split; [by eapply Hrej|]. by inversion Hsays.
  - congruence.
Qed.

Lemma queue_error_manner (c : Conn) s d (e : env) :
  let c' := (queue_error c s d e).1 in c_file c' = c_file c /\ c_producer c' = c_producer c /\ manner c' = (source_of c, true).
Proof. unfold queue_error. destruct (get_date e), (write_head _ _ _). done. Qed.

Lemma idle_manner (c : Conn) : c_close_after_write c = false -> body_source_active c = false -> manner c = (NoBody, false).
Proof.
  unfold manner, source_of, body_source_active. intros -> [-> Hp]%orb_false_elim. by destruct (c_producer c).
Qed.

(** The parser rejects what it is fed. *)
Lemma reject_talks (c : Conn) (e : env) t0 p used :
  sound c -> manner c = (NoBody, false) -> final (c_parser c) = false -> feed (c_parser c) (ib_readable (c_in c)) = (p, used) -> failed p = true ->
  let '(c', e') := queue_error (set_input (ib_consume (c_in c) (Z.of_nat used)) p (set_request_start t0 c)) (status_for (error_ p))
    (error_detail_ p) (count Field.parse_errors 1 e) in
  exists t, talks [Rejected p t] c e c' e'.
Proof.
  intros Hsd Hm Hfin Hf Hfail. pose proof (proj1 Hsd) as Hc. injection Hm as Hsrc Hcl.
  destruct (feed_step c e t0 Hc Hcl) as (_ & Hin & _ & Hu). rewrite Hf in Hin, Hu. cbn [fst snd] in *.
  pose proof (feed_wf (c_parser c) (ib_readable (c_in c)) (co_parser c Hc)) as Hwf. rewrite Hf in Hwf. cbn [fst] in Hwf.
  set (c1 := set_input _ p _) in *. rewrite <- queue_error_close.
  assert (ib_wf (ib_consume (c_in c) (Z.of_nat used))) as Hib by (apply ib_consume_spec; [apply Hc|unfold zlen; lia]).
  assert (conn_ok (set_close_after_write c1)) as Hc1 by (by apply conn_ok_failed).
  pose proof (queue_error_spec (set_close_after_write c1) p (count Field.parse_errors 1 e) Hc1) as Hq.
  pose proof (queue_error_manner (set_close_after_write c1) (status_for (error_ p)) (error_detail_ p) (count Field.parse_errors 1 e))
    as (Hfl & Hpr & Hmn).
  pose proof (queue_error_rel (fun k k' : K => delivered k' (c_fd c) = delivered k (c_fd c)) (set_close_after_write c1) (status_for (error_ p))
    (error_detail_ p) (count Field.parse_errors 1 e)) as Hd.
  destruct (queue_error (set_close_after_write c1) _ _ _) as [c' e']. destruct Hq as ((date & Hq) & Hok & _ & Hw). cbn [fst snd] in *.
  exists (error_text p date). apply (talks_queued _ (error_text p date) c c' e e' p (drop used (ib_readable (c_in c)))); try done.
  - by apply (manner_sound c).
  - by rewrite (q_fd _ _ _ Hq).
  - by rewrite (queued_said _ _ _ _ _ Hc1 Hq Hw).
  - by rewrite (q_parser _ _ _ Hq).
  - by rewrite (q_in _ _ _ Hq).
  - rewrite Hmn. unfold manner. rewrite Hsrc, Hcl. change (source_of (set_close_after_write c1)) with (source_of c). rewrite Hsrc. constructor.
  - split; [done|by exists date].
  - by intros q s [= <- _].
  - intros l rs Hh. unfold requests_of. cbn. rewrite app_nil_r. apply (heard_feed _ _ _ _ _ p used) in Hh; [|apply Hc|done|done].
    unfold done in Hh. unfold failed in Hfail. by destruct (state_ p).
Qed.

(** The parser wants more. *)
Lemma wait_talks (c : Conn) (e : env) t0 p used :
  sound c -> manner c = (NoBody, false) -> final (c_parser c) = false -> feed (c_parser c) (ib_readable (c_in c)) = (p, used) -> final p = false ->
  talks [] c e (set_input (ib_consume (c_in c) (Z.of_nat used)) p (set_request_start t0 c)) e.
Proof.
  intros Hsd Hm Hfin Hf Hp. pose proof (proj1 Hsd) as Hc. injection Hm as _ Hcl.
  destruct (feed_step c e t0 Hc Hcl) as (_ & Hin & Hok & _). rewrite Hf in Hin, Hok. cbn [fst snd] in *.
  split; try done; [by apply (manner_sound c); [apply Hok|..]| | |constructor|intros q t Hx; by apply not_elem_of_nil in Hx|congruence].
  - intros l rs Hh. unfold requests_of. cbn [mbind list_bind]. rewrite app_nil_r, Hin. apply (heard_feed _ _ _ _ _ p used) in Hh; [|apply Hc|done|done].
    unfold final in Hp. apply orb_false_elim in Hp as [Hd _]. by rewrite Hd in Hh.
  - unfold said_text, said. cbn. by rewrite app_nil_r.
Qed.

(** A request is complete. *)
Lemma answer_talks (c : Conn) (e : env) t0 p used :
  sound c -> manner c = (NoBody, false) -> final (c_parser c) = false -> feed (c_parser c) (ib_readable (c_in c)) = (p, used) -> done p = true ->
  let c1 := set_input (ib_consume (c_in c) (Z.of_nat used)) p (set_request_start t0 c) in
  let '(c', e') := dispatch router_ draining_ (set_input (c_in c1) (reset p) c1) (req_ p) e in
  exists t s cl, talks [Answered (req_ p) t s cl] c e (set_continue_sent false c') e'.
Proof.
  intros Hsd Hm Hfin Hf Hdone c1. pose proof (proj1 Hsd) as Hc. injection Hm as Hsrc Hcl.
  destruct (feed_step c e t0 Hc Hcl) as (_ & Hin & _ & Hu). rewrite Hf in Hin, Hu. cbn [fst snd] in *.
  pose proof (feed_wf (c_parser c) (ib_readable (c_in c)) (co_parser c Hc)) as Hwf. rewrite Hf in Hwf. cbn [fst] in Hwf.
  set (c2 := set_input (c_in c1) (reset p) c1).
  assert (conn_ok c2) as Hc2.
  { assert (ib_wf (ib_consume (c_in c) (Z.of_nat used))) by (apply ib_consume_spec; [apply Hc|unfold zlen; lia]).
    destruct Hc. split; try done. by apply parser_wf_reset. }
  assert (manner c2 = (NoBody, false)) as Hm2 by (unfold manner; rewrite <- Hsrc, <- Hcl; done).
  pose proof (dispatch_talks c2 (req_ p) e Hc2 Hm2) as Hd. destruct (dispatch router_ draining_ c2 (req_ p) e) as [c' e'].
  destruct Hd as (Hok & Hdl & Hw & t & s & cl & Hq & Hsp & Hmn). exists t, s, cl.
  apply (talks_queued _ t c (set_continue_sent false c') e e' (reset p) (drop used (ib_readable (c_in c)))); try done.
  - apply (manner_sound c'); try done. by apply conn_ok_continue, Hok.
  - conn_simpl. by rewrite (q_fd _ _ _ Hq).
  - change (said (set_continue_sent false c') e') with (said c' e'). by rewrite (queued_said _ _ _ _ _ Hc2 Hq Hw).
  - conn_simpl. by rewrite (q_parser _ _ _ Hq).
  - conn_simpl. by rewrite (q_in _ _ _ Hq).
  - change (manner (set_continue_sent false c')) with (manner c'). rewrite Hmn. unfold manner. rewrite Hsrc, Hcl. constructor.
  - intros l rs Hh. apply (heard_feed _ _ _ _ _ p used) in Hh; [|apply Hc|done|done]. by rewrite Hdone in Hh.
Qed.

(** No complete request is in the buffer. *)
Definition nothing_waits (c : Conn) : Prop := (read_all (c_parser c) (ib_readable (c_in c))).1 = [].

Lemma nothing_waits_feed (c : Conn) : done (feed (c_parser c) (ib_readable (c_in c))).1 = false -> nothing_waits c.
Proof. unfold nothing_waits, read_all. cbn [read_loop]. destruct (feed _ _) as [p n]. cbn [fst]. by intros ->. Qed.

Lemma nothing_waits_empty (c : Conn) :
  parser_wf (c_parser c) -> final (c_parser c) = false -> ib_readable (c_in c) = [] -> nothing_waits c.
Proof.
  intros Hp Hf He. apply nothing_waits_feed. rewrite He. pose proof (feed_used (c_parser c) [] Hp) as Hu.
  pose proof (feed_done_used (c_parser c) [] Hp Hf) as Hd. destruct (done _); [|done]. specialize (Hd eq_refl). cbn in Hu. lia.
Qed.

Lemma open_parser (c : Conn) : conn_ok c -> c_close_after_write c = false -> final (c_parser c) = false.
Proof. intros Hc Hcl. destruct (final (c_parser c)) eqn:E; [|done]. apply (co_idle c Hc) in E. congruence. Qed.

Lemma process_round_talks (c : Conn) (e : env) (progress : bool) :
  sound c ->
  match process_round router_ now_us_ draining_ c e progress with
  | inl (c', e') => exists us, talks us c e c' e'
  | inr (b, c', e') =>
      (exists us, talks us c e c' e') /\ (progress = true -> b = true) /\ (b = false -> stopped c' \/ nothing_waits c')
  end.
Proof.
  intros Hsd. pose proof (proj1 Hsd) as Hc. unfold process_round.
  destruct (c_close_after_write c || body_source_active c || negb (Z.of_nat (out_pending c) <? kOutHighWater)) eqn:Eg.
  { split; [exists []; by apply talks_refl|]. split; [done|]. intros _. left. unfold stopped. bool_hyps.
    apply orb_prop in Eg as [[?|?]%orb_prop|?%negb_true_iff]; [by left|by right; left|]. right; right. lia. }
  bool_hyps. pose proof (open_parser c Hc ltac:(done)) as Hfin. pose proof (idle_manner c ltac:(done) ltac:(done)) as Hm.
  destruct (ib_readable (c_in c)) as [|b0 bs] eqn:Edata.
  { split; [exists []; by apply talks_refl|]. split; [done|]. intros _. right. by apply nothing_waits_empty; [apply Hc|..]. }
  rewrite <- Edata in *. rewrite start_if. conn_simpl. generalize (if c_request_start_us c =? 0 then now_us_ else c_request_start_us c). intros t0.
  pose proof (feed_stuck (c_parser c) (ib_readable (c_in c)) (co_parser c Hc)) as Hstuck.
  destruct (feed (c_parser c) (ib_readable (c_in c))) as [p used] eqn:Ef. cbn [fst snd] in *. destruct (failed p) eqn:Hfp.
  { pose proof (reject_talks c e t0 p used Hsd Hm Hfin Ef Hfp) as Hr. destruct (queue_error _ _ _ _) as [c' e']. destruct Hr as [t Ht].
    split; [by exists [Rejected p t]|done]. }
  pose proof (wait_talks c e t0 p used Hsd Hm Hfin Ef) as Hwait. set (c1 := set_input _ p _) in *. destruct (done p) eqn:Hd; cbn [negb].
  { rewrite andb_false_r. cbn [take_request]. pose proof (answer_talks c e t0 p used Hsd Hm Hfin Ef Hd) as Ha. cbn zeta in Ha. fold c1 in Ha.
    destruct (dispatch _ _ _ _ _) as [c' e']. destruct Ha as (t & s & cl & Ha). by eexists. }
  specialize (Hwait ltac:(unfold final; by rewrite Hd, Hfp)). rewrite andb_true_r. destruct (_ && _ && _).
  - split; [|done]. exists ([] ++ [Interim]). eapply talks_trans; [exact Hwait|].
    pose proof (tk_ok _ _ _ _ _ Hwait) as Hok1.
    apply (talks_queued Interim continue_line c1 _ e e (c_parser c1) (ib_readable (c_in c1))); try done.
    + apply (manner_sound c1); try done. by apply conn_ok_continue, conn_ok_append, Hok1.
    + change (said (set_continue_sent true (append_out continue_line c1)) e) with (said (append_out continue_line c1) e).
      apply queued_said; [apply Hok1|apply (queued_append [] continue_line c1 c1), queued_refl|done].
    + change (manner (set_continue_sent true (append_out continue_line c1))) with (manner c). change (manner c1) with (manner c). rewrite Hm. constructor.
    + intros l rs Hh. unfold requests_of. cbn. by rewrite app_nil_r.
  - split; [by eexists|]. split; [by intros ->|]. intros Hb. right. apply orb_false_elim in Hb as [_ Hb%negb_false_iff%Nat.eqb_eq]. subst used.
    destruct (Hstuck eq_refl) as [->|]; [|congruence]. unfold nothing_waits, read_all. subst c1. conn_simpl.
    destruct (ib_consume_spec (c_in c) 0) as [_ Hir]; [apply Hc|unfold zlen; lia|]. change (Z.of_nat 0) with 0. rewrite Hir. change (drop (Z.to_nat 0) ?x) with x.
    cbn [read_loop]. by rewrite Ef, Hd.
Qed.

Lemma process_talks (c : Conn) (e : env) b c' e' :
  sound c -> process router_ now_us_ draining_ c e = (b, c', e') ->
  (exists us, talks us c e c' e') /\ (b = false -> stopped c' \/ nothing_waits c').
Proof.
  intros Hc Hp. pose proof (process_spec router_ now_us_ draining_ Hrouter c e (proj1 Hc)) as Hs. rewrite Hp in Hs. destruct Hs as (Hl & _). clear Hp.
  enough (forall fuel c e progress, sound c -> process_loop router_ now_us_ draining_ fuel c e progress = Some (b, c', e') ->
    (exists us, talks us c e c' e') /\ (progress = true -> b = true) /\ (b = false -> stopped c' \/ nothing_waits c')) as Hgo
    by (by destruct (Hgo _ _ _ _ Hc Hl) as (? & _ & ?)).
  clear c e Hc Hl. induction fuel as [|f IH]; intros c e progress Hc; cbn [process_loop]; [done|].
  pose proof (process_round_talks c e progress Hc) as Hr. destruct (process_round _ _ _ _ _ _) as [[c1 e1]|[[b1 c1] e1]]; [|by intros [= <- <- <-]].
  destruct Hr as [us Hus]. intros Hl. destruct (IH _ _ _ (tk_ok _ _ _ _ _ Hus) Hl) as ([us' Hus'] & Ht & Hw).
  split; [exists (us ++ us'); by eapply talks_trans|]. split; [intros _; by apply Ht|done].
Qed.

(** *** Writing *)

Lemma pending_nil (c : Conn) : out_pending c = 0%nat -> pending c = [].
Proof. intros Hp. rewrite pending_length in Hp. by apply length_zero_iff_nil. Qed.

Lemma send_round_talks (c : Conn) (e : env) (pr : bool) w pr' c' e' :
  sound c -> (0 < out_pending c)%nat -> write_round now_us_ c e pr = (w, pr', c', e') -> talks [] c e c' e'.
Proof.
  intros Hs Hp Hr. pose proof (write_round_spec now_us_ max_in_ (fun _ => []) c e pr w pr' c' e' (proj1 Hs) Hr) as [_ Hok]. revert Hr.
  unfold write_round. rewrite (proj2 (Nat.ltb_lt _ _) Hp). fold (pending c).
  pose proof (send_delivered (e_kern e) (c_fd c) (pending c) (c_fd c)) as Hd.
  destruct (sys_send (e_kern e) (c_fd c) (pending c)) as [[n|x] k] eqn:Es; cbn [snd] in Hd.
  - apply send_spec in Es as [Hn Hw]. set (sent := after_send (Z.to_nat n) (set_last_active now_us_ c)).
    assert (pending sent = drop (Z.to_nat n) (pending c)) as Hpend.
    { apply (after_send_pending (Z.to_nat n) (set_last_active now_us_ c)); [by destruct Hs as [[] _]|].
      change (pending (set_last_active now_us_ c)) with (pending c). unfold zlen in Hn. lia. }
    assert (forall v : Conn, v = sent \/ v = set_can_write false sent -> conn_ok v -> talks [] c e v (count Field.bytes_sent n (set_kern k e))) as Hgo.
    { intros v Hv Hvo. assert (pending v = drop (Z.to_nat n) (pending c) /\ c_fd v = c_fd c /\ c_parser v = c_parser c /\ c_in v = c_in c
        /\ manner v = manner c /\ c_file v = c_file c /\ c_producer v = c_producer c) as (Hpv & Hfd & Hpp & Hin & Hm & Hf & Hpr).
      { destruct Hv as [->| ->]; (split; [exact Hpend|]); unfold sent, after_send; by repeat case_match. }
      apply talks_quiet; try done; [by apply (manner_sound c)|by rewrite Hin|].
      unfold said. rewrite Hpv, Hfd. conn_simpl. by rewrite Hw, <- app_assoc, take_drop. }
    destruct (_ <? _)%nat; intros [= _ _ <- <-]; apply Hgo; auto.
  - apply send_error in Es. destruct x; intros [= _ _ <- <-]; apply talks_quiet; try done;
      first [by apply (manner_sound c)|unfold said, pending; conn_simpl; by rewrite Es].
Qed.

(** A piece of the file goes straight to the socket. *)
Lemma file_talks bs (c v : Conn) (e e1 : env) :
  sound v -> says (manner c) (FilePiece (c_file c) (c_file_off c) bs) (manner v) -> c_close_after_write v = c_close_after_write c ->
  c_fd v = c_fd c -> c_in v = c_in c -> c_parser v = c_parser c -> pending v = [] -> pending c = [] ->
  wire (e_kern e1) (c_fd c) = wire (e_kern e) (c_fd c) ++ bs -> delivered (e_kern e1) (c_fd c) = delivered (e_kern e) (c_fd c) ->
  spoken router_ (FilePiece (c_file c) (c_file_off c) bs) -> talks [FilePiece (c_file c) (c_file_off c) bs] c e v e1.
Proof.
  intros Hv Hsays Hcl Hfd Hin Hpp Hpv Hpc Hw Hd Hsp. split; try done.
  - intros l rs. rewrite Hd, Hin, Hpp. unfold requests_of. cbn. by rewrite app_nil_r.
  - unfold said, said_text. rewrite Hpv, Hpc, Hfd, Hw. cbn. by rewrite !app_nil_r.
  - by apply follows_one.
  - by constructor.
  - intros q t Hx%list_elem_of_singleton. done.
  - by rewrite Hcl, Hpp.
Qed.

Lemma sendfile_round_talks (c : Conn) (e : env) (pr : bool) w pr' c' e' :
  sound c -> out_pending c = 0%nat -> fd_valid (c_file c) = true -> write_round now_us_ c e pr = (w, pr', c', e') ->
  exists us, talks us c e c' e'.
Proof.
  intros Hs Hp Hf Hr. pose proof (write_round_spec now_us_ max_in_ (fun _ => []) c e pr w pr' c' e' (proj1 Hs) Hr) as [_ Hok]. revert Hr.
  unfold write_round. rewrite Hp, Hf. cbn [Nat.ltb Nat.leb]. destruct (co_file c (proj1 Hs) Hf) as [Hleft Hoff]. pose proof (proj2 Hs Hf) as Hnp.
  pose proof (sendfile_delivered (e_kern e) (c_fd c) (c_file c) (c_file_off c) (Z.min (c_file_left c) kSendfileMax) (c_fd c)) as Hd.
  destruct (sys_sendfile _ _ _ _ _) as [[bs|x] k] eqn:Es; cbn [snd] in Hd.
  2:{ apply sendfile_error in Es. destruct x; intros [= _ _ <- <-]; exists []; apply talks_quiet; try done;
        first [by apply (manner_sound c)|unfold said, pending; conn_simpl; by rewrite Es]. }
  assert (spoken router_ (FilePiece (c_file c) (c_file_off c) bs)) as Hsp by (do 4 eexists; exact Es).
  apply sendfile_spec in Es as [Hn Hw]. destruct bs as [|b0 bs'].
  { intros [= _ _ <- <-]. exists []. apply talks_quiet; try done. unfold said. conn_simpl. by rewrite Hw, app_nil_r. }
  set (bs := b0 :: bs') in *. assert (0 < zlen bs) as Hpos by (unfold zlen; cbn; lia). rewrite (u64_small (c_file_left c - zlen bs)) by lia.
  assert (source_of c = FileBody (c_file c) (c_file_off c) (c_file_left c)) as Hsrc by (unfold source_of; by rewrite Hf).
  pose proof (pending_nil c Hp) as Hpc.
  destruct (Z.eqb_spec (c_file_left c - zlen bs) 0) as [He|He]; [|destruct (_ <? _)]; intros [= _ _ <- <-];
    exists [FilePiece (c_file c) (c_file_off c) bs]; apply file_talks; try done; unfold manner; rewrite ?Hsrc.
  - replace (c_file_left c) with (zlen bs) by lia. unfold source_of. conn_simpl. rewrite Hnp. by apply says_file_end.
  - conn_simpl. by rewrite close_wire.
  - conn_simpl. rewrite <- Hd. apply (rel_close (R := fun a b : K => delivered b (c_fd c) = delivered a (c_fd c))).
  - unfold source_of. conn_simpl. rewrite Hf. constructor. lia.
  - unfold source_of. conn_simpl. rewrite Hf. constructor. lia.
Qed.

(** One round of a refill is one call. *)
Lemma refill_round_piece (c : Conn) q more c' :
  stream_ok c -> c_producer c = Some q -> refill_round c = Some (more, c') ->
  exists t q', stream_piece (stream_of c q) = Some (more, t, stream_of c' q') /\ c_producer c' = Some q' /\ c_out c' = c_out c ++ t
    /\ c_close_after_write c' = c_close_after_write c.
Proof.
  intros Hs Hq. unfold refill_round, stream_piece, stream_of, stream_ok in *. rewrite Hq.
  cbn [st_producer st_trailers st_chunked st_sized st_left].
  destruct (produce q [] (c_trailers c)) as [[[[m piece] tr] q']|]; [|done].
  replace (bool_decide (piece = [])) with (match piece with [] => true | _ => false end) by (by destruct piece).
  destruct (m && _); [done|]. conn_simpl. pose proof (zlen_nonneg piece) as Hz. destruct (c_stream_sized c).
  - specialize (Hs eq_refl). destruct (Z.gtb_spec (zlen piece) (c_stream_left c)); [done|]. rewrite u64_small by lia.
    destruct (Z.ltb_spec (c_stream_left c - zlen piece) 0); [lia|]. intros [= <- <-]. exists piece, q'. conn_simpl.
    split; [|done]. by destruct (_ =? 0), m.
  - destruct (c_chunked c) eqn:Ech; intros [= <- <-]; do 2 eexists; conn_simpl; rewrite ?Ech; (split; [reflexivity|]); [|done].
    by rewrite append_chunk_app.
Qed.

Lemma refill_loop_gives fuel (c : Conn) q more c' :
  stream_ok c -> c_producer c = Some q -> refill_loop fuel c true = Some (more, c') ->
  exists t q', gives (stream_of c q) t more (stream_of c' q') /\ c_producer c' = Some q' /\ c_out c' = c_out c ++ t
    /\ c_close_after_write c' = c_close_after_write c.
Proof.
  revert c q. induction fuel as [|f IH]; intros c q Hs Hq; cbn [refill_loop andb];
    (destruct (_ <? _); [|intros [= <- <-]; exists [], q; rewrite app_nil_r; by split; [constructor|]]); [done|].
  destruct (refill_round c) as [[m1 c1]|] eqn:Er; [|done].
  destruct (refill_round_piece c q m1 c1 Hs Hq Er) as (t & q1 & Hp & Hq1 & Ho & Hcl). destruct m1.
  - intros Hl. assert (stream_ok c1) as Hs1.
    { apply refill_round_spec in Er as (t1 & q2 & tr & left & -> & _ & Hleft); [|done]. unfold stream_ok. conn_simpl. intros Hsz.
      specialize (Hleft Hsz) as (? & _ & Hpos). specialize (Hpos eq_refl). lia. }
    destruct (IH c1 q1 Hs1 Hq1 Hl) as (ts & q2 & Hg & Hq2 & Ho2 & Hcl2). exists (t ++ ts), q2.
    split; [by eapply gives_more|]. split; [done|]. split; [by rewrite Ho2, Ho, app_assoc|congruence].
  - rewrite refill_loop_false. intros [= <- <-]. exists t, q1. by split; [constructor|].
Qed.

(** A refill says a piece of the stream, the last one with its end. *)
Lemma refill_says (c c' : Conn) q :
  conn_ok c -> c_producer c = Some q -> fd_valid (c_file c) = false -> c_file c' = c_file c -> c_out c = [] -> refill_from_producer c = Some c' ->
  says (manner c) (StreamPiece (c_out c')) (manner c').
Proof.
  intros Hc Hq Hf Hf' Ho. unfold refill_from_producer. destruct (refill_loop refill_fuel c true) as [[more c1]|] eqn:El; [|done].
  destruct (refill_loop_gives _ c q more c1 ltac:(intros Hsz; apply (co_stream c Hc); [by rewrite Hq|done]) Hq El) as (t & q1 & Hg & Hq1 & Ho1 & Hcl).
  rewrite Ho in Ho1. cbn [app] in Ho1. unfold manner, source_of. rewrite Hf', Hf, Hq. destruct more; intros [= <-].
  - rewrite Hq1, Hcl, Ho1. by constructor.
  - rewrite finish_stream_eq. conn_simpl. rewrite Hcl, Ho1.
    replace (if c_chunked c1 then _ else _) with (t ++ stream_end (stream_of c1 q1)); [by apply says_piece_end|].
    unfold stream_end, stream_of. cbn [st_chunked st_trailers]. destruct (c_chunked c1); [by rewrite <- append_last_chunk_out|apply app_nil_r].
Qed.

Lemma producer_round_talks (c : Conn) (e : env) (pr : bool) w pr' c' e' :
  sound c -> out_pending c = 0%nat -> fd_valid (c_file c) = false -> write_round now_us_ c e pr = (w, pr', c', e') ->
  exists us, talks us c e c' e'.
Proof.
  intros Hs Hp Hf. unfold write_round. rewrite Hp, Hf. cbn [Nat.ltb Nat.leb]. destruct (c_producer c) as [q|] eqn:Epr;
    [|intros [= _ _ <- <-]; exists []; by apply talks_refl].
  destruct (refill_from_producer c) as [c1|] eqn:Er; intros [= _ _ <- <-]; [|exists []; by apply talks_refl].
  destruct (pending_nil_out c (proj1 Hs) Hp) as [Ho Hoff].
  destruct (refill_spec c c1 (proj1 Hs) ltac:(by rewrite Epr) Ho Er) as (Hoff1 & [Hfd [Hin Hpp] [Hf1 _] _ _ _ Hcl] & Hok & _ & _).
  pose proof (refill_says c c1 q (proj1 Hs) Epr Hf Hf1 Ho Er) as Hsays.
  exists [StreamPiece (c_out c1)]. split; try done.
  - split; [done|]. rewrite Hf1. congruence.
  - intros l rs. rewrite Hin, Hpp. unfold requests_of. cbn. by rewrite app_nil_r.
  - unfold said, said_text, pending. rewrite Hoff1, Hoff, Ho, Hfd. cbn. by rewrite !app_nil_r.
  - by apply follows_one.
  - by constructor.
  - intros p t Hx%list_elem_of_singleton. done.
  - intros Hc. split; [done|by apply Hcl].
Qed.

Lemma do_write_talks fuel (c : Conn) (e : env) pr ok pr' c' e' :
  sound c -> do_write now_us_ fuel c e pr = Some (ok, pr', c', e') -> exists us, talks us c e c' e'.
Proof.
  revert c e pr. induction fuel as [|f IH]; intros c e pr Hs; cbn [do_write];
    (destruct (c_can_write c); [|intros [= _ _ <- <-]; exists []; by apply talks_refl]); [done|].
  destruct (write_round now_us_ c e pr) as [[[w pr1] c1] e1] eqn:Ew.
  assert (exists us, talks us c e c1 e1) as [us Hus].
  { destruct (Nat.eq_0_gt_0_cases (out_pending c)) as [Hp|Hp]; [|exists []; by eapply send_round_talks].
    destruct (fd_valid (c_file c)) eqn:Hf; [by eapply sendfile_round_talks|by eapply producer_round_talks]. }
  destruct w; [|intros [= _ _ <- <-]; by exists us..]. intros Hl. apply IH in Hl as [us' Hus']; [|apply Hus].
  exists (us ++ us'). by eapply talks_trans.
Qed.

(** *** Driving *)

Lemma stopped_output (c : Conn) : stopped c -> c_close_after_write c = false -> has_output c = true.
Proof.
  unfold stopped, has_output. intros [Hcl|[->|Hp]] Hcl'; [congruence|apply orb_true_r|].
  rewrite (proj2 (Nat.ltb_lt 0 (out_pending c))); [done|]. unfold kOutHighWater in Hp. lia.
Qed.

Lemma drive_round_talks fuel (c : Conn) (e : env) ok pr c' e' :
  sound c -> max_in_ + kReadSize <= ib_max -> drive_round router_ now_us_ draining_ max_in_ fuel c e = Some (ok, pr, c', e') ->
  (exists us, talks us c e c' e')
  /\ (ok = true -> pr = false -> has_output c' = false -> c_close_after_write c' = false -> nothing_waits c').
Proof.
  intros Hs Hmax. unfold drive_round.
  match goal with |- context [if ?b then do_read _ _ fuel c e false else ?y] => set (rd := if b then do_read now_us_ max_in_ fuel c e false else y) end.
  assert (match rd with Some (_, _, c1, e1) => talks [] c e c1 e1 | None => True end) as Hrd.
  { subst rd. destruct (_ && _ && _ && _); [|by apply talks_refl].
    destruct (do_read _ _ _ _ _ _) as [[[[ok1 pr1] c1] e1]|] eqn:Er; [|done]. by eapply do_read_talks. }
  destruct rd as [[[[ok1 pr1] c1] e1]|]; [|done]. destruct ok1; cbn [negb]; [|intros [= <- <- <- <-]; split; [by exists []|done]].
  destruct (process router_ now_us_ draining_ c1 e1) as [[did c2] e2] eqn:Ep. apply process_talks in Ep as [[us Hus] Hwait]; [|apply Hrd].
  pose proof (talks_trans _ _ _ _ _ _ _ _ Hrd Hus) as H12. cbn [app] in H12.
  assert (did = false -> has_output c2 = false -> c_close_after_write c2 = false -> nothing_waits c2) as Hnw.
  { intros Hd Ho Hcl. destruct (Hwait Hd) as [Hst|]; [|done]. rewrite (stopped_output c2 Hst Hcl) in Ho. done. }
  destruct (c_can_write c2 && has_output c2) eqn:Ew.
  - intros Hw. destruct (do_write_talks _ _ _ _ _ _ _ _ (tk_ok _ _ _ _ _ Hus) Hw) as [us' Hus'].
    split; [exists (us ++ us'); by eapply talks_trans|]. intros _ -> Ho.
    destruct (do_write_idle _ _ _ _ _ _ _ _ _ Hw) as [_ Hidle]. apply andb_prop in Ew as [_ Ho2].
    assert (has_output c' = has_output c2) as Heq by (destruct (Hidle eq_refl) as [->| ->]; done). congruence.
  - intros [= <- <- <- <-]. split; [by exists us|]. intros _ [_ Hd]%orb_false_elim. by apply Hnw.
Qed.

(** What is read after the last response, for the peer not to be reset, is thrown away. *)
Lemma discard_delivered fuel fd (k k' : K) : discard fuel fd k = Some k' -> exists rest, delivered k' fd = delivered k fd ++ rest.
Proof.
  revert k. induction fuel as [|f IH]; intros k; cbn [discard]; [done|]. pose proof (recv_delivered k fd 4096) as Hd.
  destruct (sys_recv k fd 4096) as [[[|b bs]|x] k1]; cbn [fst snd] in Hd.
  - intros [= <-]. by exists [].
  - intros (rest & ->)%IH. rewrite Hd, <- app_assoc. by eexists.
  - intros [= <-]. exists []. by rewrite app_nil_r.
Qed.

Lemma drive_talks fuel (c : Conn) (e : env) ok c' e' :
  sound c -> max_in_ + kReadSize <= ib_max -> drive router_ now_us_ draining_ max_in_ fuel c e = Some (ok, c', e') ->
  exists us e1 rest, talks us c e c' e1 /\ said c' e' = said c' e1 /\ delivered (e_kern e') (c_fd c) = delivered (e_kern e1) (c_fd c) ++ rest
    /\ (ok = true -> e1 = e' /\ (has_output c' = false -> nothing_waits c')).
Proof.
  intros Hs Hmax. revert c e Hs. induction fuel as [|f IH]; intros c e Hs; cbn [drive]; [done|].
  destruct (drive_round _ _ _ _ f c e) as [[[[ok1 pr1] c1] e1]|] eqn:Er; [|done]. apply drive_round_talks in Er as [[us Hus] Hnw]; [|done..].
  assert (forall k : K, delivered k (c_fd c) = delivered k (c_fd c) ++ []) as Hnil by (intros k; by rewrite app_nil_r).
  destruct ok1; cbn [negb]; [|intros [= <- <- <-]; by exists us, e1, []]. destruct pr1.
  { intros Hd. apply IH in Hd as (us' & e2 & rest & Hus' & Hsd & Hrest & Hok); [|apply Hus]. rewrite (tk_fd _ _ _ _ _ Hus) in Hrest.
    exists (us ++ us'), e2, rest. by split; [eapply talks_trans|]. }
  destruct (has_output c1) eqn:Ho;
    [intros [= <- <- <-]; exists us, e1, []; split; [done|]; split; [done|]; split; [done|]; intros _; split; [done|congruence]|].
  destruct (c_close_after_write c1) eqn:Hcl.
  - destruct (discard _ _ _) as [k|] eqn:Ed; [|done]. intros [= <- <- <-]. pose proof (discard_delivered _ _ _ _ Ed) as [rest Hrest].
    rewrite shutdown_delivered, (tk_fd _ _ _ _ _ Hus) in Hrest. exists us, e1, rest. split; [done|]. split; [|done].
    unfold said. conn_simpl. by rewrite (discard_wire _ _ _ _ Ed), shutdown_wire.
  - intros [= <- <- <-]. exists us, e1, []. split; [done|]. split; [done|]. split; [done|]. intros _. split; [done|]. intros _. by apply Hnw.
Qed.

End Talk.

(** ** The whole life of a connection *)

Definition router_hears {K} `{InputLaws K} (router : Router K) : Prop :=
  forall fd, router_rel (fun k k' => delivered k' fd = delivered k fd) router.

(** Events report readiness and drive the connection, as [handle_event] does, and it is kept; in
    between, other connections use the kernel. *)
Inductive life {T : Type} `{InBuffer T} {K : Type} `{InputLaws K} (router : Router K) (max_in : Z) (c : Connection T) (e : Env K)
  : Connection T -> Env K -> Prop :=
  | life_start : life router max_in c e c e
  | life_event c1 e1 (now : Z) (draining readable writable : bool) (fuel : nat) c2 e2 :
      life router max_in c e c1 e1 ->
      drive router now draining max_in fuel (set_ready readable writable c1) e1 = Some (true, c2, e2) ->
      life router max_in c e c2 e2
  | life_others c1 e1 e2 :
      life router max_in c e c1 e1 -> wire (e_kern e2) (c_fd c1) = wire (e_kern e1) (c_fd c1) ->
      delivered (e_kern e2) (c_fd c1) = delivered (e_kern e1) (c_fd c1) -> life router max_in c e c1 e2.

Lemma life_talks {T : Type} `{InBufferLaws T} {K : Type} `{KernelLaws K} `{!InputLaws K} (router : Router K) max_in (c : Connection T) (e : Env K) c' e' :
  router_ok router -> router_hears router -> max_in + kReadSize <= ib_max -> sound c -> (has_output c = false -> nothing_waits c) ->
  life router max_in c e c' e' -> (exists us, talks router us c e c' e') /\ (has_output c' = false -> nothing_waits c').
Proof.
  intros Hr Hh Hmax Hs Hw. induction 1 as [|c1 e1 now draining rd wr fuel c2 e2 _ [[us Hus] _] Hd|c1 e1 e2 _ [[us Hus] Hn] Hwire Hdel].
  - split; [exists []; by apply talks_refl|done].
  - set (c1' := set_ready _ _ c1) in Hd. pose proof (tk_ok _ _ _ _ _ _ Hus) as Hs1.
    assert (sound c1') as Hs1' by (apply (manner_sound c1); try done; by destruct Hs1 as [[] _]).
    apply (drive_talks router now draining max_in Hr Hh) in Hd as (us' & e3 & rest & Hus' & _ & _ & Hk); [|done..]. destruct (Hk eq_refl) as [-> Hn].
    split; [|done]. exists (us ++ ([] ++ us')). eapply talks_trans; [exact Hus|]. eapply talks_trans; [|exact Hus']. by apply talks_quiet.
  - split; [|done]. exists (us ++ []). eapply talks_trans; [exact Hus|]. apply talks_quiet; try done; [apply Hus|].
    unfold said. by rewrite Hwire.
Qed.

Lemma sound_new {T} `{InBufferLaws T} fd l now : limits_ok l = true -> sound (Connection_new (T := T) fd l now).
Proof. intros Hl. split; [by apply conn_ok_new|done]. Qed.

(** What a client may rely on: what it has been sent and is still to be sent
    is a sequence [us] of utterances that follows the grammar; the requests
    they answer are the ones found in what it has sent, [waiting] the ones not
    answered, and a rejection is the parser's verdict [q] on the rest. *)
Record accords {T : Type} `{InBuffer T} {K : Type} `{InputLaws K} (router : Router K) (l : ParserLimits) (c : Connection T) (e : Env K)
  (us : list utterance) (waiting : list Request) (q : RequestParser) : Prop := {
  ac_heard : read_all (RequestParser_new l) (delivered (e_kern e) (c_fd c)) = (requests_of us ++ waiting, q);
  ac_said : wire (e_kern e) (c_fd c) ++ pending c = said_text us;
  ac_follows : follows (NoBody, false) us (manner c);
  ac_spoken : Forall (spoken router) us;
  ac_rejected : forall p t, Rejected p t ∈ us -> waiting = [] /\ p = q }.

(** A connection that is kept leaves no request waiting unless it has something to send first. *)
Definition faithful {T : Type} `{InBuffer T} {K : Type} `{InputLaws K} (router : Router K) (l : ParserLimits) (c : Connection T) (e : Env K) : Prop :=
  exists us waiting q, accords router l c e us waiting q /\ (has_output c = false -> waiting = []).

(** From the beginning of a life. *)
Lemma talks_accords {T : Type} `{InBufferLaws T} {K : Type} `{KernelLaws K} `{!InputLaws K}
  (router : Router K) l fd now (e0 : Env K) us (c : Connection T) (e e' : Env K) rest :
  wire (e_kern e0) fd = [] -> delivered (e_kern e0) fd = [] -> talks router us (Connection_new fd l now) e0 c e ->
  said c e' = said c e -> delivered (e_kern e') fd = delivered (e_kern e) fd ++ rest -> fits (delivered (e_kern e') fd) ->
  c_fd c = fd /\ accords router l c e' us (read_all (c_parser c) (ib_readable (c_in c) ++ rest)).1 (read_all (c_parser c) (ib_readable (c_in c) ++ rest)).2.
Proof.
  intros Hw0 Hd0 Hus Hsd Hd Hfit. pose proof (tk_fd _ _ _ _ _ _ Hus) as Hfd. cbn in Hfd. split; [done|].
  pose proof (tk_heard _ _ _ _ _ _ Hus l []) as Hheard. cbn [Connection_new c_fd c_parser c_in] in Hheard. rewrite ib_empty_readable, Hd0 in Hheard.
  specialize (Hheard (heard_new l)). destruct Hheard as [_ Hread]. specialize (Hread rest). rewrite <- Hd in Hread. specialize (Hread Hfit). split.
  - by rewrite Hfd.
  - pose proof (tk_said _ _ _ _ _ _ Hus) as Hs. rewrite <- Hsd in Hs. unfold said in Hs. rewrite Hfd in Hs. cbn in Hs. rewrite Hw0 in Hs. by rewrite Hfd.
  - exact (tk_follows _ _ _ _ _ _ Hus).
  - exact (tk_spoken _ _ _ _ _ _ Hus).
  - intros p t Hin. destruct (tk_rejected _ _ _ _ _ _ Hus p t Hin) as [<- _].
    pose proof (proj1 (Forall_forall _ _) (tk_spoken _ _ _ _ _ _ Hus) _ Hin) as [Hf _].
    rewrite read_all_failed; [done|apply (proj1 (tk_ok _ _ _ _ _ _ Hus))|done].
Qed.

Section Life.
Context {T : Type} `{InBufferLaws T} {K : Type} `{KernelLaws K} `{!InputLaws K} (router : Router K) (max_in : Z) (l : ParserLimits) (fd now : Z) (e0 : Env K).
Context (Hr : router_ok router) (Hh : router_hears router) (Hl : limits_ok l = true) (Hmax : max_in + kReadSize <= ib_max).
Context (Hw0 : wire (e_kern e0) fd = []) (Hd0 : delivered (e_kern e0) fd = []).

Lemma new_talks (c : Connection T) (e : Env K) :
  life router max_in (Connection_new fd l now) e0 c e ->
  (exists us, talks router us (Connection_new fd l now) e0 c e) /\ (has_output c = false -> nothing_waits c).
Proof.
  intros Hlife. apply (life_talks router max_in (Connection_new fd l now) e0 c e Hr Hh Hmax (sound_new fd l now Hl)); [|exact Hlife].
  intros _. apply nothing_waits_empty; [by apply parser_wf_new|done|apply ib_empty_readable].
Qed.

Lemma life_faithful (c : Connection T) (e : Env K) :
  life router max_in (Connection_new fd l now) e0 c e -> fits (delivered (e_kern e) fd) -> c_fd c = fd /\ faithful router l c e.
Proof.
  intros [[us Hus] Hn]%new_talks Hfit.
  destruct (talks_accords router l fd now e0 us c e e [] Hw0 Hd0 Hus) as [Hfd Ha]; [done|by rewrite app_nil_r|done|].
  split; [done|]. do 3 eexists. split; [exact Ha|]. intros Ho. rewrite app_nil_r. by apply Hn.
Qed.

(** The last event: the connection is closed after it. *)
Lemma life_ends (c : Connection T) (e : Env K) now' draining rd wr fuel c' e' :
  life router max_in (Connection_new fd l now) e0 c e ->
  drive router now' draining max_in fuel (set_ready rd wr c) e = Some (false, c', e') -> fits (delivered (e_kern e') fd) ->
  c_fd c' = fd /\ exists us waiting q, accords router l c' e' us waiting q.
Proof.
  intros [[us Hus] Hn]%new_talks Hd Hfit. pose proof (tk_fd _ _ _ _ _ _ Hus) as Hfd. cbn in Hfd. pose proof (tk_ok _ _ _ _ _ _ Hus) as Hs.
  set (c1 := set_ready rd wr c) in Hd. assert (sound c1) as Hs1 by (apply (manner_sound c); try done; by destruct Hs as [[] _]).
  apply (drive_talks router now' draining max_in Hr Hh) in Hd as (us' & e1 & rest & Hus' & Hsd & Hrest & _); [|done..].
  change (c_fd c1) with (c_fd c) in Hrest. rewrite Hfd in Hrest.
  assert (talks router (us ++ ([] ++ us')) (Connection_new fd l now) e0 c' e1) as Hall
    by (eapply talks_trans; [exact Hus|]; eapply talks_trans; [|exact Hus']; by apply talks_quiet).
  destruct (talks_accords router l fd now e0 _ c' e1 e' rest Hw0 Hd0 Hall Hsd Hrest Hfit) as [Hfd' Ha]. split; [done|]. eauto.
Qed.
End Life.

(** C2: a connection is a faithful conversation with its client.
    Over its whole life, however what the client sends is cut into segments,
    buffered, interleaved with partial writes and spread over events, the
    server answers exactly the requests a reader of the whole stream at once
    would find, in order, a prefix of them at any time and all of them
    whenever it has nothing left to send; what it has put on the wire and
    what it has queued is the sequence of their responses (interim responses
    and a final rejection included), each produced by the routes and followed
    by its own body only: a file whole and in order, a stream as its producer
    gives it, framed as announced.  Nothing follows a response that closes
    the connection, and a rejection is the parser's verdict on the rest of
    the stream.  The same holds, but for requests that stay unanswered, when
    an event ends with the connection being closed, whatever of the input is
    thrown away then. *)
Theorem conversation {T : Type} `{InBufferLaws T} {K : Type} `{KernelLaws K} `{!InputLaws K}
  (router : Router K) (max_in : Z) (l : ParserLimits) (fd now : Z) (e0 : Env K) (c : Connection T) (e : Env K) :
  router_ok router -> router_hears router -> limits_ok l = true -> max_in + kReadSize <= ib_max ->
  wire (e_kern e0) fd = [] -> delivered (e_kern e0) fd = [] ->
  life router max_in (Connection_new fd l now) e0 c e -> fits (delivered (e_kern e) fd) ->
  (c_fd c = fd /\ faithful router l c e)
  /\ forall now' draining rd wr fuel c' e',
       drive router now' draining max_in fuel (set_ready rd wr c) e = Some (false, c', e') -> fits (delivered (e_kern e') fd) ->
       c_fd c' = fd /\ exists us waiting q, accords router l c' e' us waiting q.
Proof.
  intros Hr Hh Hl Hmax Hw0 Hd0 Hlife Hfit. split; [by eapply life_faithful|].
  intros now' draining rd wr fuel c' e' Hd Hfit'. by eapply life_ends.
Qed.

(** ** A kernel that keeps a record of what it delivers *)

Record Recorded (K : Type) := mkRecorded { rec_kern : K; rec_in : Z -> bytes }.
Arguments mkRecorded {K} _ _.
Arguments rec_kern {K} _.
Arguments rec_in {K} _ _.

Section Recorded.
Context {K : Type} `{KernelLaws K}.

Definition rec_set (k : Recorded K) (kern : K) : Recorded K := mkRecorded kern (rec_in k).

Definition rec_recv (k : Recorded K) (fd n : Z) : (bytes + errno) * Recorded K :=
  match sys_recv (rec_kern k) fd n with
  | (inl bs, kern) => (inl bs, mkRecorded kern (fun x => if x =? fd then rec_in k x ++ bs else rec_in k x))
  | (inr x, kern) => (inr x, rec_set k kern)
  end.

#[export] Instance recorded_kernel : Kernel (Recorded K) := {
  kernel_closer k fd := rec_set k (sys_close (rec_kern k) fd);
  sys_recv := rec_recv;
  sys_send k fd bs := let '(r, kern) := sys_send (rec_kern k) fd bs in (r, rec_set k kern);
  sys_sendfile k fd f off n := let '(r, kern) := sys_sendfile (rec_kern k) fd f off n in (r, rec_set k kern);
  sys_shutdown k fd := rec_set k (sys_shutdown (rec_kern k) fd);
  sys_mono_us k := let '(t, kern) := sys_mono_us (rec_kern k) in (t, rec_set k kern);
  sys_time k := let '(t, kern) := sys_time (rec_kern k) in (t, rec_set k kern);
  strftime_gmt := strftime_gmt (K := K);
  wire k fd := wire (rec_kern k) fd }.

#[export] Instance recorded_laws : KernelLaws (Recorded K).
Proof.
  split.
  - intros k fd n bs k'. cbn. unfold rec_recv. destruct (sys_recv _ _ _) as [[bs'|x] kern] eqn:E; [|done]. intros [= <- _]. by eapply recv_bound.
  - intros k fd n fd'. cbn. unfold rec_recv. pose proof (recv_wire (rec_kern k) fd n fd') as Hw. by destruct (sys_recv _ _ _) as [[bs'|x] kern].
  - intros k fd bs n k'. cbn. destruct (sys_send _ _ _) as [r kern] eqn:E. intros [= -> <-]. by eapply send_spec.
  - intros k fd bs x k'. cbn. destruct (sys_send _ _ _) as [r kern] eqn:E. intros [= -> <-]. by eapply send_error.
  - intros k fd f off want bs k'. cbn. destruct (sys_sendfile _ _ _ _ _) as [r kern] eqn:E. intros [= -> <-]. by eapply sendfile_spec.
  - intros k fd f off want x k'. cbn. destruct (sys_sendfile _ _ _ _ _) as [r kern] eqn:E. intros [= -> <-]. by eapply sendfile_error.
  - intros k fd fd'. apply (shutdown_wire (rec_kern k)).
  - intros k fd fd'. apply (close_wire (rec_kern k)).
  - intros k fd'. cbn. pose proof (mono_wire (rec_kern k) fd') as Hw. by destruct (sys_mono_us _).
  - intros k fd'. cbn. pose proof (time_wire (rec_kern k) fd') as Hw. by destruct (sys_time _).
Qed.

#[export] Instance recorded_input : InputLaws (Recorded K).
Proof.
  refine {| delivered := rec_in |}.
  - intros k fd n. cbn. unfold rec_recv. destruct (sys_recv _ _ _) as [[bs|x] kern]; cbn [fst snd rec_in rec_set]; [|done]. by rewrite Z.eqb_refl.
  - intros k fd bs fd'. cbn. by destruct (sys_send _ _ _).
  - intros k fd f off n fd'. cbn. by destruct (sys_sendfile _ _ _ _ _).
  - done.
  - intros fd. split; [split; [by intros k|by intros a b c -> ->]|done|..]; intros k; cbn; [by destruct (sys_mono_us _)|by destruct (sys_time _)].
Defined.

(** The handlers run on the kernel below. *)
Definition recorded_router (router : Router K) : Router (Recorded K) :=
  (fun r => mkRoute (rt_method r) (rt_path r) (rt_prefix r)
    (fun k req res => let '(x, kern) := rt_handler r (rec_kern k) req res in (x, rec_set k kern))) <$> router.

Lemma recorded_router_ok router : router_ok router -> router_ok (recorded_router router).
Proof.
  unfold router_ok, recorded_router. intros Hrs. rewrite Forall_fmap. refine (Forall_impl _ _ _ Hrs _). intros r Hr k req res Hres. cbn.
  specialize (Hr (rec_kern k) req res Hres). by destruct (rt_handler r _ _ _) as [[res'|x] kern].
Qed.

Lemma recorded_router_hears router : router_hears (recorded_router router).
Proof.
  intros fd. unfold router_rel, recorded_router. rewrite Forall_fmap. apply Forall_forall. intros r _ k req res. cbn.
  by destruct (rt_handler r _ _ _).
Qed.
End Recorded.

(** The client of [ServerTheorems] sends two requests, whose answers do not
    fit the socket at once, another one when it has read the first, and then
    something that is no request. *)
Definition chat_router : Router (Recorded DemoKernel) := recorded_router demo_router.

Definition chat_env (rx : list bytes) (room : nat) : Env (Recorded DemoKernel) :=
  mkEnv WorkerMetrics_new DateCache_new (mkRecorded (mkDemo rx room []) (fun _ => [])).

Definition client_goes_on (rx : list bytes) (room : nat) (e : Env (Recorded DemoKernel)) : Env (Recorded DemoKernel) :=
  set_kern (rec_set (e_kern e) (mkDemo rx room (dk_wire (rec_kern (e_kern e))))) e.

#[local] Abbreviation chat_event c e :=
  (drive chat_router 60 false (max_in_buffer ParserLimits_default) 100 (set_ready true true c) e).

Definition chat_more : list bytes := [B "GET /hello HTTP/1.1" ++ kCRLF ++ B "Host: a" ++ kCRLF ++ kCRLF].
Definition chat_noise : list bytes := [B "noise" ++ kCRLF ++ kCRLF].

Lemma conversation_witness :
  exists c1 e1 c2 e2 c3 e3,
    chat_event demo_conn (chat_env demo_input 1) = Some (true, c1, e1)
    /\ chat_event c1 (client_goes_on chat_more 2 e1) = Some (true, c2, e2)
    /\ chat_event c2 (client_goes_on chat_noise 2 e2) = Some (false, c3, e3)
    /\ length (read_all (RequestParser_new ParserLimits_default) (delivered (e_kern e3) 7)).1 = 3%nat /\ has_output c2 = false
    /\ c_fd c2 = 7 /\ faithful chat_router ParserLimits_default c2 (client_goes_on chat_noise 2 e2)
    /\ c_fd c3 = 7 /\ exists us waiting q, accords chat_router ParserLimits_default c3 e3 us waiting q.
Proof.
  assert (match chat_event demo_conn (chat_env demo_input 1) with
    | Some (true, c1, e1) =>
        match chat_event c1 (client_goes_on chat_more 2 e1) with
        | Some (true, c2, e2) =>
            match chat_event c2 (client_goes_on chat_noise 2 e2) with
            | Some (false, c3, e3) => (length (read_all (RequestParser_new ParserLimits_default) (delivered (e_kern e3) 7)).1,
                has_output c2, zlen (delivered (e_kern e2) 7) <? 2 ^ 62, zlen (delivered (e_kern e3) 7) <? 2 ^ 62) = (3%nat, false, true, true)
            | _ => False
            end
        | _ => False
        end
    | _ => False
    end) as H by (vm_compute; reflexivity).
  destruct (chat_event demo_conn (chat_env demo_input 1)) as [[[[] c1] e1]|] eqn:E1; try contradiction.
  destruct (chat_event c1 (client_goes_on chat_more 2 e1)) as [[[[] c2] e2]|] eqn:E2; try contradiction.
  destruct (chat_event c2 (client_goes_on chat_noise 2 e2)) as [[[[] c3] e3]|] eqn:E3; try contradiction.
  injection H as Hn Ho Hz2 Hz3. exists c1, e1, c2, e2, c3, e3. split; [reflexivity|]. split; [exact E2|]. split; [exact E3|].
  split; [exact Hn|]. split; [exact Ho|].
  destruct (conversation chat_router (max_in_buffer ParserLimits_default) ParserLimits_default 7 50 (chat_env demo_input 1) c2
    (client_goes_on chat_noise 2 e2)) as [[Hfd Hf] Hlast].
  - apply recorded_router_ok, demo_router_ok.
  - apply recorded_router_hears.
  - reflexivity.
  - vm_compute. discriminate.
  - reflexivity.
  - reflexivity.
  - apply (life_others _ _ _ _ c2 e2); [|reflexivity|reflexivity].
    apply (life_event _ _ _ _ c1 (client_goes_on chat_more 2 e1) 60 false true true 100); [|exact E2].
    apply (life_others _ _ _ _ c1 e1); [|reflexivity|reflexivity].
    apply (life_event _ _ _ _ demo_conn (chat_env demo_input 1) 60 false true true 100); [constructor|exact E1].
  - apply Z.ltb_lt in Hz2. exact Hz2.
  - split; [exact Hfd|]. split; [exact Hf|]. apply (Hlast _ _ _ _ _ _ _ E3). apply Z.ltb_lt in Hz3. exact Hz3.
Defined.
