(* ===== verification/WorkerLoop.v ===== *)
(** * The event loop as a whole

    Each pass of [run] comes to its end and keeps the invariants of every
    connection; a worker that drains takes no new connections and ends with
    none. *)

From S2P Require Import Prelude Headers RequestParser Numbers ParserFacts Response ByteBuffer Router Metrics Connection.
From S2P Require Import ConnectionFacts ConnectionLiveness Worker WorkerFacts ServerTheorems.

Open Scope Z_scope.

(** ** More fuel gives the same result *)

Section Fuel.
Context {T : Type} `{InBuffer T}.
Context {K : Type} `{Kernel K}.
Context (router_ : Router K) (now_us_ : Z) (draining_ : bool) (max_in_ : Z).

Lemma do_read_fuel f g (c : Connection T) (e : Env K) progress r :
  (f <= g)%nat -> do_read now_us_ max_in_ f c e progress = Some r -> do_read now_us_ max_in_ g c e progress = Some r.
Proof.
  revert g c e progress. induction f as [|f IH]; intros g c e progress Hg.
  - cbn [do_read]. destruct g; cbn [do_read]; by destruct (ib_size (c_in c) <? max_in_).
  - destruct g as [|g]; [lia|]. cbn [do_read]. destruct (ib_size (c_in c) <? max_in_); [|done].
    destruct (sys_recv _ _ _) as [[[|b bs]|[]] k]; try done; [|by apply IH; lia].
    destruct (ib_receive _ _ _); [|done]. apply IH. lia.
Qed.

Lemma do_write_fuel f g (c : Connection T) (e : Env K) progress r :
  (f <= g)%nat -> do_write now_us_ f c e progress = Some r -> do_write now_us_ g c e progress = Some r.
Proof.
  revert g c e progress. induction f as [|f IH]; intros g c e progress Hg.
  - cbn [do_write]. destruct g; cbn [do_write]; by destruct (c_can_write c).
  - destruct g as [|g]; [lia|]. cbn [do_write]. destruct (c_can_write c); [|done].
    destruct (write_round _ _ _ _) as [[[[] pr] c1] e1]; try done. apply IH. lia.
Qed.

Lemma discard_fuel f g fd (k k' : K) : (f <= g)%nat -> discard f fd k = Some k' -> discard g fd k = Some k'.
Proof.
  revert g k. induction f as [|f IH]; intros g k Hg; [done|]. destruct g as [|g]; [lia|]. cbn [discard].
  destruct (sys_recv _ _ _) as [[[|b bs]|x] k1]; try done. apply IH. lia.
Qed.

Lemma drive_round_fuel f g (c : Connection T) (e : Env K) r :
  (f <= g)%nat -> drive_round router_ now_us_ draining_ max_in_ f c e = Some r ->
  drive_round router_ now_us_ draining_ max_in_ g c e = Some r.
Proof.
  intros Hg. unfold drive_round. destruct (_ && _ && _ && _).
  - destruct (do_read _ _ f c e false) as [[[[ok pr] c1] e1]|] eqn:E; [|done]. rewrite (do_read_fuel f g _ _ _ _ Hg E).
    destruct (negb ok); [done|]. destruct (process _ _ _ c1 e1) as [[did c2] e2]. destruct (_ && _); [|done]. by apply do_write_fuel.
  - destruct (process _ _ _ c e) as [[did c2] e2]. cbn [negb]. destruct (_ && _); [|done]. by apply do_write_fuel.
Qed.

Lemma drive_fuel f g (c : Connection T) (e : Env K) r :
  (f <= g)%nat -> drive router_ now_us_ draining_ max_in_ f c e = Some r ->
  drive router_ now_us_ draining_ max_in_ g c e = Some r.
Proof.
  revert g c e. induction f as [|f IH]; intros g c e Hg; [done|]. destruct g as [|g]; [lia|]. cbn [drive].
  destruct (drive_round _ _ _ _ f c e) as [[[[ok pr] c1] e1]|] eqn:E; [|done].
  rewrite (drive_round_fuel f g _ _ _ ltac:(lia) E). destruct (negb ok); [done|]. destruct pr; [apply IH; lia|].
  destruct (has_output c1); [done|]. destruct (c_close_after_write c1); [|done].
  destruct (discard f _ _) as [k|] eqn:Ed; [|done]. by rewrite (discard_fuel f g _ _ _ ltac:(lia) Ed).
Qed.

End Fuel.

(** ** The invariant *)

Section Loop.
Context {T : Type} `{InBufferLaws T}.
Context {K : Type} `{KernelLaws K} {FR : FiniteReadiness K} `{!EventKernel K}.
Context (router_ : Router K) (cfg_ : ServerConfig).
Context (Hrouter : router_ok router_) (Hfinite : router_finite router_).
Context (Hlimits : limits_ok (cfg_limits cfg_) = true) (Hfits : buffer_fits (cfg_limits cfg_)).
Context (Hmax : max_in_buffer (cfg_limits cfg_) + kReadSize <= ib_max).

#[local] Abbreviation W := (Worker T K).
#[local] Abbreviation Conn := (Connection T).
#[local] Abbreviation alive := (live (max_in_buffer (cfg_limits cfg_)) (cfg_limits cfg_)).

(** The kernel owes the connection an event: it is new, or it waits for room
    in the socket, or for input. *)
Definition parked (c : Conn) : Prop :=
  (exists now, c = Connection_new (c_fd c) (cfg_limits cfg_) now)
  \/ (has_output c = true /\ c_can_write c = false) \/ (has_output c = false /\ c_can_read c = false).

(** Every connection is stored under its own descriptor, satisfies the
    invariant of connections and waits for an event. *)
Definition worker_ok (w : W) : Prop :=
  map_Forall (fun fd c => c_fd c = fd /\ alive c /\ parked c) (conns_ w).

#[local] Ltac worker_simpl :=
  cbn [listener_ wake_ conns_ env_ now_us_ draining_ drain_deadline_us_ with_conns with_env with_now wcount wkern
       e_metrics e_date e_kern count set_kern fst snd] in *.

Lemma alive_new fd now : alive (Connection_new (T := T) fd (cfg_limits cfg_) now).
Proof.
  split; [|unfold in_bound; cbn|done].
  - split; cbn; try done; [by apply parser_wf_new|apply ib_empty_wf|by left].
  - rewrite ib_empty_readable. unfold max_in_buffer, kReadSize, zlen. cbn. lia.
Qed.

Lemma alive_ready a b c : alive c -> alive (set_ready a b c).
Proof. intros [[] ? ?]. by split; [split|..]. Qed.

Lemma worker_ok_delete fd e (w : W) : worker_ok w -> worker_ok (with_conns (base.delete fd (conns_ w)) e w).
Proof. intros Hw. by apply map_Forall_delete. Qed.

Lemma close_connection_ok fd (w : W) : worker_ok w -> worker_ok (close_connection fd w).
Proof.
  intros Hw. unfold close_connection. destruct (conns_ w !! fd); [|done].
  apply (worker_ok_delete fd (destroy_connection c (env_ w)) w Hw).
Qed.

Lemma accept_loop_ok n (w : W) : worker_ok w -> worker_ok (accept_loop cfg_ n w).
Proof.
  revert w. induction n as [|n IH]; intros w Hw; cbn [accept_loop]; [done|].
  destruct (sys_accept4 _ _) as [[fd|[]] k]; [|by apply IH|done..].
  destruct (sys_epoll_add _ _ _) as [ok k1]. destruct ok; cbn [negb]; [|by apply IH].
  destruct (conns_ _ !! fd); apply IH; [done|]. unfold worker_ok. worker_simpl.
  apply map_Forall_insert_2; [|done]. split; [done|]. split; [apply alive_new|]. left. by exists (now_us_ w).
Qed.

Lemma begin_drain_ok (w : W) : worker_ok w -> worker_ok (begin_drain cfg_ w).
Proof. unfold begin_drain. intros. by destruct (draining_ w), (fd_valid (listener_ w)). Qed.

Lemma sweep_ok (w : W) : worker_ok w -> worker_ok (sweep cfg_ w).
Proof.
  unfold sweep. generalize (map_to_list (conns_ w)). intros l. revert w. induction l as [|[fd c] l IH]; intros w Hw; [done|].
  cbn [fold_left]. apply IH. unfold sweep_one. destruct (judge _ _ _ c); [done|by apply worker_ok_delete..].
Qed.

Lemma drive_alive (c : Conn) (e : Env K) now draining :
  alive c ->
  exists F ok c' e', (forall fuel, (F <= fuel)%nat ->
      drive router_ now draining (max_in_buffer (cfg_limits cfg_)) fuel c e = Some (ok, c', e'))
    /\ c_fd c' = c_fd c /\ alive c' /\ (ok = true -> parked c').
Proof.
  intros Hc. set (F := Z.to_nat (measure c e + 2)).
  assert (measure c e + 1 < Z.of_nat F) as HF.
  { pose proof (measure_budget c e). pose proof (flag_range (wants_refill c)). lia. }
  assert (exists ok c' e', drive router_ now draining (max_in_buffer (cfg_limits cfg_)) F c e = Some (ok, c', e') /\ alive c'
    /\ (ok = true -> (has_output c' = true /\ c_can_write c' = false) \/ (has_output c' = false /\ c_can_read c' = false)))
    as (ok & c' & e' & Hd & Hc' & Hp) by (by apply drive_live).
  exists F, ok, c', e'. split; [intros fuel Hle; by eapply drive_fuel|]. split; [|split; [done|right; auto]].
  destruct (drive_spec router_ now draining _ Hrouter (fun _ => []) F c e ok c' e' (lv_ok _ _ _ Hc) Hmax Hd) as [Hdr _].
  apply (dr_fd _ _ _ _ _ Hdr).
Qed.

Lemma handle_event_ok (w : W) ev :
  worker_ok w -> exists F w', worker_ok w' /\ forall fuel, (F <= fuel)%nat -> handle_event router_ cfg_ fuel w ev = Some w'.
Proof.
  intros Hw. unfold handle_event. destruct (ev_fd ev =? wake_ w).
  { exists 0%nat. eexists. split; [|done]. by apply begin_drain_ok. }
  destruct (fd_valid (listener_ w) && (ev_fd ev =? listener_ w)).
  { exists 0%nat. eexists. split; [|done]. by apply accept_loop_ok. }
  destruct (conns_ w !! ev_fd ev) as [c|] eqn:Ec; [|by exists 0%nat, w].
  destruct (Hw _ _ Ec) as (Hfd & Hlive & _).
  match goal with |- context [drive _ _ _ _ _ ?x _] => set (c1 := x) end.
  assert (c_fd c1 = ev_fd ev /\ alive c1) as [Hfd1 Hl1].
  { subst c1. destruct (ev_readable ev), (ev_writable ev); (split; [done|]); repeat apply alive_ready; done. }
  destruct (drive_alive c1 (env_ w) (now_us_ w) (draining_ w) Hl1) as (F & ok & c2 & e2 & Hd & Hf2 & Hl2 & Hp2).
  exists F. eexists. split; [|intros fuel Hle; by rewrite (Hd fuel Hle)].
  destruct ok.
  - unfold worker_ok. worker_simpl. apply map_Forall_insert_2; [|done]. split; [congruence|]. auto.
  - unfold close_connection. worker_simpl. rewrite lookup_insert_eq. unfold worker_ok. worker_simpl.
    rewrite delete_insert_eq. by apply map_Forall_delete.
Qed.

Lemma handle_events_ok evs (w : W) :
  worker_ok w -> exists F w', worker_ok w' /\ forall fuel, (F <= fuel)%nat -> handle_events router_ cfg_ fuel w evs = Some w'.
Proof.
  revert w. induction evs as [|ev evs IH]; intros w Hw; [by exists 0%nat, w|].
  destruct (handle_event_ok w ev Hw) as (F1 & w1 & Hw1 & Hs1). destruct (IH w1 Hw1) as (F2 & w2 & Hw2 & Hs2).
  exists (F1 + F2)%nat, w2. split; [done|]. intros fuel Hle. cbn [handle_events]. rewrite Hs1 by lia. apply Hs2. lia.
Qed.

Lemma run_once_ok ls (w : W) :
  worker_ok w ->
  exists F go ls' w', worker_ok w' /\ forall fuel, (F <= fuel)%nat -> run_once router_ cfg_ fuel ls w = Some (go, ls', w').
Proof.
  intros Hw. unfold run_once. destruct (sys_epoll_wait _ _ _) as [[evs|[]] k]; 
    [|exists 0%nat; do 3 eexists; (split; [|intros; reflexivity]); exact Hw..].
  destruct (sys_mono_us _) as [now k1].
  match goal with |- context [handle_events _ _ _ ?x evs] => set (w1 := x) end.
  destruct (handle_events_ok evs w1 Hw) as (F & w2 & Hw2 & Hs2). exists F.
  destruct (draining_ w2 || (u64 (now_us_ w2 - ls) >=? tick_us cfg_)) eqn:Es.
  - do 3 eexists. split; [by apply sweep_ok|]. intros fuel Hle. rewrite Hs2, Es by done. reflexivity.
  - do 3 eexists. split; [exact Hw2|]. intros fuel Hle. rewrite Hs2, Es by done. reflexivity.
Qed.

(** ** Closing everything *)

Lemma close_connection_conns fd (w : W) : conns_ (close_connection fd w) = base.delete fd (conns_ w).
Proof. unfold close_connection. destruct (conns_ w !! fd) eqn:E; [done|]. by rewrite delete_id. Qed.

Lemma close_all_empty (w : W) : conns_ (close_all w) = ∅.
Proof.
  assert (forall l (v : W), conns_ (fold_left (fun w (x : Z * Conn) => close_connection x.1 w) l v)
    = fold_left (fun m (x : Z * Conn) => base.delete x.1 m) l (conns_ v)) as Hf.
  { intros l. induction l as [|x l IH]; intros v; [done|]. cbn [fold_left]. by rewrite IH, close_connection_conns. }
  unfold close_all. rewrite Hf. apply map_eq. intros fd. rewrite fold_delete_lookup, lookup_empty.
  destruct (decide _) as [|Hn]; [done|]. destruct (conns_ w !! fd) as [c|] eqn:E; [|done].
  exfalso. apply Hn, list_elem_of_fmap. exists (fd, c). split; [done|]. by apply elem_of_map_to_list.
Qed.

Lemma run_loop_ok n ls (w : W) :
  worker_ok w ->
  exists F r, (forall fuel, (F <= fuel)%nat -> run_loop router_ cfg_ n fuel ls w = Some r)
    /\ match r with inl w' => worker_ok w' | inr w' => conns_ w' = ∅ end.
Proof.
  revert ls w. induction n as [|n IH]; intros ls w Hw; [by exists 0%nat, (inl w)|].
  destruct (run_once_ok ls w Hw) as (F1 & go & ls1 & w1 & Hw1 & Hs1). destruct go.
  - destruct (IH ls1 w1 Hw1) as (F2 & r & Hs2 & Hr). exists (F1 + F2)%nat, r. split; [|done].
    intros fuel Hle. cbn [run_loop]. rewrite Hs1 by lia. apply Hs2. lia.
  - exists F1, (inr (close_all w1)). split; [|apply close_all_empty]. intros fuel Hle. cbn [run_loop]. by rewrite Hs1.
Qed.

End Loop.

(** ** Draining *)

Section Drain.
Context {T : Type} `{InBuffer T}.
Context {K : Type} `{Kernel K} `{EventKernel K}.
Context (router_ : Router K) (cfg_ : ServerConfig).
#[local] Abbreviation W := (Worker T K).

(** [w'] is [w] some steps later in the same drain. *)
Record drains_to (w w' : W) : Prop := {
  dt_draining : draining_ w' = true;
  dt_listener : listener_ w' = listener_ w;
  dt_deadline : drain_deadline_us_ w' = drain_deadline_us_ w;
  dt_conns : dom (conns_ w') ⊆ dom (conns_ w) }.

Lemma drains_refl w w' :
  draining_ w = true -> draining_ w' = draining_ w -> listener_ w' = listener_ w ->
  drain_deadline_us_ w' = drain_deadline_us_ w -> conns_ w' = conns_ w -> drains_to w w'.
Proof. intros Hd Hd' Hl Hdl Hc. split; [congruence|done|done|by rewrite Hc]. Qed.

Lemma drains_trans w1 w2 w3 : drains_to w1 w2 -> drains_to w2 w3 -> drains_to w1 w3.
Proof. intros [] []. split; try done; try congruence. by etrans. Qed.

Lemma close_connection_frame fd (w : W) :
  draining_ (close_connection fd w) = draining_ w /\ listener_ (close_connection fd w) = listener_ w
  /\ drain_deadline_us_ (close_connection fd w) = drain_deadline_us_ w.
Proof. unfold close_connection. by destruct (conns_ w !! fd). Qed.

Lemma handle_event_drains fuel (w w' : W) ev :
  draining_ w = true -> fd_valid (listener_ w) = false -> handle_event router_ cfg_ fuel w ev = Some w' -> drains_to w w'.
Proof.
  intros Hd Hl. unfold handle_event. rewrite Hl. cbn [andb]. destruct (ev_fd ev =? wake_ w).
  { intros [= <-]. unfold begin_drain. cbn [draining_ wkern with_env with_conns]. rewrite Hd. by apply drains_refl. }
  destruct (conns_ w !! ev_fd ev) as [c|] eqn:Ec; [|intros [= <-]; by apply drains_refl].
  destruct (drive _ _ _ _ _ _ _) as [[[ok c1] e1]|]; [|done]. intros [= <-].
  assert (dom (<[ev_fd ev := c1]> (conns_ w)) ⊆ dom (conns_ w)) as Hdom.
  { rewrite dom_insert. apply elem_of_dom_2 in Ec. set_solver. }
  destruct ok; [split; done|].
  destruct (close_connection_frame (ev_fd ev) (with_conns (<[ev_fd ev := c1]> (conns_ w)) e1 w)) as (Hd1 & Hl1 & Hdl1).
  split; [by rewrite Hd1|by rewrite Hl1|by rewrite Hdl1|].
  rewrite close_connection_conns. cbn [conns_ with_conns]. rewrite dom_delete. set_solver.
Qed.

Lemma handle_events_drain fuel evs (w w' : W) :
  draining_ w = true -> fd_valid (listener_ w) = false -> handle_events router_ cfg_ fuel w evs = Some w' -> drains_to w w'.
Proof.
  revert w. induction evs as [|ev evs IH]; intros w Hd Hl; cbn [handle_events]; [intros [= <-]; by apply drains_refl|].
  destruct (handle_event _ _ _ _ _) as [w1|] eqn:E; [|done]. apply handle_event_drains in E as Hd1; [|done..].
  intros Hs. eapply drains_trans; [done|]. apply IH; [apply Hd1| |done]. by rewrite (dt_listener _ _ Hd1).
Qed.

(** The connection still has something to do. *)
Definition busy (c : Connection T) : Prop :=
  has_output c = true \/ ib_size (c_in c) <> 0 \/ started (c_parser c) = true.

Lemma judge_busy now c : judge cfg_ true now c = Keep -> busy c.
Proof.
  unfold judge, busy. destruct (has_output c); [by left|]. case_bool_decide; [|by right; left].
  destruct (started (c_parser c)); [by right; right|]. done.
Qed.

Lemma sweep_drains (w : W) :
  draining_ w = true -> drains_to w (sweep cfg_ w) /\ now_us_ (sweep cfg_ w) = now_us_ w
    /\ map_Forall (fun _ c => busy c) (conns_ (sweep cfg_ w)).
Proof.
  intros Hd. destruct (sweep_fold cfg_ (map_to_list (conns_ w)) w) as ((Hdr & Hn & Hdl) & Hl & _).
  split; [split; [etrans; [exact Hdr|exact Hd]|exact Hl|exact Hdl|]|split; [exact Hn|]].
  - intros fd [c Hc]%elem_of_dom. rewrite sweep_lookup in Hc. apply elem_of_dom. by destruct (conns_ w !! fd).
  - intros fd c Hc. rewrite sweep_lookup, Hd in Hc. destruct (conns_ w !! fd) as [c0|]; [|done].
    destruct (judge cfg_ true (now_us_ w) c0) eqn:Ej; [|done..]. injection Hc as <-. by eapply judge_busy.
Qed.

End Drain.


(** A kernel whose [epoll_wait] reports the one client of [DemoKernel]. *)
#[export] Instance demo_events : EventKernel DemoKernel := {
  sys_accept4 k _ := (inr AcceptEmpty, k);
  sys_nodelay k _ := k;
  sys_epoll_add k _ _ := (true, k);
  sys_epoll_del k _ _ := k;
  sys_epoll_wait k _ _ := (inl [mkEvent 7 true true], k);
  sys_wake_read k _ := k }.

Definition demo_worker : Worker bytes DemoKernel :=
  mkWorker 4 6 5 {[7 := demo_conn]} (demo_env demo_input 1) 50 false 0.


(** C15: a worker told to stop finishes what it has and takes nothing new.
    At any pass after [begin_drain], its table holds only connections it
    held then, the listener stays closed and the deadline is the time of the
    request to stop plus the grace period; and the loop goes on (unless
    [epoll_wait] was interrupted) only before the deadline and only while
    there is a connection with output to send, unread input or an unfinished
    request, all idle ones having been closed. *)
Theorem graceful_drain {T : Type} `{InBuffer T} {K : Type} `{Kernel K} `{EventKernel K}
  (router : Router K) (cfg : ServerConfig) (fuel : nat) (ls ls' : Z) (w0 w w' : Worker T K) (go : bool) :
  draining_ w0 = false -> drains_to (begin_drain cfg w0) w -> run_once router cfg fuel ls w = Some (go, ls', w') ->
  drains_to (begin_drain cfg w0) w'
  /\ dom (conns_ w') ⊆ dom (conns_ w0) /\ fd_valid (listener_ w') = false
  /\ drain_deadline_us_ w' = u64 (now_us_ w0 + to_us (cfg_shutdown_grace cfg))
  /\ (go = true ->
      (sys_epoll_wait (e_kern (env_ w)) (epoll_ w) (tick_us cfg / 1000)).1 = inr EINTR
      \/ (now_us_ w' < drain_deadline_us_ w' /\ conns_ w' <> ∅ /\ map_Forall (fun _ c => busy c) (conns_ w'))).
Proof.
  intros Hdr0 Hd Hs.
  assert (fd_valid (listener_ (begin_drain cfg w0)) = false /\ conns_ (begin_drain cfg w0) = conns_ w0
    /\ drain_deadline_us_ (begin_drain cfg w0) = u64 (now_us_ w0 + to_us (cfg_shutdown_grace cfg))) as (Hl0 & Hc0 & Hdl0).
  { unfold begin_drain. rewrite Hdr0. by destruct (fd_valid (listener_ w0)) eqn:E. }
  assert (fd_valid (listener_ w) = false) as Hl by (by rewrite (dt_listener _ _ Hd)).
  pose proof (dt_draining _ _ Hd) as Hdr.
  assert (drains_to w w' /\ (go = true ->
      (sys_epoll_wait (e_kern (env_ w)) (epoll_ w) (tick_us cfg / 1000)).1 = inr EINTR
      \/ (now_us_ w' < drain_deadline_us_ w' /\ conns_ w' <> ∅ /\ map_Forall (fun _ c => busy c) (conns_ w')))) as [Hstep Hgo].
  { revert Hs. unfold run_once. destruct (sys_epoll_wait _ _ _) as [[evs|x] k].
    2:{ destruct x; intros [= <- _ <-]; (split; [by apply drains_refl|]); (intros Hg; first [discriminate Hg|by left]). }
    destruct (sys_mono_us _) as [now k1]. destruct (handle_events _ _ _ _ _) as [w2|] eqn:Eh; [|done].
    apply handle_events_drain in Eh; [|done..]. pose proof (dt_draining _ _ Eh) as Hdr2. rewrite Hdr2. cbn [orb].
    destruct (sweep_drains cfg w2 Hdr2) as (Hsw & Hn & Hb). intros [= <- _ <-].
    split; [eapply drains_trans; [|exact Hsw]; eapply drains_trans; [|exact Eh]; by apply drains_refl|].
    rewrite (dt_draining _ _ Hsw). cbn [andb]. intros [Hne Hlt]%negb_true_iff%orb_false_elim. right.
    apply bool_decide_eq_false in Hne. split; [lia|]. done. }
  pose proof (drains_trans _ _ _ Hd Hstep) as Hall. split; [done|]. split; [rewrite <- Hc0; apply Hall|].
  split; [by rewrite (dt_listener _ _ Hall)|]. split; [by rewrite (dt_deadline _ _ Hall)|done].
Qed.

Lemma graceful_drain_witness :
  match run_once demo_router ServerConfig_default 20 50 (begin_drain ServerConfig_default demo_worker) with
  | Some (_, _, w') =>
      dom (conns_ w') ⊆ dom (conns_ demo_worker) /\ fd_valid (listener_ w') = false
      /\ drain_deadline_us_ w' = u64 (50 + to_us 5000)
  | None => False
  end.
Proof.
  destruct (run_once demo_router ServerConfig_default 20 50 (begin_drain ServerConfig_default demo_worker))
    as [[[go ls'] w']|] eqn:E.
  - destruct (graceful_drain demo_router ServerConfig_default 20 50 ls' demo_worker (begin_drain ServerConfig_default demo_worker)
                w' go) as (_ & Hdom & Hl & Hdl & _).
    + reflexivity.
    + apply drains_refl; reflexivity.
    + exact E.
    + split; [exact Hdom|]. split; [exact Hl|exact Hdl].
  - apply (f_equal (fun r => match r with Some _ => true | None => false end)) in E. vm_compute in E. discriminate E.
Defined.
