(* ===== verification/Routes.v ===== *)
(** * [src/app/routes.cpp]: the endpoints of the server

    The handlers registered by [install_routes], with the producers of
    [/stream/{n}] and [/bytes/{n}] as closures with their captured state.
    What a handler reads of the process and of the machine is taken from
    functions on the world [K]: the counters of the workers, the uptime and
    the data shown by [/debug/info]. *)

From S2P Require Import Prelude Headers RequestParser Numbers ParserFacts ParserSegmentation.
From S2P Require Import Response ChunkCodec Crc32 ByteBuffer UniqueFd Router StaticFiles Metrics Connection.
From S2P Require Import ConnectionFacts ConnectionLiveness Pipeline.

Open Scope Z_scope.

Definition kMaxGeneratedBytes : Z := Z.shiftl 1 30.
Definition kMaxStreamChunks : Z := 100000.
Definition kBytesPiece : Z := 64 * 1024.

(** ** Numbers in paths *)

Inductive errc : Set := NoError | InvalidArgument | ResultOutOfRange.

#[export] Instance errc_eq_dec : EqDecision errc.
Proof. solve_decision. Defined.

Fixpoint digit_prefix (s : bytes) : bytes :=
  match s with
  | c :: s' => if is_digit c then c :: digit_prefix s' else []
  | [] => []
  end.

(** [std::from_chars(first, last, out)] for [uint64_t]: the longest prefix of
    digits; the end pointer, the error and the new [out]. *)
Definition from_chars_u64 (s : bytes) (out : Z) : nat * errc * Z :=
  match digit_prefix s with
  | [] => (0%nat, InvalidArgument, out)
  | ds =>
      let v := dec_value 0 ds in
      if v <? 2 ^ 64 then (length ds, NoError, v) else (length ds, ResultOutOfRange, out)
  end.

(** Every caller passes [n == 0] and uses it only after success. *)
Definition parse_u64 (s : bytes) : option Z :=
  match s with
  | [] => None
  | _ =>
      let '(ptr, ec, out) := from_chars_u64 s 0 in
      if bool_decide (ec = NoError) && (ptr =? length s)%nat then Some out else None
  end.

(** ** Producers *)

(** The character at position [i] of the endless alphabet. *)
Definition letter (i : Z) : ascii := chr (code "a" + i mod 26).

(** [for (; i < s.size(); ++i) s\[i\] = 'a' + i % 26] with [n] positions to go. *)
Fixpoint fill_pattern (n : nat) (i : Z) : bytes :=
  match n with
  | O => []
  | S n => letter i :: fill_pattern n (i + 1)
  end.

(** 64 KiB of letters and one more alphabet. *)
Definition pattern : bytes := fill_pattern (Z.to_nat (kBytesPiece + 26)) 0.

(** The call operator of the closure of [/bytes/{n}]; its state is [sent]. *)
Definition bytes_call (n sent : Z) (out : bytes) (trailers : Headers) : option (bool * bytes * Headers * Z) :=
  let take_ := Z.min (u64 (n - sent)) kBytesPiece in
  let out := out ++ take (Z.to_nat take_) (drop (Z.to_nat (sent mod 26)) pattern) in
  let sent := u64 (sent + take_) in
  Some (sent <? n, out, trailers, sent).

Definition bytes_producer (n sent : Z) : BodyProducer := mkProducer Z sent (bytes_call n).

Definition stream_line (n i : Z) : bytes := B "chunk " ++ to_string i ++ B " of " ++ to_string n ++ [LF].

(** [snprintf(hex, 9, "%08x", v)]. *)
Definition hex8 (v : Z) : bytes :=
  let d := to_chars 16 v in take 8 (replicate (8 - length d) "0"%char ++ d).

(** The call operator of the closure of [/stream/{n}]; its state is [i] and [crc]. *)
Definition stream_call (n : Z) (st : Z * Z) (out : bytes) (trailers : Headers)
  : option (bool * bytes * Headers * (Z * Z)) :=
  let '(i, crc) := st in
  let '(i, crc, out) :=
    if i <? n then
      let line := stream_line n i in
      (u64 (i + 1), crc32 line crc, out ++ line)
    else (i, crc, out) in
  if i <? n then Some (true, out, trailers, (i, crc))
  else
    let trailers := set trailers (B "X-Chunk-Count") (to_string n) in
    let trailers := set trailers (B "X-Content-CRC32") (hex8 crc) in
    Some (false, out, trailers, (i, crc)).

Definition stream_producer (n i crc : Z) : BodyProducer := mkProducer (Z * Z) (i, crc) (stream_call n).

(** ** JSON *)

Definition BACKSLASH : ascii := chr 92.

Definition json_escape (s : bytes) : bytes :=
  flat_map (fun c =>
    (if Ascii.eqb c DQUOTE || Ascii.eqb c BACKSLASH then [BACKSLASH] else [])
    ++ (if code c >=? 0x20 then [c] else [])) s.

(** What [/debug/info] prints; [uname] and the other calls fill it. *)
Record Info := mkInfo {
  i_pid : Z; i_workers : Z; i_pinned : bool; i_port : Z; i_cpus : Z; i_page_size : Z;
  i_sysname : bytes; i_release : bytes; i_machine : bytes; i_compiler : bytes; i_cplusplus : Z;
  i_limits : ParserLimits }.

(** ["%d"] and ["%ld"]. *)
Definition signed (v : Z) : bytes := if v <? 0 then B "-" ++ to_string (- v) else to_string v.

Definition quoted (s : bytes) : bytes := [DQUOTE] ++ s ++ [DQUOTE].
Definition key (s : bytes) : bytes := quoted s ++ B ":".

Definition info_text (u : Info) (root : bytes) : bytes :=
  B "{" ++ key (B "pid") ++ signed (i_pid u)
  ++ B "," ++ key (B "workers") ++ to_string (i_workers u)
  ++ B "," ++ key (B "pinned") ++ (if i_pinned u then B "true" else B "false")
  ++ B "," ++ key (B "port") ++ to_string (i_port u)
  ++ B "," ++ key (B "online_cpus") ++ signed (i_cpus u)
  ++ B "," ++ key (B "page_size") ++ signed (i_page_size u)
  ++ B "," ++ key (B "kernel")
  ++ quoted (json_escape (i_sysname u) ++ B " " ++ json_escape (i_release u) ++ B " " ++ json_escape (i_machine u))
  ++ B "," ++ key (B "compiler") ++ quoted (json_escape (i_compiler u))
  ++ B "," ++ key (B "cplusplus") ++ signed (i_cplusplus u)
  ++ B "," ++ key (B "static_root") ++ quoted (json_escape root)
  ++ B "," ++ key (B "limits") ++ B "{" ++ key (B "max_request_line") ++ to_string (max_request_line (i_limits u))
  ++ B "," ++ key (B "max_header_bytes") ++ to_string (max_header_bytes (i_limits u))
  ++ B "," ++ key (B "max_body_bytes") ++ to_string (max_body_bytes (i_limits u)) ++ B "}}" ++ [LF].

(** [char buf[1024]]: [snprintf] keeps 1023 characters. *)
Definition debug_info (u : Info) (root : bytes) : bytes := take 1023 (info_text u root).

Definition kIndex : bytes :=
  B "httpd-cpp: an epoll-based HTTP/1.1 server in C++17" ++ [LF]
  ++ [LF]
  ++ B "  GET  /healthz         liveness probe" ++ [LF]
  ++ B "  GET  /metrics         Prometheus metrics (per-worker counters, latency histogram)" ++ [LF]
  ++ B "  GET  /debug/info      build, kernel and runtime information (JSON)" ++ [LF]
  ++ B "  POST /echo            echoes the request body (Content-Length or chunked)" ++ [LF]
  ++ B "  GET  /stream/{n}      n chunks via chunked encoding + CRC-32 trailer" ++ [LF]
  ++ B "  GET  /bytes/{n}       n bytes streamed with backpressure (throughput tests)" ++ [LF]
  ++ B "  GET  /static/{path}   files from --root, zero-copy with sendfile(2)" ++ [LF].

(** ** Handlers *)

Section Handlers.
Context {K : Type} `{Kernel K} `{FileSys K} (have_openat2 : bool).
(** Floating point and its printing, as in [Metrics]. *)
Context {double : Type} (of_u64 : Z -> double) (div_1e6 : double -> double) (fmt_17g fmt_g : double -> bytes).
(** What the handlers find in the world: the workers' counters, the uptime, [/debug/info]. *)
Context (worker_metrics : K -> list WorkerMetrics) (uptime : K -> double) (info : K -> Info).

Definition metrics_text (k : K) : bytes :=
  render_prometheus of_u64 div_1e6 fmt_17g fmt_g (worker_metrics k) (uptime k).

(** [res = …] closes the descriptor [res] held. *)
Definition assign (res new : Response) (k : K) : (Response + bytes) * K :=
  (inl new, close_fds (UniqueFd.reset (file res) (file new)).1 k).

Definition index_handler : Handler K := fun k _ res => assign res (Response_text 200 kIndex text_plain) k.
Definition healthz_handler : Handler K := fun k _ res => assign res (Response_text 200 (B "ok" ++ [LF]) text_plain) k.
Definition metrics_handler : Handler K := fun k _ res =>
  assign res (Response_text 200 (metrics_text k) (B "text/plain; version=0.0.4; charset=utf-8")) k.
Definition info_handler (root : bytes) : Handler K := fun k _ res =>
  assign res (Response_text 200 (debug_info (info k) root) (B "application/json")) k.
Definition echo_handler : Handler K := fun k req res =>
  let type := match get (headers req) (B "Content-Type") with
              | Some t => t
              | None => B "application/octet-stream"
              end in
  assign res (Response_text 200 (body req) type) k.

(** [res] with the headers, the producer and the length of a streamed body. *)
Definition streamed (res : Response) (h : Headers) (pr : BodyProducer) (len : option Z) : Response :=
  mkResponse (status res) h (res_body res) (file res) (file_offset res) (file_length res) (Some pr) len.

Definition stream_handler : Handler K := fun k req res =>
  let usage := Response_text 400 (B "usage: /stream/{0.." ++ to_string kMaxStreamChunks ++ B "}" ++ [LF]) text_plain in
  match parse_u64 (drop 8 (path req)) with
  | None => assign res usage k
  | Some n =>
      if n >? kMaxStreamChunks then assign res usage k
      else
        let h := set (res_headers res) (B "Content-Type") (B "text/plain; charset=utf-8") in
        let h := set h (B "Trailer") (B "X-Chunk-Count, X-Content-CRC32") in
        (inl (streamed res h (stream_producer n 0 0) (stream_length res)), k)
  end.

Definition bytes_handler : Handler K := fun k req res =>
  let usage := Response_text 400 (B "usage: /bytes/{0.." ++ to_string kMaxGeneratedBytes ++ B "}" ++ [LF]) text_plain in
  match parse_u64 (drop 7 (path req)) with
  | None => assign res usage k
  | Some n =>
      if n >? kMaxGeneratedBytes then assign res usage k
      else
        let h := set (res_headers res) (B "Content-Type") (B "application/octet-stream") in
        (inl (streamed res h (bytes_producer n 0) (Some n)), k)
  end.

(** [files] holds the descriptor of the static root ([-1]: not available). *)
Definition static_handler (files : Z) : Handler K := fun k req res =>
  let '(res, _, k) := serve have_openat2 files (drop 8 (path req)) res k in (inl res, k).

Definition install_routes (r : Router K) (static_root : bytes) (files : Z) : Router K :=
  let r := Router_add r (B "GET") (B "/") index_handler in
  let r := Router_add r (B "GET") (B "/healthz") healthz_handler in
  let r := Router_add r (B "GET") (B "/metrics") metrics_handler in
  let r := Router_add r (B "GET") (B "/debug/info") (info_handler static_root) in
  let r := Router_add r (B "POST") (B "/echo") echo_handler in
  let r := Router_add_prefix r (B "GET") (B "/stream/") stream_handler in
  let r := Router_add_prefix r (B "GET") (B "/bytes/") bytes_handler in
  Router_add_prefix r (B "GET") (B "/static/") (static_handler files).

End Handlers.
