(* ===== verification/RoutesFacts.v ===== *)
(** * The endpoints: what clients of the demo routes receive *)

From S2P Require Import Prelude Headers RequestParser Numbers ParserFacts ParserSegmentation.
From S2P Require Import Response ChunkCodec ResponseHead Crc32 ByteBuffer UniqueFd Router StaticFiles Metrics Connection.
From S2P Require Import ConnectionFacts ConnectionLiveness Pipeline Routes.
From stdpp Require Import numbers.

Open Scope Z_scope.

(** ** Numbers in paths *)

Lemma digit_prefix_all s : forallb is_digit s = true -> digit_prefix s = s.
Proof. induction s as [|c s IH]; [done|]. cbn. intros. bool_hyps. by rewrite H, IH. Qed.

Lemma digit_prefix_len s : length (digit_prefix s) = length s -> forallb is_digit s = true.
Proof. induction s as [|c s IH]; [done|]. cbn. destruct (is_digit c); cbn; [|done]. intros [= ?]. by apply IH. Qed.

(** A number is accepted exactly when it is a non-empty string of digits whose value fits 64 bits. *)
Lemma parse_u64_iff s n :
  parse_u64 s = Some n <-> s <> [] /\ forallb is_digit s = true /\ dec_value 0 s = n /\ n < 2 ^ 64.
Proof.
  unfold parse_u64, from_chars_u64. split.
  - destruct s as [|c s]; [done|]. destruct (digit_prefix (c :: s)) as [|d ds] eqn:E; [done|].
    destruct (Z.ltb_spec (dec_value 0 (d :: ds)) (2 ^ 64)); [|done]. rewrite bool_decide_eq_true_2 by done. cbn [andb].
    destruct (Nat.eqb_spec (length (d :: ds)) (length (c :: s))) as [El|]; [|done]. intros [= <-].
    rewrite <- E in El. apply digit_prefix_len in El. split; [done|]. split; [done|].
    rewrite (digit_prefix_all (c :: s)) in E by done. by rewrite E.
  - intros (Hne & Hd & <- & Hlt). destruct s as [|c s]; [done|]. rewrite digit_prefix_all by done.
    rewrite (proj2 (Z.ltb_lt _ _)) by done. rewrite bool_decide_eq_true_2, Nat.eqb_refl by done. done.
Qed.

Lemma parse_u64_to_string n : 0 <= n < 2 ^ 64 -> parse_u64 (to_string n) = Some n.
Proof.
  intros Hn. unfold to_string. destruct (to_chars_spec 10 n) as (E1 & E2 & E3 & _); [lia|lia|].
  apply base_digit_dec in E2. apply parse_u64_iff. split; [done|]. split; [done|]. rewrite dec_value_num by done. lia.
Qed.

(** A decimal number within a bound. *)
Definition number_within (limit : Z) (s : bytes) : bool :=
  forallb is_digit s && negb (bytes_eqb s []) && (dec_value 0 s <=? limit).

Lemma parse_u64_within limit s : limit < 2 ^ 64 ->
  match parse_u64 s with
  | Some n => n = dec_value 0 s /\ (n >? limit) = negb (number_within limit s)
  | None => number_within limit s = false
  end.
Proof.
  intros Hl. unfold number_within. destruct (parse_u64 s) as [n|] eqn:E.
  - apply parse_u64_iff in E as (Hne & Hd & <- & Hlt). split; [done|]. rewrite Hd.
    rewrite (proj2 (bytes_eqb_neq s [])) by done. cbn [andb negb]. rewrite Z.gtb_ltb, Z.ltb_antisym. done.
  - destruct (forallb is_digit s) eqn:Hd; [|done]. destruct (bytes_eqb s []) eqn:Hne; [done|]. cbn [andb negb].
    apply Z.leb_gt. destruct (Z.lt_ge_cases (dec_value 0 s) (2 ^ 64)) as [Hlt|]; [|lia].
    apply bytes_eqb_neq in Hne. by rewrite (proj2 (parse_u64_iff s (dec_value 0 s))) in E.
Qed.

(** ** [/bytes/{n}] *)

(** [m] letters from position [s] of the endless alphabet. *)
Definition letters (s m : nat) : bytes := (fun i => letter (Z.of_nat i)) <$> seq s m.

Lemma letter_shift s j : letter (Z.of_nat (s mod 26 + j)) = letter (Z.of_nat (s + j)).
Proof. unfold letter. rewrite !Nat2Z.inj_add, Nat2Z.inj_mod. by rewrite Zplus_mod_idemp_l. Qed.

Lemma fill_pattern_letters n i : fill_pattern n (Z.of_nat i) = letters i n.
Proof.
  revert i. induction n as [|n IH]; intros i; [done|]. cbn [fill_pattern]. unfold letters in *. cbn [seq fmap list_fmap].
  rewrite <- IH. do 2 f_equal. lia.
Qed.

Lemma letters_mod s m : letters (s mod 26) m = letters s m.
Proof.
  unfold letters. apply list_eq. intros i. rewrite !list_lookup_fmap.
  destruct (decide (i < m)%nat).
  - rewrite !lookup_seq_lt by done. cbn [fmap option_fmap option_map]. by rewrite letter_shift.
  - rewrite !lookup_seq_ge by lia. done.
Qed.

Lemma zlen_letters s m : zlen (letters s m) = Z.of_nat m.
Proof. unfold letters, zlen. by rewrite length_fmap, length_seq. Qed.

Lemma letters_app s m1 m2 : letters s (m1 + m2) = letters s m1 ++ letters (s + m1) m2.
Proof. unfold letters. by rewrite seq_app, fmap_app. Qed.

(** The window cut out of [pattern] continues the alphabet at [sent]. *)
Lemma pattern_window sent m : (m <= Z.to_nat kBytesPiece)%nat ->
  take m (drop (sent mod 26) pattern) = letters sent m.
Proof.
  intros Hm. rewrite <- letters_mod. unfold pattern. change 0 with (Z.of_nat 0). rewrite fill_pattern_letters, Z2Nat.inj_add by done.
  generalize dependent (Z.to_nat kBytesPiece). intros N Hm. change (Z.to_nat 26) with 26%nat.
  pose proof (Nat.mod_upper_bound sent 26 ltac:(lia)).
  unfold letters. rewrite <- fmap_drop, <- fmap_take. f_equal.
  rewrite drop_seq. rewrite take_seq. f_equal; lia.
Qed.

Lemma bytes_call_eq n s out tr :
  0 <= s < n -> n <= kMaxGeneratedBytes ->
  let m := Z.min (n - s) kBytesPiece in
  bytes_call n s out tr = Some (s + m <? n, out ++ letters (Z.to_nat s) (Z.to_nat m), tr, s + m).
Proof.
  intros Hs Hn m. unfold bytes_call. change kMaxGeneratedBytes with (2 ^ 30) in Hn.
  rewrite (u64_small (n - s)) by lia. fold m.
  assert (0 <= m <= kBytesPiece) as Hm by (unfold m, kBytesPiece in *; lia).
  rewrite u64_small by (unfold kBytesPiece in *; lia). rewrite Z2Nat.inj_mod by lia. change (Z.to_nat 26) with 26%nat.
  rewrite pattern_window by (apply Z2Nat.inj_le; lia). done.
Qed.

(** The connection is sending the body of [/bytes/{n}], [s] bytes of which have been produced. *)
Definition sending {T : Type} (c : Connection T) (n s : Z) : Prop :=
  c_producer c = Some (bytes_producer n s) /\ c_stream_sized c = true /\ c_chunked c = false /\ c_stream_left c = n - s.

Lemma refill_bytes {T : Type} (c : Connection T) n s :
  sending c n s -> c_out c = [] -> 0 <= s < n -> n <= kMaxGeneratedBytes ->
  let m := Z.min (n - s) kBytesPiece in
  exists c', refill_from_producer c = Some c' /\ c_out c' = letters (Z.to_nat s) (Z.to_nat m)
    /\ c_close_after_write c' = c_close_after_write c
    /\ if s + m <? n then sending c' n (s + m) else c_producer c' = None /\ s + m = n.
Proof.
  intros (Hp & Hsz & Hch & Hl) Ho Hs Hn m. assert (0 < m <= kBytesPiece) as Hm by (unfold m, kBytesPiece in *; lia).
  set (c1 := append_out (letters (Z.to_nat s) (Z.to_nat m))
               (set_stream (Some (bytes_producer n (s + m))) (c_trailers c) false true (n - s - m) c)).
  assert (refill_round c = Some (s + m <? n, c1)) as Hr.
  { unfold refill_round. rewrite Hp. unfold produce. cbn [pr_call pr_cur pr_state bytes_producer].
    rewrite bytes_call_eq by done. fold m. cbn [app]. pose proof (zlen_letters (Z.to_nat s) (Z.to_nat m)) as Hz.
    destruct (letters (Z.to_nat s) (Z.to_nat m)) as [|b bs] eqn:E; [unfold zlen in Hz; cbn in Hz; lia|].
    rewrite andb_false_r. conn_simpl. rewrite Hsz, Hl, Hch, Hz. destruct (Z.gtb_spec (Z.of_nat (Z.to_nat m)) (n - s)); [lia|].
    rewrite u64_small by (change kMaxGeneratedBytes with (2 ^ 30) in Hn; lia). rewrite Z2Nat.id by lia. unfold c1.
    match goal with |- Some (?b, _) = _ => assert (b = (s + m <? n)) as ->; [|done] end. destruct (Z.eqb_spec (n - s - m) 0), (Z.ltb_spec (s + m) n); lia || done. }
  assert (refill_loop refill_fuel c true = Some (s + m <? n, c1)) as Hloop.
  { change refill_fuel with (S (pred refill_fuel)). generalize (pred refill_fuel). intros f. cbn [refill_loop andb].
    rewrite Ho. change (zlen [] <? kProducerLowWater) with true. cbn iota. rewrite Hr.
    destruct (Z.ltb_spec (s + m) n) as [Hlt|]; [|apply refill_loop_false].
    assert (zlen (c_out c1) = kBytesPiece) as Hz.
    { unfold c1. conn_simpl. rewrite Ho. cbn [app]. rewrite zlen_letters, Z2Nat.id by lia. unfold m in *. lia. }
    destruct f; cbn [refill_loop]; rewrite Hz; done. }
  unfold refill_from_producer. rewrite Hloop. destruct (Z.ltb_spec (s + m) n) as [Hlt|Hge].
  - exists c1. split; [done|]. unfold c1. conn_simpl. rewrite Ho. split; [done|]. split; [done|].
    split; [done|]. split; [done|]. split; [done|]. conn_simpl. lia.
  - exists (finish_stream c1). split; [done|]. rewrite finish_stream_eq. unfold c1. conn_simpl. rewrite Ho.
    assert (n - s - m = 0) as -> by (unfold m in *; lia). cbn [Z.eqb negb andb orb]. rewrite orb_false_r.
    split; [done|]. split; [done|]. split; [done|]. unfold m in *; lia.
Qed.

Lemma drain_bytes {T : Type} k (c : Connection T) n s :
  sending c n s -> c_out c = [] -> 0 <= s < n -> n <= kMaxGeneratedBytes -> n - s <= kBytesPiece * Z.of_nat k ->
  drain_stream k c = Some (letters (Z.to_nat s) (Z.to_nat (n - s))).
Proof.
  revert c s. induction k as [|k IH]; intros c s Hc Ho Hs Hn Hk; [lia|].
  cbn [drain_stream]. pose proof Hc as [Hp _]. rewrite Hp.
  destruct (refill_bytes c n s Hc Ho Hs Hn) as (c' & -> & Ho' & _ & Hnext). set (m := Z.min (n - s) kBytesPiece) in *.
  destruct (Z.ltb_spec (s + m) n) as [Hlt|].
  - rewrite (IH (set_out [] 0 c') (s + m)); [|done|done| |done|]; [|unfold m, kBytesPiece in *; lia..].
    cbn [fmap option_fmap option_map]. f_equal. rewrite Ho'.
    replace (Z.to_nat (n - s)) with (Z.to_nat m + Z.to_nat (n - (s + m)))%nat by (unfold m, kBytesPiece in *; lia).
    rewrite letters_app. do 2 f_equal. unfold m, kBytesPiece in *; lia.
  - destruct Hnext as [Hnone Hend].
    assert (drain_stream k (set_out [] 0 c') = Some []) as ->.
    { destruct k; cbn [drain_stream]; conn_simpl; by rewrite Hnone. }
    cbn [fmap option_fmap option_map]. rewrite app_nil_r, Ho'. do 2 f_equal. lia.
Qed.

(** ** [/stream/{n}] *)

(** The pieces of the body, and the body. *)
Definition stream_pieces (n : Z) : list bytes := if n =? 0 then [[]] else stream_line n <$> seqZ 0 n.
Definition stream_body (n : Z) : bytes := concat (stream_line n <$> seqZ 0 n).
Definition stream_trailers (n crc : Z) : Headers :=
  [(B "X-Chunk-Count", to_string n); (B "X-Content-CRC32", hex8 crc)].

Lemma stream_line_nonempty n i : stream_line n i <> [].
Proof. done. Qed.

Lemma stream_run m n i crc :
  0 <= i -> n = i + Z.of_nat (S m) -> n <= kMaxStreamChunks ->
  produces (stream_producer n i crc) [] (stream_line n <$> seqZ i (n - i))
    (stream_trailers n (crc32 (concat (stream_line n <$> seqZ i (n - i))) crc)).
Proof.
  revert i crc. induction m as [|m IH]; intros i crc Hi En Hn; rewrite seqZ_cons by lia; cbn [fmap list_fmap concat].
  all: assert (u64 (i + 1) = i + 1) as Hu by (apply u64_small; unfold kMaxStreamChunks in Hn; lia).
  - replace (Z.pred (n - i)) with 0 by lia. cbn [seqZ Z.to_nat seq fmap list_fmap concat]. rewrite app_nil_r.
    eapply produces_last. unfold produce. cbn [pr_call pr_cur stream_producer stream_call].
    rewrite (proj2 (Z.ltb_lt i n)), Hu by lia. rewrite (proj2 (Z.ltb_ge (i + 1) n)) by lia. done.
  - eapply produces_more.
    + unfold produce. cbn [pr_call pr_cur stream_producer stream_call].
      rewrite (proj2 (Z.ltb_lt i n)), Hu by lia. rewrite (proj2 (Z.ltb_lt (i + 1) n)) by lia. done.
    + apply stream_line_nonempty.
    + cbn [app]. rewrite <- crc32_resume. change (mkProducer _ ?st _) with (stream_producer n (fst st) (snd st)).
      unfold Z.succ. replace (Z.pred (n - i)) with (n - (i + 1)) by lia. apply IH; lia.
Qed.

Lemma stream_produces n :
  0 <= n <= kMaxStreamChunks ->
  produces (stream_producer n 0 0) [] (stream_pieces n) (stream_trailers n (crc32 (stream_body n) 0)).
Proof.
  intros Hn. unfold stream_pieces, stream_body. destruct (Z.eqb_spec n 0) as [->|Hz].
  - eapply produces_last. reflexivity.
  - pose proof (stream_run (Z.to_nat (n - 1)) n 0 0) as H. rewrite Z.sub_0_r in H. apply H; lia.
Qed.

Lemma stream_pieces_body n : concat (stream_pieces n) = stream_body n.
Proof. unfold stream_pieces, stream_body. by destruct (Z.eqb_spec n 0) as [->|]. Qed.

Lemma stream_pieces_length n : 0 <= n -> (length (stream_pieces n) <= S (Z.to_nat n))%nat.
Proof. intros Hn. unfold stream_pieces. destruct (n =? 0); cbn; [lia|]. rewrite length_fmap, length_seqZ. lia. Qed.

Lemma hex8_chars crc : is_u32 crc -> forallb is_tchar (hex8 crc) = true /\ zlen (hex8 crc) = 8.
Proof.
  intros Hc. unfold is_u32 in Hc. unfold hex8. destruct (to_chars_spec 16 crc) as (_ & E2 & _ & E4); [lia|lia|].
  specialize (E4 7%nat ltac:(cbn; lia)). apply base_digit_tchar in E2. set (d := to_chars 16 crc) in *.
  assert (length (replicate (8 - length d) "0"%char ++ d) = 8%nat) as Hl by (rewrite length_app, length_replicate; lia).
  rewrite take_ge by lia. split; [|unfold zlen; by rewrite Hl]. rewrite forallb_app, E2, andb_true_r.
  apply forallb_forall. intros x Hx. apply list_elem_of_In, elem_of_replicate in Hx as [-> _]. done.
Qed.

Lemma to_string_chars n : 0 <= n < 2 ^ 64 -> forallb is_tchar (to_string n) = true /\ zlen (to_string n) <= 20.
Proof.
  intros Hn. unfold to_string. destruct (to_chars_spec 10 n) as (_ & E2 & _ & E4); [lia|lia|].
  specialize (E4 19%nat ltac:(cbn; lia)). apply base_digit_tchar in E2. split; [done|]. unfold zlen. lia.
Qed.

Lemma tchar_value_ok s : forallb is_tchar s = true -> existsb value_char_bad s = false.
Proof.
  induction s as [|c s IH]; [done|]. cbn [forallb existsb]. intros. bool_hyps. rewrite IH by done.
  clear - H. revert H. by all_bytes c.
Qed.

Lemma stream_trailers_printable n crc :
  0 <= n < 2 ^ 64 -> is_u32 crc -> fields_printable (stream_trailers n crc) /\ fields_size (stream_trailers n crc) <= 72.
Proof.
  intros Hn Hc. destruct (to_string_chars n Hn) as [Ht1 Ht2], (hex8_chars crc Hc) as [Hh1 Hh2].
  split; [split|].
  - apply (bool_decide_unpack (NoDup (names (stream_trailers n crc)))). vm_compute. exact I.
  - repeat constructor; cbn [fst snd]; auto using tchar_value_ok, token_trim.
  - unfold fields_size, stream_trailers. cbn [fmap list_fmap concat]. unfold field_line. cbn [fst snd].
    rewrite !zlen_app, Hh2.
    change (zlen (B "X-Chunk-Count")) with 13. change (zlen (B "X-Content-CRC32")) with 15.
    change (zlen (B ": ")) with 2. change (zlen kCRLF) with 2. change (zlen (@nil ascii)) with 0. lia.
Qed.

(** A parser about to read a chunked body that has room for the [n] lines and the trailers. *)
Definition expects_stream (p : RequestParser) (n : Z) : Prop :=
  parser_wf p /\ state_ p = State.ChunkSize /\ body (req_ p) = [] /\ 16 <= max_chunk_line (limits_ p)
  /\ zlen (stream_body n) <= max_body_bytes (limits_ p)
  /\ header_bytes_ p + 74 <= max_header_bytes (limits_ p) /\ header_count_ p + 2 <= max_header_count (limits_ p).

Lemma zlen_concat_le (l : list bytes) b : Forall (fun x => zlen x <= b) l -> zlen (concat l) <= b * zlen l.
Proof.
  induction 1 as [|x l Hx Hl IH]; cbn [concat]; [unfold zlen; cbn; lia|].
  rewrite zlen_app. unfold zlen in *. cbn [length]. lia.
Qed.

Lemma stream_line_short n i : 0 <= i < 2 ^ 64 -> 0 <= n < 2 ^ 64 -> zlen (stream_line n i) <= 51.
Proof.
  intros Hi Hn. destruct (to_string_chars i Hi) as [_ H1], (to_string_chars n Hn) as [_ H2].
  unfold stream_line. rewrite !zlen_app. change (zlen (B "chunk ")) with 6. change (zlen (B " of ")) with 4.
  change (zlen [LF]) with 1. lia.
Qed.

Lemma append_chunk_short piece : zlen piece <= 51 -> zlen (append_chunk [] piece) <= 71.
Proof.
  intros Hp. unfold append_chunk. destruct piece as [|b bs]; [unfold zlen; cbn; lia|]. unfold append_number.
  pose proof (zlen_nonneg (b :: bs)). destruct (parse_hex_to_chars (zlen (b :: bs)) ltac:(lia)) as [_ Hx].
  rewrite !zlen_app. change (zlen kCRLF) with 2. change (zlen (@nil ascii)) with 0. lia.
Qed.

(** The whole message is far smaller than what positions can count. *)
Lemma stream_text_short n crc : 0 <= n <= kMaxStreamChunks -> is_u32 crc ->
  zlen (encode_chunked (stream_pieces n) (stream_trailers n crc)) <= 2 ^ 23.
Proof.
  intros Hn Hc. unfold kMaxStreamChunks in Hn. rewrite encode_chunked_eq, !zlen_app. 
  destruct (stream_trailers_printable n crc ltac:(lia) Hc) as [_ Ht]. unfold fields_size in Ht.
  assert (zlen (concat (append_chunk [] <$> stream_pieces n)) <= 71 * zlen (append_chunk [] <$> stream_pieces n)) as H1.
  { apply zlen_concat_le, Forall_fmap. unfold stream_pieces. destruct (Z.eqb_spec n 0); [repeat constructor; by vm_compute|].
    apply Forall_fmap, Forall_forall. intros i Hi. apply list_elem_of_In, elem_of_seqZ in Hi. apply append_chunk_short, stream_line_short; lia. }
  pose proof (stream_pieces_length n ltac:(lia)) as Hl.
  assert (zlen (append_chunk [] <$> stream_pieces n) <= n + 1) as H2 by (unfold zlen; rewrite length_fmap; lia).
  change (zlen (to_chars 16 0)) with 1. change (zlen kCRLF) with 2. change (2 ^ 23) with 8388608. lia.
Qed.

(** What the parser makes of the message. *)
Lemma stream_decoded n p rest :
  0 <= n <= kMaxStreamChunks -> expects_stream p n -> zlen rest < 2 ^ 61 ->
  let text := encode_chunked (stream_pieces n) (stream_trailers n (crc32 (stream_body n) 0)) in
  exists p', feed p (text ++ rest) = (p', length text) /\ done p' = true
    /\ body (req_ p') = stream_body n /\ trailers (req_ p') = stream_trailers n (crc32 (stream_body n) 0).
Proof.
  intros Hn (Hw & Hs & Hb & Hc & Hbody & Hhb & Hhc) Hr text.
  pose proof (crc32_range (stream_body n) 0) as Hcrc. pose proof (stream_text_short n _ Hn Hcrc) as Hlen. fold text in Hlen.
  assert (0 <= n < 2 ^ 64) as Hn' by (unfold kMaxStreamChunks in Hn; lia).
  destruct (stream_trailers_printable n _ Hn' Hcrc) as [[Hwf Hpr] Hsize].
  destruct (feeds_chunks (stream_pieces n) p (stream_trailers n (crc32 (stream_body n) 0)) rest) as (p' & Hfs & Hd & Hreq & _);
    try done.
  - unfold fits. rewrite zlen_app. fold text. lia.
  - by rewrite Hb, stream_pieces_body.
  - lia.
  - exists p'. split; [by apply feeds_feed|]. split; [done|]. rewrite Hreq, Hb, stream_pieces_body. done.
Qed.

(** ** The numbered handlers on a fresh response *)

Lemma bytes_handler_eq {K} `{Kernel K} (k : K) req tail :
  path req = B "/bytes/" ++ tail ->
  exists res, bytes_handler k req Response_new = (inl res, k)
    /\ if number_within kMaxGeneratedBytes tail
       then status res = 200 /\ stream_length res = Some (dec_value 0 tail) /\ file res = -1
            /\ producer res = Some (bytes_producer (dec_value 0 tail) 0)
       else status res = 400 /\ producer res = None.
Proof.
  intros Hp. unfold bytes_handler. rewrite Hp. change (drop 7 (B "/bytes/" ++ tail)) with tail.
  pose proof (parse_u64_within kMaxGeneratedBytes tail ltac:(done)) as Hn. destruct (parse_u64 tail) as [n|].
  - destruct Hn as [-> ->]. destruct (number_within _ tail); cbn [negb]; eexists; (split; [reflexivity|done]).
  - rewrite Hn. eexists; (split; [reflexivity|done]).
Qed.

Lemma stream_handler_eq {K} `{Kernel K} (k : K) req tail :
  path req = B "/stream/" ++ tail ->
  exists res, stream_handler k req Response_new = (inl res, k)
    /\ if number_within kMaxStreamChunks tail
       then status res = 200 /\ stream_length res = None /\ file res = -1
            /\ values_of (B "Trailer") (res_headers res) = [B "X-Chunk-Count, X-Content-CRC32"]
            /\ producer res = Some (stream_producer (dec_value 0 tail) 0 0)
       else status res = 400 /\ producer res = None.
Proof.
  intros Hp. unfold stream_handler. rewrite Hp. change (drop 8 (B "/stream/" ++ tail)) with tail.
  pose proof (parse_u64_within kMaxStreamChunks tail ltac:(done)) as Hn. destruct (parse_u64 tail) as [n|].
  - destruct Hn as [-> ->]. destruct (number_within _ tail); cbn [negb]; eexists; (split; [reflexivity|done]).
  - rewrite Hn. eexists; (split; [reflexivity|done]).
Qed.

Lemma number_within_to_string limit n :
  0 <= n <= limit -> limit < 2 ^ 64 -> number_within limit (to_string n) = true /\ dec_value 0 (to_string n) = n.
Proof.
  intros Hn Hl. pose proof (parse_u64_to_string n ltac:(lia)) as (Hne & Hd & Hv & _)%parse_u64_iff.
  split; [|done]. unfold number_within. rewrite Hd, Hv, (proj2 (bytes_eqb_neq _ _)) by done. cbn [andb negb]. lia.
Qed.

(** ** The route table *)

Section App.
Context {K : Type} `{Kernel K} `{FileSys K} (have_openat2 : bool).
Context {double : Type} (of_u64 : Z -> double) (div_1e6 : double -> double) (fmt_17g fmt_g : double -> bytes).
Context (worker_metrics : K -> list WorkerMetrics) (uptime : K -> double) (info : K -> Info).
Context (static_root : bytes) (files : Z).

(** The routes of the program: [install_routes] on an empty router. *)
Definition app_router : Router K :=
  install_routes have_openat2 of_u64 div_1e6 fmt_17g fmt_g worker_metrics uptime info [] static_root files.

(** The method and the handler of a path. *)
Definition app_target (p : bytes) : option (bytes * Handler K) :=
  if bytes_eqb p (B "/") then Some (B "GET", index_handler)
  else if bytes_eqb p (B "/healthz") then Some (B "GET", healthz_handler)
  else if bytes_eqb p (B "/metrics") then
    Some (B "GET", metrics_handler of_u64 div_1e6 fmt_17g fmt_g worker_metrics uptime)
  else if bytes_eqb p (B "/debug/info") then Some (B "GET", info_handler info static_root)
  else if bytes_eqb p (B "/echo") then Some (B "POST", echo_handler)
  else if starts_with (B "/stream/") p then Some (B "GET", stream_handler)
  else if starts_with (B "/bytes/") p then Some (B "GET", bytes_handler)
  else if starts_with (B "/static/") p then Some (B "GET", static_handler have_openat2 files)
  else None.

(** No handler of the program throws. *)
Definition returned (r : (Response + bytes) * K) : option (Response * K) :=
  match r with (inl res, k) => Some (res, k) | (inr _, _) => None end.

(** What the route table should answer. *)
Definition app_answer (req : Request) (k : K) : option (Response * K) :=
  match app_target (path req) with
  | None => Some (Response_text 404 (B "not found" ++ [LF]) text_plain, k)
  | Some (m, h) =>
      if bytes_eqb m (lookup_method req) then returned (h k req Response_new)
      else Some (no_route_response (if bytes_eqb m (B "GET") then B "GET, HEAD" else m), k)
  end.

Lemma app_run (h : Handler K) m p b k req :
  is_Some (returned (h k req Response_new)) ->
  Some (run_handler (mkRoute m p b h) k req Response_new) = returned (h k req Response_new).
Proof. unfold run_handler. cbn [rt_handler]. destruct (h k req Response_new) as [[r|w] k']; [done|]. by intros [? [=]]. Qed.

(** Evaluates the tests of a path that begins with a literal. *)
Ltac path_tests :=
  repeat match goal with
  | |- context [bytes_eqb ?a ?b] =>
      let v := eval vm_compute in (bytes_eqb a b) in
      match v with true => idtac | false => idtac end; change (bytes_eqb a b) with v
  | |- context [starts_with ?a ?b] =>
      let v := eval vm_compute in (starts_with a b) in
      match v with true => idtac | false => idtac end; change (starts_with a b) with v
  end; cbn [andb rt_method rt_handler fmap list_fmap fold_left].

Lemma static_returns k req : is_Some (returned (static_handler have_openat2 files k req Response_new)).
Proof. unfold static_handler. by destruct (serve _ _ _ _ _) as [[r e] k']. Qed.

Lemma stream_returns k req : is_Some (returned (stream_handler k req Response_new)).
Proof. unfold stream_handler. destruct (parse_u64 _) as [n|]; [|done]. by destruct (_ >? _). Qed.

Lemma bytes_returns k req : is_Some (returned (bytes_handler k req Response_new)).
Proof. unfold bytes_handler. destruct (parse_u64 _) as [n|]; [|done]. by destruct (_ >? _). Qed.

Lemma app_table req k : Some (Router.dispatch app_router k req Response_new) = app_answer req k.
Proof.
  unfold Router.dispatch. rewrite dispatch_loop_spec. unfold path_methods, app_router, install_routes, Router_add, Router_add_prefix.
  cbn [app List.find List.filter]. unfold route_match, app_answer, app_target. cbn [rt_prefix rt_path rt_method].
  assert (path req = B "/" \/ path req = B "/healthz" \/ path req = B "/metrics" \/ path req = B "/debug/info"
    \/ path req = B "/echo" \/ (exists r, path req = B "/stream/" ++ r) \/ (exists r, path req = B "/bytes/" ++ r)
    \/ (exists r, path req = B "/static/" ++ r) \/ app_target (path req) = None) as Hcases.
  { unfold app_target. rewrite <- !bytes_eqb_eq. rewrite <- !starts_with_iff.
    repeat match goal with |- context [if ?b then Some _ else _] => destruct b; [by auto 10|] end. auto 10. }
  repeat destruct Hcases as [Hcases|Hcases].
  9:{ unfold app_target in Hcases. repeat match type of Hcases with context [if ?b then Some _ else _] => destruct b; [done|] end.
      done. }
  6-8: destruct Hcases as [r Hcases].
  all: rewrite Hcases; path_tests;
    (destruct (bytes_eqb _ (lookup_method req)) eqn:Em; [apply app_run|done]);
    auto using static_returns, stream_returns, bytes_returns; done.
Qed.

End App.

(** ** The handlers keep the contract of the router *)

(** A preorder on kernel states that the calls of the handlers respect. *)
Class FileRel {K : Type} `{Closer K} `{FileSys K} (R : K -> K -> Prop) := {
  #[global] frel_preorder :: PreOrder R;
  frel_close : forall k fd, R k (sys_close k fd);
  frel_openat2 : forall k d p, R k (sys_openat2 k d p).2;
  frel_openat : forall k d p, R k (sys_openat k d p).2;
  frel_fstat : forall k f, R k (sys_fstat k f).2 }.

Section Rel.
Context {K : Type} `{Kernel K} `{FileSys K} (R : K -> K -> Prop) `{!FileRel R} (have_openat2 : bool).

Lemma close_fds_rel l k : R k (close_fds l k).
Proof. revert k. induction l as [|fd l IH]; intros k; [done|]. etrans; [apply frel_close|apply (IH (sys_close k fd))]. Qed.

Lemma open_beneath_rel k d p : R k (open_beneath have_openat2 k d p).2.
Proof.
  unfold open_beneath.
  assert (forall k, R k (let '(r, k) := sys_openat k d (c_str p) in (open_fd r, k)).2) as Hf.
  { intros k0. pose proof (frel_openat k0 d (c_str p)). by destruct (sys_openat k0 d (c_str p)). }
  destruct have_openat2; [|apply Hf]. pose proof (frel_openat2 k d (c_str p)) as Ho.
  destruct (sys_openat2 k d (c_str p)) as [[fd|[]] k1]; [exact Ho| |exact Ho]. etrans; [exact Ho|apply Hf].
Qed.

Lemma fstat_into_rel k fd st : R k (fstat_into k fd st).2.
Proof. unfold fstat_into. pose proof (frel_fstat k fd). by destruct (sys_fstat k fd) as [[]]. Qed.

Lemma serve_rel root rel res k : R k (serve have_openat2 root rel res k).2.
Proof.
  unfold serve, assign_response. rewrite !closed_by_reset.
  destruct (valid root); cbn [negb]; [|apply close_fds_rel]. destruct (sanitize rel) as [out|]; [|apply close_fds_rel].
  set (p := match out with [] => _ | _ => _ end). clearbody p. clear out.
  pose proof (open_beneath_rel k root p) as Hr1. destruct (open_beneath have_openat2 k root p) as [fd k1]. cbn [snd] in Hr1.
  match goal with |- context [if valid fd then ?a else ?b] => set (r1 := if valid fd then a else b) end.
  assert (R k r1.2) as Hr2.
  { subst r1. destruct (valid fd); [|done]. pose proof (fstat_into_rel k1 fd (mkStat false false 0)) as Hs.
    destruct (fstat_into k1 fd (mkStat false false 0)) as [[ok st] k2]. by etrans. }
  destruct r1 as [[dir st1] k2]. cbn [snd] in Hr2.
  match goal with |- context [if dir then ?a else ?b] => set (r2 := if dir then a else b) end.
  assert (R k r2.2) as Hr3.
  { subst r2. destruct dir; [|done]. pose proof (open_beneath_rel k2 root (p ++ B "/index.html")) as Ho.
    destruct (open_beneath have_openat2 k2 root (p ++ B "/index.html")) as [fd2 k3]. rewrite closed_by_reset.
    etrans; [exact Hr2|]. etrans; [exact Ho|]. apply close_fds_rel. }
  destruct r2 as [[[p' fd'] e'] k3]. cbn [snd] in Hr3.
  match goal with |- context [if negb (valid fd') then ?a else ?b] => set (r3 := if negb (valid fd') then a else b) end.
  assert (R k r3.2) as Hr4.
  { subst r3. destruct (valid fd'); [|done]. cbn [negb]. pose proof (fstat_into_rel k3 fd' st1) as Hs.
    destruct (fstat_into k3 fd' st1) as [[ok st] k4]. by etrans. }
  destruct r3 as [[bad st] k4]. cbn [snd] in Hr4. destruct bad; cbn [snd].
  - etrans; [exact Hr4|]. etrans; apply close_fds_rel.
  - etrans; [exact Hr4|apply close_fds_rel].
Qed.

Context {double : Type} (of_u64 : Z -> double) (div_1e6 : double -> double) (fmt_17g fmt_g : double -> bytes).
Context (worker_metrics : K -> list WorkerMetrics) (uptime : K -> double) (info : K -> Info).

Lemma app_handlers_rel static_root files :
  Forall (fun r => forall k req res, R k (rt_handler r k req res).2)
    (app_router have_openat2 of_u64 div_1e6 fmt_17g fmt_g worker_metrics uptime info static_root files).
Proof.
  unfold app_router, install_routes, Router_add, Router_add_prefix. cbn [app].
  repeat apply Forall_cons_2; [..|constructor]; cbn [rt_handler]; intros k req res.
  1-5: apply close_fds_rel.
  - unfold stream_handler, assign. repeat case_match; first [apply close_fds_rel|done].
  - unfold bytes_handler, assign. repeat case_match; first [apply close_fds_rel|done].
  - unfold static_handler. pose proof (serve_rel files (drop 8 (path req)) res k) as Hs.
    by destruct (serve have_openat2 files (drop 8 (path req)) res k) as [[r e] k'].
Qed.

End Rel.

(** Looking at files does not touch client sockets nor makes them ready. *)
Class FileSysLaws (K : Type) `{FR : FiniteReadiness K} `{FileSys K} := {
  openat2_wire : forall k d p fd, wire (sys_openat2 k d p).2 fd = wire k fd;
  openat_wire : forall k d p fd, wire (sys_openat k d p).2 fd = wire k fd;
  fstat_wire : forall k f fd, wire (sys_fstat k f).2 fd = wire k fd;
  openat2_budget : forall k d p, (budget (sys_openat2 k d p).2 <= budget k)%nat;
  openat_budget : forall k d p, (budget (sys_openat k d p).2 <= budget k)%nat;
  fstat_budget : forall k f, (budget (sys_fstat k f).2 <= budget k)%nat }.

Section Contract.
Context {K : Type} `{KernelLaws K} {FR : FiniteReadiness K} `{!FileSys K} `{!FileSysLaws K} (have_openat2 : bool).

(** [k'] is reached from [k] without touching client sockets. *)
Definition harmless (k k' : K) : Prop := (forall fd, wire k' fd = wire k fd) /\ (budget k' <= budget k)%nat.

#[local] Instance harmless_preorder : PreOrder harmless.
Proof.
  split; [by intros k; split|]. intros a b c [H1 H2] [H3 H4]. split; [intros fd; by rewrite H3, H1|lia].
Qed.

#[local] Instance harmless_rel : FileRel harmless.
Proof.
  split; [apply _|..]; intros; split;
    [intros; apply close_wire|apply close_budget|intros; apply openat2_wire|apply openat2_budget|intros; apply openat_wire|
     apply openat_budget|intros; apply fstat_wire|apply fstat_budget].
Qed.

Lemma serve_harmless root rel res k :
  let '(r, _, k') := serve have_openat2 root rel res k in (response_ok res -> response_ok r) /\ harmless k k'.
Proof.
  pose proof (serve_rel harmless have_openat2 root rel res k) as Hr.
  assert (response_ok res -> response_ok (serve have_openat2 root rel res k).1.1) as Hok;
    [|by destruct (serve have_openat2 root rel res k) as [[r e] k']].
  assert (forall st b, response_ok (Response_text st b text_plain)) as Htext by (intros; by split_and!).
  clear Hr. unfold serve, assign_response. rewrite !closed_by_reset.
  destruct (valid root); cbn [negb]; [|done]. destruct (sanitize rel) as [out|]; [|done].
  repeat match goal with
  | |- context [let '(_, _) := ?x in _] => destruct x
  end; repeat case_match; try done; intros (_ & _ & Hs); (split; [apply u64_range|]); by split.
Qed.

Context {double : Type} (of_u64 : Z -> double) (div_1e6 : double -> double) (fmt_17g fmt_g : double -> bytes).
Context (worker_metrics : K -> list WorkerMetrics) (uptime : K -> double) (info : K -> Info).

(** A handler that returns a sound response and leaves client sockets alone. *)
Definition handler_ok (h : Handler K) : Prop :=
  forall k req res, exists res' k', h k req res = (inl res', k')
    /\ (response_ok res -> response_ok res') /\ harmless k k'.

Lemma assign_ok (new : K -> Request -> Response) :
  (forall k req, response_ok (new k req)) -> handler_ok (fun k req res => assign res (new k req) k).
Proof. intros Hn k req res. do 2 eexists. split; [reflexivity|]. split; [done|apply (close_fds_rel harmless)]. Qed.

Lemma stream_handler_ok : handler_ok stream_handler.
Proof.
  intros k req res. unfold stream_handler, assign. destruct (parse_u64 _) as [n|]; [destruct (n >? _)|];
    do 2 eexists; (split; [reflexivity|]); (split; [by intros|]); try apply (close_fds_rel harmless); done.
Qed.

Lemma bytes_handler_ok : handler_ok bytes_handler.
Proof.
  intros k req res. unfold bytes_handler, assign. destruct (parse_u64 _) as [n|] eqn:E; [destruct (Z.gtb_spec n kMaxGeneratedBytes)|].
  1,3: do 2 eexists; (split; [reflexivity|]); (split; [by intros|]); apply (close_fds_rel harmless).
  do 2 eexists. split; [reflexivity|]. split; [|done]. intros (Hl & Ho & _). split; [done|]. split; [done|].
  apply parse_u64_iff in E as (_ & Hd & <- & Hlt). cbn [stream_length streamed]. split; [|done].
  rewrite dec_value_num by done. apply num_value_nonneg; [lia|lia|by apply digits_hex].
Qed.

Lemma static_handler_ok files : handler_ok (static_handler have_openat2 files).
Proof.
  intros k req res. unfold static_handler. pose proof (serve_harmless files (drop 8 (path req)) res k) as Hs.
  destruct (serve have_openat2 files (drop 8 (path req)) res k) as [[r e] k']. eauto.
Qed.

Lemma app_handlers_ok static_root files :
  Forall (fun r => handler_ok (rt_handler r))
    (app_router have_openat2 of_u64 div_1e6 fmt_17g fmt_g worker_metrics uptime info static_root files).
Proof.
  assert (forall st b t, response_ok (Response_text st b t)) as Ht by (intros; by split_and!).
  unfold app_router, install_routes, Router_add, Router_add_prefix. cbn [app].
  repeat apply Forall_cons_2; [..|constructor]; cbn [rt_handler].
  1-5: by apply assign_ok.
  - apply stream_handler_ok.
  - apply bytes_handler_ok.
  - apply static_handler_ok.
Qed.

End Contract.

(** ** JSON strings *)

(** Reads the inside of a JSON string, where only the quote and the backslash
    are escaped; [None]: a bare quote, a control character or another escape. *)
Fixpoint json_unescape (s : bytes) : option bytes :=
  match s with
  | [] => Some []
  | c :: s' =>
      if Ascii.eqb c BACKSLASH then
        match s' with
        | d :: s'' => if Ascii.eqb d DQUOTE || Ascii.eqb d BACKSLASH then cons d <$> json_unescape s'' else None
        | [] => None
        end
      else if Ascii.eqb c DQUOTE || (code c <? 0x20) then None
      else cons c <$> json_unescape s'
  end.

Lemma json_unescape_escape s :
  json_unescape (json_escape s) = Some (List.filter (fun c => code c >=? 0x20) s).
Proof.
  induction s as [|c s IH]; [done|]. unfold json_escape in *. cbn [flat_map List.filter].
  revert IH. match goal with |- context [json_unescape ?x = _ -> _] => generalize x end. intros t IH.
  destruct (Ascii.eqb c BACKSLASH) eqn:Eb; [apply ascii_eqb_spec in Eb as ->|destruct (Ascii.eqb c DQUOTE) eqn:Eq].
  { exact (f_equal (fmap (cons BACKSLASH)) IH). }
  { apply ascii_eqb_spec in Eq as ->. exact (f_equal (fmap (cons DQUOTE)) IH). }
  cbn [orb app]. destruct (Z.geb_spec (code c) 32) as [Hc|Hc]; [|done]. cbn [app json_unescape]. rewrite Eb, Eq.
  destruct (Z.ltb_spec (code c) 32); [lia|]. cbn [orb]. by rewrite IH.
Qed.

(** ** Header fields of responses *)

(** Every field has a token for a name and no control character in its value. *)
Definition response_clean (res : Response) : Prop := Forall field_ok (res_headers res).

Lemma mime_type_clean p : existsb value_char_bad (mime_type p) = false.
Proof. unfold mime_type. by repeat cases_goal. Qed.

Lemma text_clean st b t : existsb value_char_bad t = false -> response_clean (Response_text st b t).
Proof. intros Ht. by repeat constructor. Qed.

Lemma no_route_clean allow : existsb value_char_bad allow = false -> response_clean (no_route_response allow).
Proof. intros Ha. destruct allow; [by apply text_clean|]. by repeat constructor. Qed.

Lemma serve_clean {K} `{Closer K} `{FileSys K} have_openat2 root rel (k : K) :
  response_clean (serve have_openat2 root rel Response_new k).1.1.
Proof.
  unfold serve, assign_response. destruct (valid root); cbn [negb]; [|by apply text_clean].
  destruct (sanitize rel) as [out|]; [|by apply text_clean].
  set (p := match out with [] => _ | _ => _ end). clearbody p. destruct (open_beneath have_openat2 k root p) as [fd k1].
  destruct (if valid fd then _ else _) as [[dir st1] k2].
  match goal with |- context [if dir then ?a else ?b] => destruct (if dir then a else b) as [[[p' fd'] e'] k3] end.
  match goal with |- context [if negb (valid fd') then ?a else ?b] => destruct (if negb (valid fd') then a else b) as [[bad st] k4] end.
  destruct bad; [by apply text_clean|]. repeat constructor. apply mime_type_clean.
Qed.

Lemma to_chars_tchar base v : 2 <= base <= 16 -> forallb is_tchar (to_chars base v) = true.
Proof.
  intros Hb. unfold to_chars. assert (forallb is_tchar [] = true) as Ha by done. revert Ha. generalize (@nil ascii).
  generalize 64%nat as f. intros f. revert v. induction f as [|f IH]; intros v acc Ha; cbn [to_chars_aux]; [done|].
  assert (forallb is_tchar (digit_char (v mod base) :: acc) = true) as Hd.
  { cbn [forallb]. pose proof (Z.mod_pos_bound v base ltac:(lia)).
    destruct (digit_char_range (v mod base) ltac:(lia)) as (_ & _ & _ & ->). done. }
  destruct (_ =? 0); [done|by apply IH].
Qed.

Lemma get_clean h n v : Forall field_ok h -> get h n = Some v -> existsb value_char_bad v = false.
Proof.
  induction 1 as [|f h Hf Hh IH]; [done|]. rewrite get_cons. destruct (iequals f.1 n); [|done]. intros [= <-]. apply Hf.
Qed.

(** The fields [write_head] adds are clean. *)
Lemma head_fields_clean res opts :
  response_clean res -> existsb value_char_bad (date opts) = false -> Forall field_ok (head_fields res opts).
Proof.
  intros Hres Hd. unfold head_fields. repeat apply Forall_app_2.
  - apply Forall_forall. intros f [Hf _]%filter_In. unfold response_clean in Hres. rewrite List.Forall_forall in Hres. auto.
  - by destruct (has _ _); repeat constructor.
  - destruct (date opts); repeat constructor. done.
  - destruct (choose_framing res opts) as [[] len]; repeat constructor. by apply tchar_value_ok, to_chars_tchar.
  - unfold connection_fields. by repeat cases_goal; repeat constructor.
Qed.

Section Clean.
Context {K : Type} `{Kernel K} `{FileSys K} (have_openat2 : bool).
Context {double : Type} (of_u64 : Z -> double) (div_1e6 : double -> double) (fmt_17g fmt_g : double -> bytes).
Context (worker_metrics : K -> list WorkerMetrics) (uptime : K -> double) (info : K -> Info).
Context (static_root : bytes) (files : Z).

Lemma app_target_clean req k m h res k' :
  fields_ok (headers req) ->
  app_target have_openat2 of_u64 div_1e6 fmt_17g fmt_g worker_metrics uptime info static_root files (path req) = Some (m, h) ->
  h k req Response_new = (inl res, k') -> response_clean res.
Proof.
  intros [_ Hf] Ht Hh. unfold app_target in Ht.
  repeat match type of Ht with (if ?b then _ else _) = _ => destruct b end; [..|done]; injection Ht as <- <-.
  1-4: by injection Hh as <- _; apply text_clean.
  - revert Hh. unfold echo_handler, assign. destruct (get (headers req) (B "Content-Type")) as [v|] eqn:E;
      intros [= <- _]; apply text_clean; [|done]. by apply (get_clean (headers req) (B "Content-Type")).
  - revert Hh. unfold stream_handler, assign. destruct (parse_u64 _) as [n|]; [destruct (n >? _)|]; intros [= <- _];
      by repeat constructor.
  - revert Hh. unfold bytes_handler, assign. destruct (parse_u64 _) as [n|]; [destruct (n >? _)|]; intros [= <- _];
      by repeat constructor.
  - revert Hh. unfold static_handler. pose proof (serve_clean have_openat2 files (drop 8 (path req)) k) as Hs.
    destruct (serve _ _ _ _ _) as [[r e] k2]. by intros [= <- _].
Qed.

Lemma app_clean req k :
  fields_ok (headers req) ->
  response_clean (Router.dispatch (app_router have_openat2 of_u64 div_1e6 fmt_17g fmt_g worker_metrics uptime info
    static_root files) k req Response_new).1.
Proof.
  intros Hf. pose proof (app_table have_openat2 of_u64 div_1e6 fmt_17g fmt_g worker_metrics uptime info static_root files req k) as Hd.
  destruct (Router.dispatch _ k req Response_new) as [res k']. unfold app_answer in Hd.
  destruct (app_target _ _ _ _ _ _ _ _ _ _ _) as [[m h]|] eqn:Et; [|injection Hd as -> _; by apply text_clean].
  destruct (bytes_eqb m (lookup_method req)).
  - unfold returned in Hd. destruct (h k req Response_new) as [[r|w] k2] eqn:Eh; [|done]. injection Hd as -> _.
    by eapply app_target_clean.
  - apply (f_equal (fmap fst)) in Hd. cbn [fmap option_fmap option_map fst] in Hd. apply (inj Some) in Hd. rewrite Hd.
    cbn [fst]. apply no_route_clean. destruct (bytes_eqb m (B "GET")) eqn:Em; [done|].
    assert (m = B "POST") as ->; [|done].
    revert Et. unfold app_target. repeat match goal with |- (if ?b then _ else _) = _ -> _ => destruct b end;
      intros Et; first [discriminate Et|injection Et as <- _; first [reflexivity|discriminate Em]].
Qed.

End Clean.
