(* ===== verification/AppTheorems.v ===== *)
(** * The endpoints, end to end

    The theorems about the routes of the program, with the concrete kernel of
    [ServerTheorems] extended by a file system that holds nothing. *)

From S2P Require Import Prelude Headers RequestParser Numbers ParserFacts ParserSegmentation.
From S2P Require Import Response ChunkCodec ResponseHead Crc32 ByteBuffer UniqueFd Router StaticFiles Metrics Connection.
From S2P Require Import ConnectionFacts ConnectionLiveness Pipeline ServerTheorems Routes RoutesFacts.
From stdpp Require Import numbers.

Open Scope Z_scope.

(** ** A concrete instance *)

#[export] Instance empty_fs : FileSys DemoKernel := {
  sys_openat2 k _ _ := (OpenFailed false, k);
  sys_openat k _ _ := (OpenFailed false, k);
  sys_fstat k _ := (None, k) }.

#[export] Instance empty_fs_laws : FileSysLaws DemoKernel.
Proof. by split; intros; cbn. Qed.

Definition demo_info : Info :=
  mkInfo 4242 4 false 8080 8 4096 (B "Linux") (B "6.1.0") (B "x86_64") (B "13.2.0") 201703 ParserLimits_default.

(** The routes of the program, with doubles and their printing replaced by decimal numbers. *)
Definition demo_app : Router DemoKernel :=
  app_router true (fun v => v) (fun v => v / 1000000) to_string to_string (fun _ => [WorkerMetrics_new])
    (fun _ => 1) (fun _ => demo_info) (B "public") 3.

Definition get_request (p : bytes) : Request := mkRequest (B "GET") p p [] 1 1 [(B "Host", B "a")] [] [] false.

Section App.
Context {K : Type} `{Kernel K} `{FileSys K} (have_openat2 : bool).
Context {double : Type} (of_u64 : Z -> double) (div_1e6 : double -> double) (fmt_17g fmt_g : double -> bytes).
Context (worker_metrics : K -> list WorkerMetrics) (uptime : K -> double) (info : K -> Info).
Context (static_root : bytes) (files : Z).

#[local] Abbreviation app :=
  (app_router have_openat2 of_u64 div_1e6 fmt_17g fmt_g worker_metrics uptime info static_root files).

(** A request the table sends to [h]. *)
Lemma app_serves req k h res k' :
  app_target have_openat2 of_u64 div_1e6 fmt_17g fmt_g worker_metrics uptime info static_root files (path req)
    = Some (B "GET", h) ->
  lookup_method req = B "GET" -> h k req Response_new = (inl res, k') ->
  Router.dispatch app k req Response_new = (res, k').
Proof.
  intros Ht Hm Hh. pose proof (app_table have_openat2 of_u64 div_1e6 fmt_17g fmt_g worker_metrics uptime info static_root files req k) as Hd.
  unfold app_answer in Hd. rewrite Ht, Hm, bytes_eqb_refl, Hh in Hd. by injection Hd.
Qed.

(** C32: the route table of the program answers every request as documented:
    each path has one method; a [GET] path also takes [HEAD]; the handler of
    the path runs when the method fits and never throws; another method gets
    405 with exactly the methods of the path in [Allow]; any other path gets
    404. *)
Theorem app_routing (req : Request) (k : K) :
  Some (Router.dispatch app k req Response_new)
  = app_answer have_openat2 of_u64 div_1e6 fmt_17g fmt_g worker_metrics uptime info static_root files req k.
Proof. apply app_table. Qed.

Lemma app_stream tail req k :
  method req = B "GET" -> path req = B "/stream/" ++ tail ->
  exists res, Router.dispatch app k req Response_new = (res, k)
    /\ if number_within kMaxStreamChunks tail
       then status res = 200 /\ stream_length res = None /\ file res = -1
            /\ values_of (B "Trailer") (res_headers res) = [B "X-Chunk-Count, X-Content-CRC32"]
            /\ producer res = Some (stream_producer (dec_value 0 tail) 0 0)
       else status res = 400 /\ producer res = None.
Proof.
  intros Hm Hp. destruct (stream_handler_eq k req tail Hp) as (res & Hh & Hres). exists res. split; [|done].
  eapply app_serves; [rewrite Hp; reflexivity|unfold lookup_method; by rewrite Hm|done].
Qed.

Lemma app_bytes tail req k :
  method req = B "GET" -> path req = B "/bytes/" ++ tail ->
  exists res, Router.dispatch app k req Response_new = (res, k)
    /\ if number_within kMaxGeneratedBytes tail
       then status res = 200 /\ stream_length res = Some (dec_value 0 tail) /\ file res = -1
            /\ producer res = Some (bytes_producer (dec_value 0 tail) 0)
       else status res = 400 /\ producer res = None.
Proof.
  intros Hm Hp. destruct (bytes_handler_eq k req tail Hp) as (res & Hh & Hres). exists res. split; [|done].
  eapply app_serves; [rewrite Hp; reflexivity|unfold lookup_method; by rewrite Hm|done].
Qed.

(** What a request for [/stream/{n}] does to a connection. *)
Lemma stream_dispatched n req draining {T : Type} (c : Connection T) (e : Env K) :
  0 <= n <= kMaxStreamChunks -> method req = B "GET" -> is_http10 req = false -> path req = B "/stream/" ++ to_string n ->
  exists res opts c' e', dispatch app draining c req e = (c', e')
    /\ res = (Router.dispatch app (e_kern e) req Response_new).1 /\ date opts = (get_date e).1
    /\ c_out c' = c_out c ++ head_text res opts /\ status res = 200 /\ (choose_framing res opts).1 = Chunked
    /\ values_of (B "Trailer") (head_fields res opts) = [B "X-Chunk-Count, X-Content-CRC32"]
    /\ drain_stream (S (Z.to_nat n)) (set_out [] 0 c')
       = Some (encode_chunked (stream_pieces n) (stream_trailers n (crc32 (stream_body n) 0))).
Proof.
  intros Hn Hm Hv Hp. destruct (app_stream _ req (e_kern e) Hm Hp) as (res & Hd & Hres).
  destruct (number_within_to_string kMaxStreamChunks n Hn ltac:(done)) as [Hw Hv']. rewrite Hw, Hv' in Hres.
  destruct Hres as (Hst & Hsl & Hf & Htr & Hpr).
  destruct (dispatch_streams app draining c e req res (e_kern e) _ Hd Hpr Hf Hst ltac:(by rewrite Hm))
    as (date & c' & e' & Hdis & Hdt & Ho & Ht & Hch & Hsz & Hprod).
  rewrite Hsl, Hv in *. injection Hsz as Hsz _.
  exists res, (mkHeadOptions (keep_alive req && negb draining) false date), c', e'.
  split; [done|]. split; [by rewrite Hd|]. split; [rewrite Hdt; by destruct e|]. split; [done|]. split; [done|].
  split; [unfold choose_framing; by rewrite Hst, Hf, Hpr, Hsl|].
  split; [by rewrite values_of_head_other|].
  apply drain_stream_chunked; [|done|apply stream_pieces_length; lia]. split; [done|]. split; [done|].
  eexists. split; [exact Hprod|]. conn_simpl. rewrite Ht. by apply stream_produces.
Qed.

(** What a request for [/bytes/{n}] does to a connection. *)
Lemma bytes_dispatched n req draining {T : Type} (c : Connection T) (e : Env K) :
  0 <= n <= kMaxGeneratedBytes -> method req = B "GET" -> path req = B "/bytes/" ++ to_string n ->
  exists res opts c' e', dispatch app draining c req e = (c', e')
    /\ res = (Router.dispatch app (e_kern e) req Response_new).1 /\ date opts = (get_date e).1
    /\ c_out c' = c_out c ++ head_text res opts /\ status res = 200
    /\ (choose_framing res opts).1 = ContentLength /\ announced_length res = n
    /\ if n =? 0 then c_producer c' = c_producer c
       else drain_stream (S (Z.to_nat (n / kBytesPiece))) (set_out [] 0 c') = Some (letters 0 (Z.to_nat n)).
Proof.
  intros Hn Hm Hp. destruct (app_bytes _ req (e_kern e) Hm Hp) as (res & Hd & Hres).
  destruct (number_within_to_string kMaxGeneratedBytes n Hn ltac:(done)) as [Hw Hv']. rewrite Hw, Hv' in Hres.
  destruct Hres as (Hst & Hsl & Hf & Hpr).
  destruct (dispatch_streams app draining c e req res (e_kern e) _ Hd Hpr Hf Hst ltac:(by rewrite Hm))
    as (date & c' & e' & Hdis & Hdt & Ho & Ht & Hch & Hsz & Hprod).
  exists res, (mkHeadOptions (keep_alive req && negb draining) (is_http10 req) date), c', e'. rewrite Hsl in *.
  injection Hsz as Hsz Hleft. split; [done|]. split; [by rewrite Hd|]. split; [rewrite Hdt; by destruct e|]. split; [done|]. split; [done|].
  split; [unfold choose_framing; by rewrite Hst, Hf, Hpr, Hsl|]. split; [unfold announced_length; by rewrite Hf, Hpr, Hsl|].
  destruct (Z.eqb_spec n 0) as [->|Hz]; [done|].
  rewrite (drain_bytes _ _ n 0); [by rewrite Z.sub_0_r| |done|lia|lia|].
  - unfold sending. conn_simpl. rewrite Hprod, Hsz, Hch, Hleft, Z.sub_0_r. split; [by destruct n|]. done.
  - pose proof (Z.mul_succ_div_gt n kBytesPiece ltac:(done)). pose proof (Z.div_pos n kBytesPiece ltac:(lia) ltac:(done)).
    rewrite Nat2Z.inj_succ, Z2Nat.id by done. lia.
Qed.

(** A client of [/stream/{n}] receives what the trailers vouch for.
    Dispatching the request queues a head and starts a stream; what the
    connection then puts on the wire is decoded, by a parser that is about to
    read a chunked body, to the [n] lines, and the trailers it finds carry
    [n] and the CRC-32 of exactly the body it decoded. *)
Theorem stream_endpoint (n : Z) (req : Request) (draining : bool) {T : Type} (c : Connection T) (e : Env K)
    (p : RequestParser) (rest : bytes) :
  0 <= n <= kMaxStreamChunks -> method req = B "GET" -> is_http10 req = false -> path req = B "/stream/" ++ to_string n ->
  expects_stream p n -> zlen rest < 2 ^ 61 ->
  exists res opts c' e' text p', dispatch app draining c req e = (c', e')
    /\ c_out c' = c_out c ++ head_text res opts /\ (choose_framing res opts).1 = Chunked
    /\ drain_stream (S (Z.to_nat n)) (set_out [] 0 c') = Some text
    /\ feed p (text ++ rest) = (p', length text) /\ done p' = true
    /\ body (req_ p') = stream_body n
    /\ get (trailers (req_ p')) (B "X-Chunk-Count") = Some (to_string n)
    /\ get (trailers (req_ p')) (B "X-Content-CRC32") = Some (hex8 (crc32 (body (req_ p')) 0)).
Proof.
  intros Hn Hm Hv Hp Hc Hrest. destruct (stream_dispatched n req draining c e Hn Hm Hv Hp) as (res & opts & c' & e' & Hdis & _ & _ & Ho & _ & Hfr & _ & Hdr).
  destruct (stream_decoded n p rest Hn Hc Hrest) as (p' & Hfeed & Hdone & Hb & Htr).
  exists res, opts, c', e', (encode_chunked (stream_pieces n) (stream_trailers n (crc32 (stream_body n) 0))), p'.
  split_and!; try done; by rewrite Htr, ?Hb.
Qed.

(** [/bytes/{n}] and [/stream/{n}] accept exactly the decimal numbers
    within their bounds; every other path below them is answered by a 400
    without a stream: an empty number, a sign, other characters, and values
    that do not fit 64 bits. *)
Theorem numbers_validated (req : Request) (k : K) (tail : bytes) :
  method req = B "GET" ->
  (path req = B "/bytes/" ++ tail ->
   let res := (Router.dispatch app k req Response_new).1 in
   if number_within kMaxGeneratedBytes tail
   then status res = 200 /\ stream_length res = Some (dec_value 0 tail) /\ producer res = Some (bytes_producer (dec_value 0 tail) 0)
   else status res = 400 /\ producer res = None)
  /\ (path req = B "/stream/" ++ tail ->
   let res := (Router.dispatch app k req Response_new).1 in
   if number_within kMaxStreamChunks tail
   then status res = 200 /\ stream_length res = None /\ producer res = Some (stream_producer (dec_value 0 tail) 0 0)
   else status res = 400 /\ producer res = None).
Proof.
  intros Hm. split; intros Hp; cbn zeta.
  - destruct (app_bytes tail req k Hm Hp) as (res & -> & Hres). by destruct (number_within _ tail); intuition.
  - destruct (app_stream tail req k Hm Hp) as (res & -> & Hres). by destruct (number_within _ tail); intuition.
Qed.

End App.

(** Three pieces of state of the demo: a connection, an environment, and a parser that reads a chunked body. *)
Definition app_env : Env DemoKernel := demo_env [] 0.

Lemma stream_endpoint_witness :
  exists res opts c' e' text p', dispatch demo_app false demo_conn (get_request (B "/stream/2")) app_env = (c', e')
    /\ c_out c' = c_out demo_conn ++ head_text res opts /\ (choose_framing res opts).1 = Chunked
    /\ drain_stream 3 (set_out [] 0 c') = Some text
    /\ feed demo_chunk_parser (text ++ B "GET") = (p', length text) /\ done p' = true
    /\ body (req_ p') = stream_body 2
    /\ get (trailers (req_ p')) (B "X-Chunk-Count") = Some (to_string 2)
    /\ get (trailers (req_ p')) (B "X-Content-CRC32") = Some (hex8 (crc32 (body (req_ p')) 0)).
Proof.
  apply (stream_endpoint true (fun v => v) (fun v => v / 1000000) to_string to_string (fun _ => [WorkerMetrics_new])
           (fun _ => 1) (fun _ => demo_info) (B "public") 3 2 (get_request (B "/stream/2")) false demo_conn app_env
           demo_chunk_parser (B "GET")).
  - split; vm_compute; discriminate.
  - reflexivity.
  - reflexivity.
  - reflexivity.
  - split; [apply feed_wf, demo_parser_wf|]. vm_compute. repeat split; discriminate.
  - reflexivity.
Defined.

Lemma numbers_validated_witness :
  status (Router.dispatch demo_app (mkDemo [] 0 []) (get_request (B "/bytes/-1")) Response_new).1 = 400
  /\ status (Router.dispatch demo_app (mkDemo [] 0 []) (get_request (B "/stream/7")) Response_new).1 = 200.
Proof.
  split.
  - pose proof (proj1 (numbers_validated true (fun v => v) (fun v => v / 1000000) to_string to_string (fun _ => [WorkerMetrics_new])
      (fun _ => 1) (fun _ => demo_info) (B "public") 3 (get_request (B "/bytes/-1")) (mkDemo [] 0 []) (B "-1") eq_refl)
      eq_refl) as H. apply H.
  - pose proof (proj2 (numbers_validated true (fun v => v) (fun v => v / 1000000) to_string to_string (fun _ => [WorkerMetrics_new])
      (fun _ => 1) (fun _ => demo_info) (B "public") 3 (get_request (B "/stream/7")) (mkDemo [] 0 []) (B "7") eq_refl)
      eq_refl) as H. apply H.
Defined.

(** The routes of the program meet what the connection theorems assume
    of handlers: no handler writes to a client socket or makes one ready,
    and the responses carry lengths that fit their 64-bit members. *)
Theorem app_contract {K : Type} `{KernelLaws K} {FR : FiniteReadiness K} `{!FileSys K} `{!FileSysLaws K}
  (have_openat2 : bool) {double : Type} (of_u64 : Z -> double) (div_1e6 : double -> double) (fmt_17g fmt_g : double -> bytes)
  (worker_metrics : K -> list WorkerMetrics) (uptime : K -> double) (info : K -> Info) (static_root : bytes) (files : Z) :
  let app := app_router have_openat2 of_u64 div_1e6 fmt_17g fmt_g worker_metrics uptime info static_root files in
  router_ok app /\ router_finite app.
Proof.
  cbn zeta. pose proof (app_handlers_ok have_openat2 of_u64 div_1e6 fmt_17g fmt_g worker_metrics uptime info static_root files) as Hall.
  split; revert Hall; apply List.Forall_impl; intros r Hr k req res; destruct (Hr k req res) as (res' & k' & -> & Hres & Hw & Hb).
  - auto.
  - done.
Qed.

Lemma app_contract_witness : router_ok demo_app /\ router_finite demo_app.
Proof. apply app_contract. Defined.



(** A string put into the JSON of [/debug/info] is read back by a JSON
    reader as the same string without its control characters: it cannot end
    the string early or begin another member. *)
Theorem json_escape_roundtrip (s : bytes) :
  json_unescape (json_escape s) = Some (List.filter (fun c => code c >=? 0x20) s).
Proof. apply json_unescape_escape. Qed.

(** The reply of [/debug/info] is built in a buffer of 1024 bytes: with a
    path of 800 characters for the static root it is cut in the middle and is
    not a JSON object any more. *)
Theorem debug_info_cut :
  let root := replicate 800 "x"%char in
  zlen (debug_info demo_info root) = 1023 /\ List.last (debug_info demo_info root) NUL <> LF
  /\ List.last (debug_info demo_info (B "public")) NUL = LF.
Proof. cbn zeta. split; [|split]; vm_compute; congruence. Qed.
