(* ===== verification/Main.v ===== *)
(** * [src/main.cpp]: the command line

    The loop over the arguments and the conversion of numbers.  An outcome is
    the configuration the program starts with, or its exit status and what it
    prints. *)

From S2P Require Import Prelude Headers RequestParser Numbers ParserFacts.

Open Scope Z_scope.

(** ** Numbers *)

(** [isspace] in the C locale. *)
Definition is_space (c : ascii) : bool := Ascii.eqb c SP || in_range (chr 9) (chr 13) c.

Fixpoint skip_space (s : bytes) : bytes :=
  match s with
  | c :: s' => if is_space c then skip_space s' else s
  | [] => []
  end.

Definition skip_sign (s : bytes) : bool * bytes :=
  match s with
  | c :: s' => if Ascii.eqb c "-" then (true, s') else if Ascii.eqb c "+" then (false, s') else (false, s)
  | [] => (false, [])
  end.

Fixpoint span_digits (s : bytes) : bytes * bytes :=
  match s with
  | c :: s' => if is_digit c then let '(d, r) := span_digits s' in (c :: d, r) else ([], s)
  | [] => ([], [])
  end.

Record strtoul_result := mkStrtoul { sr_value : Z; sr_end : bytes; sr_errno : bool }.

(** [std::strtoul(s, &end, 10)]: the value, the characters from [end] on, and
    whether [errno] was set.  A minus sign negates in [unsigned long]. *)
Definition strtoul (s : bytes) : strtoul_result :=
  let '(neg, t) := skip_sign (skip_space s) in
  match span_digits t with
  | ([], _) => mkStrtoul 0 s false
  | (ds, rest) =>
      let v := dec_value 0 ds in
      if v <? 2 ^ 64 then mkStrtoul (if neg then u64 (- v) else v) rest false
      else mkStrtoul (2 ^ 64 - 1) rest true
  end.

(** ** Messages *)

Inductive channel : Set := Stdout | Stderr.

(** How the program ends early: the status and what it prints before. *)
Record ending := mkEnding { e_status : Z; e_printed : list (channel * bytes) }.

Definition usage (argv0 : bytes) : channel * bytes :=
  (Stdout,
   B "usage: " ++ argv0 ++ B " [options]" ++ [LF]
   ++ B "  --port N               listen port (default 8080, 0 = ephemeral)" ++ [LF]
   ++ B "  --bind ADDR            IPv4 bind address (default 0.0.0.0)" ++ [LF]
   ++ B "  --threads N            event-loop workers (default: online CPUs)" ++ [LF]
   ++ B "  --pin                  pin each worker to its own CPU" ++ [LF]
   ++ B "  --root DIR             directory served under /static/ (default ./public)" ++ [LF]
   ++ B "  --idle-timeout-ms N    keep-alive idle timeout (default 30000)" ++ [LF]
   ++ B "  --header-timeout-ms N  max time to receive request headers (default 10000)" ++ [LF]
   ++ B "  --max-body BYTES       request body limit (default 8388608)" ++ [LF]).

Definition complain (text : bytes) : ending := mkEnding 2 [(Stderr, B "httpd: " ++ text ++ [LF])].

(** [inr]: [std::exit]. *)
Definition parse_number (flag : bytes) (value : option bytes) : Z + ending :=
  match value with
  | None => inr (complain (flag ++ B " needs a value"))
  | Some s =>
      let r := strtoul s in
      if sr_errno r || (length (sr_end r) =? length s)%nat || negb (bytes_eqb (sr_end r) [])
      then inr (complain (B "invalid number for " ++ flag ++ B ": " ++ s))
      else inl (sr_value r)
  end.

(** ** Options *)

(** The members of [ServerConfig] and [AppOptions] that options set; durations in milliseconds. *)
Record Options := mkOptions {
  o_port : Z; o_bind : bytes; o_threads : Z; o_pin : bool; o_root : bytes;
  o_idle_timeout : Z; o_header_timeout : Z; o_max_body : Z }.

Definition Options_default : Options :=
  mkOptions 8080 (B "0.0.0.0") 0 false (B "public") 30000 10000 (max_body_bytes ParserLimits_default).

(** [unsigned long] to the 64-bit [rep] of [std::chrono::milliseconds]. *)
Definition to_rep (v : Z) : Z := if v <? 2 ^ 63 then v else v - 2 ^ 64.

(** Assignments to one member. *)
Definition set_port (v : Z) (o : Options) : Options :=
  mkOptions v (o_bind o) (o_threads o) (o_pin o) (o_root o) (o_idle_timeout o) (o_header_timeout o) (o_max_body o).
Definition set_bind (v : bytes) (o : Options) : Options :=
  mkOptions (o_port o) v (o_threads o) (o_pin o) (o_root o) (o_idle_timeout o) (o_header_timeout o) (o_max_body o).
Definition set_threads (v : Z) (o : Options) : Options :=
  mkOptions (o_port o) (o_bind o) v (o_pin o) (o_root o) (o_idle_timeout o) (o_header_timeout o) (o_max_body o).
Definition set_pin (v : bool) (o : Options) : Options :=
  mkOptions (o_port o) (o_bind o) (o_threads o) v (o_root o) (o_idle_timeout o) (o_header_timeout o) (o_max_body o).
Definition set_root (v : bytes) (o : Options) : Options :=
  mkOptions (o_port o) (o_bind o) (o_threads o) (o_pin o) v (o_idle_timeout o) (o_header_timeout o) (o_max_body o).
Definition set_idle_timeout (v : Z) (o : Options) : Options :=
  mkOptions (o_port o) (o_bind o) (o_threads o) (o_pin o) (o_root o) v (o_header_timeout o) (o_max_body o).
Definition set_header_timeout (v : Z) (o : Options) : Options :=
  mkOptions (o_port o) (o_bind o) (o_threads o) (o_pin o) (o_root o) (o_idle_timeout o) v (o_max_body o).
Definition set_max_body (v : Z) (o : Options) : Options :=
  mkOptions (o_port o) (o_bind o) (o_threads o) (o_pin o) (o_root o) (o_idle_timeout o) (o_header_timeout o) v.

Section Arguments.
Context (argv0 : bytes).

(** The effect of one argument: the new configuration and whether the next
    argument was its value ([++i]), or how the program ends. *)
Definition number_option (flag : bytes) (next : option bytes) (k : Z -> (Options * bool) + ending) : (Options * bool) + ending :=
  match parse_number flag next with inl v => k v | inr e => inr e end.

Definition option_step (arg : bytes) (next : option bytes) (o : Options) : (Options * bool) + ending :=
  if bytes_eqb arg (B "-h") || bytes_eqb arg (B "--help") then inr (mkEnding 0 [usage argv0])
  else if bytes_eqb arg (B "--port") then
    number_option (B "--port") next
      (fun port => if port >? 65535 then inr (complain (B "port out of range")) else inl (set_port port o, true))
  else
    match bytes_eqb arg (B "--bind"), next with
    | true, Some text => inl (set_bind text o, true)
    | _, _ =>
        if bytes_eqb arg (B "--threads") then number_option (B "--threads") next (fun v => inl (set_threads (u32 v) o, true))
        else if bytes_eqb arg (B "--pin") then inl (set_pin true o, false)
        else
          match bytes_eqb arg (B "--root"), next with
          | true, Some text => inl (set_root text o, true)
          | _, _ =>
              if bytes_eqb arg (B "--idle-timeout-ms") then
                number_option (B "--idle-timeout-ms") next (fun v => inl (set_idle_timeout (to_rep v) o, true))
              else if bytes_eqb arg (B "--header-timeout-ms") then
                number_option (B "--header-timeout-ms") next (fun v => inl (set_header_timeout (to_rep v) o, true))
              else if bytes_eqb arg (B "--max-body") then
                number_option (B "--max-body") next (fun v => inl (set_max_body v o, true))
              else
                let e := complain (B "unknown or incomplete option '" ++ arg ++ B "'") in
                inr (mkEnding (e_status e) (e_printed e ++ [usage argv0]))
          end
    end.

Inductive outcome := Start (o : Options) | Exit (e : ending).

(** The loop over [argv[1]], [argv[2]], …. *)
Fixpoint options_loop (argv : list bytes) (o : Options) : outcome :=
  match argv with
  | [] => Start o
  | arg :: rest =>
      match option_step arg (match rest with [] => None | n :: _ => Some n end) o with
      | inr e => Exit e
      | inl (o, false) => options_loop rest o
      | inl (o, true) =>
          match rest with
          | _ :: rest' => options_loop rest' o
          | [] => Start o
          end
      end
  end.

End Arguments.

(** ** Lemmas *)

Lemma span_digits_all s : forallb is_digit s = true -> span_digits s = (s, []).
Proof. induction s as [|c s IH]; [done|]. cbn. intros. bool_hyps. by rewrite H, IH. Qed.

Lemma span_digits_spec s : let '(d, r) := span_digits s in s = d ++ r /\ forallb is_digit d = true.
Proof.
  induction s as [|c s IH]; [done|]. cbn [span_digits]. destruct (is_digit c) eqn:E; [|done].
  destruct (span_digits s) as [d r]. destruct IH as [-> Hd]. split; [done|]. cbn. by rewrite E, Hd.
Qed.

Lemma digit_plain c : is_digit c = true -> is_space c = false /\ Ascii.eqb c "-" = false /\ Ascii.eqb c "+" = false.
Proof. by all_bytes c. Qed.

(** Plain decimal text. *)
Lemma parse_number_digits flag s :
  s <> [] -> forallb is_digit s = true ->
  parse_number flag (Some s) = if dec_value 0 s <? 2 ^ 64 then inl (dec_value 0 s)
    else inr (complain (B "invalid number for " ++ flag ++ B ": " ++ s)).
Proof.
  intros Hne Hd. unfold parse_number, strtoul. destruct s as [|c s]; [done|].
  assert (is_digit c = true) as Hc by (cbn in Hd; by bool_hyps).
  destruct (digit_plain c Hc) as (Hs & Hm & Hp). cbn [skip_space]. rewrite Hs. cbn [skip_sign]. rewrite Hm, Hp.
  rewrite span_digits_all by done. by destruct (dec_value 0 (c :: s) <? 2 ^ 64).
Qed.

Lemma parse_number_to_string flag v : 0 <= v < 2 ^ 64 -> parse_number flag (Some (to_string v)) = inl v.
Proof.
  intros Hv. destruct (to_chars_spec 10 v) as (E1 & E2 & E3 & _); [lia|lia|]. apply base_digit_dec in E2.
  unfold to_string. rewrite parse_number_digits by done. rewrite dec_value_num, E1 by done.
  destruct (Z.ltb_spec v (2 ^ 64)); [done|lia].
Qed.

Lemma strtoul_value_range s : 0 <= sr_value (strtoul s) < 2 ^ 64.
Proof.
  unfold strtoul. destruct (skip_sign _) as [neg t]. pose proof (span_digits_spec t) as Hs.
  destruct (span_digits t) as [[|d ds] r]; cbn [sr_value]; [lia|]. destruct Hs as [_ Hd].
  destruct (Z.ltb_spec (dec_value 0 (d :: ds)) (2 ^ 64)); cbn [sr_value]; [|lia].
  destruct neg; [apply u64_range|]. split; [|done]. rewrite dec_value_num by done.
  apply num_value_nonneg; [lia|lia|by apply digits_hex].
Qed.

(** ** Round trip *)

Definition print_options (o : Options) : list bytes :=
  [B "--port"; to_string (o_port o); B "--bind"; o_bind o; B "--threads"; to_string (o_threads o)]
  ++ (if o_pin o then [B "--pin"] else [])
  ++ [B "--root"; o_root o; B "--idle-timeout-ms"; to_string (o_idle_timeout o);
      B "--header-timeout-ms"; to_string (o_header_timeout o); B "--max-body"; to_string (o_max_body o)].

Definition options_ok (o : Options) : Prop :=
  0 <= o_port o <= 65535 /\ 0 <= o_threads o < 2 ^ 32 /\ 0 <= o_idle_timeout o < 2 ^ 63
  /\ 0 <= o_header_timeout o < 2 ^ 63 /\ 0 <= o_max_body o < 2 ^ 64.

Lemma loop_value argv0 arg x rest (o o' : Options) :
  option_step argv0 arg (Some x) o = inl (o', true) -> options_loop argv0 (arg :: x :: rest) o = options_loop argv0 rest o'.
Proof. intros Hs. cbn [options_loop]. by rewrite Hs. Qed.

(** An option that hands its number to [k]. *)
Lemma loop_number argv0 flag arg v rest (o o' : Options) (k : Z -> (Options * bool) + ending) :
  0 <= v < 2 ^ 64 -> option_step argv0 arg (Some (to_string v)) o = number_option flag (Some (to_string v)) k -> k v = inl (o', true) ->
  options_loop argv0 (arg :: to_string v :: rest) o = options_loop argv0 rest o'.
Proof.
  intros Hv Hs Hk. apply loop_value. rewrite Hs. unfold number_option. by rewrite parse_number_to_string.
Qed.

Lemma to_rep_small v : 0 <= v < 2 ^ 63 -> to_rep v = v.
Proof. unfold to_rep. destruct (Z.ltb_spec v (2 ^ 63)); lia. Qed.

(** Every configuration can be asked for: writing it as options and
    reading them back gives the configuration, whatever the addresses and
    directories contain (even text that looks like an option). *)
Theorem options_roundtrip (argv0 : bytes) (o : Options) :
  options_ok o -> options_loop argv0 (print_options o) Options_default = Start o.
Proof.
  intros (Hp & Ht & Hi & Hh & Hb). unfold print_options. destruct o as [port bind threads pin root idle header body].
  cbn [o_port o_bind o_threads o_pin o_root o_idle_timeout o_header_timeout o_max_body app] in *.
  erewrite loop_number; [|lia|reflexivity|cbn beta; destruct (Z.gtb_spec port 65535); [lia|reflexivity]].
  erewrite loop_value by reflexivity.
  erewrite loop_number; [|lia|reflexivity|cbn beta; rewrite u32_small by done; reflexivity].
  match goal with |- options_loop _ (_ ++ ?rest) ?x = _ => transitivity (options_loop argv0 rest (set_pin pin x)) end.
  { by destruct pin. }
  erewrite loop_value by reflexivity.
  erewrite loop_number; [|lia|reflexivity|cbn beta; rewrite to_rep_small by done; reflexivity].
  erewrite loop_number; [|lia|reflexivity|cbn beta; rewrite to_rep_small by done; reflexivity].
  erewrite loop_number; [|lia|reflexivity|reflexivity].
  reflexivity.
Qed.

Lemma options_roundtrip_witness :
  options_loop (B "httpd") [B "--port"; B "0"; B "--bind"; B "127.0.0.1"; B "--threads"; B "4"; B "--pin"; B "--root"; B "--pin";
      B "--idle-timeout-ms"; B "5"; B "--header-timeout-ms"; B "6"; B "--max-body"; B "7"] Options_default
  = Start (mkOptions 0 (B "127.0.0.1") 4 true (B "--pin") 5 6 7).
Proof.
  apply (options_roundtrip (B "httpd") (mkOptions 0 (B "127.0.0.1") 4 true (B "--pin") 5 6 7)). vm_compute. repeat split; discriminate.
Defined.

(** [parse_number] lets [strtoul] read a minus sign: a negative limit or
    number of threads is not an invalid number but the largest one. *)
Theorem negative_numbers_accepted :
  options_loop (B "httpd") [B "--max-body"; B "-1"; B "--threads"; B "-1"] Options_default
  = Start (set_threads (2 ^ 32 - 1) (set_max_body (2 ^ 64 - 1) Options_default))
  /\ options_loop (B "httpd") [B "--max-body"; B "1x"] Options_default
     = Exit (complain (B "invalid number for --max-body: 1x")).
Proof. split; vm_compute; reflexivity. Qed.
