(* ===== verification/WorkerSteps.v ===== *)
(** * The event loop as a transition system

    [wstep] lists what can happen to the state of a worker: an environment
    step, an accepted or a refused connection, a
    connection driven, closed or judged, the beginning of a drain;
    [lstep] adds the reading of the clock.
    [run_loop_steps] shows that the loop makes no other steps, so an invariant
    of the worker is proved rule by rule. *)

From S2P Require Import Prelude Headers RequestParser Numbers ParserFacts Response ByteBuffer Router Metrics Connection.
From S2P Require Import ConnectionFacts Worker WorkerFacts WorkerLoop Ownership.
From stdpp Require Import relations.

Open Scope Z_scope.

(** ** The descriptors the event loop opens *)

Class EventFdLaws (K : Type) `{Kernel K} `{EventKernel K} `{FdView K} := {
  accept_opened : forall k l fd k', sys_accept4 k l = (inl fd, k') ->
    0 <= fd /\ fd ∉ opened k /\ opened k' = opened k ∪ {[fd]};
  accept_error_opened : forall k l x k', sys_accept4 k l = (inr x, k') -> opened k' = opened k;
  nodelay_opened : forall k fd, opened (sys_nodelay k fd) = opened k;
  epoll_add_opened : forall k ep fd, opened (sys_epoll_add k ep fd).2 = opened k;
  epoll_del_opened : forall k ep fd, opened (sys_epoll_del k ep fd) = opened k;
  epoll_wait_opened : forall k ep t, opened (sys_epoll_wait k ep t).2 = opened k;
  wake_read_opened : forall k fd, opened (sys_wake_read k fd) = opened k }.

Section Steps.
Context {T : Type} `{InBuffer T}.
Context {K : Type} `{Kernel K} `{EventKernel K} `{!FdView K} `{!EventFdLaws K}.
Context (router_ : Router K) (cfg_ : ServerConfig).

#[local] Abbreviation W := (Worker T K).
#[local] Abbreviation Conn := (Connection T).
#[local] Abbreviation kern w := (e_kern (env_ w)).

(** The calls of the loop itself that open and close nothing. *)
Inductive idle_call (k : K) : K -> Prop :=
  | idle_accept l x k' : sys_accept4 k l = (inr x, k') -> idle_call k k'
  | idle_nodelay fd : idle_call k (sys_nodelay k fd)
  | idle_epoll_add ep fd : idle_call k (sys_epoll_add k ep fd).2
  | idle_epoll_wait ep t : idle_call k (sys_epoll_wait k ep t).2
  | idle_wake_read fd : idle_call k (sys_wake_read k fd).

(** Only such calls are made, and the number of connections does not change. *)
Definition same_books (e e' : Env K) : Prop :=
  rtc idle_call (e_kern e) (e_kern e')
  /\ counter (e_metrics e') Field.connections_accepted = counter (e_metrics e) Field.connections_accepted
  /\ counter (e_metrics e') Field.connections_closed = counter (e_metrics e) Field.connections_closed.

(** [c] with the readiness an event reports. *)
Definition made_ready (c c' : Conn) : Prop := exists rd wr, c' = set_ready rd wr c.

Inductive wstep (w : W) : W -> Prop :=
  | Quiet e : same_books (env_ w) e -> wstep w (with_env e w)
  | Refused fd k e :
      sys_accept4 (kern w) (listener_ w) = (inl fd, k) -> same_books (set_kern k (env_ w)) e ->
      wstep w (with_env (destroy_connection (Connection_new fd (cfg_limits cfg_) (now_us_ w)) e) w)
  | Collided fd k c e :
      sys_accept4 (kern w) (listener_ w) = (inl fd, k) -> conns_ w !! fd = Some c -> wstep w (with_env e w)
  | Accepted fd k e :
      sys_accept4 (kern w) (listener_ w) = (inl fd, k) -> conns_ w !! fd = None -> same_books (set_kern k (env_ w)) e ->
      wstep w (with_conns (<[fd := Connection_new fd (cfg_limits cfg_) (now_us_ w)]> (conns_ w))
                 (count Field.connections_accepted 1 e) w)
  | Driven fd c c1 ok c' e' fuel :
      conns_ w !! fd = Some c -> made_ready c c1 ->
      drive router_ (now_us_ w) (draining_ w) (max_in_buffer (cfg_limits cfg_)) fuel c1 (env_ w) = Some (ok, c', e') ->
      wstep w (if ok then with_conns (<[fd := c']> (conns_ w)) e' w else close_connection fd (with_conns (<[fd := c']> (conns_ w)) e' w))
  | Closed fd : wstep w (close_connection fd w)
  | Judged fd c : conns_ w !! fd = Some c -> wstep w (sweep_one cfg_ w (fd, c))
  | Drained : wstep w (begin_drain cfg_ w).

#[local] Abbreviation wsteps := (rtc wstep).

(** A step of the loop: one of these, or the reading of the clock at the top of a pass. *)
Inductive lstep (w : W) : W -> Prop :=
  | Work w' : wstep w w' -> lstep w w'
  | Clock now k : sys_mono_us (kern w) = (now, k) -> lstep w (with_now now (set_kern k (env_ w)) w).

#[local] Abbreviation lsteps := (rtc lstep).

Lemma wsteps_lsteps (w w' : W) : wsteps w w' -> lsteps w w'.
Proof. induction 1; [apply rtc_refl|]. eapply rtc_l; [by apply Work|done]. Qed.

(** Only the reading of the clock changes the cached time. *)
Lemma wstep_now (w w' : W) : wstep w w' -> now_us_ w' = now_us_ w.
Proof.
  assert (forall fd (v : W), now_us_ (close_connection fd v) = now_us_ v) as Hcl
    by (intros fd v; unfold close_connection; by destruct (conns_ v !! fd)).
  destruct 1; try (reflexivity || apply Hcl).
  - destruct ok; [done|]. by rewrite Hcl.
  - unfold sweep_one. by destruct (judge _ _ _ c).
  - unfold begin_drain. by destruct (draining_ w), (fd_valid (listener_ w)).
Qed.

Lemma wsteps_now (w w' : W) : wsteps w w' -> now_us_ w' = now_us_ w.
Proof. induction 1; [done|]. etrans; [eassumption|by apply wstep_now]. Qed.

Lemma same_books_kern k (e : Env K) : idle_call (e_kern e) k -> same_books e (set_kern k e).
Proof. intros Hk. by split; [apply rtc_once|]. Qed.

Lemma idle_opened (k k' : K) : rtc idle_call k k' -> opened k' = opened k.
Proof.
  induction 1 as [|k k1 k' Hc _ ->]; [done|].
  destruct Hc; [by eapply accept_error_opened|apply nodelay_opened|apply epoll_add_opened|apply epoll_wait_opened|apply wake_read_opened].
Qed.

Lemma same_books_count f n (e : Env K) :
  f <> Field.connections_accepted -> f <> Field.connections_closed -> same_books e (count f n e).
Proof. intros Ha Hc. split_and!; [apply rtc_refl|..]; cbn [count e_metrics counter bump]; by rewrite decide_False by done. Qed.

#[export] Instance same_books_preorder : PreOrder same_books.
Proof.
  split; [by intros a; split; [apply rtc_refl|]|]. intros a b c (Ho1 & Ha1 & Hc1) (Ho2 & Ha2 & Hc2). by split_and!; etrans.
Qed.

(** The state after some steps, with an environment that is worth the same. *)
Lemma quiet_then (w : W) e w' : same_books (env_ w) e -> wsteps (with_env e w) w' -> wsteps w w'.
Proof. intros He Hs. eapply rtc_l; [by apply Quiet|exact Hs]. Qed.

Lemma accept_loop_steps n (w : W) : wsteps w (accept_loop cfg_ n w).
Proof.
  revert w. induction n as [|n IH]; intros w; cbn [accept_loop]; [apply rtc_refl|].
  destruct (sys_accept4 (kern w) (listener_ w)) as [[fd|x] k] eqn:Ea.
  2:{ pose proof (same_books_kern k (env_ w) (idle_accept _ _ _ _ Ea)) as Hk. destruct x.
      - eapply quiet_then; [exact Hk|]. apply IH.
      - eapply quiet_then; [exact Hk|]. apply rtc_refl.
      - eapply quiet_then; [|apply rtc_refl]. etrans; [exact Hk|]. by apply same_books_count. }
  pose proof (idle_epoll_add (sys_nodelay k fd) (epoll_ w) fd) as Ho.
  destruct (sys_epoll_add (sys_nodelay k fd) (epoll_ w) fd) as [ok k1]. cbn [snd] in Ho.
  assert (same_books (set_kern k (env_ w)) (set_kern k1 (env_ w))) as Hk1
    by (split; [eapply rtc_l; [apply idle_nodelay|by apply rtc_once]|done]).
  destruct ok; cbn [negb].
  - cbn [conns_ wcount wkern with_env with_conns]. destruct (conns_ w !! fd) as [c|] eqn:Ec.
    + set (e := destroy_connection _ _). eapply rtc_l; [exact (Collided w fd k c e Ea Ec)|]. apply IH.
    + eapply rtc_l; [exact (Accepted w fd k _ Ea Ec Hk1)|]. apply IH.
  - eapply rtc_l; [eapply (Refused w fd k (count Field.accept_errors 1 (set_kern k1 (env_ w))) Ea)|apply IH].
    etrans; [exact Hk1|]. by apply same_books_count.
Qed.

Lemma fold_sweep_steps l (w : W) :
  NoDup l.*1 -> Forall (fun x => conns_ w !! x.1 = Some x.2) l -> wsteps w (fold_left (sweep_one cfg_) l w).
Proof.
  revert w. induction l as [|[fd c] l IH]; intros w Hn Hl; cbn [fold_left]; [apply rtc_refl|].
  cbn [fmap list_fmap fst] in Hn. apply NoDup_cons in Hn as [Hfd Hn]. apply Forall_cons in Hl as [Hc Hl].
  eapply rtc_l; [by apply Judged|]. apply IH; [done|]. rewrite Forall_forall in Hl |- *. intros [fd' c'] Hin.
  specialize (Hl _ Hin). cbn [fst snd] in *.
  assert (fd' <> fd) by (intros ->; apply Hfd, list_elem_of_fmap; by exists (fd, c')).
  unfold sweep_one. destruct (judge _ _ _ c); cbn [conns_ with_conns with_env wcount]; by rewrite ?lookup_delete_ne by done.
Qed.

Lemma sweep_steps (w : W) : wsteps w (sweep cfg_ w).
Proof.
  apply fold_sweep_steps; [apply NoDup_fst_map_to_list|]. rewrite Forall_forall. intros [fd c]. apply elem_of_map_to_list.
Qed.

Lemma close_all_steps (w : W) : wsteps w (close_all w).
Proof.
  unfold close_all. generalize (map_to_list (conns_ w)). intros l. revert w.
  induction l as [|x l IH]; intros w; cbn [fold_left]; [apply rtc_refl|]. eapply rtc_l; [apply Closed|apply IH].
Qed.

Lemma handle_event_steps fuel (w w' : W) ev : handle_event router_ cfg_ fuel w ev = Some w' -> wsteps w w'.
Proof.
  unfold handle_event. destruct (ev_fd ev =? wake_ w).
  { intros [= <-]. eapply quiet_then; [apply same_books_kern, idle_wake_read|]. apply rtc_once, Drained. }
  destruct (_ && _); [intros [= <-]; apply accept_loop_steps|].
  destruct (conns_ w !! ev_fd ev) as [c|] eqn:Ec; [|intros [= <-]; apply rtc_refl].
  match goal with |- context [drive _ _ _ _ _ ?x _] => set (c1 := x) end.
  assert (made_ready c c1) as Hr.
  { exists (ev_readable ev || c_can_read c), (ev_writable ev || c_can_write c). subst c1.
    by destruct c, (ev_readable ev), (ev_writable ev). }
  clearbody c1. destruct (drive _ _ _ _ _ _ _) as [[[ok c'] e']|] eqn:Ed; [|done]. intros [= <-].
  apply rtc_once. by eapply Driven.
Qed.

Lemma handle_events_steps fuel evs (w w' : W) : handle_events router_ cfg_ fuel w evs = Some w' -> wsteps w w'.
Proof.
  revert w. induction evs as [|ev evs IH]; intros w; cbn [handle_events]; [intros [= <-]; apply rtc_refl|].
  destruct (handle_event _ _ _ _ _) as [w1|] eqn:E; [|done]. intros Hs.
  etrans; [by eapply handle_event_steps|by apply IH].
Qed.

(** A pass: interrupted, or the clock is read, the events are handled and the table may be swept. *)
Lemma run_once_cases fuel ls go ls' (w w' : W) :
  run_once router_ cfg_ fuel ls w = Some (go, ls', w') ->
  match sys_epoll_wait (kern w) (epoll_ w) (tick_us cfg_ / 1000) with
  | (inr _, k) => ls' = ls /\ w' = wkern k w
  | (inl evs, k) =>
      exists now k1 w1, sys_mono_us k = (now, k1)
        /\ wsteps (with_now now (set_kern k1 (env_ (wkern k w))) (wkern k w)) w1 /\ now_us_ w1 = now
        /\ (ls' = now /\ w' = sweep cfg_ w1 \/ draining_ w1 = false /\ ls' = ls /\ u64 (now - ls) < tick_us cfg_ /\ w' = w1)
  end.
Proof.
  unfold run_once. destruct (sys_epoll_wait _ _ _) as [[evs|x] k]; [|by destruct x; intros [= _ <- <-]].
  cbn [env_ wkern with_env with_conns e_kern set_kern].
  destruct (sys_mono_us k) as [now k1] eqn:Em. destruct (handle_events _ _ _ _ _) as [w2|] eqn:Eh; [|done].
  set (w0 := with_now now (set_kern k1 (env_ (wkern k w))) (wkern k w)).
  assert (wsteps w0 w2) as Hw2.
  { eapply quiet_then; [|by eapply handle_events_steps].
    cbn [env_ wcount with_env with_now with_conns wkern]. etrans; by apply same_books_count. }
  pose proof (wsteps_now _ _ Hw2) as Hn. change (now_us_ w0) with now in Hn. rewrite Hn.
  intros Hs. exists now, k1, w2. split; [done|]. split; [exact Hw2|]. split; [exact Hn|].
  destruct (draining_ w2) eqn:Ed; cbn [orb] in Hs; [injection Hs as _ <- <-; by left|].
  destruct (Z.geb_spec (u64 (now - ls)) (tick_us cfg_)); injection Hs as _ <- <-; [by left|right]. auto.
Qed.

Lemma run_once_steps fuel ls go ls' (w w' : W) : run_once router_ cfg_ fuel ls w = Some (go, ls', w') -> lsteps w w'.
Proof.
  intros Hr%run_once_cases. pose proof (idle_epoll_wait (kern w) (epoll_ w) (tick_us cfg_ / 1000)) as Hk.
  destruct (sys_epoll_wait _ _ _) as [[evs|x] k]; cbn [snd] in Hk; apply same_books_kern in Hk.
  2:{ destruct Hr as [_ ->]. by apply rtc_once, Work, Quiet. }
  destruct Hr as (now & k1 & w1 & Hm & Hs & _ & Hw'). eapply rtc_l; [apply Work, Quiet, Hk|].
  eapply rtc_l; [by apply Clock|]. etrans; [apply wsteps_lsteps, Hs|].
  destruct Hw' as [[_ ->]|(_ & _ & _ & ->)]; [apply wsteps_lsteps, sweep_steps|apply rtc_refl].
Qed.

Lemma run_loop_steps n fuel ls (w : W) r :
  run_loop router_ cfg_ n fuel ls w = Some r -> lsteps w (match r with inl w' => w' | inr w' => w' end).
Proof.
  revert ls w. induction n as [|n IH]; intros ls w; cbn [run_loop]; [intros [= <-]; apply rtc_refl|].
  destruct (run_once _ _ _ _ _) as [[[[] ls1] w1]|] eqn:E; [| |done]; apply run_once_steps in E.
  - intros Hr. etrans; [exact E|by eapply IH].
  - intros [= <-]. etrans; [exact E|apply wsteps_lsteps, close_all_steps].
Qed.

Lemma run_loop_ended n fuel ls (w w' : W) : run_loop router_ cfg_ n fuel ls w = Some (inr w') -> conns_ w' = ∅.
Proof.
  revert ls w. induction n as [|n IH]; intros ls w; cbn [run_loop]; [done|].
  destruct (run_once _ _ _ _ _) as [[[[] ls1] w1]|]; [apply IH| |done]. intros [= <-]. apply close_all_empty.
Qed.

End Steps.
