(* ===== verification/WorkerFds.v ===== *)
(** * Every descriptor of a worker is accounted for

    The books of a worker: the listener, the sockets in [conns_] and the
    files of the responses in flight are exactly the descriptors it holds,
    and the two connection counters differ by the number of connections. *)

From S2P Require Import Prelude Headers RequestParser Numbers ParserFacts Response ByteBuffer Router Metrics Connection.
From S2P Require Import ConnectionFacts Worker WorkerFacts WorkerLoop Ownership WorkerSteps.
From stdpp Require Import relations.

Open Scope Z_scope.

Section Books.
Context {T : Type} `{InBuffer T}.
Context {K : Type} `{Kernel K} `{!KernelLaws K} `{EventKernel K} `{!FdView K} `{!FdLaws K} `{!EventFdLaws K}.
Context (router_ : Router K) (cfg_ : ServerConfig).
Context (Hrouter : router_ok router_) (Hfds : router_fds router_).

#[local] Abbreviation W := (Worker T K).
#[local] Abbreviation Conn := (Connection T).

Definition conn_fds (x : Z * Conn) : list Z := x.1 :: owned_fd (c_file x.2).
Definition table_fds (m : gmap Z Conn) : list Z := map_to_list m ≫= conn_fds.
Definition worker_fds (w : W) : list Z := owned_fd (listener_ w) ++ table_fds (conns_ w).

Lemma table_fds_insert fd c (m : gmap Z Conn) :
  m !! fd = None -> table_fds (<[fd := c]> m) ≡ₚ conn_fds (fd, c) ++ table_fds m.
Proof. intros Hm. unfold table_fds. by rewrite map_to_list_insert, bind_cons by done. Qed.

Lemma table_fds_delete fd c (m : gmap Z Conn) :
  m !! fd = Some c -> table_fds m ≡ₚ conn_fds (fd, c) ++ table_fds (base.delete fd m).
Proof.
  intros Hm. rewrite <- table_fds_insert by apply lookup_delete_eq. by rewrite insert_delete_eq, insert_id by done.
Qed.

Record books (R : gset Z) (w : W) : Prop := {
  bk_holds : holds R (worker_fds w) (e_kern (env_ w));
  bk_keys : map_Forall (fun fd c => c_fd c = fd /\ 0 <= fd) (conns_ w);
  bk_counts : u64 (metric Field.connections_accepted w)
    = u64 (metric Field.connections_closed w + Z.of_nat (size (conns_ w))) }.

Lemma books_lookup R fd c (w : W) :
  books R w -> conns_ w !! fd = Some c ->
  c_fd c = fd /\ fd_valid fd = true
  /\ holds R (owned_fd (c_file c) ++ fd :: owned_fd (listener_ w) ++ table_fds (base.delete fd (conns_ w))) (e_kern (env_ w)).
Proof.
  intros [Hh Hk _] Hc. destruct (Hk fd c Hc) as [Hf Hp]. split; [done|]. split; [unfold fd_valid; lia|].
  revert Hh. unfold worker_fds. rewrite (table_fds_delete fd c) by done. unfold conn_fds. cbn [fst snd].
  apply holds_perm; [done| |done]. solve_Permutation.
Qed.

(** A connection leaves the table and its descriptors are closed. *)
Lemma books_remove R fd c e (w : W) :
  books R w -> conns_ w !! fd = Some c -> e_kern e = e_kern (env_ w) ->
  counter (e_metrics e) Field.connections_accepted = metric Field.connections_accepted w ->
  counter (e_metrics e) Field.connections_closed = u64 (metric Field.connections_closed w + 1) ->
  books R (with_conns (base.delete fd (conns_ w)) (destroy_connection c e) w).
Proof.
  intros Hb Hc He Ha Hcl. destruct (books_lookup R fd c w Hb Hc) as (Hf & Hv & Hh). split.
  - cbn [env_ with_conns destroy_connection e_kern set_kern]. rewrite He, Hf, Hv. apply holds_close_owned in Hh.
    by apply holds_close in Hh.
  - apply map_Forall_delete, Hb.
  - unfold metric. cbn [env_ conns_ with_conns destroy_connection e_metrics set_kern].
    rewrite Ha, Hcl, (bk_counts _ _ Hb), u64_mod_add, map_size_delete_Some by done. f_equal.
    assert (size (conns_ w) <> 0%nat); [|lia]. intros E%map_size_empty_inv. by rewrite E in Hc.
Qed.

(** A new connection enters it. *)
Lemma books_insert R fd c e (w : W) :
  books R w -> conns_ w !! fd = None -> c_fd c = fd -> c_file c = -1 -> 0 <= fd ->
  fd ∉ opened (e_kern (env_ w)) -> opened (e_kern e) = opened (e_kern (env_ w)) ∪ {[fd]} ->
  counter (e_metrics e) Field.connections_accepted = u64 (metric Field.connections_accepted w + 1) ->
  counter (e_metrics e) Field.connections_closed = metric Field.connections_closed w ->
  books R (with_conns (<[fd := c]> (conns_ w)) e w).
Proof.
  intros Hb Hc Hf Hfi Hp Hno Ho Ha Hcl. split.
  - apply (holds_open R fd (worker_fds w) _ (e_kern e)) in Ho; [|apply Hb|done]. revert Ho.
    unfold worker_fds. cbn [env_ listener_ conns_ with_conns]. rewrite table_fds_insert by done.
    unfold conn_fds. cbn [fst snd]. rewrite Hfi. apply holds_perm; [done| |done]. cbn. solve_Permutation.
  - apply map_Forall_insert_2; [done|apply Hb].
  - unfold metric. cbn [env_ conns_ with_conns]. rewrite Ha, Hcl, u64_u64, map_size_insert_None by done.
    rewrite <- u64_mod_add, (bk_counts _ _ Hb), u64_mod_add. f_equal. lia.
Qed.

Lemma books_same R e (w : W) :
  opened (e_kern e) = opened (e_kern (env_ w)) -> counter (e_metrics e) Field.connections_accepted = metric Field.connections_accepted w ->
  counter (e_metrics e) Field.connections_closed = metric Field.connections_closed w -> books R w -> books R (with_env e w).
Proof.
  intros Ho Ha Hc [Hh Hk Hn]. split; [by eapply holds_same|done|].
  unfold metric in *. cbn [env_ conns_ with_env with_conns]. by rewrite Ha, Hc.
Qed.

Lemma books_drive R fd c c1 ok c' e' fuel (w : W) :
  books R w -> conns_ w !! fd = Some c -> made_ready c c1 ->
  drive router_ (now_us_ w) (draining_ w) (max_in_buffer (cfg_limits cfg_)) fuel c1 (env_ w) = Some (ok, c', e') ->
  books R (with_conns (<[fd := c']> (conns_ w)) e' w).
Proof.
  intros Hb Hc (rd & wr & ->) Hd. apply drive_steps in Hd as [Hf Hh Hcnt _ _ _]; [|done..]. conn_simpl.
  destruct (books_lookup R fd c w Hb Hc) as (Hfd & _ & Hl). apply Hh in Hl. split.
  - revert Hl. unfold worker_fds. cbn [env_ listener_ conns_ with_conns].
    rewrite <- insert_delete_eq, table_fds_insert by apply lookup_delete_eq. unfold conn_fds. cbn [fst snd].
    apply holds_perm; [done| |done]. solve_Permutation.
  - apply map_Forall_insert_2; [|apply Hb]. rewrite Hf. split; [done|]. by destruct (bk_keys _ _ Hb fd c Hc).
  - unfold metric. cbn [env_ conns_ with_conns]. rewrite !Hcnt, map_size_insert_Some by done. apply Hb.
Qed.

Lemma books_drain R (w : W) : books R w -> books R (begin_drain cfg_ w).
Proof.
  intros [Hh Hk Hc]. unfold begin_drain. destruct (draining_ w); [done|].
  destruct (fd_valid (listener_ w)) eqn:E; [|done]. split; [|done..].
  unfold worker_fds, owned_fd in Hh. rewrite E in Hh. cbn [app] in Hh. apply holds_close.
  eapply holds_same; [apply epoll_del_opened|]. exact Hh.
Qed.

Lemma books_close R fd (w : W) : books R w -> books R (close_connection fd w).
Proof.
  intros Hb. unfold close_connection. destruct (conns_ w !! fd) as [c|] eqn:Hc; [|done].
  apply (books_remove R fd c (count Field.connections_closed 1 (env_ w)) w Hb Hc); done.
Qed.

(** Rule induction. *)
Lemma wstep_books R (w w' : W) : wstep router_ cfg_ w w' -> books R w -> books R w'.
Proof.
  intros Hs Hb. destruct Hs as [e He|fd k e Ha He|fd k c e Ha Hc|fd k e Ha Hc He|fd c c1 ok c' e' fuel Hc Hr Hd|fd|fd c Hc|].
  - destruct He as (Ho%idle_opened & Ha & Hc). by apply books_same.
  - destruct (accept_opened _ _ _ _ Ha) as (Hp & Hno & Ho). destruct He as (Heo%idle_opened & Hea & Hec).
    apply books_same; [|done..]. cbn [destroy_connection e_kern set_kern Connection_new c_file c_fd].
    assert (fd_valid fd = true) as -> by (unfold fd_valid; lia). cbn [fd_valid Z.geb Z.compare].
    cbn [set_kern e_kern] in Heo. rewrite close_opened by (rewrite Heo, Ho; set_solver). rewrite Heo, Ho. set_solver.
  - exfalso. destruct (accept_opened _ _ _ _ Ha) as (_ & Hno & _). apply Hno.
    destruct (books_lookup R fd c w Hb Hc) as (_ & _ & _ & _ & ->). set_solver.
  - destruct (accept_opened _ _ _ _ Ha) as (Hp & Hno & Ho). destruct He as (Heo%idle_opened & Hea & Hec). cbn [set_kern e_kern e_metrics] in *.
    apply books_insert; try done; unfold metric; cbn [count e_kern e_metrics counter bump].
    + by rewrite Heo.
    + by rewrite decide_True, Hea by done.
  - destruct ok; [|apply books_close]; by eapply books_drive.
  - by apply books_close.
  - unfold sweep_one. destruct (judge _ _ _ c); [done|..].
    + by apply (books_remove R fd c (count Field.connections_closed 1 (env_ w)) w Hb Hc).
    + apply (books_remove R fd c (count Field.connections_closed 1 (count Field.connections_timed_out 1 (env_ w))) w Hb Hc); done.
  - by apply books_drain.
Qed.

Lemma lsteps_books R (w w' : W) : rtc (lstep router_ cfg_) w w' -> books R w -> books R w'.
Proof.
  induction 1 as [|w w1 w' [? Hs|now k Hm] _ IH]; [done|..]; intros Hb; apply IH; [by eapply wstep_books|].
  destruct Hb as [Hh Hk Hn]. split; [|done..]. eapply holds_same; [|exact Hh].
  pose proof (mono_opened (e_kern (env_ w))) as Ho. by rewrite Hm in Ho.
Qed.

End Books.
