(* ===== verification/Accounting.v ===== *)
(** * Descriptors and counters of the running program

    The handlers of the program own what they open; with them a worker that
    has left its loop holds no descriptor of a connection any more.  The
    concrete kernel of the witnesses keeps a table of open descriptors. *)

From S2P Require Import Prelude Headers RequestParser Numbers ParserFacts Response ByteBuffer UniqueFd Router StaticFiles Metrics.
From S2P Require Import Connection ConnectionFacts Worker WorkerFacts WorkerLoop Ownership WorkerSteps WorkerFds Routes RoutesFacts.
From S2P Require Import ConnectionLiveness ServerTheorems AppTheorems.

Open Scope Z_scope.

(** ** The handlers of the program *)

Definition open_books {K} `{FdView K} (k : K) (r : open_result) (k' : K) : Prop :=
  match r with
  | Opened fd => 0 <= fd /\ fd ∉ opened k /\ opened k' = opened k ∪ {[fd]}
  | OpenFailed _ => opened k' = opened k
  end.

Class FileFdLaws (K : Type) `{FileSys K} `{FdView K} := {
  openat2_opened : forall k d p, open_books k (sys_openat2 k d p).1 (sys_openat2 k d p).2;
  openat_opened : forall k d p, open_books k (sys_openat k d p).1 (sys_openat k d p).2;
  fstat_opened : forall k fd, opened (sys_fstat k fd).2 = opened k }.

Section Handlers.
Context {K : Type} `{Kernel K} `{FileSys K} `{!FdView K} `{!FdLaws K} `{!FileFdLaws K} (have_openat2 : bool).

Lemma open_books_holds k r k' : open_books k r k' -> forall R l, holds R l k -> holds R (owned_fd (open_fd r) ++ l) k'.
Proof.
  intros Ho R l Hl. destruct r as [fd|b]; cbn [open_books open_fd] in *.
  - destruct Ho as (Hp & Hno & Ho). unfold owned_fd. assert (fd_valid fd = true) as -> by (unfold fd_valid; lia).
    by eapply holds_open.
  - by eapply holds_same.
Qed.

Lemma open_beneath_holds k d p R l :
  holds R l k -> holds R (owned_fd (open_beneath have_openat2 k d p).1 ++ l) (open_beneath have_openat2 k d p).2.
Proof.
  intros Hl. unfold open_beneath.
  assert (forall k, holds R l k ->
    holds R (owned_fd (let '(r, k) := sys_openat k d (c_str p) in (open_fd r, k)).1 ++ l)
      (let '(r, k) := sys_openat k d (c_str p) in (open_fd r, k)).2) as Hf.
  { intros k0 Hl0. pose proof (open_books_holds _ _ _ (openat_opened k0 d (c_str p)) R l Hl0) as Ho.
    by destruct (sys_openat k0 d (c_str p)). }
  destruct have_openat2; [|by apply Hf]. pose proof (open_books_holds _ _ _ (openat2_opened k d (c_str p)) R l Hl) as Ho.
  destruct (sys_openat2 k d (c_str p)) as [[fd|[]] k1]; [done| |done]. apply Hf. exact Ho.
Qed.

Lemma fstat_holds k fd st R l : holds R l k -> holds R l (fstat_into k fd st).2.
Proof.
  apply holds_same. unfold fstat_into. pose proof (fstat_opened k fd). by destruct (sys_fstat k fd) as [[]].
Qed.

Lemma destroy_holds fd k R l : holds R (owned_fd fd ++ l) k -> holds R l (close_fds (destroy fd) k).
Proof.
  intros Hl. apply holds_close_owned in Hl. unfold destroy, UniqueFd.reset, fd_valid in *. by destruct (fd >=? 0).
Qed.

Lemma serve_holds root rel k :
  let '(r, _, k') := serve have_openat2 root rel Response_new k in
  forall R l, holds R l k -> holds R (owned_fd (file r) ++ l) k'.
Proof.
  unfold serve, assign_response. cbn [UniqueFd.reset file Response_new Response_text Z.geb Z.compare close_fds fold_left].
  destruct (valid root); cbn [negb]; [|done]. destruct (sanitize rel) as [out|]; [|done].
  set (p := match out with [] => _ | _ => _ end). clearbody p. clear out.
  pose proof (open_beneath_holds k root p) as Ho1. destruct (open_beneath have_openat2 k root p) as [fd k1]. cbn [fst snd] in Ho1.
  match goal with |- context [if valid fd then ?a else ?b] => set (r1 := if valid fd then a else b) end.
  assert (forall R l, holds R l k -> holds R (owned_fd fd ++ l) r1.2) as Ho2.
  { intros R l Hl. apply Ho1 in Hl. subst r1. destruct (valid fd); [|done].
    apply (fstat_holds k1 fd (mkStat false false 0)) in Hl. by destruct (fstat_into k1 fd (mkStat false false 0)) as [[ok st] k2]. }
  destruct r1 as [[dir st1] k2]. cbn [snd] in Ho2.
  match goal with |- context [if dir then ?a else ?b] => set (r2 := if dir then a else b) end.
  assert (forall R l, holds R l k -> holds R (owned_fd r2.1.1.2 ++ l) r2.2) as Ho3.
  { intros R l Hl. apply Ho2 in Hl. subst r2. destruct dir; [|done]. apply (open_beneath_holds k2 root (p ++ B "/index.html")) in Hl.
    destruct (open_beneath have_openat2 k2 root (p ++ B "/index.html")) as [fd2 k3]. cbn [fst snd] in *.
    rewrite Permutation_app_swap_app in Hl. by apply destroy_holds in Hl. }
  destruct r2 as [[[p' fd'] e'] k3]. cbn [fst snd] in Ho3.
  match goal with |- context [if negb (valid fd') then ?a else ?b] => set (r3 := if negb (valid fd') then a else b) end.
  assert (forall R l, holds R l k -> holds R (owned_fd fd' ++ l) r3.2) as Ho4.
  { intros R l Hl. apply Ho3 in Hl. subst r3. destruct (valid fd'); [|done]. cbn [negb].
    apply (fstat_holds k3 fd' st1) in Hl. by destruct (fstat_into k3 fd' st1) as [[ok st] k4]. }
  destruct r3 as [[bad st] k4]. cbn [snd] in Ho4. destruct bad; [|done].
  intros R l Hl. apply destroy_holds. by apply Ho4.
Qed.

Lemma assign_fds (new : K -> Request -> Response) :
  (forall k req, file (new k req) = -1) -> handler_fds (fun k req res => assign res (new k req) k).
Proof. intros Hn k req. unfold assign. cbn. intros R l Hl. by rewrite Hn. Qed.

Lemma stream_handler_fds : handler_fds (K := K) stream_handler.
Proof. intros k req. unfold stream_handler, assign. by destruct (parse_u64 _) as [n|]; [destruct (n >? _)|]. Qed.

Lemma bytes_handler_fds : handler_fds (K := K) bytes_handler.
Proof. intros k req. unfold bytes_handler, assign. by destruct (parse_u64 _) as [n|]; [destruct (n >? _)|]. Qed.

Lemma static_handler_fds files : handler_fds (static_handler have_openat2 files).
Proof.
  intros k req. unfold static_handler. pose proof (serve_holds files (drop 8 (path req)) k) as Hs.
  by destruct (serve have_openat2 files (drop 8 (path req)) Response_new k) as [[r e] k'].
Qed.

Lemma app_handlers_fds {double : Type} (of_u64 : Z -> double) (div_1e6 : double -> double) (fmt_17g fmt_g : double -> bytes)
  (worker_metrics : K -> list WorkerMetrics) (uptime : K -> double) (info : K -> Info) (static_root : bytes) (files : Z) :
  router_fds (app_router have_openat2 of_u64 div_1e6 fmt_17g fmt_g worker_metrics uptime info static_root files).
Proof.
  unfold router_fds, app_router, install_routes, Router_add, Router_add_prefix. cbn [app].
  repeat apply Forall_cons_2; [..|constructor]; cbn [rt_handler].
  1-5: by apply assign_fds.
  - apply stream_handler_fds.
  - apply bytes_handler_fds.
  - apply static_handler_fds.
Qed.

End Handlers.

(** ** A concrete kernel

    [d_clients] are the clients in the accept queue with what they will send;
    the one file of the file system is [hello.txt].  Sockets are ready
    [d_room] times. *)
Record Desk := mkDesk {
  d_open : gset Z; d_clients : list bytes; d_rx : gmap Z bytes; d_tx : gmap Z bytes; d_clock : Z; d_stop : bool;
  d_room : nat }.

Definition fresh_fd (X : gset Z) : Z := 1 + foldr Z.max 2 (elements X).

Lemma fresh_fd_spec X : 0 <= fresh_fd X /\ fresh_fd X ∉ X.
Proof.
  unfold fresh_fd. rewrite <- elem_of_elements. generalize (elements X). intros l.
  assert (forall x, x ∈ l -> x <= foldr Z.max 2 l) as Hm.
  { induction l as [|y l IH]; intros x Hx; [by apply not_elem_of_nil in Hx|]. cbn [foldr].
    apply elem_of_cons in Hx as [->|Hx]; [lia|]. specialize (IH x Hx). lia. }
  split.
  - clear Hm. assert (2 <= foldr Z.max 2 l) by (induction l; cbn [foldr]; lia). lia.
  - intros Hx%Hm. lia.
Qed.

Definition d_rx_of (k : Desk) (fd : Z) : bytes := default [] (d_rx k !! fd).
Definition d_tx_of (k : Desk) (fd : Z) : bytes := default [] (d_tx k !! fd).
Definition d_with_open (X : gset Z) (k : Desk) : Desk := mkDesk X (d_clients k) (d_rx k) (d_tx k) (d_clock k) (d_stop k) (d_room k).
Definition d_transmit (fd : Z) (bs : bytes) (k : Desk) : Desk :=
  mkDesk (d_open k) (d_clients k) (d_rx k) (<[fd := d_tx_of k fd ++ bs]> (d_tx k)) (d_clock k) (d_stop k) (pred (d_room k)).

Definition hello : bytes := B "hello".

#[export] Instance desk_kernel : Kernel Desk := {
  sys_recv k fd n :=
    if (n <? 0) || (d_room k =? 0)%nat then (inr EAGAIN, k) else
    match d_rx_of k fd with
    | [] => (inr EAGAIN, k)
    | s => (inl (take (Z.to_nat n) s),
            mkDesk (d_open k) (d_clients k) (<[fd := drop (Z.to_nat n) s]> (d_rx k)) (d_tx k) (d_clock k) (d_stop k)
              (pred (d_room k)))
    end;
  sys_send k fd bs := if (d_room k =? 0)%nat then (inr EAGAIN, k) else (inl (zlen bs), d_transmit fd bs k);
  sys_sendfile k fd _ off want :=
    if (want <? 0) || (d_room k =? 0)%nat then (inr EAGAIN, k) else
    let bs := take (Z.to_nat want) (drop (Z.to_nat off) hello) in (inl bs, d_transmit fd bs k);
  sys_shutdown k _ := k;
  kernel_closer k fd := d_with_open (d_open k ∖ {[fd]}) k;
  sys_mono_us k := (d_clock k + 1000, mkDesk (d_open k) (d_clients k) (d_rx k) (d_tx k) (d_clock k + 1000) (d_stop k) (d_room k));
  sys_time k := (0, k);
  strftime_gmt _ := B "Thu, 01 Jan 1970 00:00:00 GMT";
  wire := d_tx_of }.

Lemma d_transmit_wire fd bs k : d_tx_of (d_transmit fd bs k) fd = d_tx_of k fd ++ bs.
Proof. unfold d_tx_of at 1, d_transmit. cbn [d_tx]. by rewrite lookup_insert_eq. Qed.

(** Cases on whether the socket is ready. *)
Ltac desk_cases :=
  unfold sys_recv, sys_send, sys_sendfile, desk_kernel;
  repeat first [case_match | progress cbn [orb fst snd]]; try done;
  repeat match goal with E : (_ || _) = false |- _ => apply orb_false_elim in E as [??] end;
  repeat match goal with E : (_ =? _)%nat = false |- _ => apply Nat.eqb_neq in E end.

#[export] Instance desk_laws : KernelLaws Desk.
Proof.
  split; try done; intros k fd.
  - intros n bs k'. desk_cases. intros [= <- <-]. unfold zlen. rewrite length_take. lia.
  - intros n fd'. by desk_cases.
  - intros bs n k'. desk_cases. intros [= <- <-]. pose proof (zlen_nonneg bs). split; [lia|]. cbn [wire].
    rewrite d_transmit_wire. unfold zlen. by rewrite Nat2Z.id, take_ge.
  - intros bs x k'. desk_cases. by intros [= <- <-].
  - intros f off want bs k'. desk_cases. intros [= <- <-]. split; [|apply d_transmit_wire].
    unfold zlen. rewrite length_take. lia.
  - intros f off want x k'. desk_cases. by intros [= <- <-].
Qed.

#[export] Instance desk_finite : FiniteReadiness Desk.
Proof.
  refine {| budget := d_room |}; try (intros; cbn; lia); intros k fd.
  - intros n. desk_cases; cbn; lia.
  - intros bs. desk_cases; cbn; lia.
  - intros f off n. desk_cases; cbn; lia.
Defined.

#[export] Instance desk_events : EventKernel Desk := {
  sys_accept4 k _ :=
    match d_clients k with
    | [] => (inr AcceptEmpty, k)
    | s :: cs =>
        let fd := fresh_fd (d_open k) in
        (inl fd, mkDesk (d_open k ∪ {[fd]}) cs (<[fd := s]> (d_rx k)) (base.delete fd (d_tx k)) (d_clock k) (d_stop k) (d_room k))
    end;
  sys_nodelay k _ := k;
  sys_epoll_add k _ _ := (true, k);
  sys_epoll_del k _ _ := k;
  (* the listener (4), every client, and after the first pass the eventfd (6) *)
  sys_epoll_wait k _ _ :=
    (inl ((mkEvent 4 true false) :: ((fun x : Z * bytes => mkEvent x.1 true true) <$> map_to_list (d_rx k))
          ++ (if d_stop k then [mkEvent 6 true false] else [])),
     mkDesk (d_open k) (d_clients k) (d_rx k) (d_tx k) (d_clock k) true (d_room k));
  sys_wake_read k _ := k }.

#[export] Instance desk_files : FileSys Desk := {
  sys_openat2 k _ p :=
    if bytes_eqb p (B "hello.txt") then
      let fd := fresh_fd (d_open k) in (Opened fd, d_with_open (d_open k ∪ {[fd]}) k)
    else (OpenFailed false, k);
  sys_openat k _ _ := (OpenFailed false, k);
  sys_fstat k _ := (Some (mkStat false true (zlen hello)), k) }.

#[export] Instance desk_view : FdView Desk := d_open.

#[export] Instance desk_fds : FdLaws Desk.
Proof.
  split; try done.
  - intros k fd n. by desk_cases.
  - intros k fd bs. by desk_cases.
  - intros k fd f off n. by desk_cases.
Qed.

#[export] Instance desk_event_fds : EventFdLaws Desk.
Proof.
  split; try done.
  - intros k l fd k'. cbn. destruct (d_clients k); [done|]. intros [= <- <-].
    destruct (fresh_fd_spec (d_open k)). by split_and!.
  - intros k l x k'. cbn. destruct (d_clients k); [|done]. by intros [= <- <-].
Qed.

#[export] Instance desk_file_fds : FileFdLaws Desk.
Proof.
  split; try done. intros k d p. unfold sys_openat2, desk_files. destruct (bytes_eqb _ _); [|done].
  destruct (fresh_fd_spec (d_open k)). by split_and!.
Qed.

(** The static files on this kernel, and a worker with two clients waiting:
    one asks for the file, the other sends half a request. *)
Definition desk_router : Router Desk := Router_add_prefix [] (B "GET") (B "/static/") (static_handler true 3).

Definition desk_config : ServerConfig := mkConfig 30000 10000 0 ParserLimits_default.

Definition desk_worker : Worker bytes Desk :=
  mkWorker 4 5 6 ∅ (mkEnv WorkerMetrics_new DateCache_new
    (mkDesk {[3; 4; 5; 6]} [B "GET /static/hello.txt HTTP/1.1" ++ kCRLF ++ B "Host: a" ++ kCRLF ++ kCRLF; B "GET /"] ∅ ∅ 0 false 100)) 0 false 0.

#[export] Instance desk_fs_laws : FileSysLaws Desk.
Proof.
  split; intros k; unfold sys_openat2, sys_openat, sys_fstat, desk_files; intros d; try done; intros p; by repeat case_match.
Qed.

Lemma desk_router_fds : router_fds desk_router.
Proof. apply Forall_cons_2; [apply static_handler_fds|constructor]. Qed.

Lemma desk_router_ok : router_ok desk_router.
Proof.
  apply Forall_cons_2; [|constructor]. intros k req res. cbn [rt_handler].
  destruct (static_handler_ok true 3 k req res) as (res' & k' & -> & Hres & Hw & _). auto.
Qed.

Lemma desk_books : books {[3; 5; 6]} desk_worker.
Proof.
  split; [|apply map_Forall_empty|reflexivity].
  split; [apply NoDup_singleton|]. cbn. split; set_solver.
Qed.

(** ** Theorems *)

(** The handlers of the program lose no descriptor.  Whatever a
    handler opens while it answers a request is either the file it hands to
    the connection with the response or closed again when it returns, on
    every path: a directory replaced by its index, a path that is not a
    regular file, a file that cannot be inspected. *)
Theorem app_fds {K : Type} `{Kernel K} `{FileSys K} `{!FdView K} `{!FdLaws K} `{!FileFdLaws K}
  (have_openat2 : bool) {double : Type} (of_u64 : Z -> double) (div_1e6 : double -> double) (fmt_17g fmt_g : double -> bytes)
  (worker_metrics : K -> list WorkerMetrics) (uptime : K -> double) (info : K -> Info) (static_root : bytes) (files : Z)
  (R : gset Z) (l : list Z) (k : K) (req : Request) :
  let app := app_router have_openat2 of_u64 div_1e6 fmt_17g fmt_g worker_metrics uptime info static_root files in
  holds R l k ->
  holds R (owned_fd (file (Router.dispatch app k req Response_new).1) ++ l) (Router.dispatch app k req Response_new).2.
Proof.
  cbn zeta. apply router_fds_dispatch. apply app_handlers_fds.
Qed.

Lemma app_fds_witness :
  let r := Router.dispatch desk_router (e_kern (env_ desk_worker)) (get_request (B "/static/hello.txt")) Response_new in
  let a := Router.dispatch (app_router true (fun v => v) (fun v => v / 1000000) to_string to_string (fun _ => [WorkerMetrics_new])
    (fun _ => 1) (fun _ => demo_info) (B "public") 3) (e_kern (env_ desk_worker)) (get_request (B "/static/hello.txt")) Response_new in
  file r.1 = 7 /\ holds {[3; 5; 6]} (owned_fd (file a.1) ++ [4]) a.2.
Proof. cbn zeta. split; [vm_compute; reflexivity|]. apply app_fds. apply (bk_holds _ _ desk_books). Defined.



(** While a connection is driven, the only descriptor that
    changes hands is the file of the response: its socket stays open and its
    own, the files opened by handlers end up in the connection or closed.
    The counter of bytes sent grows by exactly the number of bytes the socket
    accepted (modulo its width), be it by [send] or by [sendfile]. *)
Theorem drive_accounts {T : Type} `{InBuffer T} {K : Type} `{Kernel K} `{!KernelLaws K} `{!FdView K} `{!FdLaws K}
  (router : Router K) (now : Z) (draining : bool) (max_in : Z) (fuel : nat) (c c' : Connection T) (e e' : Env K) (keep : bool)
  (R : gset Z) (l : list Z) :
  router_ok router -> router_fds router -> holds R (c_fd c :: owned_fd (c_file c) ++ l) (e_kern e) ->
  drive router now draining max_in fuel c e = Some (keep, c', e') ->
  holds R (c_fd c' :: owned_fd (c_file c') ++ l) (e_kern e')
  /\ exists q, wire (e_kern e') (c_fd c) = wire (e_kern e) (c_fd c) ++ q
       /\ u64 (counter (e_metrics e') Field.bytes_sent) = u64 (counter (e_metrics e) Field.bytes_sent + zlen q).
Proof.
  intros Hr Hf Hh Hd. apply drive_steps in Hd as [Hfd Hfds _ Hs _ _]; [|done..]. split; [|exact Hs].
  rewrite Hfd. rewrite (Permutation_middle (owned_fd (c_file c)) l (c_fd c)) in Hh.
  rewrite (Permutation_middle (owned_fd (c_file c')) l (c_fd c)). by apply Hfds.
Qed.

Definition desk_env : Env Desk := mkEnv WorkerMetrics_new DateCache_new
  (mkDesk {[7]} [] {[7 := B "GET /static/hello.txt HTTP/1.1" ++ kCRLF ++ B "Host: a" ++ kCRLF ++ kCRLF]} ∅ 0 false 20).

Lemma desk_env_holds : holds ∅ [7] (e_kern desk_env).
Proof. split; [apply NoDup_singleton|]. split; [set_solver|]. unfold opened, desk_view. cbn [desk_env e_kern d_open]. set_solver. Qed.

Lemma drive_accounts_witness :
  match drive desk_router 5 false 65536 20 demo_conn desk_env with
  | Some (keep, c', e') => holds ∅ (c_fd c' :: owned_fd (c_file c') ++ []) (e_kern e')
  | None => False
  end.
Proof.
  destruct (drive desk_router 5 false 65536 20 demo_conn desk_env) as [[[keep c'] e']|] eqn:E.
  - exact (proj1 (drive_accounts desk_router 5 false 65536 20 demo_conn c' desk_env e' keep ∅ [] desk_router_ok desk_router_fds
      desk_env_holds E)).
  - apply (f_equal (fun r => match r with Some _ => true | _ => false end)) in E. vm_compute in E. discriminate E.
Defined.
