(* ===== verification/KernelFrame.v ===== *)
(** * What the functions of a worker do to the kernel, in one frame

    The functions on a connection and the event loop reach the kernel only
    through system calls and handlers.  A preorder on kernel states that every
    call and every handler respects is therefore respected by each of them
    ([CallFrame] for the part on one connection).  [Shutdown] uses
    it for the clock. *)

From S2P Require Import Prelude Headers RequestParser Numbers ParserFacts Response ByteBuffer Router Metrics Connection CallFrame Worker.

Open Scope Z_scope.

(** [R] holds between the states before and after every call but the one
    that resets an [eventfd], which a worker makes on its own only. *)
Class KernelRel {K : Type} `{Kernel K} `{EventKernel K} (R : K -> K -> Prop) := {
  #[global] rel_sockets :: SocketRel (fun _ => True) R;
  rel_accept : forall k l, R k (sys_accept4 k l).2;
  rel_nodelay : forall k fd, R k (sys_nodelay k fd);
  rel_epoll_add : forall k ep fd, R k (sys_epoll_add k ep fd).2;
  rel_epoll_del : forall k ep fd, R k (sys_epoll_del k ep fd);
  rel_epoll_wait : forall k ep t, R k (sys_epoll_wait k ep t).2 }.

Section Frame.
Context {T : Type} `{InBuffer T}.
Context {K : Type} `{Kernel K} `{EventKernel K} (R : K -> K -> Prop) `{!KernelRel R}.
Context (router_ : Router K) (Hrouter : router_rel R router_).

#[local] Abbreviation Conn := (Connection T).
#[local] Abbreviation env := (Env K).
#[local] Abbreviation RE e e' := (R (e_kern e) (e_kern e')).

(** ** The event loop *)

Context (cfg_ : ServerConfig).
#[local] Abbreviation W := (Worker T K).
#[local] Abbreviation RW w w' := (R (e_kern (env_ w)) (e_kern (env_ w'))).

Lemma destroy_connection_rel (c : Conn) (e : env) : RE e (destroy_connection c e).
Proof.
  unfold destroy_connection. cbn [e_kern set_kern].
  etrans; [|instantiate (1 := if fd_valid (c_file c) then _ else _); destruct (fd_valid (c_fd c)); [apply rel_close|done]].
  destruct (fd_valid (c_file c)); [apply rel_close|done].
Qed.

Lemma close_connection_rel fd (w : W) : RW w (close_connection fd w).
Proof. unfold close_connection. destruct (conns_ w !! fd); [apply destroy_connection_rel|done]. Qed.

Lemma accept_loop_rel n (w : W) : RW w (accept_loop cfg_ n w).
Proof.
  revert w. induction n as [|n IH]; intros w; cbn [accept_loop]; [done|].
  pose proof (rel_accept (e_kern (env_ w)) (listener_ w)) as Ha.
  destruct (sys_accept4 _ _) as [[fd|[]] k]; cbn [snd] in Ha; try exact Ha; [|etrans; [exact Ha|apply (IH (wkern k w))]].
  pose proof (rel_nodelay k fd) as Hn. pose proof (rel_epoll_add (sys_nodelay k fd) (epoll_ w) fd) as He.
  destruct (sys_epoll_add (sys_nodelay k fd) (epoll_ w) fd) as [ok k1]. cbn [snd] in He.
  assert (R (e_kern (env_ w)) k1) as Hk by (etrans; [exact Ha|]; by etrans).
  assert (forall v : W, R k1 (e_kern (env_ v)) -> RW w (accept_loop cfg_ n v)) as Hgo
    by (intros v Hv; etrans; [exact Hk|]; etrans; [exact Hv|apply IH]).
  destruct ok; cbn [negb]; [destruct (_ !! fd)|]; apply Hgo;
    cbn [env_ with_env with_conns wcount wkern e_kern set_kern]; first [reflexivity|apply (destroy_connection_rel _ (count _ _ (set_kern k1 (env_ w))))].
Qed.

Lemma begin_drain_rel (w : W) : RW w (begin_drain cfg_ w).
Proof.
  unfold begin_drain. destruct (draining_ w); [done|]. destruct (fd_valid (listener_ w)); [|done]. cbn [env_ e_kern set_kern].
  etrans; [apply rel_epoll_del|apply rel_close].
Qed.

Lemma sweep_rel (w : W) : RW w (sweep cfg_ w).
Proof.
  unfold sweep. generalize (map_to_list (conns_ w)). intros l. revert w. induction l as [|[fd c] l IH]; intros w; [done|]. cbn [fold_left].
  etrans; [|apply IH]. unfold sweep_one. destruct (judge _ _ _ _); cbn [env_ with_env with_conns wcount]; [done|..];
    match goal with |- R _ (e_kern (destroy_connection c ?e)) => exact (destroy_connection_rel c e) end.
Qed.

Lemma close_all_rel (w : W) : RW w (close_all w).
Proof.
  unfold close_all. generalize (map_to_list (conns_ w)). intros l. revert w. induction l as [|x l IH]; intros w; [done|]. cbn [fold_left].
  etrans; [apply close_connection_rel|apply IH].
Qed.

(** What handling events leaves alone. *)
Definition keeps (w w' : W) : Prop := now_us_ w' = now_us_ w /\ wake_ w' = wake_ w /\ epoll_ w' = epoll_ w.

#[export] Instance keeps_preorder : PreOrder keeps.
Proof. split; [by split|]. intros a b c (? & ? & ?) (? & ? & ?). split_and!; congruence. Qed.

Lemma accept_loop_keeps n (w : W) : keeps w (accept_loop cfg_ n w) /\ draining_ (accept_loop cfg_ n w) = draining_ w.
Proof.
  revert w. induction n as [|n IH]; intros w; cbn [accept_loop]; [done|].
  destruct (sys_accept4 _ _) as [[fd|[]] k]; [|exact (IH (wkern k w))|done|done].
  destruct (sys_epoll_add _ _ _) as [ok k1].
  assert (forall v : W, keeps w v -> draining_ v = draining_ w -> keeps w (accept_loop cfg_ n v) /\ draining_ (accept_loop cfg_ n v) = draining_ w) as Hgo.
  { intros v Hk Hd. destruct (IH v) as [Hk' Hd']. split; [by etrans|congruence]. }
  destruct ok; cbn [negb]; [destruct (_ !! fd)|]; by apply Hgo.
Qed.

Lemma handle_event_keeps fuel (w w' : W) ev : handle_event router_ cfg_ fuel w ev = Some w' -> keeps w w'.
Proof.
  unfold handle_event. destruct (_ =? wake_ w).
  { intros [= <-]. unfold begin_drain. cbn [draining_ listener_ wkern with_env with_conns].
    by destruct (draining_ w), (fd_valid (listener_ w)). }
  destruct (_ && _); [intros [= <-]; apply accept_loop_keeps|]. destruct (conns_ w !! ev_fd ev) as [c|]; [|by intros [= <-]].
  destruct (drive _ _ _ _ _ _ _) as [[[ok c1] e1]|]; [|done]. intros [= <-]. destruct ok; [done|].
  unfold close_connection. by destruct (_ !! _).
Qed.

Lemma handle_event_rel fuel (w w' : W) ev :
  (ev_fd ev = wake_ w -> forall k, R k (sys_wake_read k (wake_ w))) -> handle_event router_ cfg_ fuel w ev = Some w' -> RW w w'.
Proof.
  unfold handle_event. intros Hwk. destruct (Z.eqb_spec (ev_fd ev) (wake_ w)) as [Ew|_].
  { intros [= <-]. etrans; [apply (Hwk Ew)|]. exact (begin_drain_rel (wkern _ w)). }
  destruct (_ && _); [intros [= <-]; apply accept_loop_rel|]. destruct (conns_ w !! ev_fd ev) as [c|]; [|by intros [= <-]].
  destruct (drive _ _ _ _ _ _ _) as [[[ok c'] e']|] eqn:Ed; [|done]. apply (drive_rel R router_ Hrouter (fun _ => True)) in Ed as [Ed _]; [|exact I]. intros [= <-].
  destruct ok; [exact Ed|]. etrans; [exact Ed|exact (close_connection_rel _ (with_conns _ e' w))].
Qed.

Lemma handle_events_rel fuel evs (w w' : W) :
  (Exists (fun ev => ev_fd ev = wake_ w) evs -> forall k, R k (sys_wake_read k (wake_ w))) -> handle_events router_ cfg_ fuel w evs = Some w' -> RW w w'.
Proof.
  revert w. induction evs as [|ev evs IH]; intros w Hwk; cbn [handle_events]; [by intros [= <-]|].
  destruct (handle_event _ _ _ _ _) as [w1|] eqn:E; [|done]. destruct (handle_event_keeps _ _ _ _ E) as (_ & Hw1 & _).
  apply handle_event_rel in E; [|intros He; by apply Hwk, Exists_cons_hd]. intros Hs%IH; [by etrans|].
  rewrite Hw1. intros He. by apply Hwk, Exists_cons_tl.
Qed.

(** A pass relates its states; the second part starts at the reading of the clock. *)
Lemma run_once_rel fuel ls go ls' (w w' : W) :
  (forall evs k, sys_epoll_wait (e_kern (env_ w)) (epoll_ w) (tick_us cfg_ / 1000) = (inl evs, k) ->
    Exists (fun ev => ev_fd ev = wake_ w) evs -> forall k, R k (sys_wake_read k (wake_ w))) ->
  run_once router_ cfg_ fuel ls w = Some (go, ls', w') ->
  match sys_epoll_wait (e_kern (env_ w)) (epoll_ w) (tick_us cfg_ / 1000) with
  | (inr _, k) => w' = wkern k w
  | (inl _, k) => R (sys_mono_us k).2 (e_kern (env_ w'))
  end.
Proof.
  intros Hwk. unfold run_once. destruct (sys_epoll_wait _ _ _) as [[evs|[]] k] eqn:Ek; try (by intros [= _ _ <-]).
  cbn [env_ wkern with_env with_conns e_kern set_kern]. destruct (sys_mono_us k) as [now k1].
  destruct (handle_events _ _ _ _ _) as [w2|] eqn:Eh; [|done]. apply handle_events_rel in Eh; [|intros He; by apply (Hwk evs k)].
  destruct (_ || _); intros [= _ _ <-]; [|exact Eh]. etrans; [exact Eh|apply sweep_rel].
Qed.

End Frame.
