(* ===== verification/Shutdown.v ===== *)
(** * Stopping a worker ends its loop

    [graceful_drain] says what a drain does as long as it lasts; here is the
    other half: it does not last.  The clock is a law of the kernel; that no
    other call turns it back is carried through the code by [KernelFrame]. *)

From S2P Require Import Prelude Headers RequestParser Numbers ParserFacts Response ByteBuffer Router StaticFiles Metrics Connection.
From S2P Require Import ConnectionFacts ConnectionLiveness Worker WorkerFacts WorkerLoop Routes RoutesFacts Accounting CallFrame KernelFrame.

Open Scope Z_scope.

(** [clock] is the time in microseconds: no call turns it back, [mono_us]
    reads it, and it advances between two readings of the loop. *)
Class ClockLaws (K : Type) `{Kernel K} `{EventKernel K} := {
  clock : K -> Z;
  #[global] clock_rel :: KernelRel (fun k k' => clock k <= clock k');
  clock_wake_read : forall k fd, clock k <= clock (sys_wake_read k fd);
  clock_read : forall k, (sys_mono_us k).1 = clock (sys_mono_us k).2;
  clock_pass : forall k ep t, clock k + 1 <= (sys_mono_us (sys_epoll_wait k ep t).2).1 }.

Definition router_clock {K : Type} `{ClockLaws K} (router : Router K) : Prop := router_rel (fun k k' => clock k <= clock k') router.

(** No signal reaches the thread: [main] blocks them before it starts any. *)
Definition uninterrupted (K : Type) `{EventKernel K} : Prop := forall (k : K) ep t, (sys_epoll_wait k ep t).1 <> inr EINTR.

Section Shutdown.
Context {T : Type} `{InBuffer T}.
Context {K : Type} `{Kernel K} `{EventKernel K} `{!ClockLaws K}.
Context (router_ : Router K) (cfg_ : ServerConfig) (Hrouter : router_clock router_) (Hsig : uninterrupted K).

#[local] Abbreviation W := (Worker T K).
#[local] Abbreviation now_of w := (clock (e_kern (env_ w))).

Lemma run_once_failed fuel ls (w : W) x k :
  sys_epoll_wait (e_kern (env_ w)) (epoll_ w) (tick_us cfg_ / 1000) = (inr x, k) -> run_once router_ cfg_ fuel ls w = Some (false, ls, wkern k w).
Proof.
  intros Ek. pose proof (Hsig (e_kern (env_ w)) (epoll_ w) (tick_us cfg_ / 1000)) as Hi. unfold run_once. rewrite Ek in *. by destruct x.
Qed.

(** The drain of a worker stopped at this time. *)
Definition drained (w : W) : Prop :=
  draining_ w = true ->
  fd_valid (listener_ w) = false /\ drain_deadline_us_ w = u64 (now_us_ w + to_us (cfg_shutdown_grace cfg_)).

Lemma begin_drain_spec (w : W) : drained w -> drained (begin_drain cfg_ w) /\ draining_ (begin_drain cfg_ w) = true.
Proof.
  intros Hd. unfold begin_drain. destruct (draining_ w) eqn:Ed; [done|]. by destruct (fd_valid (listener_ w)) eqn:El.
Qed.

Lemma handle_event_stop fuel (w w' : W) ev :
  handle_event router_ cfg_ fuel w ev = Some w' -> drained w ->
  drained w' /\ (draining_ w = true \/ ev_fd ev = wake_ w -> draining_ w' = true).
Proof.
  unfold handle_event. destruct (Z.eqb_spec (ev_fd ev) (wake_ w)) as [Ew|Ew].
  { intros [= <-] Hd. destruct (begin_drain_spec (wkern (sys_wake_read (e_kern (env_ w)) (wake_ w)) w) Hd) as [Hd' Hdr]. auto. }
  destruct (fd_valid (listener_ w) && (ev_fd ev =? listener_ w)) eqn:El.
  { intros [= <-] Hd. destruct (accept_loop_keeps cfg_ kAcceptBatch w) as [_ Hdr]. apply andb_prop in El as [El _].
    assert (draining_ w = false) as Hf. { destruct (draining_ w) eqn:E; [|done]. destruct (Hd E) as [Hv _]. congruence. }
    rewrite Hf in Hdr. split; [unfold drained, on_accept; rewrite Hdr; done|]. intros [Hx|Hx]; [congruence|done]. }
  destruct (conns_ w !! ev_fd ev) as [c|]; [|intros [= <-] Hd; split; [done|]; by intros [?|?]].
  destruct (drive _ _ _ _ _ _ _) as [[[ok c1] e1]|]; [|done]. intros [= <-] Hd.
  assert (forall v : W, now_us_ v = now_us_ w -> draining_ v = draining_ w -> listener_ v = listener_ w ->
    drain_deadline_us_ v = drain_deadline_us_ w -> drained v /\ (draining_ w = true \/ ev_fd ev = wake_ w -> draining_ v = true)) as Hgo.
  { intros v Hn Hdr Hl Hdl. split; [|rewrite Hdr; by intros [?|?]]. unfold drained. by rewrite Hdr, Hl, Hdl, Hn. }
  destruct ok; [by apply Hgo|]. unfold close_connection. destruct (_ !! _); by apply Hgo.
Qed.

Lemma handle_events_stop fuel evs (w w' : W) :
  handle_events router_ cfg_ fuel w evs = Some w' ->
  keeps w w'
  /\ (drained w -> drained w' /\ (draining_ w = true \/ Exists (fun ev => ev_fd ev = wake_ w) evs -> draining_ w' = true)).
Proof.
  revert w. induction evs as [|ev evs IH]; intros w; cbn [handle_events].
  { intros [= <-]. split; [done|]. intros Hd. split; [done|]. intros [?|Hx]; [done|by apply Exists_nil in Hx]. }
  destruct (handle_event _ _ _ _ _) as [w1|] eqn:E; [|done]. intros Hs. pose proof (handle_event_keeps _ _ _ _ _ _ E) as Hk1.
  apply IH in Hs as [Hk2 Hx2]. split; [by etrans|]. intros Hd. destruct (handle_event_stop _ _ _ _ E Hd) as [Hd1 Hx1].
  destruct (Hx2 Hd1) as [Hd2 Hx3]. split; [done|]. destruct Hk1 as (_ & Hwk & _). rewrite Hwk in Hx3.
  intros [Hx|[Hx|Hx]%Exists_cons]; auto.
Qed.

Lemma sweep_keeps (w : W) :
  now_us_ (sweep cfg_ w) = now_us_ w /\ draining_ (sweep cfg_ w) = draining_ w /\ listener_ (sweep cfg_ w) = listener_ w
  /\ drain_deadline_us_ (sweep cfg_ w) = drain_deadline_us_ w.
Proof. unfold sweep. by destruct (sweep_fold cfg_ (map_to_list (conns_ w)) w) as ((-> & -> & ->) & -> & _). Qed.

(** A pass: the time it read, and how it leaves the drain. *)
Lemma run_once_drain fuel ls go ls' (w w' : W) evs k :
  run_once router_ cfg_ fuel ls w = Some (go, ls', w') ->
  sys_epoll_wait (e_kern (env_ w)) (epoll_ w) (tick_us cfg_ / 1000) = (inl evs, k) ->
  now_of w + 1 <= now_us_ w' <= now_of w'
  /\ (go = true -> draining_ w' = true -> now_us_ w' < drain_deadline_us_ w')
  /\ (draining_ w = true -> fd_valid (listener_ w) = false ->
      draining_ w' = true /\ listener_ w' = listener_ w /\ drain_deadline_us_ w' = drain_deadline_us_ w)
  /\ (draining_ w = false -> drained w' /\ (Exists (fun ev => ev_fd ev = wake_ w) evs -> draining_ w' = true)).
Proof.
  intros Hr Ek. pose proof (run_once_rel _ _ Hrouter _ _ _ _ _ _ _ (fun _ _ _ _ k => clock_wake_read k _) Hr) as Hrel.
  pose proof (clock_pass (e_kern (env_ w)) (epoll_ w) (tick_us cfg_ / 1000)) as Hp. pose proof (clock_read k) as Hc.
  revert Hr. unfold run_once. rewrite Ek in *. cbn [env_ wkern with_env with_conns e_kern set_kern snd fst] in *.
  destruct (sys_mono_us k) as [now k1]. cbn [fst snd] in *.
  match goal with |- context [handle_events _ _ _ ?x evs] => set (w1 := x) end.
  destruct (handle_events _ _ _ w1 evs) as [w2|] eqn:Eh; [|done].
  destruct (handle_events_stop _ _ _ _ Eh) as [(Hn2 & _) Hx2]. change (now_us_ w1) with now in Hn2.
  assert (draining_ w = true -> fd_valid (listener_ w) = false ->
    draining_ w2 = true /\ listener_ w2 = listener_ w /\ drain_deadline_us_ w2 = drain_deadline_us_ w) as Hold.
  { intros Hd Hl. apply handle_events_drain in Eh; [|done..]. destruct Eh as [? ? ? _]. done. }
  intros Hs.
  assert (now_us_ w' = now_us_ w2 /\ draining_ w' = draining_ w2 /\ listener_ w' = listener_ w2
    /\ drain_deadline_us_ w' = drain_deadline_us_ w2 /\ (go = true -> draining_ w' = true -> now_us_ w' < drain_deadline_us_ w')) as (Hn & Hd & Hl & Hdl & Hgo).
  { destruct (sweep_keeps w2) as (Hn & Hd & Hl & Hdl).
    destruct (draining_ w2 || _); injection Hs as Hgo _ <-; (split_and!; [done..|]); intros -> Hdr; rewrite Hdr in Hgo; cbn [andb] in Hgo;
      apply negb_true_iff, orb_false_elim in Hgo as [_ Hgo]; lia. }
  split; [rewrite Hn, Hn2; lia|]. split; [done|]. split; [by rewrite Hd, Hl, Hdl|].
  intros Hnd. destruct (Hx2 ltac:(intros Hf; change (draining_ w1) with (draining_ w) in Hf; congruence)) as [Hd2 Hdr2].
  split; [unfold drained in *; by rewrite Hd, Hl, Hdl, Hn|]. rewrite Hd. intros Hev. by apply Hdr2; right.
Qed.

(** As long as it runs, a draining loop gains a microsecond in every pass. *)
Lemma drain_bound n fuel ls (w w' : W) :
  draining_ w = true -> fd_valid (listener_ w) = false -> run_loop router_ cfg_ (S n) fuel ls w = Some (inl w') ->
  now_of w + Z.of_nat (S n) <= now_us_ w' < drain_deadline_us_ w.
Proof.
  revert ls w. induction n as [|n IH]; intros ls w Hd Hl; cbn [run_loop];
    destruct (run_once router_ cfg_ fuel ls w) as [[[[] ls1] w1]|] eqn:Er; try done;
    (destruct (sys_epoll_wait (e_kern (env_ w)) (epoll_ w) (tick_us cfg_ / 1000)) as [[evs|x] k] eqn:Ek;
     [|by rewrite (run_once_failed _ _ _ _ _ Ek) in Er]);
    destruct (run_once_drain _ _ _ _ _ _ _ _ Er Ek) as (Hc & Hgo & Hold & _);
    destruct (Hold Hd Hl) as (Hd1 & Hl1 & Hdl1); specialize (Hgo eq_refl Hd1).
  - intros [= <-]. lia.
  - intros Hs. apply IH in Hs; [|done|by rewrite Hl1]. lia.
Qed.

End Shutdown.

(** The routes of the program do not turn the clock back if the file system does not. *)
Lemma app_clock {K : Type} `{ClockLaws K} `{!FileSys K} (HR : FileRel (fun k k' : K => clock k <= clock k')) (have_openat2 : bool)
  {double : Type} (of_u64 : Z -> double) (div_1e6 : double -> double) (fmt_17g fmt_g : double -> bytes)
  (worker_metrics : K -> list WorkerMetrics) (uptime : K -> double) (info : K -> Info) static_root files :
  router_clock (app_router have_openat2 of_u64 div_1e6 fmt_17g fmt_g worker_metrics uptime info static_root files).
Proof. by apply app_handlers_rel. Qed.

(** Stopping a worker ends its thread.  When [request_stop]
    has made the [eventfd] readable, so that the next [epoll_wait] reports it,
    the loop returns after at most one pass per microsecond of the grace
    period and two more, whatever the clients do, and no connection is left:
    [Server::wait] returns.  The kernel is assumed to block eventually, as in
    [event_loop_total], and its clock to advance from pass to pass. *)
Theorem stop_returns {T : Type} `{InBufferLaws T} {K : Type} `{KernelLaws K} {FR : FiniteReadiness K} `{!EventKernel K} `{!ClockLaws K}
  (router : Router K) (cfg : ServerConfig) (ls : Z) (w : Worker T K) (evs : list event) (k : K) :
  router_ok router -> router_finite router -> router_clock router -> limits_ok (cfg_limits cfg) = true ->
  buffer_fits (cfg_limits cfg) -> max_in_buffer (cfg_limits cfg) + kReadSize <= ib_max -> worker_ok cfg w ->
  uninterrupted K -> 0 <= clock (e_kern (env_ w)) -> draining_ w = false ->
  sys_epoll_wait (e_kern (env_ w)) (epoll_ w) (tick_us cfg / 1000) = (inl evs, k) -> Exists (fun ev => ev_fd ev = wake_ w) evs ->
  exists enough w', (forall fuel, (enough <= fuel)%nat ->
      run_loop router cfg (Z.to_nat (to_us (cfg_shutdown_grace cfg)) + 2) fuel ls w = Some (inr w'))
    /\ conns_ w' = ∅.
Proof.
  intros Hr Hf Hck Hl Hb Hm Hw Hsig Hpos Hd Ek Hev. set (g := to_us (cfg_shutdown_grace cfg)).
  destruct (run_loop_ok router cfg Hr Hf Hl Hb Hm (Z.to_nat g + 2) ls w Hw) as (F & [w'|w'] & Hrun & Hend); [exfalso|by exists F, w'].
  assert (0 <= g) as Hg by apply u64_range.
  specialize (Hrun F ltac:(done)). revert Hrun. replace (Z.to_nat g + 2)%nat with (S (S (Z.to_nat g))) by lia.
  remember (S (Z.to_nat g)) as n eqn:En. cbn [run_loop].
  destruct (run_once router cfg F ls w) as [[[[] ls1] w1]|] eqn:Er; try done.
  destruct (run_once_drain router cfg Hck F ls true ls1 w w1 evs k Er Ek) as (Hc & _ & _ & Hnew).
  destruct (Hnew Hd) as [Hdr1 Hd1]. specialize (Hd1 Hev). destruct (Hdr1 Hd1) as [Hl1 Hdl1]. subst n. intros Hs.
  apply (drain_bound router cfg Hck Hsig) in Hs; [|done..]. rewrite Hdl1 in Hs. fold g in Hs.
  pose proof (Z.mod_le (now_us_ w1 + g) (2 ^ 64) ltac:(lia) ltac:(lia)) as Hle. unfold u64 in Hs. lia.
Qed.

#[export] Instance desk_clock : ClockLaws Desk.
Proof.
  unshelve refine {| clock := d_clock |}; [|by intros k fd; cbn; lia|done|by intros k t; cbn; lia].
  split; [split; [split; [split; [by intros k|by intros a b c; lia]|..]|..]|..]; intros k; try (cbn; lia).
  - intros fd n _. desk_cases; cbn; lia.
  - intros fd bs _. desk_cases; cbn; lia.
  - intros fd f off n _. desk_cases; cbn; lia.
  - intros l. cbn. destruct (d_clients k); cbn; lia.
Defined.

#[export] Instance desk_file_clock : FileRel (fun k k' : Desk => clock k <= clock k').
Proof.
  split; [split; [by intros k|by intros a b c; lia]|..]; intros k; try (cbn; lia).
  intros d p. cbn. destruct (bytes_eqb _ _); cbn; lia.
Qed.

Lemma desk_router_finite : router_finite desk_router.
Proof.
  apply Forall_cons_2; [|constructor]. intros k req res. cbn [rt_handler].
  by destruct (static_handler_ok true 3 k req res) as (res' & k' & -> & _ & _ & Hb).
Qed.

(** The worker of [Accounting] when the [eventfd] is readable. *)
Definition stopped_desk : Worker bytes Desk :=
  with_env (set_kern (mkDesk {[3; 4; 5; 6]} [B "GET /"] ∅ ∅ 0 true 100) (env_ desk_worker)) desk_worker.

Lemma stop_returns_witness :
  exists enough w', (forall fuel, (enough <= fuel)%nat -> run_loop desk_router desk_config 2 fuel 0 stopped_desk = Some (inr w'))
    /\ conns_ w' = ∅.
Proof.
  apply (stop_returns desk_router desk_config 0 stopped_desk [mkEvent 4 true false; mkEvent 6 true false]
           (mkDesk {[3; 4; 5; 6]} [B "GET /"] ∅ ∅ 0 true 100)).
  - exact desk_router_ok.
  - exact desk_router_finite.
  - apply Forall_cons_2; [|constructor]. intros k req res. cbn [rt_handler]. unfold static_handler.
    pose proof (serve_rel (fun k k' : Desk => clock k <= clock k') true 3 (drop 8 (path req)) res k) as Hs.
    destruct (serve true 3 (drop 8 (path req)) res k) as [[r e] k']. exact Hs.
  - reflexivity.
  - vm_compute. split; discriminate.
  - vm_compute. discriminate.
  - apply map_Forall_empty.
  - intros k t. discriminate.
  - vm_compute. discriminate.
  - reflexivity.
  - reflexivity.
  - apply Exists_cons_tl, Exists_cons_hd. reflexivity.
Defined.
