(* ===== verification/Timeouts.v ===== *)
(** * Timeouts

    [sweep] runs at most once per tick, so a deadline can be overshot; by how
    much is an invariant of the loop.  Clock readings are assumed not to go
    back and to fit 64 bits ([clock_ok]), as those of [steady_clock] do. *)

From S2P Require Import Prelude Headers RequestParser Numbers ParserFacts Response ByteBuffer Router Metrics Connection.
From S2P Require Import ConnectionFacts Worker WorkerFacts WorkerLoop Ownership WorkerSteps Accounting.
From stdpp Require Import relations.

Open Scope Z_scope.

Section Timeouts.
Context {T : Type} `{InBuffer T}.
Context {K : Type} `{Kernel K} `{!KernelLaws K} `{EventKernel K} `{!FdView K} `{!FdLaws K} `{!EventFdLaws K}.
Context (router_ : Router K) (cfg_ : ServerConfig).
Context (Hrouter : router_ok router_) (Hfds : router_fds router_).

#[local] Abbreviation W := (Worker T K).
#[local] Abbreviation Conn := (Connection T).

(** The head of a request is being received. *)
Definition in_head (c : Conn) : Prop := c_request_start_us c <> 0 /\ headers_complete (c_parser c) = false.

(** The stamps of a connection at the time [now], with a sweep made at [ls]. *)
Record stamped (ls now : Z) (c : Conn) : Prop := {
  sp_active : 0 <= c_last_active_us c <= now;
  sp_start : 0 <= c_request_start_us c <= now;
  sp_idle : ls <= c_last_active_us c + idle_timeout_us cfg_;
  sp_head : in_head c -> ls <= c_request_start_us c + header_timeout_us cfg_ }.

Lemma timeout_us_nonneg : 0 <= idle_timeout_us cfg_ /\ 0 <= header_timeout_us cfg_.
Proof. unfold idle_timeout_us, header_timeout_us, to_us. split; apply u64_range. Qed.

Lemma stamped_new fd ls now : 0 <= now -> ls <= now -> stamped ls now (Connection_new fd (cfg_limits cfg_) now).
Proof.
  intros Hp Hl. destruct timeout_us_nonneg as [Hi Hh].
  split; cbn [c_last_active_us c_request_start_us Connection_new]; try lia. intros [Hz _]. by cbn in Hz.
Qed.

Lemma stamped_steps ls now c e c' e' : ls <= now -> stamped ls now c -> steps now c e c' e' -> stamped ls now c'.
Proof.
  intros Hl [Ha Hs Hi Hh] [_ _ _ _ Ha' Hs']. destruct timeout_us_nonneg as [Hip Hhp].
  assert (0 <= now) by lia.
  split; [destruct Ha' as [->| ->]; lia| |destruct Ha' as [->| ->]; lia|].
  - destruct Hs' as [->|[->|[-> _]]]; lia.
  - intros [Hz Hc]. destruct Hs' as [?|[->|[E Hm]]]; [done|lia|]. rewrite E. apply Hh. split; [congruence|].
    destruct (headers_complete (c_parser c)); [|done]. by rewrite Hm in Hc.
Qed.

(** Within a pass. *)
Lemma wstep_stamped ls (w w' : W) :
  0 <= now_us_ w -> ls <= now_us_ w -> wstep router_ cfg_ w w' ->
  map_Forall (fun _ => stamped ls (now_us_ w)) (conns_ w) -> map_Forall (fun _ => stamped ls (now_us_ w)) (conns_ w').
Proof.
  intros Hp Hl Hs Hw. destruct Hs as [e He|fd k e Ha He|fd k c e Ha Hc|fd k e Ha Hc He|fd c c1 ok c' e' fuel Hc Hr Hd|fd|fd c Hc|]; try done.
  - apply map_Forall_insert_2; [by apply stamped_new|done].
  - apply drive_steps in Hd; [|done..].
    assert (stamped ls (now_us_ w) c') as Hc'.
    { eapply stamped_steps; [done| |exact Hd]. destruct Hr as (rd & wr & ->). destruct (Hw fd c Hc). by split. }
    destruct ok; [|rewrite close_connection_conns; apply map_Forall_delete]; by apply map_Forall_insert_2.
  - rewrite close_connection_conns. by apply map_Forall_delete.
  - unfold sweep_one. destruct (judge _ _ _ c); [done|..]; by apply map_Forall_delete.
  - unfold begin_drain. by destruct (draining_ w), (fd_valid (listener_ w)).
Qed.

Lemma wsteps_stamped ls (w w' : W) :
  0 <= now_us_ w -> ls <= now_us_ w -> rtc (wstep router_ cfg_) w w' ->
  map_Forall (fun _ => stamped ls (now_us_ w)) (conns_ w) -> map_Forall (fun _ => stamped ls (now_us_ w)) (conns_ w').
Proof.
  intros Hp Hl Hs. induction Hs as [|w w1 w' Hs _ IH]; [done|]. intros Hw.
  rewrite (wstep_now _ _ _ _ Hs) in IH. apply IH; [done..|]. by apply wstep_stamped.
Qed.

Lemma u64_diff a b : 0 <= b <= a -> a < 2 ^ 64 -> u64 (a - b) = a - b.
Proof. intros Hb Ha. unfold u64. apply Z.mod_small. lia. Qed.

(** What a sweep leaves is stamped as of now. *)
Lemma sweep_stamped ls (w : W) :
  now_us_ w < 2 ^ 64 -> map_Forall (fun _ => stamped ls (now_us_ w)) (conns_ w) ->
  map_Forall (fun _ => stamped (now_us_ w) (now_us_ w)) (conns_ (sweep cfg_ w)).
Proof.
  intros Hm Hw fd c Hc. rewrite sweep_lookup in Hc. destruct (conns_ w !! fd) as [c0|] eqn:E; [|done].
  destruct (judge cfg_ (draining_ w) (now_us_ w) c0) eqn:Ej; [|done..]. injection Hc as <-.
  destruct (Hw fd c0 E) as [Ha Hs _ _]. revert Ej. unfold judge. rewrite !u64_diff by lia.
  destruct (draining_ w && _); [done|]. destruct (_ && _) eqn:Eh; [done|].
  destruct (Z.gtb_spec (now_us_ w - c_last_active_us c0) (idle_timeout_us cfg_)) as [?|Hi]; [done|]. intros _.
  split; [done|done|lia|]. intros [Hz Hc]. rewrite Hc in Eh. apply Z.eqb_neq in Hz. rewrite Hz in Eh. cbn [negb andb] in Eh. lia.
Qed.

(** ** Passes *)

(** When the pass reads the clock, the reading is not before an earlier one. *)
Definition clock_ok (ls : Z) (w w' : W) : Prop :=
  match (sys_epoll_wait (e_kern (env_ w)) (epoll_ w) (tick_us cfg_ / 1000)).1 with
  | inl _ => Z.max (now_us_ w) ls <= now_us_ w' < 2 ^ 64
  | inr _ => True
  end.

Inductive passes (ls : Z) (w : W) : Z -> W -> Prop :=
  | passes_nil : passes ls w ls w
  | passes_snoc fuel ls1 w1 go ls2 w2 :
      passes ls w ls1 w1 -> run_once router_ cfg_ fuel ls1 w1 = Some (go, ls2, w2) -> clock_ok ls1 w1 w2 ->
      passes ls w ls2 w2.

(** The invariant between passes. *)
Definition punctual (ls : Z) (w : W) : Prop :=
  0 <= ls /\ map_Forall (fun _ c => stamped ls (now_us_ w) c /\ now_us_ w - ls < tick_us cfg_) (conns_ w).

Lemma tick_pos : 0 < tick_us cfg_.
Proof. unfold tick_us, clamp. repeat case_match; lia. Qed.

Lemma sweep_now (w : W) : now_us_ (sweep cfg_ w) = now_us_ w.
Proof. apply (wsteps_now router_ cfg_), sweep_steps. Qed.

Lemma run_once_punctual fuel ls go ls' (w w' : W) :
  run_once router_ cfg_ fuel ls w = Some (go, ls', w') -> clock_ok ls w w' -> 0 <= now_us_ w -> punctual ls w ->
  punctual ls' w' /\ 0 <= now_us_ w'.
Proof.
  intros Hr%run_once_cases Hc Hnp [Hp Hw]. unfold clock_ok in Hc.
  destruct (sys_epoll_wait _ _ _) as [[evs|x] k]; [|by destruct Hr as [-> ->]].
  destruct Hr as (now & k1 & w1 & _ & Hs & Hn & Hw'). cbn [fst] in Hc.
  assert (now_us_ w' = now) as Hn'.
  { destruct Hw' as [[_ ->]|(_ & _ & _ & ->)]; [by rewrite sweep_now|done]. }
  rewrite Hn' in Hc |- *. split; [|lia].
  assert (map_Forall (fun _ => stamped ls now) (conns_ w1)) as Hw1.
  { set (w0 := with_now _ _ _) in Hs. apply (wsteps_stamped ls w0 w1); [..|exact Hs|]; subst w0; cbn [now_us_ with_now conns_ wkern with_env with_conns]; [lia..|].
    intros fd c Hl. destruct (Hw fd c Hl) as [[Ha Hst Hi Hh] _]. split; [lia|lia|done..]. }
  unfold punctual. rewrite Hn'. split; [destruct Hw' as [[-> _]|(_ & -> & _)]; lia|].
  destruct Hw' as [[-> ->]|(_ & -> & Ht & ->)].
  - rewrite <- Hn in Hw1. apply sweep_stamped in Hw1; [|lia]. rewrite Hn in Hw1. pose proof tick_pos.
    intros fd c Hl. split; [by apply (Hw1 fd c)|lia].
  - intros fd c Hl. split; [by apply (Hw1 fd c)|]. rewrite u64_diff in Ht by lia. lia.
Qed.

Lemma passes_punctual ls ls' (w w' : W) :
  passes ls w ls' w' -> 0 <= now_us_ w -> punctual ls w -> punctual ls' w' /\ 0 <= now_us_ w'.
Proof.
  induction 1 as [|fuel ls1 w1 go ls2 w2 _ IH Hr Hc]; [done|]. intros Hn Hp. destruct (IH Hn Hp) as [Hp1 Hn1].
  by eapply run_once_punctual.
Qed.

End Timeouts.



(** The tick is never below 10 ms, so a timeout of 1 ms is enforced only to within 10 ms more. *)
Example short_timeouts_overshoot :
  let cfg := mkConfig 1 1 0 ParserLimits_default in
  idle_timeout_us cfg = 1000 /\ tick_us cfg = 10000.
Proof. by vm_compute. Qed.
