(* ===== verification/Server.v ===== *)
(** * [src/server/server.cpp]: the life of a [Server]

    Binding the sockets, building the workers, starting and stopping them,
    and the destructors.  The calls run in a small monad [M] with the state of
    the kernel and C++ exceptions; [scoped] is a [UniqueFd] on the stack (or a
    member of an object under construction) that an exception destroys.
    Allocation is taken to succeed.  A worker object is the part of [Worker]
    its constructor fills in; [Worker_loop] is the state its thread starts
    from.  What the threads do is the subject of [Worker] and its theorems. *)

From S2P Require Import Prelude Headers RequestParser Numbers ParserFacts Response ByteBuffer Router Metrics Connection.
From S2P Require Import Worker.

Open Scope Z_scope.

(** ** System calls *)

Inductive sockopt : Set := SO_REUSEADDR | SO_REUSEPORT.

(** [None] and [false]: the call failed.  [sys_socket] creates the
    non-blocking IPv4 stream socket, [sys_epoll_ctl] adds a descriptor for
    [EPOLLIN], [sys_spawn] starts the thread of the worker with the given id;
    [sys_join] waits for it and yields what it left in the member [listener_]
    (the second argument is what was there when it started). *)
Class ServerKernel (K : Type) := {
  sys_socket : K -> option Z * K;
  sys_setsockopt : K -> Z -> sockopt -> bool * K;
  inet_pton : bytes -> option Z;
  sys_bind : K -> Z -> Z -> Z -> bool * K;
  sys_listen : K -> Z -> Z -> bool * K;
  sys_getsockname : K -> Z -> option Z * K;
  sys_getaffinity : K -> option (list Z) * K;
  hardware_concurrency : K -> Z * K;
  sys_ignore_sigpipe : K -> K;
  sys_epoll_create1 : K -> option Z * K;
  sys_eventfd : K -> option Z * K;
  sys_epoll_ctl : K -> Z -> Z -> bool * K;
  sys_spawn : K -> Z -> bool * K;
  sys_wake_write : K -> Z -> K;
  sys_join : K -> Z -> Z -> Z * K }.

(** ** Exceptions *)

Inductive exn : Set :=
  | system_error (what : bytes)
  | invalid_argument (what : bytes)
  | logic_error (what : bytes).

Definition M (K A : Type) : Type := K -> (A + exn) * K.

Section Monad.
Context {K : Type}.
Definition ret {A} (a : A) : M K A := fun k => (inl a, k).
Definition throw {A} (x : exn) : M K A := fun k => (inr x, k).
Definition bind {A A2} (m : M K A) (f : A -> M K A2) : M K A2 :=
  fun k => match m k with (inl a, k) => f a k | (inr x, k) => (inr x, k) end.
Definition call {A} (f : K -> A * K) : M K A := fun k => let '(a, k) := f k in (inl a, k).
(** [if (call < 0) throw_errno(what);]. *)
Definition check (f : K -> bool * K) (what : bytes) : M K unit :=
  fun k => let '(ok, k) := f k in (if ok then inl tt else inr (system_error what), k).
(** [UniqueFd fd(call); if (!fd.valid()) throw_errno(what);]. *)
Definition new_fd (f : K -> option Z * K) (what : bytes) : M K Z :=
  fun k => match f k with (Some fd, k) => (inl fd, k) | (None, k) => (inr (system_error what), k) end.
(** A [UniqueFd] that goes out of scope by an exception; on success it is moved from. *)
Definition scoped `{Closer K} {A} (fd : Z) (m : M K A) : M K A :=
  fun k => match m k with
  | (inl a, k) => (inl a, k)
  | (inr x, k) => (inr x, if fd_valid fd then sys_close k fd else k)
  end.
End Monad.

Declare Scope m_scope.
Delimit Scope m_scope with M.
Notation "'let*' x := m 'in' f" := (bind m (fun x => f))
  (at level 200, x pattern, m at level 100, f at level 200) : m_scope.
Notation "m ;; f" := (bind m (fun _ => f)) (at level 100, f at level 200, right associativity) : m_scope.
Open Scope m_scope.

(** ** Configuration and state *)

(** The members of [ServerConfig] that [start] reads; [sc_worker] are the others. *)
Record StartConfig := mkStart {
  sc_bind_address : bytes; sc_port : Z; sc_threads : Z; sc_pin_threads : bool; sc_backlog : Z;
  sc_worker : ServerConfig }.

Definition StartConfig_default : StartConfig := mkStart (B "0.0.0.0") 8080 0 false 4096 ServerConfig_default.

(** [wo_running]: [thread_.joinable()]. *)
Record WorkerObj := mkObj {
  wo_id : Z; wo_cpu : Z; wo_listener : Z; wo_epoll : Z; wo_wake : Z; wo_now_us : Z; wo_running : bool }.

Record Server := mkServer {
  cfg_ : StartConfig;
  port_ : Z;
  started_at_ : Z;
  workers_ : list WorkerObj }.

Definition Server_new (cfg : StartConfig) : Server := mkServer cfg 0 0 [].

Definition set_workers (ws : list WorkerObj) (s : Server) : Server := mkServer (cfg_ s) (port_ s) (started_at_ s) ws.

Section Server.
Context {K : Type} `{Kernel K} `{ServerKernel K}.

(** ** Sockets *)

Definition make_listener (address : bytes) (port backlog : Z) : M K Z :=
  let* fd := new_fd sys_socket (B "socket") in
  scoped fd (
    check (fun k => sys_setsockopt k fd SO_REUSEADDR) (B "SO_REUSEADDR") ;;
    check (fun k => sys_setsockopt k fd SO_REUSEPORT) (B "SO_REUSEPORT") ;;
    match inet_pton address with
    | None => throw (invalid_argument (B "invalid IPv4 bind address: " ++ address))
    | Some addr =>
        check (fun k => sys_bind k fd addr port) (B "bind") ;;
        check (fun k => sys_listen k fd backlog) (B "listen") ;;
        ret fd
    end).

Definition bound_port (fd : Z) : M K Z := new_fd (fun k => sys_getsockname k fd) (B "getsockname").

Definition CPU_SETSIZE : nat := 1024.

Definition allowed_cpus : M K (list Z) :=
  let* set := call sys_getaffinity in
  ret (match set with
       | Some s => List.filter (fun i => bool_decide (i ∈ s)) (Z.of_nat <$> seq 0 CPU_SETSIZE)
       | None => []
       end).

(** [cpus[i % cpus.size()]]. *)
Definition cpu_for (cpus : list Z) (i : Z) : Z :=
  match cpus with
  | [] => -1
  | _ => nth (Z.to_nat (i mod zlen cpus)) cpus (-1)
  end.

(** ** [Worker] *)

(** The members are initialized in the order of their declaration; an
    exception in the body destroys [wake_], [epoll_] and [listener_]. *)
Definition Worker_new (id listener cpu : Z) : M K WorkerObj :=
  scoped listener (
    let* now := call sys_mono_us in
    let* epoll := new_fd sys_epoll_create1 (B "epoll_create1") in
    scoped epoll (
      let* wake := new_fd sys_eventfd (B "eventfd") in
      scoped wake (
        check (fun k => sys_epoll_ctl k epoll listener) (B "epoll_ctl(listener)") ;;
        check (fun k => sys_epoll_ctl k epoll wake) (B "epoll_ctl(eventfd)") ;;
        ret (mkObj id cpu listener epoll wake now false)))).

(** The state [run] starts from. *)
Definition Worker_loop {T} `{InBuffer T} (o : WorkerObj) (k : K) : Worker T K :=
  mkWorker (wo_listener o) (wo_epoll o) (wo_wake o) ∅ (mkEnv WorkerMetrics_new DateCache_new k) (wo_now_us o) false 0.

Definition Worker_start (o : WorkerObj) : M K WorkerObj :=
  check (fun k => sys_spawn k (wo_id o)) (B "thread") ;;
  ret (mkObj (wo_id o) (wo_cpu o) (wo_listener o) (wo_epoll o) (wo_wake o) (wo_now_us o) true).

Definition request_stop (o : WorkerObj) (k : K) : K := sys_wake_write k (wo_wake o).

Definition Worker_join (o : WorkerObj) (k : K) : WorkerObj * K :=
  if wo_running o then
    let '(listener, k) := sys_join k (wo_id o) (wo_listener o) in
    (mkObj (wo_id o) (wo_cpu o) listener (wo_epoll o) (wo_wake o) (wo_now_us o) false, k)
  else (o, k).

(** [~Worker]: the members in the reverse order of their declaration. *)
Definition Worker_destroy (o : WorkerObj) (k : K) : K :=
  fold_left (fun k fd => if fd_valid fd then sys_close k fd else k) [wo_wake o; wo_epoll o; wo_listener o] k.

(** ** [Server] *)

(** [for (auto& w : workers_) w->start();]: on an exception the workers before it run. *)
Fixpoint start_all (done todo : list WorkerObj) (k : K) : option exn * list WorkerObj * K :=
  match todo with
  | [] => (None, done, k)
  | o :: todo' =>
      match Worker_start o k with
      | (inl o, k) => start_all (done ++ [o]) todo' k
      | (inr x, k) => (Some x, done ++ o :: todo', k)
      end
  end.

(** The loop from [i]; [m] workers are still to be built. *)
Fixpoint build_workers (m : nat) (i : Z) (cpus : list Z) (s : Server) (k : K) : option exn * Server * K :=
  match m with
  | O => (None, s, k)
  | S m' =>
      match (let* l := make_listener (sc_bind_address (cfg_ s)) (port_ s) (sc_backlog (cfg_ s)) in
             Worker_new i l (cpu_for cpus i)) k with
      | (inl o, k) => build_workers m' (i + 1) cpus (set_workers (workers_ s ++ [o]) s) k
      | (inr x, k) => (Some x, s, k)
      end
  end.

(** The number of workers. *)
Definition worker_target (cfg : StartConfig) : M K Z :=
  if sc_threads cfg =? 0 then let* hc := call hardware_concurrency in ret (Z.max 1 hc)
  else ret (sc_threads cfg).

(** What [start] does before the first worker is built: the
    number of workers, their CPUs, the first socket and its port. *)
Definition first_listener (cfg : StartConfig) : M K (Z * list Z * Z * Z) :=
  let* n := worker_target cfg in
  let* cpus := (if sc_pin_threads cfg then allowed_cpus else ret []) in
  let* first := make_listener (sc_bind_address cfg) (sc_port cfg) (sc_backlog cfg) in
  scoped first (let* port := bound_port first in ret (n, cpus, first, port)).

(** The result is the exception thrown, if any, and the server as it is left. *)
Definition start (s : Server) (k : K) : option exn * Server * K :=
  match workers_ s with
  | _ :: _ => (Some (logic_error (B "server already started")), s, k)
  | [] =>
      let cfg := cfg_ s in
      let k := sys_ignore_sigpipe k in
      match first_listener cfg k with
      | (inr x, k) => (Some x, s, k)
      | (inl (n, cpus, first, port), k) =>
          let '(t, k) := sys_mono_us k in
          let s := mkServer cfg port t [] in
          match Worker_new 0 first (cpu_for cpus 0) k with
          | (inr x, k) => (Some x, s, k)
          | (inl o, k) =>
              match build_workers (Z.to_nat (n - 1)) 1 cpus (set_workers [o] s) k with
              | (Some x, s, k) => (Some x, s, k)
              | (None, s, k) =>
                  let '(x, ws, k) := start_all [] (workers_ s) k in
                  (x, set_workers ws s, k)
              end
          end
      end
  end.

Definition stop (s : Server) (k : K) : K := fold_left (fun k o => request_stop o k) (workers_ s) k.

Fixpoint join_all (ws : list WorkerObj) (k : K) : list WorkerObj * K :=
  match ws with
  | [] => ([], k)
  | o :: ws' =>
      let '(o, k) := Worker_join o k in
      let '(ws', k) := join_all ws' k in
      (o :: ws', k)
  end.

Definition wait (s : Server) (k : K) : Server * K :=
  let '(ws, k) := join_all (workers_ s) k in (set_workers ws s, k).

Definition worker_count (s : Server) : Z := zlen (workers_ s).

(** [~Server]. *)
Definition Server_destroy (s : Server) (k : K) : K :=
  let k := stop s k in
  let '(s, k) := wait s k in
  fold_left (fun k o => Worker_destroy o k) (workers_ s) k.

End Server.
