(* ===== verification/ServerFacts.v ===== *)
(** * Starting and stopping a server

    A small program logic for [M]: [triple P m Q E] says that [m], started
    while owning the descriptors [P], ends owning those of [Q], or throws
    owning [E].  A descriptor is paired with the port it is bound to (0: none). *)

From S2P Require Import Prelude Headers RequestParser Numbers ParserFacts Response ByteBuffer Router Metrics Connection.
From S2P Require Import Worker Ownership Server.

Open Scope Z_scope.
Open Scope m_scope.

(** ** What the calls do to the sockets *)

Class SockView (K : Type) := local_port : K -> Z -> Z.

Definition same_sockets {K} `{FdView K} `{SockView K} (k k' : K) : Prop :=
  opened k' = opened k /\ forall fd, local_port k' fd = local_port k fd.

(** A new descriptor is not bound. *)
Definition opens_fd {K} `{FdView K} `{SockView K} (k : K) (r : option Z) (k' : K) : Prop :=
  match r with
  | Some fd => 0 <= fd /\ fd ∉ opened k /\ opened k' = opened k ∪ {[fd]} /\ local_port k' fd = 0
               /\ forall fd', fd' <> fd -> local_port k' fd' = local_port k fd'
  | None => same_sockets k k'
  end.

Class ServerLaws (K : Type) `{Kernel K} `{ServerKernel K} `{FdView K} `{SockView K} := {
  socket_law : forall k, opens_fd k (sys_socket k).1 (sys_socket k).2;
  epoll_create_law : forall k, opens_fd k (sys_epoll_create1 k).1 (sys_epoll_create1 k).2;
  eventfd_law : forall k, opens_fd k (sys_eventfd k).1 (sys_eventfd k).2;
  setsockopt_law : forall k fd o, same_sockets k (sys_setsockopt k fd o).2;
  bind_law : forall k fd a port ok k', sys_bind k fd a port = (ok, k') ->
    opened k' = opened k /\ (forall fd', fd' <> fd -> local_port k' fd' = local_port k fd')
    /\ (if ok then local_port k' fd <> 0 /\ (port <> 0 -> local_port k' fd = port) else local_port k' fd = local_port k fd);
  listen_law : forall k fd n, same_sockets k (sys_listen k fd n).2;
  getsockname_law : forall k fd r k', sys_getsockname k fd = (r, k') ->
    same_sockets k k' /\ match r with Some p => p = local_port k fd | None => True end;
  getaffinity_law : forall k, same_sockets k (sys_getaffinity k).2;
  concurrency_law : forall k, same_sockets k (hardware_concurrency k).2;
  sigpipe_law : forall k, same_sockets k (sys_ignore_sigpipe k);
  epoll_ctl_law : forall k e fd, same_sockets k (sys_epoll_ctl k e fd).2;
  spawn_law : forall k id, same_sockets k (sys_spawn k id).2;
  wake_write_law : forall k fd, same_sockets k (sys_wake_write k fd);
  mono_law : forall k, same_sockets k (sys_mono_us k).2;
  close_port : forall k fd fd', fd' <> fd -> local_port (sys_close k fd) fd' = local_port k fd';
  join_law : forall k id l l' k', sys_join k id l = (l', k') ->
    (l' = l /\ opened k' = opened k) \/ (l' = -1 /\ opened k' = opened k ∖ {[l]}) }.

Section Logic.
Context {K : Type} `{Kernel K} `{ServerKernel K} `{!FdView K} `{!SockView K} `{!FdLaws K} `{!ServerLaws K}.

#[local] Abbreviation fds := (list (Z * Z)).

Definition owns (R : gset Z) (P : fds) (k : K) : Prop :=
  holds R P.*1 k /\ Forall (fun x => local_port k x.1 = x.2) P.

Definition triple {A} (P : fds) (m : M K A) (Q : A -> fds -> Prop) (E : fds -> Prop) : Prop :=
  forall R l k, owns R (P ++ l) k ->
  match m k with
  | (inl a, k') => exists X, Q a X /\ owns R (X ++ l) k'
  | (inr _, k') => exists X, E X /\ owns R (X ++ l) k'
  end.

Lemma owns_perm R P P' k : P ≡ₚ P' -> owns R P k <-> owns R P' k.
Proof. intros Hp. unfold owns. by rewrite Hp. Qed.

Lemma owns_same R P k k' : same_sockets k k' -> owns R P k -> owns R P k'.
Proof.
  intros [Ho Hp] [Hh Hf]. split; [by eapply holds_same|]. eapply List.Forall_impl; [|exact Hf]. intros x. by rewrite Hp.
Qed.

Lemma owns_open R P k r k' fd : opens_fd k r k' -> r = Some fd -> owns R P k -> 0 <= fd /\ owns R ((fd, 0) :: P) k'.
Proof.
  intros Ho -> [Hh Hf]. destruct Ho as (Hp & Hno & Ho & Hz & Hother). split; [done|]. split.
  - cbn [fmap list_fmap fst]. by eapply holds_open.
  - apply Forall_cons_2; [done|]. pose proof (holds_fresh _ _ _ _ Hh Hno) as Hn.
    rewrite Forall_forall in Hf |- *. intros x Hx. rewrite Hother; [by apply Hf|].
    intros <-. apply Hn, list_elem_of_fmap. eauto.
Qed.

Lemma owns_close R fd p P k : owns R ((fd, p) :: P) k -> owns R P (sys_close k fd).
Proof.
  intros [Hh Hf]. cbn [fmap list_fmap fst] in Hh. pose proof (holds_NoDup _ _ _ Hh) as Hn. apply NoDup_cons in Hn as [Hn _].
  split; [by apply holds_close|]. apply Forall_cons in Hf as [_ Hf]. rewrite Forall_forall in Hf |- *.
  intros x Hx. rewrite close_port; [by apply Hf|]. intros <-. apply Hn, list_elem_of_fmap. eauto.
Qed.

(** ** Rules *)

Lemma triple_ret {A} P (a : A) (Q : A -> fds -> Prop) E : Q a P -> triple P (ret a) Q E.
Proof. intros Hq R l k Ho. cbn. eauto. Qed.

Lemma triple_throw {A} P x (Q : A -> fds -> Prop) (E : fds -> Prop) : E P -> triple P (throw x) Q E.
Proof. intros He R l k Ho. cbn. eauto. Qed.

Lemma triple_bind {A A2} P (m : M K A) (f : A -> M K A2) Q S E :
  triple P m Q E -> (forall a X, Q a X -> triple X (f a) S E) -> triple P (let* a := m in f a) S E.
Proof.
  intros Hm Hf R l k Ho. specialize (Hm R l k Ho). unfold bind. destruct (m k) as [[a|x] k']; [|done].
  destruct Hm as (X & Hq & Ho'). by apply (Hf a X Hq).
Qed.

Lemma triple_call {A} P (f : K -> A * K) E : (forall k, same_sockets k (f k).2) -> triple P (call f) (fun _ X => X = P) E.
Proof.
  intros Hf R l k Ho. unfold call. specialize (Hf k). destruct (f k) as [a k']. exists P. split; [done|]. by eapply owns_same.
Qed.

Lemma triple_check P (f : K -> bool * K) what (E : fds -> Prop) :
  (forall k, same_sockets k (f k).2) -> E P -> triple P (check f what) (fun _ X => X = P) E.
Proof.
  intros Hf He R l k Ho. unfold check. specialize (Hf k). destruct (f k) as [[] k']; exists P; (split; [done|]); by eapply owns_same.
Qed.

Lemma triple_new_fd P (f : K -> option Z * K) what (E : fds -> Prop) :
  (forall k, opens_fd k (f k).1 (f k).2) -> E P -> triple P (new_fd f what) (fun fd X => 0 <= fd /\ X = (fd, 0) :: P) E.
Proof.
  intros Hf He R l k Ho. unfold new_fd. specialize (Hf k). destruct (f k) as [[fd|] k']; cbn [fst snd] in Hf.
  - destruct (owns_open R _ k (Some fd) k' fd Hf eq_refl Ho) as [Hp Ho']. by exists ((fd, 0) :: P).
  - exists P. split; [done|]. by eapply owns_same.
Qed.

(** [scoped] closes its descriptor, wherever it is in the list. *)
Lemma triple_scoped {A} P fd (m : M K A) (Q : A -> fds -> Prop) (E : fds -> Prop) :
  0 <= fd -> triple P m Q (fun X => exists p Y, X ≡ₚ (fd, p) :: Y /\ E Y) -> triple P (scoped fd m) Q E.
Proof.
  intros Hp Hm R l k Ho. specialize (Hm R l k Ho). unfold scoped. destruct (m k) as [[a|x] k']; [done|].
  destruct Hm as (X & (p & Y & Hx & He) & Ho'). assert (fd_valid fd = true) as -> by (unfold fd_valid; lia).
  exists Y. split; [done|]. apply (owns_close R fd p). rewrite (owns_perm R _ (X ++ l)) by (by rewrite Hx). done.
Qed.

(** ** Sockets *)

Definition bound (port fd p : Z) : Prop := p <> 0 /\ (port <> 0 -> p = port).

Lemma bind_triple fd port addr what (E : fds -> Prop) :
  E [(fd, 0)] ->
  triple [(fd, 0)] (check (fun k => sys_bind k fd addr port) what) (fun _ X => exists p, X = [(fd, p)] /\ bound port fd p) E.
Proof.
  intros He R l k [Hh Hf]. unfold check. pose proof (fun ok k' => bind_law k fd addr port ok k') as Hb.
  destruct (sys_bind k fd addr port) as [ok k']. destruct (Hb ok k' eq_refl) as (Ho & Hother & Hok).
  cbn [fmap list_fmap fst app] in Hh, Hf. pose proof (holds_NoDup _ _ _ Hh) as [Hn _]%NoDup_cons.
  apply Forall_cons in Hf as [Hz Hf].
  assert (forall p, local_port k' fd = p -> owns R ([(fd, p)] ++ l) k') as Hgo.
  { intros p Hp. split; [by eapply holds_same|]. apply Forall_cons_2; [done|]. rewrite Forall_forall in Hf |- *.
    intros x Hx. rewrite Hother; [by apply Hf|]. intros <-. apply Hn, list_elem_of_fmap. eauto. }
  destruct ok; [|exists [(fd, 0)]; split; [done|]; apply Hgo; by rewrite Hok].
  eexists. split; [|by apply (Hgo _ eq_refl)]. eauto.
Qed.

Lemma make_listener_triple address port backlog :
  triple [] (make_listener address port backlog)
    (fun fd X => 0 <= fd /\ exists p, X = [(fd, p)] /\ bound port fd p) (fun X => X = []).
Proof.
  unfold make_listener. eapply triple_bind; [by apply triple_new_fd; [apply socket_law|]|]. intros fd X [Hp ->].
  apply triple_scoped; [done|].
  do 2 (eapply triple_bind; [apply triple_check; [intros; apply setsockopt_law|by eexists _, _]|]; intros _ X ->).
  destruct (inet_pton address) as [addr|]; [|apply triple_throw; by eexists _, _].
  eapply triple_bind; [apply bind_triple; by eexists _, _|]. intros _ X (p & -> & Hb).
  eapply triple_bind; [apply triple_check; [intros; apply listen_law|by eexists _, _]|]. intros _ X ->.
  apply triple_ret. eauto.
Qed.

Lemma bound_port_triple fd p (E : fds -> Prop) :
  E [(fd, p)] -> triple [(fd, p)] (bound_port fd) (fun q X => q = p /\ X = [(fd, p)]) E.
Proof.
  intros He R l k Ho. unfold bound_port, new_fd. pose proof (fun r k' => getsockname_law k fd r k') as Hg.
  destruct (sys_getsockname k fd) as [r k']. destruct (Hg r k' eq_refl) as [Hs Hr].
  pose proof Ho as [_ [Hf _]%Forall_cons]. cbn [fst snd] in Hf.
  destruct r as [q|]; exists [(fd, p)]; (split; [|by eapply owns_same]); [|done]. by rewrite Hr.
Qed.

(** ** Workers *)

Definition obj_fds (port : Z) (o : WorkerObj) : fds := [(wo_wake o, 0); (wo_epoll o, 0); (wo_listener o, port)].

Definition obj_ok (id cpu : Z) (o : WorkerObj) : Prop :=
  wo_id o = id /\ wo_cpu o = cpu /\ wo_running o = false /\ 0 <= wo_listener o /\ 0 <= wo_epoll o /\ 0 <= wo_wake o.

Lemma Worker_new_triple id l p cpu :
  0 <= l ->
  triple [(l, p)] (Worker_new id l cpu) (fun o X => X = obj_fds p o /\ obj_ok id cpu o) (fun X => X = []).
Proof.
  intros Hl. unfold Worker_new. apply triple_scoped; [done|].
  eapply triple_bind; [apply triple_call, mono_law|]. intros now X ->.
  eapply triple_bind; [by apply triple_new_fd; [apply epoll_create_law|eexists _, _]|]. intros ep X [He ->].
  apply triple_scoped; [done|].
  eapply triple_bind; [apply triple_new_fd; [apply eventfd_law|by do 2 eexists; split; [|eexists _, _]]|]. intros wk X [Hw ->].
  apply triple_scoped; [done|].
  do 2 (eapply triple_bind; [apply triple_check; [intros; apply epoll_ctl_law|
    do 2 eexists; split; [reflexivity|]; do 2 eexists; split; [reflexivity|]; by eexists _, _]|]; intros _ X ->).
  by apply triple_ret.
Qed.

(** ** Starting *)

Definition server_fds (s : Server) : fds := workers_ s ≫= obj_fds (port_ s).

(** The workers are numbered from 0 and spread over the CPUs. *)
Definition numbered (cpus : list Z) (ws : list WorkerObj) : Prop :=
  forall i o, ws !! i = Some o ->
  wo_id o = Z.of_nat i /\ wo_cpu o = cpu_for cpus (Z.of_nat i)
  /\ 0 <= wo_listener o /\ 0 <= wo_epoll o /\ 0 <= wo_wake o.

Lemma numbered_snoc cpus ws o :
  numbered cpus ws -> obj_ok (zlen ws) (cpu_for cpus (zlen ws)) o -> numbered cpus (ws ++ [o]).
Proof.
  intros Hn (Hi & Hc & _ & Hfd) i o' Ho. apply lookup_app_Some in Ho as [Ho|[Hl Ho]]; [by apply Hn|].
  apply list_lookup_singleton_Some in Ho as [Hz <-]. replace i with (length ws) by lia. unfold zlen in *. destruct Hfd as (? & ? & ?). by split_and!.
Qed.

Lemma build_worker_triple id cpu address port backlog :
  port <> 0 ->
  triple [] (let* l := make_listener address port backlog in Worker_new id l cpu)
    (fun o X => X = obj_fds port o /\ obj_ok id cpu o) (fun X => X = []).
Proof.
  intros Hp. eapply triple_bind; [apply make_listener_triple|]. intros l X (Hl & p & -> & _ & Hb).
  rewrite (Hb Hp). by apply Worker_new_triple.
Qed.

Lemma build_workers_spec m i cpus s k R :
  port_ s <> 0 -> owns R (server_fds s) k -> numbered cpus (workers_ s) -> i = zlen (workers_ s) ->
  Forall (fun o => wo_running o = false) (workers_ s) ->
  let '(x, s', k') := build_workers m i cpus s k in
  owns R (server_fds s') k' /\ cfg_ s' = cfg_ s /\ port_ s' = port_ s /\ numbered cpus (workers_ s')
  /\ Forall (fun o => wo_running o = false) (workers_ s')
  /\ (x = None -> length (workers_ s') = (length (workers_ s) + m)%nat).
Proof.
  intros Hp. revert i s k Hp. induction m as [|m IH]; intros i s k Hp Ho Hn Hi Hr; cbn [build_workers].
  { split_and!; try done. }
  pose proof (build_worker_triple i (cpu_for cpus i) (sc_bind_address (cfg_ s)) (port_ s) (sc_backlog (cfg_ s)) Hp R (server_fds s) k Ho) as Hb.
  destruct (bind _ _ k) as [[o|x] k1]; [|destruct Hb as (X & -> & Ho'); split; [exact Ho'|]; by split_and!].
  destruct Hb as (X & [-> Hok] & Ho'). specialize (IH (i + 1) (set_workers (workers_ s ++ [o]) s) k1 Hp).
  destruct (build_workers m (i + 1) cpus _ k1) as [[x s'] k']. cbn [cfg_ port_ workers_ set_workers] in IH.
  destruct IH as (H1 & H2 & H3 & H4 & H5 & H6).
  - rewrite (owns_perm R _ (obj_fds (port_ s) o ++ server_fds s)); [done|].
    unfold server_fds. cbn [workers_ port_ set_workers]. rewrite bind_app, bind_singleton. apply Permutation_app_comm.
  - apply numbered_snoc; [done|]. by rewrite <- Hi.
  - rewrite zlen_app, Hi. done.
  - apply Forall_app. split; [done|]. apply Forall_cons_2; [apply Hok|constructor].
  - split_and!; try done. intros Hx. rewrite (H6 Hx), length_app. cbn [length]. lia.
Qed.

(** The same objects, with their threads running or not. *)
Definition same_obj (o o' : WorkerObj) : Prop :=
  wo_id o' = wo_id o /\ wo_cpu o' = wo_cpu o /\ wo_listener o' = wo_listener o /\ wo_epoll o' = wo_epoll o /\ wo_wake o' = wo_wake o.

#[local] Instance same_obj_preorder : PreOrder same_obj.
Proof. split; [intros o; by split_and!|]. intros a b c. unfold same_obj. intuition congruence. Qed.

Lemma start_all_spec don todo k :
  let '(x, ws, k') := start_all don todo k in
  same_sockets k k' /\ Forall2 same_obj (don ++ todo) ws
  /\ (x = None -> Forall (fun o => wo_running o = true) don -> Forall (fun o => wo_running o = true) ws).
Proof.
  revert don k. induction todo as [|o todo IH]; intros don k; cbn [start_all].
  { rewrite app_nil_r. by split_and!. }
  unfold Worker_start, check, bind. pose proof (spawn_law k (wo_id o)) as Hs. destruct (sys_spawn k (wo_id o)) as [[] k1]; cbn [snd] in Hs.
  2:{ by split_and!. }
  cbn [ret]. match goal with |- context [start_all (don ++ [?x]) todo k1] => set (o1 := x) end.
  specialize (IH (don ++ [o1]) k1). destruct (start_all (don ++ [o1]) todo k1) as [[x ws] k']. destruct IH as (Hk & Hw & Hr).
  split_and!.
  - destruct Hs as [Ha Hb], Hk as [Hc Hd]. split; [congruence|]. intros fd. by rewrite Hd, Hb.
  - rewrite <- app_assoc in Hw. etrans; [|exact Hw]. apply Forall2_app; [done|]. by apply Forall2_cons_2.
  - intros Hx Hd. apply Hr; [done|]. apply Forall_app. split; [done|]. by repeat constructor.
Qed.

Lemma same_obj_fds port ws ws' : Forall2 same_obj ws ws' -> ws' ≫= obj_fds port = ws ≫= obj_fds port.
Proof.
  induction 1 as [|o o' ws ws' (_ & _ & Hl & He & Hw) _ IH]; [done|]. rewrite !bind_cons, IH. unfold obj_fds. by rewrite Hl, He, Hw.
Qed.

Lemma same_obj_numbered cpus ws ws' : Forall2 same_obj ws ws' -> numbered cpus ws -> numbered cpus ws'.
Proof.
  intros Hs Hn i o' Ho'. destruct (Forall2_lookup_r _ _ _ _ _ Hs Ho') as (o & Ho & Hi & Hc & Hl & He & Hw).
  rewrite Hi, Hc, Hl, He, Hw. by apply Hn.
Qed.

Lemma first_listener_triple cfg :
  triple [] (first_listener cfg)
    (fun '(n, cpus, first, port) X => X = [(first, port)] /\ 0 <= first /\ port <> 0
       /\ (sc_port cfg <> 0 -> port = sc_port cfg) /\ (sc_pin_threads cfg = false -> cpus = [])) (fun X => X = []).
Proof.
  eapply (triple_bind _ _ _ (fun _ X => X = [])).
  { unfold worker_target. destruct (sc_threads cfg =? 0); [|by apply triple_ret].
    eapply triple_bind; [apply triple_call, concurrency_law|]. intros hc X ->. by apply triple_ret. }
  intros n X ->. eapply (triple_bind _ _ _ (fun cpus X => X = [] /\ (sc_pin_threads cfg = false -> cpus = []))).
  { destruct (sc_pin_threads cfg); [|by apply triple_ret].
    eapply triple_bind; [apply triple_call, getaffinity_law|]. intros set X ->. by apply triple_ret. }
  intros cpus X [-> Hc]. eapply triple_bind; [apply make_listener_triple|]. intros first X (Hf & p & -> & Hp & Hpp).
  apply triple_scoped; [done|]. eapply triple_bind; [apply bound_port_triple; by eexists _, _|].
  intros q X [-> ->]. by apply triple_ret.
Qed.

Lemma bind_inl {A A2} (m : M K A) (f : A -> M K A2) k r k' :
  (let* a := m in f a) k = (inl r, k') -> exists a k1, m k = (inl a, k1) /\ f a k1 = (inl r, k').
Proof. unfold bind. destruct (m k) as [[a|x] k1]; [eauto|done]. Qed.

(** The number of workers it found to be built. *)
Lemma first_listener_n cfg k n cpus first port k' :
  0 <= sc_threads cfg -> first_listener cfg k = (inl (n, cpus, first, port), k') ->
  (worker_target cfg k).1 = inl n /\ 1 <= n.
Proof.
  intros Hp (n0 & k1 & Et & (cp & k2 & _ & (f & k3 & _ & Hs)%bind_inl)%bind_inl)%bind_inl.
  revert Hs. unfold scoped. destruct (bind _ _ k3) as [[r|x] k4] eqn:Eb; [|done]. intros [= -> _].
  apply bind_inl in Eb as (q & k5 & _ & [= <- _ _ _ _]). rewrite Et. split; [done|].
  revert Et. unfold worker_target. destruct (Z.eqb_spec (sc_threads cfg) 0); [|intros [= <- _]; lia].
  intros (hc & k6 & _ & [= <- _])%bind_inl. lia.
Qed.

(** The first worker. *)
Lemma first_worker_spec cfg first port cpus t k R :
  0 <= first -> owns R [(first, port)] k ->
  match Worker_new 0 first (cpu_for cpus 0) k with
  | (inl o, k') => owns R (server_fds (mkServer cfg port t [o])) k' /\ numbered cpus [o] /\ wo_running o = false
  | (inr _, k') => owns R [] k'
  end.
Proof.
  intros Hf Ho. pose proof (Worker_new_triple 0 first port (cpu_for cpus 0) Hf R [] k Ho) as Hw.
  destruct (Worker_new _ _ _ k) as [[o|x] k']; [|by destruct Hw as (X & -> & Hw)].
  destruct Hw as (X & [-> Hok] & Hw). split; [done|]. split; [|apply Hok].
  by apply (numbered_snoc cpus [] o).
Qed.

(** How the server is left by [start]. *)
Record started (R : gset Z) (s : Server) (k : K) (x : option exn) (s' : Server) (k' : K) : Prop := {
  sd_fds : owns R (server_fds s') k';
  sd_cfg : cfg_ s' = cfg_ s;
  sd_workers : exists cpus, numbered cpus (workers_ s') /\ (sc_pin_threads (cfg_ s) = false -> cpus = []);
  sd_count : x = None -> (worker_target (cfg_ s) (sys_ignore_sigpipe k)).1 = inl (zlen (workers_ s'));
  sd_running : x = None -> Forall (fun o => wo_running o = true) (workers_ s');
  sd_port : x = None -> port_ s' <> 0 /\ (sc_port (cfg_ s) <> 0 -> port_ s' = sc_port (cfg_ s)) }.

Lemma failed_before R s k x s' k' : workers_ s' = [] -> cfg_ s' = cfg_ s -> owns R [] k' -> started R s k (Some x) s' k'.
Proof.
  intros Hw Hc Ho. split; try done.
  - unfold server_fds. by rewrite Hw.
  - exists []. rewrite Hw. split; [|done]. intros i o. by rewrite lookup_nil.
Qed.

Lemma start_started s k R :
  workers_ s = [] -> 0 <= sc_threads (cfg_ s) -> opened k = R ->
  let '(x, s', k') := start s k in started R s k x s' k'.
Proof.
  intros Hw Ht Ho. unfold start. rewrite Hw. cbn zeta.
  assert (owns R [] (sys_ignore_sigpipe k)) as Hk0.
  { eapply owns_same; [apply sigpipe_law|]. split; [|constructor]. split; [constructor|]. rewrite Ho. split; set_solver. }
  pose proof (first_listener_triple (cfg_ s) R [] _ Hk0) as Hf.
  pose proof (fun n cpus f p k' => first_listener_n (cfg_ s) (sys_ignore_sigpipe k) n cpus f p k' Ht) as Hn.
  destruct (first_listener (cfg_ s) (sys_ignore_sigpipe k)) as [[[[[n cpus] first] port]|x] k1];
    [|destruct Hf as (X & -> & Hf); by apply failed_before].
  destruct (Hn _ _ _ _ _ eq_refl) as [Htgt H1n]. destruct Hf as (X & (-> & Hfirst & Hp0 & Hport & Hcpus) & Hf).
  pose proof (mono_law k1) as Hm. destruct (sys_mono_us k1) as [t k2]. cbn [snd] in Hm. eapply owns_same in Hf; [|exact Hm].
  pose proof (first_worker_spec (cfg_ s) first port cpus t k2 R Hfirst Hf) as Ho1.
  destruct (Worker_new 0 first _ k2) as [[o|x] k3]; [|by apply failed_before]. destruct Ho1 as (Ho1 & Hnum & Hrun).
  pose proof (build_workers_spec (Z.to_nat (n - 1)) 1 cpus (mkServer (cfg_ s) port t [o]) k3 R Hp0 Ho1 Hnum eq_refl
    ltac:(by apply Forall_cons_2)) as Hb. cbn [set_workers cfg_ port_ started_at_].
  destruct (build_workers _ _ _ _ k3) as [[[x|] s'] k4]; destruct Hb as (Hb1 & Hb2 & Hb3 & Hb4 & _ & Hb6);
    [split; try done; eauto|].
  pose proof (start_all_spec [] (workers_ s') k4) as Hs. destruct (start_all [] (workers_ s') k4) as [[x ws] k5].
  destruct Hs as (Hs1 & Hs2 & Hs3). cbn [app] in Hs2. split; cbn [cfg_ port_ workers_ set_workers]; try done.
  - eapply owns_same; [exact Hs1|]. unfold server_fds in *. cbn [workers_ port_ set_workers]. by rewrite (same_obj_fds _ _ _ Hs2).
  - exists cpus. split; [by eapply same_obj_numbered|done].
  - intros _. rewrite Htgt. f_equal. unfold zlen. rewrite <- (Forall2_length _ _ _ Hs2), (Hb6 eq_refl). cbn [length workers_]. lia.
  - intros Hx. by apply Hs3.
  - intros _. by rewrite Hb3.
Qed.

(** ** Stopping *)

Definition obj_owned (o : WorkerObj) : list Z := owned_fd (wo_wake o) ++ owned_fd (wo_epoll o) ++ owned_fd (wo_listener o).

Lemma server_fds_owned cpus s R k :
  numbered cpus (workers_ s) -> owns R (server_fds s) k -> holds R (workers_ s ≫= obj_owned) k.
Proof.
  intros Hn [Hh _]. replace (workers_ s ≫= obj_owned) with (server_fds s).*1; [done|].
  unfold server_fds. assert (Forall (fun o => 0 <= wo_listener o /\ 0 <= wo_epoll o /\ 0 <= wo_wake o) (workers_ s)) as Hf.
  { apply Forall_lookup. intros i o Ho. apply (Hn i o Ho). }
  clear Hn. induction Hf as [|o ws (Hl & He & Hw) _ IH]; [done|]. rewrite !bind_cons, fmap_app, IH. f_equal.
  unfold obj_fds, obj_owned, owned_fd, fd_valid. cbn [fmap list_fmap fst].
  by repeat match goal with |- context [?a >=? 0] => destruct (Z.geb_spec a 0); [|lia] end.
Qed.

Lemma Worker_destroy_holds o R l k : holds R (obj_owned o ++ l) k -> holds R l (Worker_destroy o k).
Proof.
  unfold obj_owned, Worker_destroy. rewrite <- !app_assoc. intros Hh. cbn [fold_left]. by do 3 apply holds_close_owned.
Qed.

Lemma destroy_all_holds ws R l k :
  holds R ((ws ≫= obj_owned) ++ l) k -> holds R l (fold_left (fun k o => Worker_destroy o k) ws k).
Proof.
  revert k. induction ws as [|o ws IH]; intros k Hh; [done|]. rewrite bind_cons, <- app_assoc in Hh.
  apply IH. by apply Worker_destroy_holds.
Qed.

Lemma Worker_join_holds o R l k :
  (wo_running o = true -> 0 <= wo_listener o) -> holds R (obj_owned o ++ l) k ->
  holds R (obj_owned (Worker_join o k).1 ++ l) (Worker_join o k).2.
Proof.
  intros Hv Hh. unfold Worker_join. destruct (wo_running o); [|done]. specialize (Hv eq_refl).
  pose proof (fun l' k' => join_law k (wo_id o) (wo_listener o) l' k') as Hj.
  destruct (sys_join _ _ _) as [l' k']. destruct (Hj l' k' eq_refl) as [[-> Ho]|[-> Ho]]; [by eapply holds_same|].
  cbn [fst snd]. eapply holds_removed; [exact Ho|]. revert Hh. apply holds_perm; [done| |done].
  unfold obj_owned. cbn [wo_wake wo_epoll wo_listener]. change (owned_fd (-1)) with (@nil Z).
  assert (owned_fd (wo_listener o) = [wo_listener o]) as ->.
  { unfold owned_fd, fd_valid. by destruct (Z.geb_spec (wo_listener o) 0); [|lia]. }
  solve_Permutation.
Qed.

Lemma join_all_holds ws R l k :
  Forall (fun o => wo_running o = true -> 0 <= wo_listener o) ws -> holds R ((ws ≫= obj_owned) ++ l) k ->
  holds R (((join_all ws k).1 ≫= obj_owned) ++ l) (join_all ws k).2.
Proof.
  intros Hf. revert k l. induction Hf as [|o ws Ho _ IH]; intros k l Hh; [done|]. cbn [join_all].
  rewrite bind_cons, <- app_assoc in Hh. apply Worker_join_holds in Hh; [|done]. destruct (Worker_join o k) as [o' k1]. cbn [fst snd] in Hh.
  rewrite Permutation_app_swap_app in Hh. apply IH in Hh. destruct (join_all ws k1) as [ws' k2]. cbn [fst snd] in *.
  rewrite bind_cons, <- app_assoc, Permutation_app_swap_app. done.
Qed.

Lemma stop_same ws k : same_sockets k (fold_left (fun k o => request_stop o k) ws k).
Proof.
  revert k. induction ws as [|o ws IH]; intros k; [by split|]. cbn [fold_left]. destruct (wake_write_law k (wo_wake o)) as [Ha Hb].
  destruct (IH (request_stop o k)) as [Hc Hd]. split; [by rewrite Hc|]. intros fd. by rewrite Hd, <- Hb.
Qed.

(** A worker that runs has its listener. *)
Definition joinable (ws : list WorkerObj) : Prop := Forall (fun o => wo_running o = true -> 0 <= wo_listener o) ws.

Lemma numbered_joinable cpus ws : numbered cpus ws -> joinable ws.
Proof. intros Hn. apply Forall_lookup. intros i o Hl _. apply (Hn i o Hl). Qed.

Lemma join_all_joinable ws k : joinable (join_all ws k).1.
Proof.
  revert k. induction ws as [|o ws IH]; intros k; cbn [join_all]; [constructor|].
  assert (wo_running (Worker_join o k).1 = false) as Hr.
  { unfold Worker_join. destruct (wo_running o) eqn:E; [by destruct (sys_join _ _ _)|done]. }
  destruct (Worker_join o k) as [o' k1]. specialize (IH k1). destruct (join_all ws k1) as [ws' k2]. cbn [fst] in *.
  apply Forall_cons_2; [by rewrite Hr|done].
Qed.

Lemma wait_holds s R l k :
  joinable (workers_ s) -> holds R ((workers_ s ≫= obj_owned) ++ l) k ->
  joinable (workers_ (wait s k).1) /\ holds R ((workers_ (wait s k).1 ≫= obj_owned) ++ l) (wait s k).2.
Proof.
  intros Hj Hh. unfold wait. pose proof (join_all_joinable (workers_ s) k). apply join_all_holds in Hh; [|done].
  by destruct (join_all (workers_ s) k).
Qed.

Lemma stop_holds s R l k : holds R l k -> holds R l (stop s k).
Proof. apply holds_same, (stop_same (workers_ s) k). Qed.

Lemma Server_destroy_holds s R l k :
  joinable (workers_ s) -> holds R ((workers_ s ≫= obj_owned) ++ l) k -> holds R l (Server_destroy s k).
Proof.
  intros Hj Hh. unfold Server_destroy. apply (stop_holds s) in Hh. apply wait_holds in Hh as [_ Hh]; [|done].
  destruct (wait s (stop s k)) as [s' k']. cbn [fst snd] in Hh. by apply destroy_all_holds.
Qed.

End Logic.
