(* ===== verification/Thread.v ===== *)
(** * [Server::Worker::run]: the thread of a worker

    The thread names itself, pins itself to its CPU and enters the loop of
    [Worker].  [worker_thread_fds] is what the code that joins the thread
    relies on ([ServerFacts.join_law]). *)

From S2P Require Import Prelude Headers RequestParser Numbers ParserFacts Response ByteBuffer Router StaticFiles Metrics Connection.
From S2P Require Import ConnectionFacts Worker WorkerFacts WorkerLoop Ownership WorkerSteps WorkerFds Server Accounting.
From stdpp Require Import relations.

Open Scope Z_scope.

(** [sys_setaffinity] restricts the calling thread to one CPU and yields the
    error number; [sys_warn] writes to [stderr]. *)
Class ThreadKernel (K : Type) := {
  sys_setname : K -> bytes -> K;
  sys_setaffinity : K -> Z -> Z * K;
  sys_warn : K -> bytes -> K;
  strerror : Z -> bytes }.

Class ThreadLaws (K : Type) `{ThreadKernel K} `{FdView K} := {
  setname_opened : forall k s, opened (sys_setname k s) = opened k;
  setaffinity_opened : forall k cpu, opened (sys_setaffinity k cpu).2 = opened k;
  warn_opened : forall k s, opened (sys_warn k s) = opened k }.

(** [snprintf(name, sizeof name, "httpd-w%u", id_)] with [char name[16]]. *)
Definition thread_name (id : Z) : bytes := take 15 (B "httpd-w" ++ to_string id).

Section Run.
Context {T : Type} `{InBuffer T}.
Context {K : Type} `{Kernel K} `{EventKernel K} `{ThreadKernel K}.
Context (router_ : Router K) (cfg_ : ServerConfig).

Definition pin_thread (o : WorkerObj) (k : K) : K :=
  if wo_cpu o >=? 0 then
    let '(rc, k) := sys_setaffinity k (wo_cpu o) in
    if negb (rc =? 0) then
      sys_warn k (B "httpd: worker " ++ to_string (wo_id o) ++ B ": cannot pin to cpu " ++ to_string (wo_cpu o)
                  ++ B ": " ++ strerror rc ++ [LF])
    else k
  else k.

(** What [run] does before its loop; the time is [last_sweep]. *)
Definition run_prologue (o : WorkerObj) (k : K) : Z * K :=
  let k := sys_setname k (thread_name (wo_id o)) in
  let k := pin_thread o k in
  sys_mono_us k.

(** [run] for at most [n] passes of its loop. *)
Definition Worker_run (n fuel : nat) (o : WorkerObj) (k : K) : option (Worker T K + Worker T K) :=
  let '(last_sweep, k) := run_prologue o k in
  run_loop router_ cfg_ n fuel last_sweep (Worker_loop o k).

End Run.

Lemma pin_thread_opened {K : Type} `{ThreadKernel K} `{!FdView K} `{!ThreadLaws K} o (k : K) : opened (pin_thread o k) = opened k.
Proof.
  unfold pin_thread. destruct (_ >=? 0); [|done]. pose proof (setaffinity_opened k (wo_cpu o)) as Ho.
  destruct (sys_setaffinity k (wo_cpu o)) as [rc k1]. cbn [snd] in Ho. destruct (negb _); [by rewrite warn_opened|done].
Qed.

Lemma run_prologue_opened {K : Type} `{Kernel K} `{ThreadKernel K} `{!FdView K} `{!FdLaws K} `{!ThreadLaws K} o (k : K) :
  opened (run_prologue o k).2 = opened k.
Proof. unfold run_prologue. by rewrite mono_opened, pin_thread_opened, setname_opened. Qed.

(** The thread of a worker: its loop closes the listener or leaves it as it was. *)
Section Thread.
Context {T : Type} `{InBuffer T}.
Context {K : Type} `{Kernel K} `{!KernelLaws K} `{EventKernel K} `{!FdView K} `{!FdLaws K} `{!EventFdLaws K}.
Context (router_ : Router K) (cfg_ : ServerConfig).

Lemma lstep_listener (w w' : Worker T K) :
  lstep router_ cfg_ w w' -> listener_ w' = listener_ w \/ listener_ w' = -1.
Proof.
  assert (forall fd (v : Worker T K), listener_ (close_connection fd v) = listener_ v) as Hcl
    by (intros fd v; unfold close_connection; by destruct (conns_ v !! fd)).
  intros [? []|]; auto.
  - destruct ok; [auto|]. rewrite Hcl. auto.
  - unfold sweep_one. destruct (judge _ _ _ c); auto.
  - unfold begin_drain. destruct (draining_ w), (fd_valid (listener_ w)); auto.
Qed.

Lemma lsteps_listener (w w' : Worker T K) :
  rtc (lstep router_ cfg_) w w' -> listener_ w' = listener_ w \/ listener_ w' = -1.
Proof. induction 1 as [|w w1 w' Hs _ [->| ->]]; [auto| |auto]. by apply lstep_listener in Hs. Qed.

Lemma Worker_loop_books o R k :
  0 <= wo_listener o -> holds R [wo_listener o] k -> books R (Worker_loop (T := T) o k).
Proof.
  intros Hp Hh. split; [|apply map_Forall_empty|done].
  unfold worker_fds, table_fds, Worker_loop. cbn [listener_ conns_ env_ e_kern]. rewrite map_to_list_empty. cbn.
  unfold owned_fd, fd_valid. by destruct (Z.geb_spec (wo_listener o) 0); [|lia].
Qed.
End Thread.

(** The thread of a worker, from its first line to the
    end of its loop, gives back every descriptor it took:
    what is open then is what was open when it started, except that the
    listener is closed if the worker was drained (and its member says so).
    This is what [join_law] promises to the code that joins the thread. *)
Theorem worker_thread_fds {T : Type} `{InBuffer T} {K : Type} `{Kernel K} `{!KernelLaws K} `{EventKernel K} `{!FdView K}
  `{!FdLaws K} `{!EventFdLaws K} `{ThreadKernel K} `{!ThreadLaws K} (router : Router K) (cfg : ServerConfig) (o : WorkerObj) (k : K)
  (n fuel : nat) (w' : Worker T K) :
  router_ok router -> router_fds router -> 0 <= wo_listener o -> wo_listener o ∈ opened k ->
  Worker_run router cfg n fuel o k = Some (inr w') ->
  (listener_ w' = wo_listener o /\ opened (e_kern (env_ w')) = opened k)
  \/ (listener_ w' = -1 /\ opened (e_kern (env_ w')) = opened k ∖ {[wo_listener o]}).
Proof.
  intros Hr Hf Hp Hin Hrun. unfold Worker_run in Hrun. pose proof (run_prologue_opened o k) as Ho1.
  destruct (run_prologue o k) as [ls k1]. cbn [snd] in Ho1. rewrite <- Ho1 in Hin |- *.
  clear Ho1 k. rename k1 into k. set (l := wo_listener o) in *.
  assert (holds (opened k ∖ {[l]}) [l] k) as Hh.
  { split; [apply NoDup_singleton|]. split; [set_solver|]. cbn. rewrite union_empty_r_L, difference_union_L. set_solver. }
  apply (Worker_loop_books (T := T) o) in Hh; [|done].
  pose proof (run_loop_steps router cfg n fuel ls _ _ Hrun) as Hs. cbn in Hs.
  apply (lsteps_books router cfg Hr Hf _ _ _ Hs) in Hh. apply lsteps_listener in Hs. apply run_loop_ended in Hrun.
  destruct Hh as [(_ & _ & Ho) _ _]. unfold worker_fds, table_fds in Ho. rewrite Hrun, map_to_list_empty, app_nil_r in Ho.
  rewrite Ho. change (listener_ (Worker_loop o k)) with l in Hs. destruct Hs as [-> | ->]; [left|right]; (split; [done|]).
  - unfold owned_fd, fd_valid. destruct (Z.geb_spec l 0); [|lia]. cbn. rewrite union_empty_r_L, difference_union_L. set_solver.
  - cbn. set_solver.
Qed.

#[export] Instance desk_thread : ThreadKernel Desk := {
  sys_setname k _ := k; sys_setaffinity k _ := (22, k); sys_warn k _ := k; strerror _ := B "Invalid argument" }.

#[export] Instance desk_thread_laws : ThreadLaws Desk.
Proof. by split. Qed.

Lemma worker_thread_fds_witness :
  match Worker_run (T := bytes) desk_router desk_config 5 60 (mkObj 0 3 4 5 6 0 true) (e_kern (env_ desk_worker)) with
  | Some (inr w') =>
      (listener_ w' = 4 /\ opened (e_kern (env_ w')) = {[3; 4; 5; 6]})
      \/ (listener_ w' = -1 /\ opened (e_kern (env_ w')) = {[3; 4; 5; 6]} ∖ {[4]})
  | _ => False
  end.
Proof.
  destruct (Worker_run desk_router desk_config 5 60 _ _) as [[w'|w']|] eqn:E.
  2: refine (worker_thread_fds desk_router desk_config _ _ 5 60 w' desk_router_ok desk_router_fds _ _ E);
    [discriminate|vm_compute; reflexivity].
  all: apply (f_equal (fun r => match r with Some (inr _) => true | _ => false end)) in E; vm_compute in E; discriminate E.
Defined.

