(* ===== verification/Lifecycle.v ===== *)
(** * The program from start to exit

    [main], and the theorems about the life of a server, with a concrete host
    on which the creation of [epoll] instances can fail. *)

From S2P Require Import Prelude Headers RequestParser Numbers ParserFacts Response ByteBuffer Router StaticFiles Metrics Connection.
From S2P Require Import ConnectionFacts Worker WorkerFacts WorkerLoop Ownership WorkerSteps WorkerFds Server ServerFacts Main Accounting.

Open Scope Z_scope.

(** ** [main] *)

(** [sys_open_dir] opens the static root; [exn_text] is [what()]. *)
Class ProgramKernel (K : Type) := {
  sys_open_dir : K -> bytes -> option Z * K;
  sys_block_signals : K -> K;
  sys_sigwait : K -> Z * K;
  sys_print : K -> bytes -> K;
  sys_eprint : K -> bytes -> K;
  strsignal : Z -> bytes;
  exn_text : exn -> bytes }.

(** The configuration the options make. *)
Definition config_of (o : Options) : StartConfig :=
  mkStart (o_bind o) (o_port o) (o_threads o) (o_pin o) 4096
    (mkConfig (o_idle_timeout o) (o_header_timeout o) 5000
       (let l := ParserLimits_default in
        mkLimits (max_request_line l) (max_header_bytes l) (max_header_count l) (o_max_body o) (max_chunk_line l))).

Section Main.
Context {K : Type} `{Kernel K} `{ServerKernel K} `{ProgramKernel K}.

Definition listening_line (o : Options) (s : Server) : bytes :=
  B "httpd listening on " ++ c_str (o_bind o) ++ B ":" ++ to_string (port_ s) ++ B " with " ++ to_string (worker_count s)
  ++ B " worker(s)" ++ (if o_pin o then B " (pinned)" else []) ++ [LF].

(** [return status]: [server] is destroyed, its routes with the static root last. *)
Definition leave (status : Z) (files : Z) (s : Server) (k : K) : Z * K :=
  let k := Server_destroy s k in
  (status, if fd_valid files then sys_close k files else k).

(** [StaticFiles::StaticFiles(root)]; an invalid [root_] is [-1]. *)
Definition StaticFiles_new (root : bytes) (k : K) : Z * K :=
  let '(r, k) := sys_open_dir k (c_str root) in (match r with Some fd => fd | None => -1 end, k).

Definition print_all (out : list (channel * bytes)) (k : K) : K :=
  fold_left (fun k (m : channel * bytes) => match m.1 with Stdout => sys_print k m.2 | Stderr => sys_eprint k m.2 end) out k.

Definition main (argv0 : bytes) (argv : list bytes) (k : K) : Z * K :=
  match options_loop argv0 argv Options_default with
  | Exit e => (e_status e, print_all (e_printed e) k)
  | Start o =>
      let k := sys_block_signals k in
      let s := Server_new (config_of o) in
      let '(files, k) := StaticFiles_new (o_root o) k in
      match start s k with
      | (Some x, s, k) => leave 1 files s (sys_eprint k (B "httpd: failed to start: " ++ c_str (exn_text x) ++ [LF]))
      | (None, s, k) =>
          let k := sys_print k (listening_line o s) in
          let '(sig, k) := sys_sigwait k in
          let k := sys_print k (B "httpd: received " ++ c_str (strsignal sig) ++ B ", draining connections..." ++ [LF]) in
          let k := stop s k in
          let '(s, k) := wait s k in
          leave 0 files s (sys_print k (B "httpd: stopped" ++ [LF]))
      end
  end.
End Main.

Class ProgramLaws (K : Type) `{ProgramKernel K} `{FdView K} `{SockView K} := {
  open_dir_law : forall k p, opens_fd k (sys_open_dir k p).1 (sys_open_dir k p).2;
  block_signals_law : forall k, same_sockets k (sys_block_signals k);
  sigwait_law : forall k, same_sockets k (sys_sigwait k).2;
  print_law : forall k s, same_sockets k (sys_print k s);
  eprint_law : forall k s, same_sockets k (sys_eprint k s) }.

(** ** Options and threads *)

Lemma option_step_threads argv0 arg next o o' b : 0 <= o_threads o -> option_step argv0 arg next o = inl (o', b) -> 0 <= o_threads o'.
Proof.
  intros Hp. unfold option_step, number_option.
  repeat (case_match; try done); intros [= <- _]; cbn [o_threads set_port set_bind set_threads set_pin set_root set_idle_timeout
    set_header_timeout set_max_body]; try done. apply Z.mod_pos_bound. lia.
Qed.

Lemma options_loop_threads argv0 argv o o' : 0 <= o_threads o -> options_loop argv0 argv o = Start o' -> 0 <= o_threads o'.
Proof.
  revert o. assert (forall n o, (length argv <= n)%nat -> 0 <= o_threads o -> options_loop argv0 argv o = Start o' -> 0 <= o_threads o') as Hn;
    [|intros o; by apply (Hn (length argv))].
  intros n. revert argv. induction n as [|n IH]; intros [|arg rest] o Hl Hp; cbn [options_loop length] in *; try lia; try (by intros [= <-]).
  destruct (option_step _ _ _ o) as [[o1 b]|] eqn:E; [|done]. apply option_step_threads in E; [|done].
  destruct b; [destruct rest as [|x rest]; [by intros [= <-]|]|]; apply IH; cbn [length] in *; try lia; done.
Qed.

(** ** Theorems *)

Section Lifetime.
Context {K : Type} `{Kernel K} `{ServerKernel K} `{!FdView K} `{!SockView K} `{!FdLaws K} `{!ServerLaws K}.

Lemma start_holds s k R l :
  workers_ s = [] -> 0 <= sc_threads (cfg_ s) -> holds R l k ->
  let '(x, s', k') := start s k in
  joinable (workers_ s') /\ holds R ((workers_ s' ≫= obj_owned) ++ l) k'.
Proof.
  intros Hw Ht (Hn & Hd & Ho). pose proof (start_started s k _ Hw Ht Ho) as Hs. destruct (start s k) as [[x s'] k'].
  destruct Hs as [Hf _ (cpus & Hnum & _) _ _ _]. split; [by eapply numbered_joinable|].
  apply (server_fds_owned cpus) in Hf; [|done]. by apply holds_app.
Qed.

Lemma start_again s k : workers_ s <> [] -> start s k = (Some (logic_error (B "server already started")), s, k).
Proof. unfold start. by destruct (workers_ s). Qed.

Lemma worker_target_pos cfg k n : 0 <= sc_threads cfg -> (worker_target cfg k).1 = inl n -> 1 <= n.
Proof.
  intros Hp. unfold worker_target. destruct (Z.eqb_spec (sc_threads cfg) 0); [|intros [= <-]; lia].
  unfold bind, call. destruct (hardware_concurrency k) as [hc k1]. intros [= <-]. lia.
Qed.

Lemma first_listener_bad_address cfg k :
  inet_pton (sc_bind_address cfg) = None ->
  (forall k, is_Some (sys_socket k).1) -> (forall k fd o, (sys_setsockopt k fd o).1 = true) ->
  exists k', first_listener cfg k = (inr (invalid_argument (B "invalid IPv4 bind address: " ++ sc_bind_address cfg)), k').
Proof.
  intros Ha Hsock Hopt.
  assert (forall k port backlog, exists k', make_listener (sc_bind_address cfg) port backlog k
    = (inr (invalid_argument (B "invalid IPv4 bind address: " ++ sc_bind_address cfg)), k')) as Hm.
  { intros k0 port backlog. unfold make_listener, bind at 1, new_fd. specialize (Hsock k0).
    destruct (sys_socket k0) as [[fd|] k1]; [|by destruct Hsock]. unfold scoped, bind at 1, check at 1.
    pose proof (Hopt k1 fd SO_REUSEADDR) as Ho1. destruct (sys_setsockopt k1 fd SO_REUSEADDR) as [ok1 k2]. cbn [fst] in Ho1. subst ok1.
    unfold bind at 1, check at 1. pose proof (Hopt k2 fd SO_REUSEPORT) as Ho2. destruct (sys_setsockopt k2 fd SO_REUSEPORT) as [ok2 k3].
    cbn [fst] in Ho2. subst ok2. rewrite Ha. cbn. eauto. }
  assert (exists n k1, worker_target cfg k = (inl n, k1)) as (n & k1 & Et).
  { unfold worker_target. destruct (_ =? 0); [|cbn; eauto]. unfold bind, call. destruct (hardware_concurrency k). cbn. eauto. }
  assert (exists cpus k2, (if sc_pin_threads cfg then allowed_cpus else ret []) k1 = (inl cpus, k2)) as (cpus & k2 & Ec).
  { destruct (sc_pin_threads cfg); [|cbn; eauto]. unfold allowed_cpus, bind, call. destruct (sys_getaffinity k1). by do 2 eexists. }
  unfold first_listener, bind. rewrite Et, Ec. destruct (Hm k2 (sc_port cfg) (sc_backlog cfg)) as [k' ->]. eauto.
Qed.

Context `{ProgramKernel K} `{!ProgramLaws K}.

Lemma StaticFiles_new_holds k p R l :
  holds R l k -> holds R (owned_fd (StaticFiles_new p k).1 ++ l) (StaticFiles_new p k).2.
Proof.
  intros Hh. unfold StaticFiles_new. pose proof (open_dir_law k (c_str p)) as Ho.
  destruct (sys_open_dir k (c_str p)) as [[fd|] k']; cbn [fst snd] in *.
  - destruct Ho as (Hp & Hno & Ho & _). unfold owned_fd, fd_valid. destruct (Z.geb_spec fd 0); [|lia]. by eapply holds_open.
  - by eapply holds_same; [apply Ho|].
Qed.

Lemma print_all_opened out k : opened (print_all out k) = opened k.
Proof.
  unfold print_all. revert k. induction out as [|[ch text] out IH]; intros k; [done|]. cbn [fold_left fst snd]. rewrite IH.
  destruct ch; [apply print_law|apply eprint_law].
Qed.

Lemma leave_opened status files s k R :
  joinable (workers_ s) -> holds R ((workers_ s ≫= obj_owned) ++ owned_fd files) k ->
  let '(st, k') := leave status files s k in opened k' = R /\ st = status.
Proof.
  intros Hj Hh. apply Server_destroy_holds in Hh; [|done]. rewrite <- (app_nil_r (owned_fd files)) in Hh.
  apply holds_close_owned in Hh as (_ & _ & Ho). unfold leave. split; [|done]. rewrite Ho. set_solver.
Qed.
End Lifetime.


(** C34: starting and destroying a server leaves no descriptor
    behind, whether the start succeeded or failed half-way: the sockets of a
    listener that could not be bound, of a worker whose [epoll] instance or
    thread could not be created, and of the workers built before it are all
    closed, each once, and nothing else is. *)
Theorem server_lifetime {K : Type} `{Kernel K} `{ServerKernel K} `{!FdView K} `{!SockView K} `{!FdLaws K} `{!ServerLaws K}
  (s : Server) (k : K) :
  workers_ s = [] -> 0 <= sc_threads (cfg_ s) ->
  let '(_, s', k') := start s k in opened (Server_destroy s' k') = opened k.
Proof.
  intros Hw Ht. pose proof (start_holds s k (opened k) [] Hw Ht) as Hs. destruct (start s k) as [[x s'] k'].
  destruct Hs as [Hj Hh]; [split; [constructor|]; split; set_solver|].
  apply Server_destroy_holds in Hh as (_ & _ & Ho); [|done]. rewrite Ho. set_solver.
Qed.


(** A bind address that is not an IPv4 address makes
    [start] throw [std::invalid_argument], not the [std::system_error] the
    declaration announces; no worker is created and no socket is left. *)
Theorem bad_address_exception {K : Type} `{Kernel K} `{ServerKernel K} `{!FdView K} `{!SockView K} `{!FdLaws K} `{!ServerLaws K}
  (s : Server) (k : K) :
  workers_ s = [] -> 0 <= sc_threads (cfg_ s) -> inet_pton (sc_bind_address (cfg_ s)) = None ->
  (forall k, is_Some (sys_socket k).1) -> (forall k fd o, (sys_setsockopt k fd o).1 = true) ->
  let '(x, s', k') := start s k in
  x = Some (invalid_argument (B "invalid IPv4 bind address: " ++ sc_bind_address (cfg_ s))) /\ s' = s /\ opened k' = opened k.
Proof.
  intros Hw Ht Ha Hsock Hopt. pose proof (start_started s k _ Hw Ht eq_refl) as Hst.
  assert (exists k', start s k = (Some (invalid_argument (B "invalid IPv4 bind address: " ++ sc_bind_address (cfg_ s))), s, k')) as [k' Es].
  { unfold start. rewrite Hw. cbn zeta. destruct (first_listener_bad_address (cfg_ s) (sys_ignore_sigpipe k)) as [k' ->]; eauto. }
  rewrite Es in Hst |- *. split; [done|]. split; [done|]. destruct Hst as [[(_ & _ & Ho) _] _ _ _ _ _].
  unfold server_fds in Ho. rewrite Hw in Ho. rewrite Ho. cbn. set_solver.
Qed.

(** ** A concrete host

    [h_epolls] more [epoll] instances can be created; [h_watched] are the
    descriptors registered with each, [h_rung] the [eventfd]s that have been
    written and not read. *)
Record Host := mkHost {
  h_open : gset Z; h_ports : gmap Z Z; h_epolls : nat; h_log : list bytes; h_watched : list (Z * Z); h_rung : gset Z; h_clock : Z }.

Definition h_with (open : gset Z) (ports : gmap Z Z) (epolls : nat) (k : Host) : Host :=
  mkHost open ports epolls (h_log k) (h_watched k) (h_rung k) (h_clock k).
Definition h_ring (rung : gset Z) (t : Z) (k : Host) : Host :=
  mkHost (h_open k) (h_ports k) (h_epolls k) (h_log k) (h_watched k) rung t.

Definition h_new (k : Host) : Z * Host :=
  let fd := fresh_fd (h_open k) in (fd, h_with (h_open k ∪ {[fd]}) (<[fd := 0]> (h_ports k)) (h_epolls k) k).

Definition h_print (s : bytes) (k : Host) : Host := 
  mkHost (h_open k) (h_ports k) (h_epolls k) (h_log k ++ [s]) (h_watched k) (h_rung k) (h_clock k).

#[export] Instance host_kernel : Kernel Host := {
  sys_recv k _ _ := (inr EAGAIN, k);
  sys_send k _ _ := (inr EAGAIN, k);
  sys_sendfile k _ _ _ _ := (inr EAGAIN, k);
  sys_shutdown k _ := k;
  kernel_closer k fd := h_with (h_open k ∖ {[fd]}) (h_ports k) (h_epolls k) k;
  sys_mono_us k := (h_clock k, k);
  sys_time k := (0, k);
  strftime_gmt _ := [];
  wire _ _ := [] }.

#[export] Instance host_server : ServerKernel Host := {
  sys_socket k := let '(fd, k) := h_new k in (Some fd, k);
  sys_setsockopt k _ _ := (true, k);
  inet_pton s := if bytes_eqb s (B "0.0.0.0") then Some 0 else None;
  sys_bind k fd _ port :=
    (true, h_with (h_open k) (<[fd := if port =? 0 then 40000 else port]> (h_ports k)) (h_epolls k) k);
  sys_listen k _ _ := (true, k);
  sys_getsockname k fd := (Some (default 0 (h_ports k !! fd)), k);
  sys_getaffinity k := (Some [1; 3], k);
  hardware_concurrency k := (4, k);
  sys_ignore_sigpipe k := k;
  sys_epoll_create1 k :=
    match h_epolls k with
    | O => (None, k)
    | S n => let '(fd, k) := h_new (h_with (h_open k) (h_ports k) n k) in (Some fd, k)
    end;
  sys_eventfd k := let '(fd, k) := h_new k in (Some fd, k);
  sys_epoll_ctl k ep fd :=
    (true, mkHost (h_open k) (h_ports k) (h_epolls k) (h_log k) ((ep, fd) :: h_watched k) (h_rung k) (h_clock k));
  sys_spawn k _ := (true, k);
  sys_wake_write k fd := h_ring (h_rung k ∪ {[fd]}) (h_clock k) k;
  sys_join k _ l := (-1, h_with (h_open k ∖ {[l]}) (h_ports k) (h_epolls k) k) }.

#[export] Instance host_program : ProgramKernel Host := {
  sys_open_dir k _ := let '(fd, k) := h_new k in (Some fd, k);
  sys_block_signals k := k;
  sys_sigwait k := (15, k);
  sys_print k s := h_print s k;
  sys_eprint k s := h_print s k;
  strsignal _ := B "Terminated";
  exn_text x := match x with system_error s | invalid_argument s | logic_error s => s end }.

#[export] Instance host_view : FdView Host := h_open.
#[export] Instance host_sockets : SockView Host := fun k fd => default 0 (h_ports k !! fd).

#[export] Instance host_fds : FdLaws Host.
Proof. by split. Qed.

Lemma h_new_opens k : opens_fd k (Some (h_new k).1) (h_new k).2.
Proof.
  destruct (fresh_fd_spec (h_open k)) as [Hp Hn]. unfold opens_fd, h_new, local_port, host_sockets. cbn [fst snd].
  split; [done|]. split; [done|]. split; [done|]. cbn [h_ports h_with]. split; [by rewrite lookup_insert_eq|].
  intros fd' Hne. by rewrite lookup_insert_ne.
Qed.

#[export] Instance host_laws : ServerLaws Host.
Proof.
  split; try done.
  - intros k. apply h_new_opens.
  - intros k. unfold sys_epoll_create1, host_server. destruct (h_epolls k); [done|]. apply (h_new_opens (h_with _ _ _ k)).
  - intros k. apply h_new_opens.
  - intros k fd a port ok k' [= <- <-]. unfold local_port, host_sockets. cbn [h_ports h_with]. split; [done|]. split.
    + intros fd' Hne. by rewrite lookup_insert_ne.
    + rewrite lookup_insert_eq. cbn. destruct (Z.eqb_spec port 0); split; lia.
  - intros k fd r k' [= <- <-]. done.
  - intros k id l l' k' [= <- <-]. by right.
Qed.

#[export] Instance host_program_laws : ProgramLaws Host.
Proof. split; try done. intros k p. apply h_new_opens. Qed.

Definition host (epolls : nat) : Host := mkHost {[0; 1; 2]} ∅ epolls [] [] ∅ 7.

Definition pinned_config : StartConfig := mkStart (B "0.0.0.0") 0 3 true 4096 ServerConfig_default.


(** The second worker cannot be built. *)
Lemma server_lifetime_witness :
  let '(x, s', k') := start (Server_new pinned_config) (host 1) in
  x = Some (system_error (B "epoll_create1")) /\ opened (Server_destroy s' k') = {[0; 1; 2]}.
Proof.
  pose proof (server_lifetime (Server_new pinned_config) (host 1) eq_refl ltac:(vm_compute; discriminate)) as Hl.
  destruct (start (Server_new pinned_config) (host 1)) as [[x s'] k'] eqn:E. split; [|exact Hl].
  apply (f_equal (fun r => r.1.1)) in E. vm_compute in E. symmetry. exact E.
Defined.


Lemma bad_address_exception_witness :
  let cfg := mkStart (B "localhost") 0 1 false 4096 ServerConfig_default in
  let '(x, s', k') := start (Server_new cfg) (host 1) in
  x = Some (invalid_argument (B "invalid IPv4 bind address: localhost")) /\ s' = Server_new cfg /\ opened k' = opened (host 1).
Proof.
  apply (bad_address_exception (Server_new (mkStart (B "localhost") 0 1 false 4096 ServerConfig_default)) (host 1)).
  - reflexivity.
  - vm_compute. discriminate.
  - reflexivity.
  - intros k. exists (fresh_fd (h_open k)). reflexivity.
  - reflexivity.
Defined.

(** A start that failed after its first worker was built
    cannot be repeated: although no thread runs, every later [start] throws
    [std::logic_error] ("server already started"), whatever the state of the
    machine, and the listeners of the workers that were built stay bound
    until the server is destroyed. *)
Theorem failed_start_sticks :
  let r := start (Server_new pinned_config) (host 1) in
  let s' := r.1.2 in
  r.1.1 = Some (system_error (B "epoll_create1"))
  /\ (fun o => (wo_running o, local_port r.2 (wo_listener o))) <$> workers_ s' = [(false, 40000)]
  /\ forall k2 : Host, start s' k2 = (Some (logic_error (B "server already started")), s', k2).
Proof.
  cbn zeta. split; [vm_compute; reflexivity|]. split; [vm_compute; reflexivity|].
  intros k2. apply start_again. vm_compute. discriminate.
Qed.
