(* ===== verification/Reactors.v ===== *)
(** * The workers of a server together

    [server.hpp] describes the server as multi-reactor and shared-nothing:
    every worker owns its listener and every connection it accepts.  Here all
    workers run on one kernel.  A turn is one step of one worker
    ([WorkerSteps.lstep]: an accept, a connection driven, closed or swept, …)
    with the kernel as the others left it; the turns of the workers, and
    whatever else happens to the kernel without opening or closing
    descriptors of the process (clients send and disconnect, [stop] writes to
    an [eventfd]), follow one another in any order. *)

From S2P Require Import Prelude Headers RequestParser Numbers ParserFacts Response ByteBuffer Router StaticFiles Metrics Connection.
From S2P Require Import ConnectionFacts Worker WorkerFacts WorkerLoop Ownership WorkerSteps WorkerFds Server ServerFacts Main Accounting Lifecycle.
From stdpp Require Import relations.

Open Scope Z_scope.

Section Pool.
Context {T : Type} `{InBuffer T}.
Context {K : Type} `{Kernel K} `{!KernelLaws K} `{EventKernel K} `{!FdView K} `{!FdLaws K} `{!EventFdLaws K}.
Context (router_ : Router K) (cfg_ : ServerConfig).

#[local] Abbreviation W := (Worker T K).

Record Pool := mkPool { p_workers : list W; p_kern : K }.

Inductive pstep (p : Pool) : Pool -> Prop :=
  | Turn i w w' :
      p_workers p !! i = Some w -> lstep router_ cfg_ (wkern (p_kern p) w) w' ->
      pstep p (mkPool (<[i := w']> (p_workers p)) (e_kern (env_ w')))
  | World k : opened k = opened (p_kern p) -> pstep p (mkPool (p_workers p) k).

(** A worker running alone for a while. *)
Lemma turns i k (w w' : W) ws :
  ws !! i = Some w -> tc (lstep router_ cfg_) (wkern k w) w' -> rtc pstep (mkPool ws k) (mkPool (<[i := w']> ws) (e_kern (env_ w'))).
Proof.
  intros Hi Hs. remember (wkern k w) as w0 eqn:E0. revert w k ws Hi E0.
  induction Hs as [w0 w' Hs|w0 w1 w' Hs _ IH]; intros w k ws Hi ->; [apply rtc_once; by eapply (Turn (mkPool ws k))|].
  assert (wkern (e_kern (env_ w1)) w1 = w1) as Hid by (by destruct w1 as [? ? ? ? [] ? ? ?]).
  eapply rtc_l; [by eapply (Turn (mkPool ws k))|]. rewrite <- (list_insert_insert_eq ws i w' w1).
  apply (IH w1 (e_kern (env_ w1))); [|by symmetry]. apply list_lookup_insert_eq. by eapply lookup_lt_Some.
Qed.

(** What [books] says of a worker besides its descriptors. *)
Definition entries_ok (w : W) : Prop :=
  map_Forall (fun fd c => c_fd c = fd /\ 0 <= fd) (conns_ w)
  /\ u64 (metric Field.connections_accepted w) = u64 (metric Field.connections_closed w + Z.of_nat (size (conns_ w))).

(** All descriptors of all workers, each once; [R] is what the rest of the process holds. *)
Record pool_books (R : gset Z) (p : Pool) : Prop := {
  pb_holds : holds R (p_workers p ≫= worker_fds) (p_kern p);
  pb_entries : Forall entries_ok (p_workers p) }.

Lemma fds_split (ws : list W) i w :
  ws !! i = Some w -> forall w', (<[i := w']> ws ≫= worker_fds) ≡ₚ worker_fds w' ++ ((take i ws ++ drop (S i) ws) ≫= worker_fds).
Proof.
  intros Hi w'. rewrite insert_take_drop by (by eapply lookup_lt_Some). rewrite !bind_app, bind_cons, Permutation_app_swap_app. done.
Qed.

(** The books of one worker: the others are the rest of the process. *)
Lemma pool_worker R p i w :
  pool_books R p -> p_workers p !! i = Some w -> let rest := (take i (p_workers p) ++ drop (S i) (p_workers p)) ≫= worker_fds in
  books (R ∪ list_to_set rest) (wkern (p_kern p) w) /\ NoDup rest /\ (list_to_set rest : gset Z) ## R.
Proof.
  intros [Hh He] Hi. cbn zeta. pose proof (fds_split _ i w Hi w) as Hsp. rewrite list_insert_id in Hsp by done.
  rewrite Hsp in Hh. apply holds_app in Hh as (Hh & Hn & Hd). destruct (Forall_lookup_1 _ _ _ _ He Hi) as [Hk Hc]. by split; [split|].
Qed.

Context (Hrouter : router_ok router_) (Hfds : router_fds router_).

Lemma pstep_books R p p' : pstep p p' -> pool_books R p -> pool_books R p'.
Proof.
  intros [i w w' Hi Hs|k Hk] Hb; [|destruct Hb; split; [by eapply holds_same|done]].
  destruct (pool_worker R p i w Hb Hi) as (Hbw & Hn & Hd).
  apply (lsteps_books router_ cfg_ Hrouter Hfds _ _ _ (rtc_once _ _ Hs)) in Hbw as [Hh' Hk' Hc'].
  split; cbn [p_workers p_kern]; [|by apply Forall_insert; [apply Hb|split]].
  rewrite (fds_split _ i w Hi w'). by apply holds_app.
Qed.

Lemma psteps_books R p p' : rtc pstep p p' -> pool_books R p -> pool_books R p'.
Proof. induction 1 as [|p p1 p' Hs _ IH]; [done|]. intros Hb. by apply IH, (pstep_books R p). Qed.

(** Two workers have no descriptor in common. *)
Lemma pool_disjoint R p i j w1 w2 fd :
  pool_books R p -> p_workers p !! i = Some w1 -> p_workers p !! j = Some w2 -> fd ∈ worker_fds w1 -> fd ∈ worker_fds w2 -> i = j.
Proof.
  intros [(Hn & _) _] Hi Hj Hf1 Hf2. destruct (decide (i = j)) as [|Hne]; [done|exfalso].
  pose proof (fds_split _ i w1 Hi w1) as Hsp. rewrite list_insert_id in Hsp by done. rewrite Hsp in Hn.
  apply NoDup_app in Hn as (_ & Hn & _). apply (Hn fd Hf1). apply list_elem_of_bind. exists w2. split; [done|].
  apply elem_of_app. destruct (decide (j < i)%nat).
  - left. apply list_elem_of_lookup. exists j. by rewrite lookup_take_lt.
  - right. apply list_elem_of_lookup. exists (j - S i)%nat. rewrite lookup_drop. by replace (S i + (j - S i))%nat with j by lia.
Qed.

Lemma conn_in_fds (w : W) fd c : conns_ w !! fd = Some c -> fd ∈ worker_fds w.
Proof.
  intros Hc. apply elem_of_app. right. apply list_elem_of_bind. exists (fd, c). split; [apply list_elem_of_here|by apply elem_of_map_to_list].
Qed.

End Pool.

Arguments Pool : clear implicits.

(** ** From the start of the server *)

Section Started.
Context {T : Type} `{InBuffer T}.
Context {K : Type} `{Kernel K} `{EventKernel K} `{ServerKernel K} `{!FdView K} `{!SockView K} `{!FdLaws K} `{!EventFdLaws K} `{!ServerLaws K}.

(** The threads of a server that has started. *)
Definition pool_of (s : Server) (k : K) : Pool T K := mkPool ((fun o => Worker_loop o k) <$> workers_ s) k.

(** The descriptors the threads leave alone: their [epoll] instances and [eventfd]s. *)
Definition event_fds (s : Server) : gset Z := list_to_set (workers_ s ≫= fun o => owned_fd (wo_wake o) ++ owned_fd (wo_epoll o)).

Lemma pool_of_books s s' (k k' : K) :
  workers_ s = [] -> 0 <= sc_threads (cfg_ s) -> start s k = (None, s', k') -> pool_books (opened k ∪ event_fds s') (pool_of s' k').
Proof.
  intros Hw Ht Hs. pose proof (start_holds s k (opened k) [] Hw Ht) as Hst. rewrite Hs in Hst.
  destruct Hst as [_ Hh]; [split; [constructor|]; split; set_solver|]. rewrite app_nil_r in Hh. split; cbn [p_workers p_kern pool_of].
  - assert ((workers_ s' ≫= obj_owned)
      ≡ₚ (((fun o => Worker_loop (T := T) o k') <$> workers_ s') ≫= worker_fds) ++ (workers_ s' ≫= fun o => owned_fd (wo_wake o) ++ owned_fd (wo_epoll o))) as Hp.
    { clear Hh Hs. induction (workers_ s') as [|o ws IH]; [done|]. cbn [fmap list_fmap]. rewrite !bind_cons, IH.
      change (worker_fds (Worker_loop o k')) with (owned_fd (wo_listener o) ++ []). rewrite app_nil_r. unfold obj_owned. solve_Permutation. }
    rewrite Hp in Hh. by apply holds_app in Hh as [Hh _].
  - apply Forall_fmap, Forall_true. intros o. split; [apply map_Forall_empty|done].
Qed.
End Started.

(** C8: the workers of a running server share nothing.  However
    the steps of the workers started by [start] are interleaved, at every
    moment the descriptors open in the process are those it had before, the
    [epoll] instances and [eventfd]s, and the listeners, connections and
    files of the workers, each owned by exactly one of them; and in a single
    step no connection passes from one worker to another. *)
Theorem shared_nothing {T : Type} `{InBuffer T} {K : Type} `{Kernel K} `{!KernelLaws K} `{EventKernel K} `{ServerKernel K}
  `{!FdView K} `{!SockView K} `{!FdLaws K} `{!EventFdLaws K} `{!ServerLaws K}
  (router : Router K) (s s' : Server) (k k' : K) (p p' : Pool T K) :
  router_ok router -> router_fds router -> workers_ s = [] -> 0 <= sc_threads (cfg_ s) -> start s k = (None, s', k') ->
  rtc (pstep router (sc_worker (cfg_ s))) (pool_of s' k') p -> pstep router (sc_worker (cfg_ s)) p p' ->
  opened (p_kern p) = opened k ∪ event_fds s' ∪ list_to_set (p_workers p ≫= worker_fds)
  /\ NoDup (p_workers p ≫= worker_fds)
  /\ (forall i j w1 w2 fd, p_workers p !! i = Some w1 -> p_workers p !! j = Some w2 ->
        fd ∈ worker_fds w1 -> fd ∈ worker_fds w2 -> i = j)
  /\ (forall i j w w' fd, p_workers p !! i = Some w -> p_workers p' !! j = Some w' ->
        fd ∈ dom (conns_ w) -> fd ∈ dom (conns_ w') -> i = j).
Proof.
  intros Hr Hf Hw Ht Hs Hsteps Hstep. set (cfg := sc_worker (cfg_ s)) in *. set (R := opened k ∪ event_fds s').
  pose proof (pool_of_books (T := T) s s' k k' Hw Ht Hs) as Hb. apply (psteps_books router cfg Hr Hf _ _ _ Hsteps) in Hb.
  pose proof (pstep_books router cfg Hr Hf _ _ _ Hstep Hb) as Hb'. destruct (pb_holds _ _ Hb) as (Hn & _ & Ho).
  split; [done|]. split; [done|]. split; [intros i j w1 w2 fd; by apply (pool_disjoint R p)|].
  intros i j w w' fd Hi Hj [c Hc%conn_in_fds]%elem_of_dom [c' Hc'%conn_in_fds]%elem_of_dom.
  destruct Hstep as [i0 w0 w1 Hi0 _|k0 _]; cbn [p_workers] in *; [|by eapply (pool_disjoint R p)].
  destruct (decide (j = i0)) as [->|Hj0].
  - destruct (decide (i = i0)) as [|Hi0']; [done|].
    eapply (pool_disjoint R (mkPool (<[i0 := w1]> (p_workers p)) (e_kern (env_ w1)))); [exact Hb'| |exact Hj|exact Hc|exact Hc'].
    cbn [p_workers]. by rewrite list_lookup_insert_ne.
  - rewrite list_lookup_insert_ne in Hj by done. by eapply (pool_disjoint R p).
Qed.

(** ** Two workers on the host of [Lifecycle] *)

#[export] Instance host_kernel_laws : KernelLaws Host.
Proof. by split. Qed.

(** A client is always waiting; a wait takes a microsecond and reports the [eventfd]s that have been written. *)
#[export] Instance host_events : EventKernel Host := {
  sys_accept4 k _ := let '(fd, k) := h_new k in (inl fd, k);
  sys_nodelay k _ := k;
  sys_epoll_add k _ _ := (true, k);
  sys_epoll_del k _ _ := k;
  sys_epoll_wait k ep _ :=
    (inl ((fun x : Z * Z => mkEvent x.2 true false) <$> List.filter (fun x => (x.1 =? ep) && bool_decide (x.2 ∈ h_rung k)) (h_watched k)),
     h_ring (h_rung k) (h_clock k + 1) k);
  sys_wake_read k fd := h_ring (h_rung k ∖ {[fd]}) (h_clock k) k }.

#[export] Instance host_event_fds : EventFdLaws Host.
Proof.
  split; try done. intros k l fd k' [= <- <-]. destruct (fresh_fd_spec (h_open k)). by split_and!.
Qed.

Definition two_workers : StartConfig := mkStart (B "0.0.0.0") 0 2 false 4096 ServerConfig_default.

(** [w] after it has accepted a connection. *)
Definition joined (w : Worker bytes Host) : Worker bytes Host :=
  let '(fd, k) := h_new (e_kern (env_ w)) in
  with_conns (<[fd := Connection_new fd ParserLimits_default (now_us_ w)]> (conns_ w))
    (count Field.connections_accepted 1 (set_kern k (env_ w))) w.

Lemma joins (w : Worker bytes Host) : conns_ w = ∅ -> lstep [] ServerConfig_default w (joined w).
Proof.
  intros He. apply Work. destruct (h_new (e_kern (env_ w))) as [fd k] eqn:Eh. unfold joined. rewrite Eh.
  apply (Accepted [] ServerConfig_default w fd k (set_kern k (env_ w))); [|by rewrite He|done].
  cbn [sys_accept4 host_events]. by rewrite Eh.
Qed.

Lemma joined_size (w : Worker bytes Host) : conns_ w = ∅ -> size (conns_ (joined w)) = 1%nat.
Proof.
  intros He. unfold joined. destruct (h_new _) as [fd k]. cbn [conns_ with_conns]. rewrite He, map_size_insert_None by done.
  by rewrite map_size_empty.
Qed.

(** Each of them accepts a connection. *)
Lemma shared_nothing_witness :
  match start (Server_new two_workers) (host 2) with
  | (None, s', k') =>
      exists w1 w2 (p : Pool bytes Host), rtc (pstep [] ServerConfig_default) (pool_of s' k') p /\ p_workers p = [w1; w2]
        /\ size (conns_ w1) = 1%nat /\ size (conns_ w2) = 1%nat /\ NoDup (p_workers p ≫= worker_fds)
  | _ => False
  end.
Proof.
  assert (match start (Server_new two_workers) (host 2) with (None, s', k') => length (workers_ s') = 2%nat | _ => False end) as Hl
    by (vm_compute; reflexivity).
  destruct (start (Server_new two_workers) (host 2)) as [[[x|] s'] k'] eqn:E; [destruct Hl|].
  destruct (workers_ s') as [|o1 [|o2 [|]]] eqn:Ews; try discriminate Hl.
  set (a := joined (wkern k' (Worker_loop o1 k'))). set (k1 := e_kern (env_ a)). set (b := joined (wkern k1 (Worker_loop o2 k'))).
  assert (rtc (pstep [] ServerConfig_default) (pool_of s' k') (mkPool [a; b] (e_kern (env_ b)))) as Hsteps.
  { unfold pool_of. rewrite Ews. cbn [fmap list_fmap].
    eapply rtc_l; [exact (Turn [] ServerConfig_default (mkPool [Worker_loop o1 k'; Worker_loop o2 k'] k') 0 _ a eq_refl (joins (wkern k' (Worker_loop o1 k')) eq_refl))|].
    apply rtc_once. exact (Turn [] ServerConfig_default (mkPool [a; Worker_loop o2 k'] k1) 1 _ b eq_refl (joins (wkern k1 (Worker_loop o2 k')) eq_refl)). }
  exists a, b, (mkPool [a; b] (e_kern (env_ b))). split; [exact Hsteps|]. split; [reflexivity|].
  split; [by apply joined_size|]. split; [by apply joined_size|].
  apply (shared_nothing [] (Server_new two_workers) s' (host 2) k' _ (mkPool [a; b] (e_kern (env_ b))));
    [constructor|constructor|reflexivity|vm_compute; discriminate|exact E|exact Hsteps|exact (World [] ServerConfig_default (mkPool [a; b] (e_kern (env_ b))) _ eq_refl)].
Defined.
