(* ===== verification/Conversations.v ===== *)
(** * All conversations of a server

    [Conversation] follows one connection through its life.  Here the event
    loops lead those lives: however the steps of the workers and of their
    clients are interleaved, every connection in the table of a worker is a
    faithful conversation, because no step touches a socket of another
    connection.  The proof is by rule induction on [WorkerSteps.lstep]; that
    an accepted descriptor is no connection's yet comes from the books of
    [WorkerFds] and [Reactors]. *)

From S2P Require Import Prelude Headers RequestParser Numbers ParserFacts Response ByteBuffer Router StaticFiles Metrics Connection CallFrame.
From S2P Require Import ConnectionFacts ConnectionLiveness Conversation Worker WorkerFacts WorkerLoop Ownership WorkerSteps WorkerFds Accounting.
From S2P Require Import Routes RoutesFacts Server ServerFacts Main Lifecycle Reactors.
From stdpp Require Import relations.

Open Scope Z_scope.

(** ** Sockets are apart *)

(** What has gone through the socket [fd] is the same. *)
Definition untouched {K : Type} `{InputLaws K} (fd : Z) (k k' : K) : Prop :=
  wire k' fd = wire k fd /\ delivered k' fd = delivered k fd.

(** A call on one socket does not touch another; nothing has gone through a
    socket that has just been accepted. *)
Class ApartLaws (K : Type) `{InputLaws K} `{EventKernel K} := {
  #[global] apart fd :: SocketRel (fun x => x <> fd) (untouched fd);
  accept_new : forall k l fd k', sys_accept4 k l = (inl fd, k') -> wire k' fd = [] /\ delivered k' fd = [];
  accept_apart : forall k l fd k' x, sys_accept4 k l = (inl fd, k') -> x <> fd -> untouched x k k';
  accept_error_apart : forall k l e k' x, sys_accept4 k l = (inr e, k') -> untouched x k k';
  nodelay_apart : forall k fd x, untouched x k (sys_nodelay k fd);
  epoll_add_apart : forall k ep fd x, untouched x k (sys_epoll_add k ep fd).2;
  epoll_del_apart : forall k ep fd x, untouched x k (sys_epoll_del k ep fd);
  epoll_wait_apart : forall k ep t x, untouched x k (sys_epoll_wait k ep t).2;
  wake_read_apart : forall k fd x, untouched x k (sys_wake_read k fd) }.

(** Handlers use no client socket. *)
Definition router_apart {K : Type} `{InputLaws K} (router : Router K) : Prop := forall fd, router_rel (untouched fd) router.

Lemma router_apart_hears {K : Type} `{InputLaws K} (router : Router K) : router_apart router -> router_hears router.
Proof. intros Hr fd. refine (Forall_impl _ _ _ (Hr fd) _). intros r Hh k req res. apply Hh. Qed.

(** The routes of the program are such handlers when opening files leaves sockets alone. *)
Lemma app_apart {K : Type} `{InputLaws K} `{!FileSys K} (HR : forall fd, FileRel (untouched (K := K) fd)) (have_openat2 : bool)
  {double : Type} (of_u64 : Z -> double) (div_1e6 : double -> double) (fmt_17g fmt_g : double -> bytes)
  (worker_metrics : K -> list WorkerMetrics) (uptime : K -> double) (info : K -> Info) static_root files :
  router_apart (app_router have_openat2 of_u64 div_1e6 fmt_17g fmt_g worker_metrics uptime info static_root files).
Proof. intros fd. by apply app_handlers_rel. Qed.

Section Chats.
Context {T : Type} `{InBufferLaws T}.
Context {K : Type} `{Kernel K} `{!KernelLaws K} `{!InputLaws K} `{EventKernel K} `{!ApartLaws K} `{!FdView K} `{!FdLaws K} `{!EventFdLaws K}.
Context (router_ : Router K) (cfg_ : ServerConfig).
Context (Hrouter : router_ok router_) (Hapart : router_apart router_) (Hfds : router_fds router_).

#[local] Abbreviation W := (Worker T K).
#[local] Abbreviation kern w := (e_kern (env_ w)).

Lemma idle_apart fd (k k' : K) : rtc idle_call k k' -> untouched fd k k'.
Proof.
  induction 1 as [|k k1 k' Hc _ IH]; [done|]. etrans; [|exact IH].
  destruct Hc; [by eapply accept_error_apart|apply nodelay_apart|apply epoll_add_apart|apply epoll_wait_apart|apply wake_read_apart].
Qed.

Lemma destroy_apart fd (c : Connection T) (e : Env K) : untouched fd (e_kern e) (e_kern (destroy_connection c e)).
Proof.
  unfold destroy_connection. cbn [e_kern set_kern].
  assert (forall b k x, untouched fd k (if b : bool then sys_close k x else k)) as Hc by (intros [] k x; [apply rel_close|done]).
  etrans; [apply Hc|apply (Hc (fd_valid (c_fd c)))].
Qed.

Lemma close_apart fd x (w : W) : untouched fd (kern w) (kern (close_connection x w)).
Proof. unfold close_connection. destruct (conns_ w !! x) as [c|]; [exact (destroy_apart fd c (env_ w))|done]. Qed.

Lemma judged_apart fd x c (w : W) : untouched fd (kern w) (kern (sweep_one cfg_ w (x, c))).
Proof.
  unfold sweep_one. destruct (judge _ _ _ c); [done|..]; cbn [env_ with_env with_conns wcount];
    match goal with |- untouched _ _ (e_kern (destroy_connection c ?e)) => exact (destroy_apart fd c e) end.
Qed.

Lemma drained_apart fd (w : W) : untouched fd (kern w) (kern (begin_drain cfg_ w)).
Proof.
  unfold begin_drain. destruct (draining_ w); [done|]. destruct (fd_valid (listener_ w)); [|done]. cbn [env_ e_kern set_kern].
  etrans; [apply epoll_del_apart|apply rel_close].
Qed.

(** A step touches no open socket but the one of the connection it drives. *)
Lemma wstep_apart R fd (w w' : W) :
  wstep router_ cfg_ w w' -> books R w -> fd ∈ opened (kern w) ->
  untouched fd (kern w) (kern w') \/ exists c c1 ok c' e' fuel,
    conns_ w !! fd = Some c /\ made_ready c c1
    /\ drive router_ (now_us_ w) (draining_ w) (max_in_buffer (cfg_limits cfg_)) fuel c1 (env_ w) = Some (ok, c', e')
    /\ w' = (if ok then with_conns (<[fd := c']> (conns_ w)) e' w else close_connection fd (with_conns (<[fd := c']> (conns_ w)) e' w)).
Proof.
  intros Hs Hb Hop. destruct Hs as [e He|x k e Ha He|x k c e Ha Hc|x k e Ha Hc He|x c c1 ok c' e' fuel Hc Hr Hd|x|x c Hc|];
    try (destruct (accept_opened _ _ _ _ Ha) as (_ & Hno & _); assert (fd <> x) as Hne by congruence;
         pose proof (accept_apart _ _ _ _ fd Ha Hne) as Hacc).
  - left. apply idle_apart, He.
  - left. etrans; [exact Hacc|]. etrans; [apply (idle_apart fd), He|]. exact (destroy_apart fd (Connection_new x _ _) e).
  - exfalso. apply Hno. destruct (books_lookup R x c w Hb Hc) as (_ & _ & _ & _ & ->). set_solver.
  - left. etrans; [exact Hacc|]. apply (idle_apart fd), He.
  - destruct (decide (fd = x)) as [->|Hne]; [right; by exists c, c1, ok, c', e', fuel|left].
    destruct (books_lookup R x c w Hb Hc) as (Hfd & _). assert (c_fd c1 <> fd) as Hne1 by (destruct Hr as (? & ? & ->); cbn; congruence).
    apply (drive_rel (untouched fd) router_ (Hapart fd) (fun y => y <> fd)) in Hd as [Hd _]; [|done].
    destruct ok; [exact Hd|]. etrans; [exact Hd|]. exact (close_apart fd x (with_conns _ e' w)).
  - left. apply close_apart.
  - left. apply judged_apart.
  - left. apply drained_apart.
Qed.

(** Where an entry of the table comes from. *)
Lemma wstep_table R fd c' (w w' : W) :
  wstep router_ cfg_ w w' -> books R w -> conns_ w' !! fd = Some c' ->
  (conns_ w !! fd = Some c' /\ untouched fd (kern w) (kern w'))
  \/ (c' = Connection_new fd (cfg_limits cfg_) (now_us_ w) /\ wire (kern w') fd = [] /\ delivered (kern w') fd = [])
  \/ exists c rd wr fuel, conns_ w !! fd = Some c
       /\ drive router_ (now_us_ w) (draining_ w) (max_in_buffer (cfg_limits cfg_)) fuel (set_ready rd wr c) (env_ w) = Some (true, c', env_ w').
Proof.
  intros Hs Hb Hc'. assert (forall c, conns_ w !! fd = Some c -> fd ∈ opened (kern w)) as Hop.
  { intros c Hc. destruct (books_lookup R fd c w Hb Hc) as (_ & _ & _ & _ & ->). set_solver. }
  assert (conns_ w !! fd = Some c' -> (conns_ w !! fd = Some c' /\ untouched fd (kern w) (kern w')) \/ exists c rd wr fuel, conns_ w !! fd = Some c
       /\ drive router_ (now_us_ w) (draining_ w) (max_in_buffer (cfg_limits cfg_)) fuel (set_ready rd wr c) (env_ w) = Some (true, c', env_ w')) as Hold.
  { intros Hc. destruct (wstep_apart R fd w w' Hs Hb (Hop _ Hc)) as [Hu|(c & c1 & ok & c2 & e' & fuel & Hc1 & (rd & wr & ->) & Hd & ->)]; [by left|right].
    destruct ok; [|by rewrite close_connection_conns, lookup_delete_eq in Hc'].
    cbn [conns_ with_conns] in Hc'. rewrite lookup_insert_eq in Hc'. injection Hc' as <-. by exists c, rd, wr, fuel. }
  destruct Hs as [e He|x k e Ha He|x k c e Ha Hc|x k e Ha Hc He|x c c1 ok c1' e' fuel Hc Hr Hd|x|x c Hc|]; cbn [conns_ with_env with_conns] in Hc'.
  1-3: destruct (Hold Hc'); auto.
  - destruct (decide (x = fd)) as [->|Hne]; [|rewrite lookup_insert_ne in Hc' by done; destruct (Hold Hc'); auto].
    rewrite lookup_insert_eq in Hc'. injection Hc' as <-. right. left. split; [done|]. destruct (accept_new _ _ _ _ Ha) as [Hw Hd].
    destruct (idle_apart fd _ _ (proj1 He)) as [Hw' Hd']. cbn [e_kern set_kern env_ with_conns count] in *. split; congruence.
  - destruct (decide (x = fd)) as [->|Hne].
    + destruct Hr as (rd & wr & ->). destruct ok; [|by rewrite close_connection_conns, lookup_delete_eq in Hc'].
      cbn [conns_ with_conns] in Hc'. rewrite lookup_insert_eq in Hc'. injection Hc' as <-. right. right. by exists c, rd, wr, fuel.
    + assert (conns_ w !! fd = Some c') as Hc2; [|destruct (Hold Hc2); auto].
      destruct ok; [|rewrite close_connection_conns, lookup_delete_ne in Hc' by done]; cbn [conns_ with_conns] in Hc'; by rewrite lookup_insert_ne in Hc'.
  - rewrite close_connection_conns in Hc'. apply lookup_delete_Some in Hc' as [_ Hc']. destruct (Hold Hc'); auto.
  - assert (conns_ w !! fd = Some c') as Hc2; [|destruct (Hold Hc2); auto].
    unfold sweep_one in Hc'. destruct (judge _ _ _ c); cbn [conns_ with_conns with_env wcount] in Hc'; [done|by apply lookup_delete_Some in Hc' as [_ ?]..].
  - assert (conns_ w !! fd = Some c') as Hc2; [|destruct (Hold Hc2); auto].
    unfold begin_drain in Hc'. by destruct (draining_ w), (fd_valid (listener_ w)).
Qed.

(** ** Every entry of the table has led a life *)

Definition chatting (e : Env K) (fd : Z) (c : Connection T) : Prop :=
  exists now e0, wire (e_kern e0) fd = [] /\ delivered (e_kern e0) fd = []
    /\ life router_ (max_in_buffer (cfg_limits cfg_)) (Connection_new fd (cfg_limits cfg_) now) e0 c e.

Lemma chatting_apart fd c e e' : c_fd c = fd -> untouched fd (e_kern e) (e_kern e') -> chatting e fd c -> chatting e' fd c.
Proof.
  intros <- [Hw Hd] (now & e0 & Hw0 & Hd0 & Hl). exists now, e0. split; [done|]. split; [done|]. by eapply life_others.
Qed.

Lemma wstep_chats R (w w' : W) :
  wstep router_ cfg_ w w' -> books R w -> map_Forall (chatting (env_ w)) (conns_ w) -> map_Forall (chatting (env_ w')) (conns_ w').
Proof.
  intros Hs Hb Hch fd c' Hc'. destruct (wstep_table R fd c' w w' Hs Hb Hc') as [[Hc Hu]|[(-> & Hw & Hd)|(c & rd & wr & fuel & Hc & Hd)]].
  - eapply chatting_apart; [|exact Hu|by apply Hch]. by destruct (books_lookup R fd c' w Hb Hc).
  - exists (now_us_ w), (env_ w'). split; [done|]. split; [done|]. constructor.
  - destruct (Hch fd c Hc) as (now & e0 & Hw0 & Hd0 & Hl). exists now, e0. split; [done|]. split; [done|]. by eapply life_event.
Qed.

Lemma lstep_chats R (w w' : W) :
  lstep router_ cfg_ w w' -> books R w -> map_Forall (chatting (env_ w)) (conns_ w) -> map_Forall (chatting (env_ w')) (conns_ w').
Proof.
  intros [v Hs|now k Hm] Hb Hch; [by eapply wstep_chats|]. intros fd c Hc. eapply chatting_apart; [|  |by apply Hch].
  - by destruct (books_lookup R fd c w Hb Hc).
  - pose proof (rel_mono (R := untouched fd) (kern w)) as Hu. by rewrite Hm in Hu.
Qed.

(** What is open and not in the table of the worker is left alone. *)
Lemma lstep_apart R fd (w w' : W) :
  lstep router_ cfg_ w w' -> books R w -> fd ∈ opened (kern w) -> conns_ w !! fd = None -> untouched fd (kern w) (kern w').
Proof.
  intros [v Hs|now k Hm] Hb Hop Hc.
  - destruct (wstep_apart R fd w v Hs Hb Hop) as [|(c & ? & ? & ? & ? & ? & Hc' & _)]; [done|congruence].
  - pose proof (rel_mono (R := untouched fd) (kern w)) as Hu. by rewrite Hm in Hu.
Qed.

(** ** The whole server *)

(** [Reactors.pstep], where what happens besides the workers does not speak
    on their behalf: a client that sends or reads changes neither what it has
    been sent nor what has been read of what it sent. *)
Inductive sstep (p : Pool T K) : Pool T K -> Prop :=
  | Working i w w' :
      p_workers p !! i = Some w -> lstep router_ cfg_ (wkern (p_kern p) w) w' ->
      sstep p (mkPool (<[i := w']> (p_workers p)) (e_kern (env_ w')))
  | Meanwhile k : opened k = opened (p_kern p) -> (forall fd, untouched fd (p_kern p) k) -> sstep p (mkPool (p_workers p) k).

Lemma sstep_pstep p p' : sstep p p' -> pstep router_ cfg_ p p'.
Proof. intros [i w w' Hi Hs|k Hk _]; [by eapply Turn|by apply World]. Qed.

Definition pool_chats (p : Pool T K) : Prop :=
  Forall (fun w => map_Forall (chatting (env_ (wkern (p_kern p) w))) (conns_ w)) (p_workers p).

Lemma sstep_chats R p p' : sstep p p' -> pool_books R p -> pool_chats p -> pool_chats p'.
Proof.
  intros Hs Hb Hch. unfold pool_chats in *. rewrite Forall_lookup in *.
  assert (forall j w fd c, p_workers p !! j = Some w -> conns_ w !! fd = Some c -> c_fd c = fd) as Hfd.
  { intros j w fd c Hj Hc. destruct (pool_worker R p j w Hb Hj) as [Hbw _]. by destruct (books_lookup _ fd c _ Hbw Hc). }
  destruct Hs as [i w w' Hi Hs|k _ Hu]; cbn [p_workers p_kern]; intros j v Hj fd c Hc.
  2:{ apply (chatting_apart fd c (env_ (wkern (p_kern p) v))); [by eapply Hfd|apply (Hu fd)|by eapply (Hch j v Hj)]. }
  destruct (pool_worker R p i w Hb Hi) as [Hbw _]. destruct (decide (i = j)) as [->|Hne].
  - rewrite list_lookup_insert_eq in Hj by (by eapply lookup_lt_Some). injection Hj as <-.
    pose proof (lstep_chats _ _ _ Hs Hbw (Hch j w Hi) fd c Hc) as Hl. by destruct w' as [? ? ? ? [] ? ? ?].
  - rewrite list_lookup_insert_ne in Hj by done. pose proof (Hfd j v fd c Hj Hc) as Hf.
    apply (chatting_apart fd c (env_ (wkern (p_kern p) v))); [exact Hf| |by eapply (Hch j v Hj)]. apply (lstep_apart _ fd (wkern (p_kern p) w) w' Hs Hbw).
    + destruct (pb_holds _ _ Hb) as (_ & _ & Ho). cbn [env_ wkern with_env with_conns e_kern set_kern]. rewrite Ho.
      apply elem_of_union_r, elem_of_list_to_set, list_elem_of_bind.
      exists v. split; [by eapply conn_in_fds|by eapply list_elem_of_lookup_2].
    + destruct (conns_ (wkern (p_kern p) w) !! fd) as [c1|] eqn:E; [|done]. exfalso. apply Hne.
      eapply (pool_disjoint R p i j w v fd); [done..|by eapply (conn_in_fds w fd c1)|by eapply conn_in_fds].
Qed.

Lemma ssteps_chats R p p' : rtc sstep p p' -> pool_books R p -> pool_chats p -> pool_chats p'.
Proof.
  induction 1 as [|p p1 p' Hs _ IH]; [done|]. intros Hb Hch.
  apply IH; [by eapply (pstep_books router_ cfg_ Hrouter Hfds); [apply sstep_pstep|]|by eapply sstep_chats].
Qed.

Lemma no_chats p : Forall (fun w => conns_ w = ∅) (p_workers p) -> pool_chats p.
Proof. intros Hp. refine (Forall_impl _ _ _ Hp _). intros w Hw. rewrite Hw. apply map_Forall_empty. Qed.

End Chats.

(** C3: a server keeps all its conversations apart and faithful.
    Start from workers without connections, each owning its listener, and let
    their steps (accepting, driving, closing, sweeping, draining) and their
    clients' be interleaved in any way on the one kernel they share.  Then
    for every connection in the table of any worker, what its client has been
    sent and is still to be sent is the sequence of responses to the requests
    a reader of everything that client sent would find, in order, each with
    its own body only, and never a byte meant for another client. *)
Theorem conversations {T : Type} `{InBufferLaws T} {K : Type} `{Kernel K} `{!KernelLaws K} `{!InputLaws K} `{EventKernel K} `{!ApartLaws K}
  `{!FdView K} `{!FdLaws K} `{!EventFdLaws K} (router : Router K) (cfg : ServerConfig) (R : gset Z) (p0 p : Pool T K)
  (i : nat) (w : Worker T K) (fd : Z) (c : Connection T) :
  router_ok router -> router_apart router -> router_fds router ->
  limits_ok (cfg_limits cfg) = true -> max_in_buffer (cfg_limits cfg) + kReadSize <= ib_max ->
  pool_books R p0 -> Forall (fun w => conns_ w = ∅) (p_workers p0) -> rtc (sstep router cfg) p0 p ->
  p_workers p !! i = Some w -> conns_ w !! fd = Some c -> fits (delivered (p_kern p) fd) ->
  c_fd c = fd /\ faithful router (cfg_limits cfg) c (set_kern (p_kern p) (env_ w)).
Proof.
  intros Hr Ha Hf Hl Hm Hb He Hs Hi Hc Hfit. pose proof (ssteps_chats router cfg Hr Ha Hf R p0 p Hs Hb (no_chats router cfg p0 He)) as Hch.
  destruct (Forall_lookup_1 _ _ _ _ Hch Hi fd c Hc) as (now & e0 & Hw0 & Hd0 & Hlife).
  by eapply (life_faithful router (max_in_buffer (cfg_limits cfg)) _ fd now e0); [|apply router_apart_hears|..].
Qed.

(** The threads of a server that has started are such workers. *)
Lemma started_pool {T : Type} `{InBuffer T} {K : Type} `{Kernel K} `{EventKernel K} `{ServerKernel K} `{!FdView K} `{!SockView K}
  `{!FdLaws K} `{!EventFdLaws K} `{!ServerLaws K} (s s' : Server) (k k' : K) :
  workers_ s = [] -> 0 <= sc_threads (cfg_ s) -> start s k = (None, s', k') ->
  pool_books (opened k ∪ event_fds s') (pool_of (T := T) s' k') /\ Forall (fun w => conns_ w = ∅) (p_workers (pool_of (T := T) s' k')).
Proof. intros Hw Ht Hs. split; [by apply (pool_of_books s)|]. by apply Forall_fmap, Forall_true. Qed.

(** ** Two workers on the kernel of [Accounting], recorded *)

Section RecordedEvents.
Context {K : Type} `{Kernel K} `{!KernelLaws K} `{EventKernel K} `{!FdView K} `{!FdLaws K} `{!EventFdLaws K}.

#[export] Instance recorded_events : EventKernel (Recorded K) := {
  sys_accept4 k l :=
    match sys_accept4 (rec_kern k) l with
    | (inl fd, kern) => (inl fd, mkRecorded kern (fun x => if x =? fd then [] else rec_in k x))
    | (inr e, kern) => (inr e, rec_set k kern)
    end;
  sys_nodelay k fd := rec_set k (sys_nodelay (rec_kern k) fd);
  sys_epoll_add k ep fd := let '(ok, kern) := sys_epoll_add (rec_kern k) ep fd in (ok, rec_set k kern);
  sys_epoll_del k ep fd := rec_set k (sys_epoll_del (rec_kern k) ep fd);
  sys_epoll_wait k ep t := let '(r, kern) := sys_epoll_wait (rec_kern k) ep t in (r, rec_set k kern);
  sys_wake_read k fd := rec_set k (sys_wake_read (rec_kern k) fd) }.

#[export] Instance recorded_view : FdView (Recorded K) := fun k => opened (rec_kern k).

#[export] Instance recorded_fds : FdLaws (Recorded K).
Proof.
  split; unfold opened, recorded_view; intros k.
  - intros fd. apply (close_opened (rec_kern k)).
  - intros fd n. cbn. unfold rec_recv. pose proof (recv_opened (rec_kern k) fd n) as Hl. by destruct (sys_recv _ _ _) as [[bs|x] kern].
  - intros fd bs. cbn. pose proof (send_opened (rec_kern k) fd bs) as Hl. by destruct (sys_send _ _ _).
  - intros fd f off n. cbn. pose proof (sendfile_opened (rec_kern k) fd f off n) as Hl. by destruct (sys_sendfile _ _ _ _ _).
  - intros fd. apply (shutdown_opened (rec_kern k)).
  - cbn. pose proof (mono_opened (rec_kern k)) as Hl. by destruct (sys_mono_us _).
  - cbn. pose proof (time_opened (rec_kern k)) as Hl. by destruct (sys_time _).
Qed.

#[export] Instance recorded_event_fds : EventFdLaws (Recorded K).
Proof.
  split; unfold opened, recorded_view; intros k.
  - intros l fd k'. cbn. destruct (sys_accept4 _ _) as [[x|x] kern] eqn:E; [|done]. intros [= -> <-]. by apply (accept_opened _ l).
  - intros l x k'. cbn. destruct (sys_accept4 _ _) as [[y|y] kern] eqn:E; [done|]. intros [= -> <-]. by apply (accept_error_opened _ l x).
  - intros fd. apply (nodelay_opened (rec_kern k)).
  - intros ep fd. cbn. pose proof (epoll_add_opened (rec_kern k) ep fd) as Hl. by destruct (sys_epoll_add _ _ _).
  - intros ep fd. apply (epoll_del_opened (rec_kern k)).
  - intros ep t. cbn. pose proof (epoll_wait_opened (rec_kern k) ep t) as Hl. by destruct (sys_epoll_wait _ _ _).
  - intros fd. apply (wake_read_opened (rec_kern k)).
Qed.

Lemma recorded_router_fds router : router_fds router -> router_fds (recorded_router router).
Proof.
  unfold router_fds, recorded_router. intros Hrs. rewrite Forall_fmap. refine (Forall_impl _ _ _ Hrs _). intros r Hr k req. cbn.
  specialize (Hr (rec_kern k) req). destruct (rt_handler r _ _ _) as [[res'|x] kern]; exact Hr.
Qed.
End RecordedEvents.

Lemma d_transmit_apart fd x bs k : x <> fd -> d_tx_of (d_transmit x bs k) fd = d_tx_of k fd.
Proof. intros Hx. unfold d_tx_of at 1, d_transmit. cbn [d_tx]. by rewrite lookup_insert_ne. Qed.

#[export] Instance recorded_desk_apart : ApartLaws (Recorded Desk).
Proof.
  split; try done; unfold untouched.
  - intros fd. split; [split; [split; [by intros k|by intros a b c [-> ->] [-> ->]]|..]|..]; try done; intros k x.
    + intros n Hx. unfold sys_recv, recorded_kernel, rec_recv. pose proof (recv_wire (rec_kern k) x n fd) as Hw.
      destruct (sys_recv (rec_kern k) x n) as [[bs|e] kern]; [|done]. split; [exact Hw|]. cbn.
      destruct (Z.eqb_spec fd x) as [->|]; [by destruct Hx|done].
    + intros bs Hx. destruct k as [k inp]. cbn. destruct (d_room k =? 0)%nat; [done|]. split; [by apply d_transmit_apart|done].
    + intros f off n Hx. destruct k as [k inp]. cbn. destruct (_ || _); [done|]. split; [by apply d_transmit_apart|done].
  - intros [k inp] l fd k'. cbn. destruct (d_clients k) as [|s cs]; [done|]. intros [= <- <-]. cbn.
    unfold d_tx_of. cbn [d_tx]. by rewrite lookup_delete_eq, Z.eqb_refl.
  - intros [k inp] l fd k' x. cbn. destruct (d_clients k) as [|s cs]; [done|]. intros [= <- <-] Hx. cbn.
    unfold d_tx_of. cbn [d_tx]. rewrite lookup_delete_ne by done. by destruct (Z.eqb_spec x (fresh_fd (d_open k))).
  - intros [k inp] l e k' x. cbn. destruct (d_clients k) as [|s cs]; [|done]. by intros [= <- <-].
Qed.

Definition duo_router : Router (Recorded Desk) := recorded_router desk_router.

Lemma duo_router_apart : router_apart duo_router.
Proof.
  intros fd. apply Forall_cons_2; [|constructor]. intros k req res. cbn.
  destruct (static_handler_ok true 3 (rec_kern k) req res) as (res' & k' & -> & _ & Hw & _). split; [apply Hw|done].
Qed.

#[local] Abbreviation W := (Worker bytes (Recorded Desk)).
#[local] Abbreviation P := (Pool bytes (Recorded Desk)).

(** The two clients of [Accounting], in the queues of two workers. *)
Definition duo_desk : Recorded Desk :=
  mkRecorded (d_with_open {[3; 4; 5; 6; 8; 9; 10]} (e_kern (env_ desk_worker))) (fun _ => []).

Definition duo_worker (listener epoll wake : Z) : W :=
  mkWorker listener epoll wake ∅ (mkEnv WorkerMetrics_new DateCache_new duo_desk) 0 false 0.

Definition duo : P := mkPool [duo_worker 4 5 6; duo_worker 8 9 10] duo_desk.

(** A worker reads the clock and does something. *)
Definition turn (p : P) (x : nat * (W -> option W)) : option P :=
  match p_workers p !! x.1 with
  | Some w =>
      let '(now, k) := sys_mono_us (p_kern p) in
      match x.2 (with_now now (set_kern k (env_ w)) w) with
      | Some w' => Some (mkPool (<[x.1 := w']> (p_workers p)) (e_kern (env_ w')))
      | None => None
      end
  | None => None
  end.

Fixpoint take_turns (xs : list (nat * (W -> option W))) (p : P) : option P :=
  match xs with
  | [] => Some p
  | x :: xs => match turn p x with Some p => take_turns xs p | None => None end
  end.

Lemma turn_ssteps x p p' :
  (forall w w', x.2 w = Some w' -> rtc (wstep duo_router desk_config) w w') -> turn p x = Some p' -> rtc (sstep duo_router desk_config) p p'.
Proof.
  intros Hf. unfold turn. destruct (p_workers p !! x.1) as [w|] eqn:Hi; [|done]. destruct (sys_mono_us (p_kern p)) as [now k] eqn:Hm.
  destruct (x.2 _) as [w'|] eqn:E; [|done]. intros [= <-]. apply Hf in E. set (w1 := with_now _ _ w) in E.
  assert (sstep duo_router desk_config p (mkPool (<[x.1 := w1]> (p_workers p)) (e_kern (env_ w1)))) as H1.
  { eapply Working; [exact Hi|]. exact (Clock duo_router desk_config (wkern (p_kern p) w) now k Hm). }
  eapply rtc_l; [exact H1|]. clear H1. clearbody w1. pose proof (lookup_lt_Some _ _ _ Hi) as Hlt. clear Hi Hm.
  revert E. generalize (p_workers p) Hlt. clear p Hlt w. intros ws Hlt E. induction E as [|w1 w2 w3 Hs _ IH]; [apply rtc_refl|].
  assert (wkern (e_kern (env_ w1)) w1 = w1) as Hid by (by destruct w1 as [? ? ? ? [] ? ? ?]).
  eapply rtc_l; [|exact IH]. rewrite <- (list_insert_insert_eq ws x.1 w2 w1).
  apply (Working duo_router desk_config (mkPool (<[x.1 := w1]> ws) (e_kern (env_ w1))) x.1 w1 w2); [by apply list_lookup_insert_eq|].
  cbn [p_kern]. rewrite Hid. by apply Work.
Qed.

Lemma take_turns_ssteps xs p p' :
  Forall (fun x : nat * (W -> option W) => forall w w', x.2 w = Some w' -> rtc (wstep duo_router desk_config) w w') xs ->
  take_turns xs p = Some p' -> rtc (sstep duo_router desk_config) p p'.
Proof.
  intros Hx. revert p. induction Hx as [|x xs Hx _ IH]; intros p; cbn [take_turns]; [intros [= <-]; apply rtc_refl|].
  destruct (turn p x) as [p1|] eqn:E; [|done]. intros Hr. etrans; [by eapply turn_ssteps|by apply IH].
Qed.

(** Each worker accepts one of the clients; then one client gets the file and
    the other has sent half a request. *)
Definition duo_turns : list (nat * (W -> option W)) :=
  [(0%nat, fun w => Some (accept_loop desk_config 1 w)); (1%nat, fun w => Some (accept_loop desk_config 1 w));
   (0%nat, fun w => handle_event duo_router desk_config 60 w (mkEvent 11 true true));
   (1%nat, fun w => handle_event duo_router desk_config 60 w (mkEvent 12 true true))].

Lemma duo_books : pool_books {[3; 5; 6; 9; 10]} duo.
Proof.
  split; [|repeat apply Forall_cons_2; [..|constructor]; (split; [apply map_Forall_empty|reflexivity])].
  split; [cbn; apply NoDup_cons_2; [set_solver|apply NoDup_singleton]|]. cbn. split; set_solver.
Qed.

Lemma conversations_witness :
  exists p w c w2 c2, take_turns duo_turns duo = Some p
    /\ p_workers p !! 0%nat = Some w /\ conns_ w !! 11 = Some c /\ p_workers p !! 1%nat = Some w2 /\ conns_ w2 !! 12 = Some c2
    /\ (0 <? zlen (wire (p_kern p) 11)) = true /\ delivered (p_kern p) 12 = B "GET /"
    /\ c_fd c = 11 /\ faithful duo_router ParserLimits_default c (set_kern (p_kern p) (env_ w))
    /\ c_fd c2 = 12 /\ faithful duo_router ParserLimits_default c2 (set_kern (p_kern p) (env_ w2)).
Proof.
  assert (match take_turns duo_turns duo with
    | Some p =>
        match p_workers p !! 0%nat, p_workers p !! 1%nat with
        | Some w, Some w2 => match conns_ w !! 11, conns_ w2 !! 12 with
            | Some _, Some _ => (0 <? zlen (wire (p_kern p) 11), zlen (delivered (p_kern p) 11) <? 2 ^ 62, delivered (p_kern p) 12) = (true, true, B "GET /")
            | _, _ => False
            end
        | _, _ => False
        end
    | None => False
    end) as H by (vm_compute; reflexivity).
  destruct (take_turns duo_turns duo) as [p|] eqn:Ep; [|contradiction].
  destruct (p_workers p !! 0%nat) as [w|] eqn:E0; [|contradiction]. destruct (p_workers p !! 1%nat) as [w2|] eqn:E1; [|contradiction].
  destruct (conns_ w !! 11) as [c|] eqn:Ec; [|contradiction]. destruct (conns_ w2 !! 12) as [c2|] eqn:Ec2; [|contradiction].
  injection H as Hw Hz Hd.
  assert (rtc (sstep duo_router desk_config) duo p) as Hs.
  { apply (take_turns_ssteps duo_turns); [|exact Ep]. repeat apply Forall_cons_2; [..|constructor]; intros v v' Hv; cbn [snd] in Hv.
    1-2: (apply (inj Some) in Hv as <-; apply accept_loop_steps).
    all: exact (handle_event_steps duo_router desk_config _ _ _ _ Hv). }
  exists p, w, c, w2, c2. split; [reflexivity|]. split; [exact E0|]. split; [exact Ec|]. split; [exact E1|]. split; [exact Ec2|].
  split; [exact Hw|]. split; [exact Hd|].
  assert (forall i v fd d, p_workers p !! i = Some v -> conns_ v !! fd = Some d -> fits (delivered (p_kern p) fd) ->
    c_fd d = fd /\ faithful duo_router ParserLimits_default d (set_kern (p_kern p) (env_ v))) as Hall.
  { intros i v fd d Hi Hv Hfit.
    apply (conversations duo_router desk_config {[3; 5; 6; 9; 10]} duo p i v fd d); [..|exact Hs|exact Hi|exact Hv|exact Hfit].
    - apply recorded_router_ok, desk_router_ok.
    - exact duo_router_apart.
    - apply recorded_router_fds, desk_router_fds.
    - reflexivity.
    - vm_compute. discriminate.
    - exact duo_books.
    - repeat constructor. }
  destruct (Hall 0%nat w 11 c E0 Ec) as [Hc1 Hf1]; [apply Z.ltb_lt, Hz|].
  destruct (Hall 1%nat w2 12 c2 E1 Ec2) as [Hc2 Hf2]; [change (delivered (p_kern p) 12) with (rec_in (p_kern p) 12); rewrite Hd; reflexivity|].
  split; [exact Hc1|]. split; [exact Hf1|]. split; [exact Hc2|exact Hf2].
Defined.
