(* ===== verification/Threads.v ===== *)
(** * Stopping a whole server

    [Server::stop] writes to the [eventfd] of every worker, [Server::wait]
    joins their threads.  Here the threads run in turns on one kernel, in any
    order: a turn is what [run] does before its loop, or one pass of the loop;
    between them the main thread makes the calls of [stop].  A pass is
    wasted when [epoll_wait] was interrupted, or when the worker has not been
    told to stop; how many are is up to the kernel and to the main thread, so
    the process keeps account of them. *)

From S2P Require Import Prelude Headers RequestParser Numbers ParserFacts Response ByteBuffer Router StaticFiles Metrics Connection.
From S2P Require Import ConnectionFacts ConnectionLiveness Worker WorkerFacts WorkerLoop Ownership WorkerSteps WorkerFds Accounting.
From S2P Require Import CallFrame KernelFrame Shutdown Server ServerFacts Thread Lifecycle Reactors.
From stdpp Require Import relations.

Open Scope Z_scope.

Section Threads.
Context {T : Type} `{InBuffer T}.
Context {K : Type} `{Kernel K} `{EventKernel K} `{ServerKernel K} `{ThreadKernel K}.
Context (router_ : Router K) (cfg_ : ServerConfig).

#[local] Abbreviation W := (Worker T K).

(** A thread that has been created, one in its loop, and one that can be joined. *)
Inductive thread := Ready (o : WorkerObj) | Running (last_sweep : Z) (w : W) | Returned (w : W).

Definition thread_turn (fuel : nat) (t : thread) (k : K) : option (thread * K) :=
  match t with
  | Ready o => let '(last_sweep, k) := run_prologue o k in Some (Running last_sweep (Worker_loop o k), k)
  | Running last_sweep w =>
      match run_once router_ cfg_ fuel last_sweep (wkern k w) with
      | None => None
      | Some (true, last_sweep, w) => Some (Running last_sweep w, e_kern (env_ w))
      | Some (false, _, w) => let w := close_all w in Some (Returned w, e_kern (env_ w))
      end
  | Returned w => Some (Returned w, k)
  end.

(** Whether the next pass of a thread takes it no further towards its end. *)
Definition wasted_turn (t : thread) (k : K) : bool :=
  match t with
  | Running _ w =>
      match (sys_epoll_wait k (epoll_ w) (tick_us cfg_ / 1000)).1 with
      | inl evs => negb (draining_ w || existsb (fun ev => ev_fd ev =? wake_ w) evs)
      | inr EINTR => true
      | inr _ => false
      end
  | _ => false
  end.

(** [p_wasted]: the worker of each wasted turn. *)
Record Process := mkProcess { p_objects : list WorkerObj; p_threads : list thread; p_now : K; p_wasted : list nat }.

(** A turn of thread [i], or the call of [request_stop] on worker [i]. *)
Inductive move : Set := Turn_of (i : nat) | Stop_of (i : nat).

#[export] Instance move_eq_dec : EqDecision move.
Proof. solve_decision. Defined.

Definition make_move (fuel : nat) (m : move) (p : Process) : option Process :=
  match m with
  | Turn_of i =>
      match p_threads p !! i with
      | None => Some p
      | Some t =>
          match thread_turn fuel t (p_now p) with
          | None => None
          | Some (t', k) =>
              Some (mkProcess (p_objects p) (<[i := t']> (p_threads p)) k
                      (if wasted_turn t (p_now p) then i :: p_wasted p else p_wasted p))
          end
      end
  | Stop_of i =>
      match p_objects p !! i with
      | None => Some p
      | Some o => Some (mkProcess (p_objects p) (p_threads p) (request_stop o (p_now p)) (p_wasted p))
      end
  end.

Fixpoint run_moves (fuel : nat) (ms : list move) (p : Process) : option Process :=
  match ms with
  | [] => Some p
  | m :: ms => match make_move fuel m p with None => None | Some p => run_moves fuel ms p end
  end.

(** A server that has just started. *)
Definition process_of (s : Server) (k : K) : Process := mkProcess (workers_ s) (Ready <$> workers_ s) k [].

Definition turns_of (i : nat) (ms : list move) : nat := length (List.filter (fun m => bool_decide (m = Turn_of i)) ms).
Definition wasted_of (i : nat) (p : Process) : nat := length (List.filter (Nat.eqb i) (p_wasted p)).

(** A thread that has the kernel for itself does what [Worker_run] says. *)
Lemma thread_alone fuel n o k :
  match run_moves fuel (Turn_of 0 :: replicate n (Turn_of 0)) (mkProcess [o] [Ready o] k []), Worker_run router_ cfg_ n fuel o k with
  | Some p, Some (inl w) => (exists ls, p_threads p = [Running ls w]) /\ p_now p = e_kern (env_ w)
  | Some p, Some (inr w) => p_threads p = [Returned w] /\ p_now p = e_kern (env_ w)
  | None, None => True
  | _, _ => False
  end.
Proof.
  assert (forall m (w : W) ws, run_moves fuel (replicate m (Turn_of 0)) (mkProcess [o] [Returned w] (e_kern (env_ w)) ws)
    = Some (mkProcess [o] [Returned w] (e_kern (env_ w)) ws)) as Hret by (intros m w ws; by induction m).
  unfold Worker_run. cbn [run_moves make_move p_threads lookup list_lookup thread_turn p_now].
  destruct (run_prologue o k) as [ls k1]. cbn [insert list_insert p_objects p_wasted wasted_turn].
  change k1 with (e_kern (env_ (Worker_loop (T := T) o k1))) at 2. generalize (Worker_loop (T := T) o k1). intros w. generalize (@nil nat).
  revert ls w. induction n as [|n IH]; intros ls w l; cbn [replicate run_moves run_loop]; [by split; [exists ls|]|].
  unfold make_move. cbn [p_threads lookup list_lookup thread_turn p_now].
  assert (wkern (e_kern (env_ w)) w = w) as -> by (by destruct w as [? ? ? ? [] ? ? ?]).
  destruct (run_once _ _ _ _ _) as [[[[] ls1] w1]|]; [apply IH| |done]. cbn [insert list_insert p_objects]. by rewrite Hret.
Qed.

(** [stop] makes the calls of [request_stop] one after the other. *)
Lemma stop_moves fuel s (p : Process) :
  p_objects p = workers_ s ->
  run_moves fuel (Stop_of <$> seq 0 (length (workers_ s))) p = Some (mkProcess (p_objects p) (p_threads p) (stop s (p_now p)) (p_wasted p)).
Proof.
  unfold stop. intros Ho. assert (forall done todo q, p_objects q = done ++ todo ->
    run_moves fuel (Stop_of <$> seq (length done) (length todo)) q
    = Some (mkProcess (p_objects q) (p_threads q) (fold_left (fun k o => request_stop o k) todo (p_now q)) (p_wasted q))) as Hgo.
  { intros done todo. revert done. induction todo as [|o todo IH]; intros done q Hq; [by destruct q|]. cbn [length seq fmap list_fmap run_moves].
    unfold make_move. rewrite Hq, lookup_app_r, Nat.sub_diag by done. cbn [lookup list_lookup].
    specialize (IH (done ++ [o]) (mkProcess (done ++ o :: todo) (p_threads q) (request_stop o (p_now q)) (p_wasted q))).
    rewrite length_app, Nat.add_1_r in IH. apply IH. cbn. by rewrite <- app_assoc. }
  exact (Hgo [] (workers_ s) p Ho).
Qed.

End Threads.

Arguments thread : clear implicits.
Arguments Process : clear implicits.

(** ** Every thread returns *)

(** The calls before the loop and those of [stop] do not turn the clock back either. *)
Class ThreadClock (K : Type) `{ClockLaws K} `{ServerKernel K} `{ThreadKernel K} := {
  setname_clock : forall k s, clock k <= clock (sys_setname k s);
  setaffinity_clock : forall k cpu, clock k <= clock (sys_setaffinity k cpu).2;
  warn_clock : forall k s, clock k <= clock (sys_warn k s);
  wake_write_clock : forall k fd, clock k <= clock (sys_wake_write k fd) }.

Section Stopping.
Context {T : Type} `{InBufferLaws T}.
Context {K : Type} `{KernelLaws K} {FR : FiniteReadiness K} `{!EventKernel K} `{!ServerKernel K} `{!ThreadKernel K}.
Context `{!ClockLaws K} `{!ThreadClock K}.
Context (router_ : Router K) (cfg_ : ServerConfig).
Context (Hrouter : router_ok router_) (Hfinite : router_finite router_) (Hclock : router_clock router_).
Context (Hlimits : limits_ok (cfg_limits cfg_) = true) (Hfits : buffer_fits (cfg_limits cfg_)).
Context (Hmax : max_in_buffer (cfg_limits cfg_) + kReadSize <= ib_max).

#[local] Abbreviation W := (Worker T K).
#[local] Abbreviation g := (to_us (cfg_shutdown_grace cfg_)).

Lemma pin_thread_clock o (k : K) : clock k <= clock (pin_thread o k).
Proof.
  unfold pin_thread. destruct (wo_cpu o >=? 0); [|reflexivity]. pose proof (setaffinity_clock k (wo_cpu o)) as Ha.
  destruct (sys_setaffinity k (wo_cpu o)) as [rc k2]. cbn [snd] in Ha. destruct (negb (rc =? 0)); [|exact Ha].
  etrans; [exact Ha|apply warn_clock].
Qed.

Lemma run_prologue_clock o (k : K) : clock k <= clock (run_prologue o k).2.
Proof.
  unfold run_prologue. etrans; [apply setname_clock|]. etrans; [apply (pin_thread_clock o)|].
  apply (rel_mono (R := fun a b => clock a <= clock b)).
Qed.

(** What holds of a thread at every moment. *)
Definition thread_inv (k : K) (t : thread T K) : Prop :=
  match t with
  | Ready _ => True
  | Running _ w =>
      worker_ok cfg_ w /\ (draining_ w = true -> fd_valid (listener_ w) = false /\ drain_deadline_us_ w <= clock k + g)
  | Returned w => conns_ w = ∅ /\ (draining_ w = true -> fd_valid (listener_ w) = false)
  end.

(** The thread returns within [n] turns that are not wasted. *)
Definition due (n : Z) (k : K) (t : thread T K) : Prop :=
  match t with
  | Ready _ => Z.max 1 g + 2 <= n
  | Running _ w => (if draining_ w then Z.max 1 (drain_deadline_us_ w - clock k) else Z.max 1 g + 1) <= n
  | Returned _ => True
  end.

(** What the others do does not delay it. *)
Lemma others_inv k k' t : clock k <= clock k' -> thread_inv k t -> thread_inv k' t.
Proof. intros Hc. destruct t as [o|ls w|w]; cbn; [done| |done]. intros [Hw Hd]. split; [done|]. intros Hdr. destruct (Hd Hdr). split; [done|lia]. Qed.

Lemma others_due n k k' t : clock k <= clock k' -> due n k t -> due n k' t.
Proof. intros Hc. destruct t as [o|ls w|w]; cbn; try done. destruct (draining_ w); lia. Qed.

#[local] Abbreviation now_of w := (clock (e_kern (env_ w))).
#[local] Abbreviation drain_inv w := (draining_ w = true -> fd_valid (listener_ w) = false /\ drain_deadline_us_ w <= now_of w + g).

(** A pass whose wait succeeded. *)
Lemma pass_events fuel ls go ls' (w w' : W) evs k :
  sys_epoll_wait (e_kern (env_ w)) (epoll_ w) (tick_us cfg_ / 1000) = (inl evs, k) ->
  run_once router_ cfg_ fuel ls w = Some (go, ls', w') -> 0 <= now_of w -> drain_inv w ->
  now_of w <= now_of w' /\ drain_inv w'
  /\ (go = true -> forall n, due n (e_kern (env_ w)) (Running ls w) ->
      due (if negb (draining_ w || existsb (fun ev => ev_fd ev =? wake_ w) evs) then n else n - 1) (e_kern (env_ w')) (Running ls' w')).
Proof.
  intros Ek Hr Hpos Hinv. destruct (run_once_drain router_ cfg_ Hclock _ _ _ _ _ _ _ _ Hr Ek) as (Hc & Hgo & Hold & Hnew).
  assert (0 <= g) as Hg by apply u64_range. split; [lia|].
  assert (drain_inv w') as Hinv'.
  { destruct (draining_ w) eqn:Ed.
    - destruct (Hinv eq_refl) as [Hl Hdl]. destruct (Hold eq_refl Hl) as (_ & -> & ->). intros _. split; [done|lia].
    - destruct (Hnew eq_refl) as [Hdr _]. intros Hd'. destruct (Hdr Hd') as [Hl ->]. split; [done|].
      pose proof (Z.mod_le (now_us_ w' + g) (2 ^ 64) ltac:(lia) ltac:(lia)). unfold u64. lia. }
  split; [exact Hinv'|]. intros -> n. unfold due. destruct (draining_ w) eqn:Ed; cbn [orb negb].
  - destruct (Hinv eq_refl) as [Hl _]. destruct (Hold eq_refl Hl) as (Hd' & _ & Hdl'). specialize (Hgo eq_refl Hd'). rewrite Hd', Hdl' in *. lia.
  - destruct (existsb _ evs) eqn:Ex; cbn [negb].
    + destruct (Hnew eq_refl) as [_ Hd']. assert (draining_ w' = true) as Hd2.
      { apply existsb_exists in Ex as (ev & Hin & Hev). apply Hd', Exists_exists. exists ev. split; [by apply list_elem_of_In|lia]. }
      destruct (Hinv' Hd2). rewrite Hd2. lia.
    + destruct (draining_ w') eqn:Ed'; [destruct (Hinv' eq_refl)|]; lia.
Qed.

Lemma pass_ok fuel ls go ls' (w w' : W) :
  run_once router_ cfg_ fuel ls w = Some (go, ls', w') -> 0 <= now_of w -> drain_inv w ->
  now_of w <= now_of w' /\ drain_inv w'
  /\ (go = true -> forall n, due n (e_kern (env_ w)) (Running ls w) ->
      due (if wasted_turn cfg_ (Running ls w) (e_kern (env_ w)) then n else n - 1) (e_kern (env_ w')) (Running ls' w')).
Proof.
  intros Hr Hpos Hinv. cbn [wasted_turn].
  destruct (sys_epoll_wait (e_kern (env_ w)) (epoll_ w) (tick_us cfg_ / 1000)) as [[evs|x] k] eqn:Ek; [by eapply pass_events|].
  pose proof (rel_epoll_wait (R := fun a b => clock a <= clock b) (e_kern (env_ w)) (epoll_ w) (tick_us cfg_ / 1000)) as Hk.
  rewrite Ek in Hk. cbn [snd fst] in *. revert Hr. unfold run_once. rewrite Ek.
  assert (drain_inv (wkern k w)) as Hinv'.
  { intros Hd. destruct (Hinv Hd) as [Hl Hdl]. split; [done|]. cbn [drain_deadline_us_ wkern with_env with_conns env_ e_kern set_kern]. lia. }
  destruct x; intros [= <- <- <-]; (split; [exact Hk|]); (split; [exact Hinv'|]); try done.
  intros _ n. by apply (others_due n _ k (Running ls w)).
Qed.

Lemma close_all_drain (w : W) : listener_ (close_all w) = listener_ w /\ draining_ (close_all w) = draining_ w.
Proof.
  unfold close_all. generalize (map_to_list (conns_ w)). intros l. revert w. induction l as [|x l IH]; intros w; [done|]. cbn [fold_left].
  destruct (IH (close_connection x.1 w)) as [-> ->]. unfold close_connection. by destruct (_ !! _).
Qed.

(** A turn ends, and brings the thread closer to its end unless it is wasted. *)
Lemma turn_ok k (t : thread T K) :
  0 <= clock k -> thread_inv k t ->
  exists F t' k', (forall fuel, (F <= fuel)%nat -> thread_turn router_ cfg_ fuel t k = Some (t', k'))
    /\ clock k <= clock k' /\ thread_inv k' t' /\ forall n, due n k t -> due (if wasted_turn cfg_ t k then n else n - 1) k' t'.
Proof.
  intros Hpos. destruct t as [o|ls w|w]; cbn [thread_turn thread_inv].
  - intros _. pose proof (run_prologue_clock o k) as Hc. destruct (run_prologue o k) as [ls k']. exists 0%nat, (Running ls (Worker_loop o k')), k'.
    split; [done|]. split; [exact Hc|]. split; [by split; [apply map_Forall_empty|]|]. intros n. cbn. lia.
  - intros [Hw Hinv].
    destruct (run_once_ok router_ cfg_ Hrouter Hfinite Hlimits Hfits Hmax ls (wkern k w) Hw) as (F & go & ls' & w' & Hw' & Hrun).
    destruct (pass_ok F ls go ls' (wkern k w) w' (Hrun F ltac:(done)) Hpos Hinv) as (Hc & Hinv' & Hdue).
    pose proof (close_all_rel (fun a b : K => clock a <= clock b) w') as Hca. destruct go.
    + exists F, (Running ls' w'), (e_kern (env_ w')). split; [intros fuel Hle; by rewrite Hrun|]. split; [exact Hc|]. split; [done|by apply Hdue].
    + exists F, (Returned (close_all w')), (e_kern (env_ (close_all w'))). split; [intros fuel Hle; by rewrite Hrun|].
      split; [by etrans|]. split; [|done]. split; [apply close_all_empty|].
      destruct (close_all_drain w') as [-> ->]. intros Hd. by apply Hinv'.
  - intros Hw. exists 0%nat, (Returned w), k. done.
Qed.

Definition process_inv (p : Process T K) : Prop := 0 <= clock (p_now p) /\ Forall (thread_inv (p_now p)) (p_threads p).

(** Each thread that is due within [n] turns is due within those that are left, and the wasted ones. *)
Definition advances (ms : list move) (p p' : Process T K) : Prop :=
  forall i t n, p_threads p !! i = Some t -> due n (p_now p) t ->
  exists t', p_threads p' !! i = Some t'
    /\ due (n - Z.of_nat (turns_of i ms) + (Z.of_nat (wasted_of i p') - Z.of_nat (wasted_of i p))) (p_now p') t'.

Lemma turns_of_cons i m ms : turns_of i (m :: ms) = (turns_of i [m] + turns_of i ms)%nat.
Proof. unfold turns_of. cbn. by destruct (bool_decide _). Qed.

Lemma turn_move i t p F t' k' :
  p_threads p !! i = Some t -> process_inv p -> clock (p_now p) <= clock k' -> thread_inv k' t' ->
  (forall n, due n (p_now p) t -> due (if wasted_turn cfg_ t (p_now p) then n else n - 1) k' t') ->
  thread_turn router_ cfg_ F t (p_now p) = Some (t', k') ->
  exists p', make_move router_ cfg_ F (Turn_of i) p = Some p' /\ process_inv p' /\ advances [Turn_of i] p p'.
Proof.
  intros Hi [Hpos Hall] Hc Hinv Hdue Ht. eexists. split; [unfold make_move; by rewrite Hi, Ht|].
  split; [split; cbn [p_now p_threads]; [lia|]; apply Forall_insert; [|done]; eapply Forall_impl; [exact Hall|]; intros x; by apply others_inv|].
  intros j u n Hj Hu. cbn [p_now p_threads]. unfold wasted_of, turns_of. cbn [p_wasted List.filter]. destruct (decide (i = j)) as [<-|Hne].
  - rewrite Hi in Hj. injection Hj as <-. exists t'. split; [apply list_lookup_insert_eq; by eapply lookup_lt_Some|].
    rewrite bool_decide_eq_true_2 by done. specialize (Hdue n Hu). destruct (wasted_turn cfg_ t (p_now p)); cbn [List.filter length].
    + rewrite Nat.eqb_refl. cbn [length]. replace (_ - _ + _) with n by lia. exact Hdue.
    + replace (_ - _ + _) with (n - 1) by lia. exact Hdue.
  - exists u. split; [by rewrite list_lookup_insert_ne|]. rewrite bool_decide_eq_false_2 by congruence.
    apply (others_due _ (p_now p)); [done|]. destruct (wasted_turn cfg_ t (p_now p)); cbn [List.filter length];
      [rewrite (proj2 (Nat.eqb_neq j i)) by congruence|]; by replace (_ - _ + _) with n by lia.
Qed.

Lemma idle_move ms p : (forall i, turns_of i ms = 0%nat) -> advances ms p p.
Proof. intros Ht i t n Hi Hd. exists t. split; [done|]. rewrite Ht. by replace (_ - _ + _) with n by lia. Qed.

Lemma move_ok m p :
  process_inv p -> exists F p', (forall fuel, (F <= fuel)%nat -> make_move router_ cfg_ fuel m p = Some p') /\ process_inv p' /\ advances [m] p p'.
Proof.
  intros Hp. destruct m as [i|i].
  - destruct (p_threads p !! i) as [t|] eqn:Hi.
    + destruct (turn_ok (p_now p) t) as (F & t' & k' & Hrun & Hc & Hinv & Hdue); [apply Hp|by eapply Forall_lookup_1; [apply Hp|]|].
      destruct (turn_move i t p F t' k' Hi Hp Hc Hinv Hdue (Hrun F ltac:(done))) as (p' & Hm & Hp' & Ha).
      exists F, p'. split; [|done]. intros fuel Hle. rewrite <- Hm. unfold make_move. by rewrite Hi, !Hrun.
    + exists 0%nat, p. split; [intros; unfold make_move; by rewrite Hi|]. split; [done|]. intros j u n Hj Hu. exists u. split; [done|].
      assert (turns_of j [Turn_of i] = 0%nat) as ->; [|by replace (_ - _ + _) with n by lia].
      unfold turns_of. cbn. rewrite bool_decide_eq_false_2; [done|]. intros [= ->]. congruence.
  - destruct (p_objects p !! i) as [o|] eqn:Hi.
    + exists 0%nat. eexists. split; [intros; unfold make_move; by rewrite Hi|]. pose proof (wake_write_clock (p_now p) (wo_wake o)) as Hc.
      destruct Hp as [Hpos Hall]. split.
      * split; cbn [p_now p_threads]; unfold request_stop; [lia|]. eapply Forall_impl; [exact Hall|]. intros x. by apply others_inv.
      * intros j u n Hj Hu. exists u. split; [done|]. apply (others_due _ (p_now p)); [done|].
        change (turns_of j [Stop_of i]) with 0%nat. unfold wasted_of. cbn [p_wasted]. by replace (_ - _ + _) with n by lia.
    + exists 0%nat, p. split; [intros; unfold make_move; by rewrite Hi|]. split; [done|]. by apply idle_move.
Qed.

Lemma moves_ok ms p :
  process_inv p -> exists F p', (forall fuel, (F <= fuel)%nat -> run_moves router_ cfg_ fuel ms p = Some p') /\ process_inv p' /\ advances ms p p'.
Proof.
  revert p. induction ms as [|m ms IH]; intros p Hp; [exists 0%nat, p; split; [done|]; split; [done|by apply idle_move]|].
  destruct (move_ok m p Hp) as (F1 & p1 & Hm & Hp1 & Ha1). destruct (IH p1 Hp1) as (F2 & p2 & Hms & Hp2 & Ha2).
  exists (F1 + F2)%nat, p2. split; [intros fuel Hle; cbn [run_moves]; rewrite Hm by lia; apply Hms; lia|]. split; [done|].
  intros i t n Hi Hd. destruct (Ha1 i t n Hi Hd) as (t1 & Hi1 & Hd1). destruct (Ha2 i t1 _ Hi1 Hd1) as (t2 & Hi2 & Hd2).
  exists t2. split; [done|]. rewrite turns_of_cons. by replace (n - _ + _) with
    (n - Z.of_nat (turns_of i [m]) + (Z.of_nat (wasted_of i p1) - Z.of_nat (wasted_of i p)) - Z.of_nat (turns_of i ms)
     + (Z.of_nat (wasted_of i p2) - Z.of_nat (wasted_of i p1))) by lia.
Qed.

(** A thread with enough turns has returned. *)
Lemma due_returned n k t : due n k t -> n <= 0 -> exists w, t = Returned w.
Proof. intros Hd Hn. destruct t as [o|ls w|w]; cbn in Hd; [lia| |by exists w]. destruct (draining_ w); lia. Qed.

End Stopping.

(** ** What they leave open *)

Section Books.
Context {T : Type} `{InBuffer T}.
Context {K : Type} `{Kernel K} `{!KernelLaws K} `{EventKernel K} `{ServerKernel K} `{ThreadKernel K}.
Context `{!FdView K} `{!SockView K} `{!FdLaws K} `{!EventFdLaws K} `{!ServerLaws K} `{!ThreadLaws K}.
Context (router_ : Router K) (cfg_ : ServerConfig) (Hrouter : router_ok router_) (Hfds : router_fds router_).

#[local] Abbreviation W := (Worker T K).

(** The worker of a thread; before its first turn the kernel in it does not matter. *)
Definition worker_of (k : K) (t : thread T K) : W :=
  match t with Ready o => Worker_loop o k | Running _ w => w | Returned w => w end.

Definition process_books (R : gset Z) (k0 : K) (p : Process T K) : Prop :=
  pool_books R (mkPool (worker_of k0 <$> p_threads p) (p_now p)).

(** A worker in its place with the same descriptors and counters. *)
Lemma pool_books_swap R ws i (w w' : W) k k' :
  ws !! i = Some w -> worker_fds w' = worker_fds w -> entries_ok w' -> opened k' = opened k ->
  pool_books R (mkPool ws k) -> pool_books R (mkPool (<[i := w']> ws) k').
Proof.
  intros Hi Hf He Ho [Hh Hen]. cbn [p_workers p_kern] in *. split; cbn [p_workers p_kern]; [|by apply Forall_insert].
  eapply holds_same; [exact Ho|]. rewrite (fds_split _ i w Hi w'), Hf, <- (fds_split _ i w Hi w). by rewrite list_insert_id.
Qed.

(** A worker alone for some steps. *)
Lemma pool_books_steps R ws i (w w' : W) k :
  ws !! i = Some w -> rtc (lstep router_ cfg_) (wkern k w) w' ->
  pool_books R (mkPool ws k) -> pool_books R (mkPool (<[i := w']> ws) (e_kern (env_ w'))).
Proof.
  intros Hi [<-|Hs]%rtc_tc Hb.
  - eapply (pool_books_swap R ws i w); [done|done| |done|done]. exact (Forall_lookup_1 _ _ _ _ (pb_entries _ _ Hb) Hi).
  - eapply psteps_books; [done|done| |exact Hb]. by apply turns with w.
Qed.

Lemma turn_books R k0 fuel i t t' k k' ts :
  ts !! i = Some t -> thread_turn router_ cfg_ fuel t k = Some (t', k') ->
  pool_books R (mkPool (worker_of k0 <$> ts) k) -> pool_books R (mkPool (worker_of k0 <$> <[i := t']> ts) k').
Proof.
  intros Hi Ht Hb. rewrite list_fmap_insert. assert ((worker_of k0 <$> ts) !! i = Some (worker_of k0 t)) as Hi' by (by rewrite list_lookup_fmap, Hi).
  destruct t as [o|ls w|w]; cbn [thread_turn] in Ht.
  - pose proof (run_prologue_opened o k) as Ho. destruct (run_prologue o k) as [ls k1]. injection Ht as <- <-.
    by eapply (pool_books_swap R _ i _ _ k).
  - destruct (run_once _ _ _ _ _) as [[[go ls1] w1]|] eqn:Er; [|done]. apply run_once_steps in Er.
    destruct go; injection Ht as <- <-; (eapply pool_books_steps; [exact Hi'| |exact Hb]); [exact Er|].
    etrans; [exact Er|apply wsteps_lsteps, close_all_steps].
  - injection Ht as <- <-. by rewrite list_insert_id.
Qed.

Lemma run_moves_books R k0 fuel ms p p' :
  run_moves router_ cfg_ fuel ms p = Some p' -> process_books R k0 p -> process_books R k0 p'.
Proof.
  revert p. induction ms as [|m ms IH]; intros p; cbn [run_moves]; [by intros [= <-]|].
  destruct (make_move router_ cfg_ fuel m p) as [p1|] eqn:Em; [|done]. intros Hs Hb. apply (IH p1 Hs). revert Em. destruct m as [i|i]; cbn [make_move].
  - destruct (p_threads p !! i) as [t|] eqn:Hi; [|by intros [= <-]].
    destruct (thread_turn router_ cfg_ fuel t (p_now p)) as [[t' k']|] eqn:Et; [|done]. intros [= <-]. by eapply turn_books.
  - destruct (p_objects p !! i) as [o|]; intros [= <-]; [|done]. destruct Hb as [Hh He]. split; [|done].
    eapply holds_same; [|exact Hh]. apply wake_write_law.
Qed.

Lemma process_of_books s s' (k k' : K) :
  workers_ s = [] -> 0 <= sc_threads (Server.cfg_ s) -> start s k = (None, s', k') ->
  process_books (opened k ∪ event_fds s') k' (process_of (T := T) s' k').
Proof.
  intros Hw Ht Hs. pose proof (pool_of_books (T := T) s s' k k' Hw Ht Hs) as Hb. unfold process_books, process_of. cbn [p_threads p_now].
  by rewrite <- list_fmap_compose.
Qed.

End Books.


(** ** Two workers on the host of [Lifecycle] *)

#[export] Instance host_finite : FiniteReadiness Host.
Proof. by refine {| budget := fun _ => 0%nat |}. Defined.

#[export] Instance host_clock : ClockLaws Host.
Proof.
  unshelve refine {| clock := h_clock |}; [|by intros k fd; cbn; lia|done|by intros k ep t; cbn; lia].
  split; [split; [split; [split; [by intros k|by intros a b c; lia]|..]|..]|..]; intros k; try (cbn; lia).
Defined.

#[export] Instance host_thread : ThreadKernel Host := {
  sys_setname k _ := k; sys_setaffinity k _ := (0, k); sys_warn k s := h_print s k; strerror _ := [] }.

#[export] Instance host_thread_laws : ThreadLaws Host.
Proof. by split. Qed.

#[export] Instance host_thread_clock : ThreadClock Host.
Proof. split; intros k; cbn; lia. Qed.

Definition impatient : StartConfig := mkStart (B "0.0.0.0") 0 2 false 4096 (mkConfig 30000 10000 0 ParserLimits_default).

(** The second worker is told to stop after it has found nothing to do. *)
Definition stop_schedule : list move :=
  [Turn_of 0; Turn_of 1; Stop_of 0; Turn_of 1; Turn_of 0; Stop_of 1; Turn_of 0; Turn_of 1; Turn_of 1].

