(* ===== verification/Loadgen.v ===== *)
(** * [tools/loadgen.cpp]: the load generator

    A worker of the load generator keeps a number of requests in flight on
    each of its connections and reads the responses back.  The calls are the
    operations of the class [ClientKernel]; the clock is read in
    nanoseconds.  Loops that are bounded by the peer alone take fuel.
    Definitions only; the theorems are in [LoadgenTheorems].  Positions in
    [in] and [out] are [nat]; [total] is computed in 64 bits as in the code. *)

From S2P Require Import Prelude Headers RequestParser Numbers ParserFacts Main.
From stdpp Require Import sorting.

Open Scope Z_scope.

(** ** Text *)

(** [std::tolower] in the C locale is [ascii_lower]. *)
Fixpoint iequals_prefix (s prefix : bytes) : bool :=
  match prefix, s with
  | [], _ => true
  | p :: prefix', c :: s' => Ascii.eqb (ascii_lower c) (ascii_lower p) && iequals_prefix s' prefix'
  | _ :: _, [] => false
  end.

(** [s.find(p, pos)]. *)
Definition find_sub_from (p s : bytes) (pos : nat) : option nat := Nat.add pos <$> find_sub p (drop pos s).

(** [std::atoi] where the value is an [int]. *)
Definition atoi (s : bytes) : Z :=
  let '(neg, t) := skip_sign (skip_space s) in
  let v := dec_value 0 (span_digits t).1 in
  if neg then - v else v.

(** [std::strtoull(s, nullptr, 10)]; [unsigned long] has the same width. *)
Definition strtoull (s : bytes) : Z := sr_value (strtoul s).

(** [rest.substr(15, rest.find("\r\n") - 15)] for a line that begins with [content-length:]. *)
Definition length_text (rest : bytes) : bytes :=
  match find_sub kCRLF rest with
  | Some i => take (i - 15) (drop 15 rest)
  | None => drop 15 rest
  end.

(** The [while] over the lines of a head: [length] and [have_length]. *)
Fixpoint length_loop (fuel : nat) (head : bytes) (line : option nat) (length : option Z) : option (option Z) :=
  match line with
  | None => Some length
  | Some line =>
      match fuel with
      | O => None
      | S f =>
          let rest := drop (line + 2) head in
          let length := if iequals_prefix rest (B "content-length:") then Some (strtoull (length_text rest)) else length in
          length_loop f head (find_sub_from kCRLF head (line + 2)) length
      end
  end.

(** [None]: no such line.  A round moves at least two characters on ([LoadgenTheorems.length_loop_total]). *)
Definition head_length (head : bytes) : option Z :=
  match length_loop (S (length head)) head (find_sub kCRLF head) None with Some r => r | None => None end.

(** ** Data *)

Record Options := mkLOptions {
  lo_host : bytes; lo_port : Z; lo_path : bytes; lo_connections : Z; lo_threads : Z; lo_duration_s : Z; lo_pipeline : Z }.

Definition LOptions_default : Options := mkLOptions (B "127.0.0.1") 8080 (B "/healthz") 64 2 10 1.

Record ThreadStats := mkStats {
  requests : Z; non_2xx : Z; socket_errors : Z; reconnects : Z; bytes_read : Z; latencies_ns : list Z }.

Definition ThreadStats_new : ThreadStats := mkStats 0 0 0 0 0 [].

Record Conn := mkLConn { l_fd : Z; l_out : bytes; l_out_off : nat; l_in : bytes; l_sent_at : list Z }.

Definition Conn_new : Conn := mkLConn (-1) [] 0 [] [].

(** ** System calls *)

Inductive client_error : Set := CIntr | CAgain | CNotConn | COther.

(** [c_socket] creates the non-blocking socket, [c_connect] sets [TCP_NODELAY]
    and connects to the address the text stands for; the code ignores whether
    they succeed.  [c_epoll_wait] yields the index and whether [EPOLLERR] is set for each
    event; a failed wait yields none. *)
Class ClientKernel (K : Type) := {
  c_socket : K -> Z * K;
  c_connect : K -> Z -> bytes -> Z -> K;
  c_epoll_create : K -> Z * K;
  c_epoll_add : K -> Z -> Z -> nat -> K;
  c_epoll_wait : K -> Z -> list (nat * bool) * K;
  c_recv : K -> Z -> (bytes + client_error) * K;
  c_send : K -> Z -> bytes -> (Z + client_error) * K;
  c_close : K -> Z -> K;
  c_now : K -> Z * K }.

Section Worker.
Context {K : Type} `{ClientKernel K}.
Context (opt_ : Options) (deadline_ : Z).

Definition request_ : bytes :=
  B "GET " ++ lo_path opt_ ++ B " HTTP/1.1" ++ kCRLF ++ B "Host: " ++ lo_host opt_ ++ kCRLF
  ++ B "User-Agent: loadgen" ++ kCRLF ++ kCRLF.

Definition enqueue (c : Conn) (k : K) : Conn * K :=
  let '(now, k) := c_now k in
  (mkLConn (l_fd c) (l_out c ++ request_) (l_out_off c) (l_in c) (l_sent_at c ++ [u64 now]), k).

Fixpoint enqueue_n (n : nat) (c : Conn) (k : K) : Conn * K :=
  match n with
  | O => (c, k)
  | S n' => let '(c, k) := enqueue c k in enqueue_n n' c k
  end.

(** [open]; [idx] is only registered with [epoll]. *)
Definition open_conn (ep idx : Z) (k : K) : Conn * K :=
  let '(fd, k) := c_socket k in
  let k := c_connect k fd (lo_host opt_) (lo_port opt_) in
  let k := c_epoll_add k ep fd (Z.to_nat idx) in
  enqueue_n (Z.to_nat (lo_pipeline opt_)) (mkLConn fd [] 0 [] []) k.

(** ** Reading responses *)

(** How a function on a connection ends: [return true], [return false], [std::exit(1)]. *)
Inductive served : Set := Kept | Broken | Quit.

#[export] Instance served_eq_dec : EqDecision served.
Proof. solve_decision. Defined.

Definition CRLF2 : bytes := kCRLF ++ kCRLF.

(** A response was read: the members of [stats] and of [c] change. *)
Definition record_latency (status : Z) (c : Conn) (first : Z) (rest : list Z) (st : ThreadStats) (k : K)
  : Conn * ThreadStats * K :=
  let '(now, k) := c_now k in
  let lat := latencies_ns st ++ [u64 (u64 now - first)] in
  let bad := if (status <? 200) || (status >=? 300) then u64 (non_2xx st + 1) else non_2xx st in
  let st := mkStats (u64 (requests st + 1)) bad (socket_errors st) (reconnects st) (bytes_read st) lat in
  let c := mkLConn (l_fd c) (l_out c) (l_out_off c) (l_in c) rest in
  let '(now, k) := c_now k in
  if now <? deadline_ then let '(c, k) := enqueue c k in (c, st, k) else (c, st, k).

(** One round of the [for (;;)] of [consume_responses]: [inl] when it goes on from the new [pos]. *)
Definition consume_round (pos : nat) (c : Conn) (st : ThreadStats) (k : K)
  : (nat * Conn * ThreadStats * K) + (served * Conn * ThreadStats * K) :=
  let stop := inr (Kept, mkLConn (l_fd c) (l_out c) (l_out_off c) (drop pos (l_in c)) (l_sent_at c), st, k) in
  match find_sub_from CRLF2 (l_in c) pos with
  | None => stop
  | Some head_end =>
      let head := take (head_end - pos) (drop pos (l_in c)) in
      if (length head <? 12)%nat then inr (Broken, c, st, k)
      else
        let status := atoi (take 3 (drop 9 head)) in
        match head_length head with
        | None => inr (Quit, c, st, k)
        | Some len =>
            let total := u64 (Z.of_nat (head_end + 4 - pos) + len) in
            if Z.of_nat (length (l_in c) - pos) <? total then stop
            else
              match l_sent_at c with
              | [] => inr (Broken, c, st, k)
              | first :: rest =>
                  let '(c, st, k) := record_latency status c first rest st k in
                  inl ((pos + Z.to_nat total)%nat, c, st, k)
              end
        end
  end.

Fixpoint consume_loop (fuel pos : nat) (c : Conn) (st : ThreadStats) (k : K) : option (served * Conn * ThreadStats * K) :=
  match fuel with
  | O => None
  | S f =>
      match consume_round pos c st k with
      | inr r => Some r
      | inl (pos, c, st, k) => consume_loop f pos c st k
      end
  end.

Definition consume_responses (fuel : nat) (c : Conn) (st : ThreadStats) (k : K) : option (served * Conn * ThreadStats * K) :=
  consume_loop fuel 0 c st k.

(** ** One connection *)

(** The reading loop of [service]; [true]: nothing more to read. *)
Fixpoint recv_loop (fuel : nat) (c : Conn) (st : ThreadStats) (k : K) : option (bool * Conn * ThreadStats * K) :=
  match fuel with
  | O => None
  | S f =>
      let '(r, k) := c_recv k (l_fd c) in
      match r with
      | inl [] => Some (false, c, st, k)
      | inl bs =>
          recv_loop f (mkLConn (l_fd c) (l_out c) (l_out_off c) (l_in c ++ bs) (l_sent_at c))
            (mkStats (requests st) (non_2xx st) (socket_errors st) (reconnects st) (u64 (bytes_read st + zlen bs)) (latencies_ns st)) k
      | inr CAgain => Some (true, c, st, k)
      | inr CIntr => recv_loop f c st k
      | inr _ => Some (false, c, st, k)
      end
  end.

(** The sending loop. *)
Fixpoint send_loop (fuel : nat) (c : Conn) (k : K) : option (bool * Conn * K) :=
  if (l_out_off c <? length (l_out c))%nat then
    match fuel with
    | O => None
    | S f =>
        let '(r, k) := c_send k (l_fd c) (drop (l_out_off c) (l_out c)) in
        match r with
        | inl n =>
            if n >? 0 then send_loop f (mkLConn (l_fd c) (l_out c) (l_out_off c + Z.to_nat n) (l_in c) (l_sent_at c)) k
            else Some (false, c, k)
        | inr CAgain | inr CNotConn => Some (true, c, k)
        | inr CIntr => send_loop f c k
        | inr COther => Some (false, c, k)
        end
    end
  else Some (true, c, k).

Definition service (fuel : nat) (c : Conn) (err : bool) (st : ThreadStats) (k : K) : option (served * Conn * ThreadStats * K) :=
  if err then Some (Broken, c, st, k)
  else
    match recv_loop fuel c st k with
    | None => None
    | Some (false, c, st, k) => Some (Broken, c, st, k)
    | Some (true, c, st, k) =>
        match consume_responses fuel c st k with
        | None => None
        | Some (Kept, c, st, k) =>
            match send_loop fuel c k with
            | None => None
            | Some (false, c, k) => Some (Broken, c, st, k)
            | Some (true, c, k) =>
                let c := if (l_out_off c =? length (l_out c))%nat then mkLConn (l_fd c) [] 0 (l_in c) (l_sent_at c) else c in
                Some (Kept, c, st, k)
            end
        | Some r => Some r
        end
    end.

(** ** The worker *)

Record Worker := mkLWorker { w_conns : list Conn; w_stats : ThreadStats; w_ep : Z; w_kern : K }.

Definition reopen (idx : nat) (w : Worker) : Worker :=
  match w_conns w !! idx with
  | None => w
  | Some c =>
      let k := c_close (w_kern w) (l_fd c) in
      let st := w_stats w in
      let st := mkStats (requests st) (non_2xx st) (socket_errors st) (u64 (reconnects st + 1)) (bytes_read st) (latencies_ns st) in
      let '(c, k) := open_conn (w_ep w) (Z.of_nat idx) k in
      mkLWorker (<[idx := c]> (w_conns w)) st (w_ep w) k
  end.

(** The loop over the events of a batch; [None]: out of fuel, or an event for
    a connection that does not exist.  The flag says whether the process goes on. *)
Fixpoint events_loop (fuel : nat) (evs : list (nat * bool)) (w : Worker) : option (bool * Worker) :=
  match evs with
  | [] => Some (true, w)
  | (idx, err) :: evs' =>
      match w_conns w !! idx with
      | None => None
      | Some c =>
          match service fuel c err (w_stats w) (w_kern w) with
          | None => None
          | Some (r, c, st, k) =>
              let w := mkLWorker (<[idx := c]> (w_conns w)) st (w_ep w) k in
              match r with
              | Quit => Some (false, w)
              | Kept => events_loop fuel evs' w
              | Broken =>
                  let st := mkStats (requests st) (non_2xx st) (u64 (socket_errors st + 1)) (reconnects st) (bytes_read st) (latencies_ns st) in
                  events_loop fuel evs' (reopen idx (mkLWorker (w_conns w) st (w_ep w) k))
              end
          end
      end
  end.

(** [for (std::size_t i = 0; …) open(i);] from [i]; [n] are left. *)
Fixpoint open_all (n : nat) (i : Z) (ep : Z) (k : K) : list Conn * K :=
  match n with
  | O => ([], k)
  | S n' =>
      let '(c, k) := open_conn ep i k in
      let '(cs, k) := open_all n' (i + 1) ep k in
      (c :: cs, k)
  end.

(** The constructor and the beginning of [run]. *)
Definition Worker_begin (conns : nat) (k : K) : Worker :=
  let '(ep, k) := c_epoll_create k in
  let '(cs, k) := open_all conns 0 ep k in
  mkLWorker cs ThreadStats_new ep k.

(** One round of [while (Clock::now() < deadline_)]: whether it is over ([inr]: the process ended). *)
Definition run_pass (fuel : nat) (w : Worker) : option ((bool * Worker) + Worker) :=
  let '(now, k) := c_now (w_kern w) in
  if now <? deadline_ then
    let '(evs, k) := c_epoll_wait k (w_ep w) in
    match events_loop fuel evs (mkLWorker (w_conns w) (w_stats w) (w_ep w) k) with
    | None => None
    | Some (true, w) => Some (inl (true, w))
    | Some (false, w) => Some (inr w)
    end
  else Some (inl (false, mkLWorker (w_conns w) (w_stats w) (w_ep w) k)).

(** The end of [run]. *)
Definition close_conns (w : Worker) : Worker :=
  let k := fold_left (fun k c => if l_fd c >=? 0 then c_close k (l_fd c) else k) (w_conns w) (w_kern w) in
  mkLWorker (w_conns w) (w_stats w) (w_ep w) (c_close k (w_ep w)).

(** [run] for at most [n] rounds; [inl]: still running; [inr]: whether it returned (else the process ended). *)
Fixpoint run_worker (n fuel : nat) (w : Worker) : option (Worker + (bool * Worker)) :=
  match n with
  | O => Some (inl w)
  | S n' =>
      match run_pass fuel w with
      | None => None
      | Some (inr w) => Some (inr (false, w))
      | Some (inl (false, w)) => Some (inr (true, close_conns w))
      | Some (inl (true, w)) => run_worker n' fuel w
      end
  end.

End Worker.

Arguments Worker : clear implicits.

(** ** [main] *)

(** [int share = connections / threads + (t < connections % threads ? 1 : 0)]. *)
Definition share (connections threads t : Z) : Z :=
  Z.quot connections threads + (if t <? Z.rem connections threads then 1 else 0).

Inductive loutcome := LStart (o : Options) | LExit (status : Z).

Definition set_lport v o := mkLOptions (lo_host o) v (lo_path o) (lo_connections o) (lo_threads o) (lo_duration_s o) (lo_pipeline o).
Definition set_lconns v o := mkLOptions (lo_host o) (lo_port o) (lo_path o) v (lo_threads o) (lo_duration_s o) (lo_pipeline o).
Definition set_lthreads v o := mkLOptions (lo_host o) (lo_port o) (lo_path o) (lo_connections o) v (lo_duration_s o) (lo_pipeline o).
Definition set_lduration v o := mkLOptions (lo_host o) (lo_port o) (lo_path o) (lo_connections o) (lo_threads o) v (lo_pipeline o).
Definition set_lpipeline v o := mkLOptions (lo_host o) (lo_port o) (lo_path o) (lo_connections o) (lo_threads o) (lo_duration_s o) v.

(** The loop over the arguments. *)
Fixpoint loadgen_options (argv : list bytes) (o : Options) : loutcome :=
  match argv with
  | [] => LStart o
  | a :: rest =>
      let num (f : Z -> Options) : loutcome :=
        match rest with
        | [] => LExit 2
        | v :: rest' => loadgen_options rest' (f (atoi v))
        end in
      match bytes_eqb a (B "--host"), rest with
      | true, v :: rest' =>
          loadgen_options rest' (mkLOptions v (lo_port o) (lo_path o) (lo_connections o) (lo_threads o) (lo_duration_s o) (lo_pipeline o))
      | _, _ =>
          if bytes_eqb a (B "--port") then num (fun v => set_lport (v mod 2 ^ 16) o)
          else
            match bytes_eqb a (B "--path"), rest with
            | true, v :: rest' =>
                loadgen_options rest' (mkLOptions (lo_host o) (lo_port o) v (lo_connections o) (lo_threads o) (lo_duration_s o) (lo_pipeline o))
            | _, _ =>
                if bytes_eqb a (B "-c") then num (fun v => set_lconns v o)
                else if bytes_eqb a (B "-t") then num (fun v => set_lthreads v o)
                else if bytes_eqb a (B "-d") then num (fun v => set_lduration v o)
                else if bytes_eqb a (B "-p") then num (fun v => set_lpipeline v o)
                else LExit (if bytes_eqb a (B "-h") || bytes_eqb a (B "--help") then 0 else 2)
            end
      end
  end.

(** The lines after it. *)
Definition settle (o : Options) : Options :=
  let o := set_lthreads (Z.max 1 (Z.min (lo_threads o) (lo_connections o))) o in
  set_lpipeline (Z.max 1 (lo_pipeline o)) o.

(** The number of connections each worker is built with. *)
Definition shares (o : Options) : list Z :=
  (fun t => share (lo_connections o) (lo_threads o) (Z.of_nat t)) <$> seq 0 (Z.to_nat (lo_threads o)).

(** The sum of the statistics. *)
Definition add_stats (a b : ThreadStats) : ThreadStats :=
  mkStats (u64 (requests a + requests b)) (u64 (non_2xx a + non_2xx b)) (u64 (socket_errors a + socket_errors b))
    (u64 (reconnects a + reconnects b)) (u64 (bytes_read a + bytes_read b)) (latencies_ns a ++ latencies_ns b).

Definition total_stats (ws : list ThreadStats) : ThreadStats :=
  let all := fold_left add_stats ws ThreadStats_new in
  mkStats (requests all) (non_2xx all) (socket_errors all) (reconnects all) (bytes_read all) (merge_sort Z.le (latencies_ns all)).

(** [pct]; [index n] is [static_cast<std::size_t>(p / 100.0 * static_cast<double>(n - 1))]. *)
Definition pct (index : Z -> nat) (sorted : list Z) : Z :=
  match sorted with
  | [] => 0
  | _ => nth (index (zlen sorted)) sorted 0
  end.

Definition exit_status (all : ThreadStats) : Z := if (socket_errors all =? 0) && (non_2xx all =? 0) then 0 else 1.
