(* ===== verification/LoadgenFacts.v ===== *)
(** * The load generator against the server: reading one response

    How [consume_responses] sees the text [write_head] produced. *)

From S2P Require Import Prelude Headers RequestParser Numbers ParserFacts ParserSegmentation Response ChunkCodec ResponseHead Main Loadgen.

Open Scope Z_scope.

(** ** The end of a head *)

Lemma find_sub_cons p c s : find_sub p (c :: s) = if starts_with p (c :: s) then Some 0%nat else S <$> find_sub p s.
Proof. done. Qed.

Lemma find_sub_skip p c s : c <> CR -> find_sub (CR :: p) (c :: s) = S <$> find_sub (CR :: p) s.
Proof. intros Hc. cbn [find_sub starts_with]. by rewrite (proj2 (ascii_eqb_neq CR c)). Qed.

Lemma find_sub_skip_app p a s : CR ∉ a -> find_sub (CR :: p) (a ++ s) = Nat.add (length a) <$> find_sub (CR :: p) s.
Proof.
  induction a as [|c a IH]; intros Ha; [cbn [app length]; by destruct (find_sub (CR :: p) s)|]. apply not_elem_of_cons in Ha as [Hc Ha].
  cbn [app]. rewrite find_sub_skip, IH by done. by destruct (find_sub _ s).
Qed.

(** A line and what follows it in a head. *)
Definition ftext (f : Field) : bytes := f.1 ++ B ": " ++ f.2.
Definition crlf_lines (fs : list Field) : bytes := concat ((fun f => kCRLF ++ ftext f) <$> fs).

(** Lines a head is made of. *)
Definition line_clean (s : bytes) : Prop := CR ∉ s /\ s <> [].

Lemma find_sub_here p x : find_sub p (p ++ x) = Some 0%nat.
Proof.
  pose proof (starts_with_app_self p x) as Hs. destruct (p ++ x); cbn [find_sub]; by rewrite Hs.
Qed.

(** An empty line does not begin at a terminator that is followed by a line. *)
Lemma find_blank_next s x : line_clean s -> find_sub CRLF2 (kCRLF ++ s ++ x) = Nat.add 2 <$> find_sub CRLF2 (s ++ x).
Proof.
  intros [Hcr Hne]. destruct s as [|c t]; [done|]. apply not_elem_of_cons in Hcr as [Hc _].
  assert (starts_with CRLF2 (kCRLF ++ (c :: t) ++ x) = false) as Hs.
  { destruct (starts_with _ _) eqn:E; [|done]. apply starts_with_iff in E as [u E]. unfold CRLF2, kCRLF in E. cbn [app] in E.
    injection E as E _. congruence. }
  unfold kCRLF in *. cbn [app] in *. rewrite find_sub_cons, Hs. change (find_sub CRLF2) with (find_sub (CR :: LF :: kCRLF)).
  rewrite find_sub_skip by done. by destruct (find_sub _ (c :: t ++ x)).
Qed.

Lemma find_blank (fs : list Field) l x :
  line_clean l -> Forall (fun f => line_clean (ftext f)) fs ->
  find_sub CRLF2 (l ++ crlf_lines fs ++ CRLF2 ++ x) = Some (length l + length (crlf_lines fs))%nat.
Proof.
  intros Hl Hfs. revert l Hl. induction Hfs as [|f fs Hf _ IH]; intros l [Hcr Hne];
    rewrite (find_sub_skip_app (LF :: kCRLF)) by done; change (CR :: LF :: kCRLF) with CRLF2.
  - change (crlf_lines []) with (@nil ascii). cbn [app length]. by rewrite find_sub_here.
  - unfold crlf_lines. cbn [fmap list_fmap concat]. fold (crlf_lines fs). rewrite <- !app_assoc, find_blank_next, IH by done.
    cbn [fmap option_fmap option_map]. f_equal. rewrite !length_app. change (length kCRLF) with 2%nat. lia.
Qed.

(** ** Content-Length *)

Lemma iequals_prefix_name n p c t :
  c ∉ lower n -> c ∉ lower p -> ascii_lower c = c ->
  iequals_prefix (n ++ c :: t) (p ++ [c]) = iequals n p.
Proof.
  intros Hn Hp Hc. rewrite iequals_bool. revert p Hp. induction n as [|a n IH]; intros [|b p] Hp; cbn [app iequals_prefix].
  - rewrite (proj2 (ascii_eqb_spec _ _)) by done. by destruct t.
  - apply not_elem_of_cons in Hp as [Hb _]. rewrite Hc. rewrite (proj2 (ascii_eqb_neq _ _)) by done. by rewrite bool_decide_eq_false_2.
  - apply not_elem_of_cons in Hn as [Ha _]. rewrite Hc, (proj2 (ascii_eqb_neq _ _)) by done. by rewrite bool_decide_eq_false_2.
  - apply not_elem_of_cons in Hn as [Ha Hn]. apply not_elem_of_cons in Hp as [Hb Hp]. rewrite IH by done.
    unfold lower. cbn [fmap list_fmap]. destruct (Ascii.eqb (ascii_lower a) (ascii_lower b)) eqn:E; cbn [andb].
    + apply ascii_eqb_spec in E. rewrite E. apply bool_decide_ext. split; [by intros ->|by intros [= ->]].
    + apply ascii_eqb_neq in E. symmetry. apply bool_decide_eq_false_2. by intros [= ? _].
Qed.

Definition kCL : bytes := B "Content-Length".

(** What the loop over the lines makes of the fields. *)
Definition last_length (fs : list Field) (init : option Z) : option Z :=
  fold_left (fun acc (f : Field) => if iequals f.1 kCL then Some (strtoull (SP :: f.2)) else acc) fs init.

Lemma crlf_lines_cons f fs : crlf_lines (f :: fs) = kCRLF ++ ftext f ++ crlf_lines fs.
Proof. unfold crlf_lines. cbn [fmap list_fmap concat]. by rewrite <- app_assoc. Qed.

Lemma find_line_end s fs : CR ∉ s -> find_sub kCRLF (s ++ crlf_lines fs) = match fs with [] => None | _ => Some (length s) end.
Proof.
  intros Hs. destruct fs as [|f fs].
  - rewrite (find_sub_skip_app [LF]) by done. done.
  - rewrite crlf_lines_cons. by apply find_crlf_line.
Qed.

Lemma field_clean f : field_ok f -> line_clean (ftext f).
Proof.
  intros [Ht Hv]. apply is_token_tchars in Ht as [Ht Hne]. split.
  - unfold ftext. rewrite !elem_of_app. intros [Hi|[Hi|Hi]].
    + by apply (token_not_in _ CR) in Hi.
    + revert Hi. apply (bool_decide_unpack _). vm_compute. exact I.
    + by apply (value_ok_not_in _ CR) in Hi.
  - unfold ftext. by destruct f.1.
Qed.

Lemma colon_not_lower n : forallb is_tchar n = true -> ":"%char ∉ lower n.
Proof.
  intros Hn Hi. unfold lower in Hi. apply list_elem_of_fmap in Hi as (c & Hc & Hin). apply list_elem_of_In in Hin.
  rewrite forallb_forall in Hn. specialize (Hn c Hin). revert Hc Hn. clear. by all_bytes c.
Qed.

Lemma field_is_length f t : field_ok f -> iequals_prefix (ftext f ++ t) (B "content-length:") = iequals f.1 kCL.
Proof.
  intros [Ht _]. apply is_token_tchars in Ht as [Ht _]. unfold ftext.
  change (B "content-length:") with (B "content-length" ++ [":"%char]). change (B ": ") with [":"%char; SP].
  rewrite <- !app_assoc. cbn [app]. rewrite iequals_prefix_name; [|by apply colon_not_lower|..|done].
  - by rewrite !iequals_bool.
  - apply (bool_decide_unpack _). vm_compute. exact I.
Qed.

Lemma length_text_field f fs : field_ok f -> iequals f.1 kCL = true -> length_text (ftext f ++ crlf_lines fs) = SP :: f.2.
Proof.
  intros Hf Hn. destruct (field_clean f Hf) as [Hcr _]. unfold length_text. rewrite find_line_end by done.
  assert (drop 15 (ftext f) = SP :: f.2) as Hd.
  { apply iequals_lower in Hn. apply (f_equal length) in Hn. unfold lower in Hn. rewrite !length_fmap in Hn.
    change (length kCL) with 14%nat in Hn. unfold ftext. change (B ": " ++ f.2) with ([":"%char] ++ SP :: f.2).
    rewrite app_assoc, drop_app_length'; [done|]. rewrite length_app, Hn. done. }
  assert (15 <= length (ftext f))%nat as Hl.
  { apply (f_equal length) in Hd. rewrite length_drop in Hd. cbn [length] in Hd. lia. }
  destruct fs as [|g fs]; rewrite drop_app_le, Hd by done.
  - change (crlf_lines []) with (@nil ascii). apply app_nil_r.
  - rewrite <- Hd. apply take_app_length'. by rewrite length_drop.
Qed.

Lemma length_loop_lines fs fuel pre acc :
  (length fs < fuel)%nat -> Forall field_ok fs ->
  length_loop fuel (pre ++ crlf_lines fs) (match fs with [] => None | _ => Some (length pre) end) acc = Some (last_length fs acc).
Proof.
  intros Hfuel Hfs. revert fuel pre acc Hfuel. induction Hfs as [|f fs Hf _ IH]; intros fuel pre acc Hfuel.
  { by destruct fuel. }
  destruct fuel as [|fuel]; [cbn [length] in Hfuel; lia|]. cbn [length_loop].
  destruct (field_clean f Hf) as [Hcr _]. rewrite crlf_lines_cons.
  assert (drop (length pre + 2) (pre ++ kCRLF ++ ftext f ++ crlf_lines fs) = ftext f ++ crlf_lines fs) as Hdrop.
  { by rewrite drop_app_add. }
  unfold find_sub_from. rewrite Hdrop, field_is_length, find_line_end by done.
  replace (pre ++ kCRLF ++ ftext f ++ crlf_lines fs) with ((pre ++ kCRLF ++ ftext f) ++ crlf_lines fs) by (by rewrite <- !app_assoc).
  assert (Nat.add (length pre + 2) <$> match fs with [] => None | _ => Some (length (ftext f)) end
    = match fs with [] => None | _ => Some (length (pre ++ kCRLF ++ ftext f)) end) as ->.
  { destruct fs; [done|]. cbn [fmap option_fmap option_map]. f_equal. rewrite !length_app. change (length kCRLF) with 2%nat. lia. }
  rewrite IH by (cbn [length] in Hfuel; lia). cbn [last_length fold_left]. f_equal. unfold last_length. f_equal.
  destruct (iequals f.1 kCL) eqn:E; [|done]. by rewrite length_text_field.
Qed.

Lemma head_length_lines l fs :
  CR ∉ l -> Forall field_ok fs -> head_length (l ++ crlf_lines fs) = last_length fs None.
Proof.
  intros Hl Hfs. unfold head_length. rewrite find_line_end by done. rewrite length_loop_lines; [done| |done].
  rewrite length_app. assert (length fs <= length (crlf_lines fs))%nat; [|lia]. clear.
  induction fs as [|f fs IH]; [done|]. rewrite crlf_lines_cons, !length_app. change (length kCRLF) with 2%nat. cbn [length]. lia.
Qed.

Lemma last_length_values fs acc :
  last_length fs acc = match list.last (values_of kCL fs) with Some v => Some (strtoull (SP :: v)) | None => acc end.
Proof.
  unfold last_length, values_of. revert acc. induction fs as [|f fs IH]; intros acc; [done|]. cbn [fold_left List.filter].
  rewrite IH. destruct (iequals f.1 kCL); [|done]. cbn [fmap list_fmap]. rewrite last_cons. by destruct (list.last _).
Qed.

Lemma strtoull_to_chars n : 0 <= n < 2 ^ 64 -> strtoull (SP :: to_chars 10 n) = n.
Proof.
  intros Hn. destruct (to_chars_spec 10 n) as (E1 & E2 & E3 & _); [lia|lia|]. apply base_digit_dec in E2.
  unfold strtoull, strtoul. cbn [skip_space]. change (is_space SP) with true. cbn iota.
  destruct (to_chars 10 n) as [|c s] eqn:Ec; [done|]. assert (is_digit c = true) as Hc by (cbn in E2; by bool_hyps).
  destruct (digit_plain c Hc) as (Hs & Hm & Hp). cbn [skip_space]. rewrite Hs. cbn [skip_sign]. rewrite Hm, Hp.
  rewrite span_digits_all by done. rewrite dec_value_num, E1 by done. by destruct (Z.ltb_spec n (2 ^ 64)); [|lia].
Qed.

(** ** A response framed by its length *)

Record answer := mkAnswer { a_res : Response; a_opts : HeadOptions; a_body : bytes }.

Record answer_ok (a : answer) : Prop := {
  an_framing : (choose_framing (a_res a) (a_opts a)).1 = ContentLength;
  an_length : zlen (a_body a) = announced_length (a_res a);
  an_status : 100 <= status (a_res a) <= 999;
  an_fields : Forall field_ok (head_fields (a_res a) (a_opts a)) }.

Definition answer_text (a : answer) : bytes := head_text (a_res a) (a_opts a) ++ a_body a.

(** The head without the empty line at its end. *)
Definition first_line (s : Z) : bytes := B "HTTP/1.1 " ++ to_chars 10 (u64 s) ++ [SP] ++ reason_phrase s.
Definition head_of (a : answer) : bytes :=
  first_line (status (a_res a)) ++ crlf_lines (head_fields (a_res a) (a_opts a)).

Lemma crlf_field_lines fs : kCRLF ++ field_lines fs = crlf_lines fs ++ kCRLF.
Proof.
  induction fs as [|f fs IH]; [by rewrite app_nil_r|]. rewrite crlf_lines_cons. unfold field_lines, field_line, ftext in *.
  cbn [fmap list_fmap concat]. rewrite <- !app_assoc. do 4 f_equal. exact IH.
Qed.

Lemma answer_text_eq a : answer_text a = head_of a ++ CRLF2 ++ a_body a.
Proof.
  unfold answer_text, head_text, head_of, status_line, first_line, CRLF2. rewrite <- !app_assoc. do 4 f_equal.
  rewrite (app_assoc kCRLF (field_lines _)), crlf_field_lines. by rewrite <- !app_assoc.
Qed.

(** The status line of every status of three digits. *)
Lemma first_line_status s : 100 <= s <= 999 ->
  line_clean (first_line s) /\ (12 <= length (first_line s))%nat /\ forall x, atoi (take 3 (drop 9 (first_line s ++ x))) = s.
Proof.
  intros Hs.
  assert (Forall (fun n => let s := Z.of_nat n in
    forallb (fun c => negb (Ascii.eqb CR c)) (first_line s) && (12 <=? length (first_line s))%nat
    && (atoi (take 3 (drop 9 (first_line s))) =? s) = true) (seq 100 900)) as Hall.
  { apply List.Forall_forall. apply forallb_forall. vm_compute. reflexivity. }
  rewrite List.Forall_forall in Hall. specialize (Hall (Z.to_nat s)).
  rewrite in_seq, Z2Nat.id in Hall by lia. specialize (Hall ltac:(lia)). cbn zeta in Hall. bool_hyps.
  assert (12 <= length (first_line s))%nat as Hl by (by apply Nat.leb_le).
  split; [split|split; [done|]].
  - intros Hin. apply list_elem_of_In in Hin. match goal with H : forallb _ _ = true |- _ => rewrite forallb_forall in H; specialize (H _ Hin) end.
    by rewrite Ascii.eqb_refl in *.
  - by destruct (first_line s).
  - intros x. rewrite drop_app_le, take_app_le by (rewrite ?length_drop; lia). by apply Z.eqb_eq.
Qed.

Section Answer.
Context (a : answer) (Ha : answer_ok a).

Lemma answer_head_end x : find_sub CRLF2 (answer_text a ++ x) = Some (length (head_of a)).
Proof.
  rewrite answer_text_eq. unfold head_of. rewrite <- !app_assoc, length_app.
  apply find_blank; [apply (first_line_status _ (an_status a Ha))|].
  eapply List.Forall_impl; [apply field_clean|apply (an_fields a Ha)].
Qed.

Lemma answer_head_length : zlen (a_body a) < 2 ^ 64 -> head_length (head_of a) = Some (zlen (a_body a)).
Proof.
  intros Hb. unfold head_of. rewrite head_length_lines; [|apply (first_line_status _ (an_status a Ha))|apply (an_fields a Ha)].
  rewrite last_length_values. unfold kCL. rewrite content_length_of_head, (an_framing a Ha). cbn [list.last].
  rewrite <- (an_length a Ha), strtoull_to_chars; [done|]. pose proof (zlen_nonneg (a_body a)). lia.
Qed.

Lemma answer_status x : atoi (take 3 (drop 9 (head_of a ++ x))) = status (a_res a).
Proof. unfold head_of. rewrite <- app_assoc. apply (first_line_status _ (an_status a Ha)). Qed.

Lemma head_of_length : (12 <= length (head_of a))%nat.
Proof. unfold head_of. rewrite length_app. pose proof (first_line_status _ (an_status a Ha)). lia. Qed.

Lemma answer_text_length : length (answer_text a) = (length (head_of a) + 4 + length (a_body a))%nat.
Proof. rewrite answer_text_eq, !length_app. change (length CRLF2) with 4%nat. lia. Qed.

End Answer.

(** ** Consuming responses *)

Section Consume.
Context {K : Type} `{ClientKernel K} (opt_ : Loadgen.Options) (deadline_ : Z).

#[local] Abbreviation Conn := Loadgen.Conn.

(** The connection after [n] responses were read and [m] requests queued. *)
Record progressed (n m : nat) (c : Conn) (st : ThreadStats) (c' : Conn) (st' : ThreadStats) : Prop := {
  pg_fd : l_fd c' = l_fd c;
  pg_off : l_out_off c' = l_out_off c;
  pg_out : l_out c' = l_out c ++ concat (replicate m (request_ opt_));
  pg_flight : (length (l_sent_at c') + n = length (l_sent_at c) + m)%nat;
  pg_requests : u64 (requests st') = u64 (requests st + Z.of_nat n);
  pg_errors : socket_errors st' = socket_errors st /\ reconnects st' = reconnects st /\ bytes_read st' = bytes_read st;
  pg_latencies : exists l, latencies_ns st' = latencies_ns st ++ l /\ length l = n }.

(** The statuses that count as failures. *)
Definition failures (ss : list Z) : Z := zlen (List.filter (fun s => (s <? 200) || (s >=? 300)) ss).

Lemma failures_cons s ss : failures (s :: ss) = failures [s] + failures ss.
Proof. unfold failures, zlen. cbn [List.filter]. destruct (_ || _); cbn [length]; lia. Qed.

Lemma record_latency_spec status (c : Conn) first rest st (k : K) :
  l_sent_at c = first :: rest ->
  let '(c', st', k') := record_latency opt_ deadline_ status c first rest st k in
  l_in c' = l_in c /\ u64 (non_2xx st') = u64 (non_2xx st + failures [status])
  /\ exists m, (m <= 1)%nat /\ progressed 1 m c st c' st' /\ ((forall k, (c_now k).1 < deadline_) -> m = 1%nat).
Proof.
  intros Hs. unfold record_latency. destruct (c_now k) as [t1 k1]. pose proof (fun Hd : forall k, (c_now k).1 < deadline_ => Hd k1) as Hd.
  destruct (c_now k1) as [t2 k2]. cbn [fst] in Hd.
  assert (u64 (if (status <? 200) || (status >=? 300) then u64 (non_2xx st + 1) else non_2xx st) = u64 (non_2xx st + failures [status])) as Hf.
  { unfold failures, zlen. cbn [List.filter]. destruct (_ || _); cbn [length]; [apply Zmod_mod|by rewrite Z.add_0_r]. }
  destruct (Z.ltb_spec t2 deadline_) as [Hlt|Hge].
  - unfold enqueue. destruct (c_now k2) as [t3 k3]. split; [done|]. split; [exact Hf|]. exists 1%nat. split; [done|]. split; [|done].
    split; cbn [l_fd l_out_off l_out l_sent_at requests socket_errors reconnects bytes_read latencies_ns replicate concat]; try done.
    + by rewrite app_nil_r.
    + rewrite Hs, length_app. cbn [length]. lia.
    + apply Zmod_mod.
    + by eexists [_].
  - split; [done|]. split; [exact Hf|]. exists 0%nat. split; [lia|]. split; [|intros Hall; specialize (Hd Hall); lia].
    split; cbn [l_fd l_out_off l_out l_sent_at requests socket_errors reconnects bytes_read latencies_ns replicate concat]; try done.
    + by rewrite app_nil_r.
    + rewrite Hs. cbn [length]. lia.
    + apply Zmod_mod.
    + by eexists [_].
Qed.

Lemma progressed_trans n m n' m' c st c1 st1 c2 st2 :
  progressed n m c st c1 st1 -> progressed n' m' c1 st1 c2 st2 -> progressed (n + n') (m + m') c st c2 st2.
Proof.
  intros [Hf Ho Hout Hfl Hr (He1 & He2 & He3) (l & Hl & Hll)] [Hf' Ho' Hout' Hfl' Hr' (He1' & He2' & He3') (l' & Hl' & Hll')].
  split; try congruence.
  - rewrite Hout', Hout, replicate_add, concat_app. by rewrite <- app_assoc.
  - lia.
  - rewrite Hr', <- u64_mod_add, Hr, u64_mod_add. f_equal. lia.
  - split_and!; congruence.
  - exists (l ++ l'). rewrite Hl', Hl, <- app_assoc. split; [done|]. rewrite length_app. lia.
Qed.

(** A complete response at [pos]. *)
Lemma consume_round_answer a x pos (c : Conn) st (k : K) first rest :
  answer_ok a -> drop pos (l_in c) = answer_text a ++ x -> zlen (answer_text a) < 2 ^ 64 -> l_sent_at c = first :: rest ->
  consume_round opt_ deadline_ pos c st k
  = inl ((pos + length (answer_text a))%nat, (record_latency opt_ deadline_ (status (a_res a)) c first rest st k).1.1,
         (record_latency opt_ deadline_ (status (a_res a)) c first rest st k).1.2,
         (record_latency opt_ deadline_ (status (a_res a)) c first rest st k).2).
Proof.
  intros Ha Hd Hfit Hs. unfold consume_round, find_sub_from. rewrite Hd, answer_head_end by done. cbn [fmap option_fmap option_map].
  replace (pos + length (head_of a) - pos)%nat with (length (head_of a)) by lia.
  assert (take (length (head_of a)) (answer_text a ++ x) = head_of a) as ->.
  { rewrite answer_text_eq, <- app_assoc. apply take_app_length. }
  pose proof (head_of_length a Ha) as Hlen. destruct (Nat.ltb_spec (length (head_of a)) 12); [lia|].
  pose proof (answer_text_length a) as Htl. unfold zlen in Hfit.
  rewrite answer_head_length by (try done; unfold zlen; lia). rewrite u64_small by (unfold zlen; lia).
  assert (length (l_in c) - pos = length (answer_text a) + length x)%nat as Hl.
  { apply (f_equal length) in Hd. rewrite length_drop, length_app in Hd. lia. }
  rewrite Hl. destruct (Z.ltb_spec (Z.of_nat (length (answer_text a) + length x)) (Z.of_nat (pos + length (head_of a) + 4 - pos) + zlen (a_body a)));
    [unfold zlen in *; lia|].
  rewrite Hs. pose proof (answer_status a Ha []) as Hst. rewrite app_nil_r in Hst. rewrite Hst.
  destruct (record_latency _ _ _ _ _ _ _ _) as [[c' st'] k']. cbn [fst snd]. do 4 f_equal. unfold zlen. lia.
Qed.

(** An incomplete one. *)
Lemma consume_round_partial a tail rest pos (c : Conn) st (k : K) :
  answer_ok a -> answer_text a = tail ++ rest -> rest <> [] -> drop pos (l_in c) = tail -> zlen (answer_text a) < 2 ^ 64 ->
  consume_round opt_ deadline_ pos c st k
  = inr (Kept, mkLConn (l_fd c) (l_out c) (l_out_off c) tail (l_sent_at c), st, k).
Proof.
  intros Ha Ht Hne Hd Hfit. unfold consume_round, find_sub_from. rewrite Hd.
  destruct (find_sub CRLF2 tail) as [i|] eqn:Ei; [|done]. cbn [fmap option_fmap option_map].
  pose proof (find_sub_app_l _ _ rest _ Ei) as Hi. rewrite <- Ht in Hi.
  pose proof (answer_head_end a Ha []) as He. rewrite app_nil_r in He.
  assert (i = length (head_of a)) as -> by congruence.
  apply find_sub_bound in Ei. change (length CRLF2) with 4%nat in Ei.
  replace (pos + length (head_of a) - pos)%nat with (length (head_of a)) by lia.
  assert (take (length (head_of a)) tail = head_of a) as ->.
  { rewrite <- (take_app_le tail rest) by lia. rewrite <- Ht, answer_text_eq. apply take_app_length. }
  pose proof (head_of_length a Ha) as Hlen. destruct (Nat.ltb_spec (length (head_of a)) 12); [lia|].
  pose proof (answer_text_length a) as Htl. unfold zlen in Hfit.
  rewrite answer_head_length by (try done; unfold zlen; lia). rewrite u64_small by (unfold zlen; lia).
  assert (length (l_in c) - pos = length tail)%nat as Hl by (apply (f_equal length) in Hd; by rewrite length_drop in Hd).
  assert (length tail < length (answer_text a))%nat as Hlt.
  { rewrite Ht, length_app. destruct rest; [done|]. cbn [length]. lia. }
  rewrite Hl. destruct (Z.ltb_spec (Z.of_nat (length tail)) (Z.of_nat (pos + length (head_of a) + 4 - pos) + zlen (a_body a)));
    [done|unfold zlen in *; lia].
Qed.

(** What the connection has received: complete responses and the beginning of another. *)
Definition received (as_ : list answer) (tail : bytes) : bytes := concat (answer_text <$> as_) ++ tail.

Definition partial (tail : bytes) : Prop :=
  tail = [] \/ exists a rest, answer_ok a /\ zlen (answer_text a) < 2 ^ 64 /\ answer_text a = tail ++ rest /\ rest <> [].

Lemma consume_loop_answers as_ tail fuel pos (c : Conn) st (k : K) :
  Forall (fun a => answer_ok a /\ zlen (answer_text a) < 2 ^ 64) as_ -> partial tail ->
  drop pos (l_in c) = received as_ tail -> (length as_ <= length (l_sent_at c))%nat -> (length as_ < fuel)%nat ->
  exists m c' st' k', consume_loop opt_ deadline_ fuel pos c st k = Some (Kept, c', st', k')
    /\ l_in c' = tail /\ (m <= length as_)%nat /\ progressed (length as_) m c st c' st'
    /\ u64 (non_2xx st') = u64 (non_2xx st + failures (status <$> (a_res <$> as_)))
    /\ ((forall k, (c_now k).1 < deadline_) -> m = length as_).
Proof.
  intros Has Hp. revert fuel pos c st k. induction Has as [|a as_ [Ha Hfit] _ IH]; intros fuel pos c st k Hd Hs Hf;
    (destruct fuel as [|fuel]; [cbn [length] in Hf; lia|]); cbn [consume_loop].
  - cbn in Hd. assert (consume_round opt_ deadline_ pos c st k
      = inr (Kept, mkLConn (l_fd c) (l_out c) (l_out_off c) tail (l_sent_at c), st, k)) as ->.
    { destruct Hp as [->|(a & rest & Ha & Hfit & Ht & Hne)]; [|by eapply consume_round_partial].
      unfold consume_round, find_sub_from. by rewrite Hd. }
    exists 0%nat. do 3 eexists. split; [reflexivity|]. split; [done|]. split; [done|]. split; [|by rewrite Z.add_0_r].
    split; try done.
    + by rewrite app_nil_r.
    + by rewrite Z.add_0_r.
    + exists []. by rewrite app_nil_r.
  - destruct (l_sent_at c) as [|first rest] eqn:Es; [cbn [length] in Hs; lia|].
    unfold received in Hd. cbn [fmap list_fmap concat] in Hd. rewrite <- app_assoc in Hd. fold (received as_ tail) in Hd.
    rewrite (consume_round_answer a (received as_ tail) pos c st k first rest) by done.
    pose proof (record_latency_spec (status (a_res a)) c first rest st k Es) as Hr.
    destruct (record_latency _ _ _ _ _ _ _ _) as [[c1 st1] k1]. cbn [fst snd]. destruct Hr as (Hin & Hn & m1 & Hm1 & Hpr & Hall).
    destruct (IH fuel (pos + length (answer_text a))%nat c1 st1 k1) as (m & c' & st' & k' & Hc & Hi & Hm & Hpr' & Hn' & Hall').
    { rewrite Hin, <- drop_drop, Hd. apply drop_app_length. }
    { pose proof (pg_flight _ _ _ _ _ _ Hpr). rewrite Es in *. cbn [length] in *. lia. }
    { cbn [length] in Hf. lia. }
    exists (m1 + m)%nat, c', st', k'. split; [exact Hc|]. split; [exact Hi|]. cbn [length]. split; [lia|].
    split; [exact (progressed_trans 1 m1 _ m _ _ _ _ _ _ Hpr Hpr')|]. split.
    + cbn [fmap list_fmap]. rewrite failures_cons, Hn', <- u64_mod_add, Hn, u64_mod_add. f_equal. unfold fmap. lia.
    + intros Hd'. rewrite Hall, Hall' by done. lia.
Qed.

End Consume.
