(* ===== verification/LoadgenTheorems.v ===== *)
(** * What the load generator guarantees

    The load generator and the server understand each other: the requests of
    the one are parsed by the other, and the responses of the other are read
    back.  The number of requests in flight is an invariant of its loop. *)

From S2P Require Import Prelude Headers RequestParser Numbers ParserFacts ParserSegmentation Response ChunkCodec ParserRoundTrip.
From S2P Require Import ResponseHead Main Loadgen LoadgenFacts.
From stdpp Require Import sorting.

Open Scope Z_scope.

(** ** Requests *)

(** The request as the server is to see it. *)
Definition loadgen_request (o : Loadgen.Options) : Request :=
  let t := lo_path o in
  mkRequest (B "GET") t (substr0 t (find_char "?" t)) (match find_char "?" t with None => [] | Some q => drop (q + 1) t end)
    1 1 [(B "Host", lo_host o); (B "User-Agent", B "loadgen")] [] [] false.

Lemma request_text o : request_ o = print_request (loadgen_request o).
Proof.
  unfold request_, print_request, request_line, loadgen_request, field_line. cbn [method target version_minor headers body fmap list_fmap concat fst snd].
  change (B "GET ") with (B "GET" ++ [SP]). change (B " HTTP/1.1") with (SP :: B "HTTP/1." ++ to_chars 10 1).
  change (B "Host: ") with (B "Host" ++ B ": "). change (B "User-Agent: loadgen") with (B "User-Agent" ++ B ": " ++ B "loadgen").
  rewrite app_nil_r, <- !app_assoc. cbn [app]. rewrite <- !app_assoc. cbn [app]. by rewrite <- !app_assoc.
Qed.

(** Options whose request is well formed: a target in origin form, a host that is a field value. *)
Definition loadgen_ok (o : Loadgen.Options) : Prop :=
  valid_target (lo_path o) = true /\ (exists t, lo_path o = "/"%char :: t)
  /\ existsb value_char_bad (lo_host o) = false /\ trim_ows (lo_host o) = lo_host o.

Lemma loadgen_printable o : loadgen_ok o -> printable (loadgen_request o).
Proof.
  intros (Ht & Ho & Hh & Htr). split; try done.
  - split; [done|]. split; [done|]. split; [done|]. by right.
  - split; [|by repeat constructor].
    apply (bool_decide_unpack (NoDup (names [(B "Host", []); (B "User-Agent", [])]))). vm_compute. exact I.
  - by split; [|left].
Qed.

(** ** The in-flight invariant *)

Section Flight.
Context {K : Type} `{ClientKernel K} (opt_ : Loadgen.Options) (deadline_ : Z).
Context (Hclock : forall k : K, (c_now k).1 < deadline_).

#[local] Abbreviation Conn := Loadgen.Conn.
#[local] Abbreviation W := (Loadgen.Worker K).

Definition depth : nat := Z.to_nat (lo_pipeline opt_).
Definition full (c : Conn) : Prop := length (l_sent_at c) = depth.

Lemma consume_loop_full fuel pos (c : Conn) st (k : K) r c' st' k' :
  consume_loop opt_ deadline_ fuel pos c st k = Some (r, c', st', k') -> length (l_sent_at c') = length (l_sent_at c).
Proof.
  revert pos c st k. induction fuel as [|f IH]; intros pos c st k; cbn [consume_loop]; [done|].
  unfold consume_round. destruct (find_sub_from _ _ _) as [he|]; [|by intros [= _ <- _ _]].
  destruct (_ <? 12)%nat; [by intros [= _ <- _ _]|]. destruct (head_length _) as [len|]; [|by intros [= _ <- _ _]].
  destruct (_ <? u64 _); [by intros [= _ <- _ _]|]. destruct (l_sent_at c) as [|first rest] eqn:Es; [intros [= _ <- _ _]; by rewrite Es|].
  match goal with |- context [record_latency _ _ ?s c first rest st k] => pose proof (record_latency_spec opt_ deadline_ s c first rest st k Es) as Hr end.
  destruct (record_latency _ _ _ _ _ _ _ _) as [[c1 st1] k1]. destruct Hr as (_ & _ & m & _ & Hp & Hm). intros Hc.
  apply IH in Hc. rewrite Hc. pose proof (pg_flight _ _ _ _ _ _ _ Hp) as Hf. rewrite (Hm Hclock), Es in Hf. lia.
Qed.

Lemma recv_loop_full fuel (c : Conn) st (k : K) b c' st' k' :
  recv_loop fuel c st k = Some (b, c', st', k') -> l_sent_at c' = l_sent_at c.
Proof.
  revert c st k. induction fuel as [|f IH]; intros c st k; cbn [recv_loop]; [done|].
  destruct (c_recv k (l_fd c)) as [[[|x bs]|[]] k1]; try (by intros [= _ <- _ _]); intros Hr; by apply IH in Hr.
Qed.

Lemma send_loop_full fuel (c : Conn) (k : K) b c' k' : send_loop fuel c k = Some (b, c', k') -> l_sent_at c' = l_sent_at c.
Proof.
  revert c k. induction fuel as [|f IH]; intros c k; cbn [send_loop]; (destruct (_ <? _)%nat; [|by intros [= _ <- _]]); [done|].
  destruct (c_send k _ _) as [[n|[]] k1]; try (by intros [= _ <- _]); [destruct (n >? 0); [|by intros [= _ <- _]]|];
    intros Hr; by apply IH in Hr.
Qed.

Lemma service_full fuel (c : Conn) err st (k : K) r c' st' k' :
  service opt_ deadline_ fuel c err st k = Some (r, c', st', k') -> length (l_sent_at c') = length (l_sent_at c).
Proof.
  unfold service. destruct err; [by intros [= _ <- _ _]|].
  destruct (recv_loop fuel c st k) as [[[[[] c1] st1] k1]|] eqn:Er; [| |done]; apply recv_loop_full in Er; [|intros [= _ <- _ _]; by rewrite Er].
  destruct (consume_responses _ _ _ _ _ _) as [[[[r2 c2] st2] k2]|] eqn:Ec; [|done]. apply consume_loop_full in Ec. rewrite Er in Ec.
  destruct r2; try (by intros [= _ <- _ _]).
  destruct (send_loop fuel c2 k2) as [[[[] c3] k3]|] eqn:Es; [| |done]; apply send_loop_full in Es; intros [= _ <- _ _]; [|by rewrite Es].
  destruct (_ =? _)%nat; cbn [l_sent_at]; by rewrite Es.
Qed.

Lemma enqueue_n_length n (c : Conn) (k : K) : length (l_sent_at (enqueue_n opt_ n c k).1) = (length (l_sent_at c) + n)%nat.
Proof.
  revert c k. induction n as [|n IH]; intros c k; cbn [enqueue_n]; [cbn; lia|]. unfold enqueue. destruct (c_now k) as [t k1].
  rewrite IH. cbn [l_sent_at]. rewrite length_app. cbn [length]. lia.
Qed.

Lemma open_conn_full ep idx (k : K) : full (open_conn opt_ ep idx k).1.
Proof. unfold open_conn. destruct (c_socket k) as [fd k1]. unfold full. rewrite enqueue_n_length. done. Qed.

Lemma reopen_full idx (w : W) : Forall full (w_conns w) -> Forall full (w_conns (reopen opt_ idx w)).
Proof.
  intros Hw. unfold reopen. destruct (w_conns w !! idx) as [c|]; [|done].
  pose proof (open_conn_full (w_ep w) (Z.of_nat idx) (c_close (w_kern w) (l_fd c))) as Ho.
  destruct (open_conn _ _ _ _) as [c1 k1]. by apply Forall_insert.
Qed.

Lemma events_loop_full fuel evs (w w' : W) b :
  Forall full (w_conns w) -> events_loop opt_ deadline_ fuel evs w = Some (b, w') -> Forall full (w_conns w').
Proof.
  revert w. induction evs as [|[idx err] evs IH]; intros w Hw; cbn [events_loop]; [by intros [= _ <-]|].
  destruct (w_conns w !! idx) as [c|] eqn:Ec; [|done].
  destruct (service _ _ _ _ _ _ _) as [[[[r c1] st1] k1]|] eqn:Es; [|done]. apply service_full in Es.
  assert (Forall full (<[idx := c1]> (w_conns w))) as Hw1.
  { apply Forall_insert; [done|]. unfold full. rewrite Es. by apply (Forall_lookup_1 _ _ _ _ Hw Ec). }
  destruct r; [by apply IH|apply IH; by apply reopen_full|by intros [= _ <-]].
Qed.

Lemma open_all_full n i ep (k : K) : Forall full (open_all opt_ n i ep k).1 /\ length (open_all opt_ n i ep k).1 = n.
Proof.
  revert i k. induction n as [|n IH]; intros i k; cbn [open_all]; [by split|].
  pose proof (open_conn_full ep i k) as Ho. destruct (open_conn opt_ ep i k) as [c k1]. specialize (IH (i + 1) k1).
  destruct (open_all opt_ n (i + 1) ep k1) as [cs k2]. cbn [fst] in *. destruct IH as [Hf Hl]. split; [by apply Forall_cons_2|cbn; by rewrite Hl].
Qed.

End Flight.

(** ** Termination *)

Lemma length_loop_range fuel head line len n :
  match len with Some v => 0 <= v < 2 ^ 64 | None => True end ->
  length_loop fuel head line len = Some (Some n) -> 0 <= n < 2 ^ 64.
Proof.
  revert line len. induction fuel as [|f IH]; intros [line|] len Hl; cbn [length_loop]; try done; try (by intros [= ->]).
  apply IH. destruct (iequals_prefix _ _); [apply strtoul_value_range|done].
Qed.

Lemma head_length_range head n : head_length head = Some n -> 0 <= n < 2 ^ 64.
Proof.
  unfold head_length. destruct (length_loop _ _ _ _) as [r|] eqn:E; [|done]. intros ->. by eapply length_loop_range in E.
Qed.

(** No announced length makes the size of a response overflow. *)
Definition lengths_fit (s : bytes) : Prop :=
  forall pos he n, find_sub_from CRLF2 s pos = Some he -> head_length (take (he - pos) (drop pos s)) = Some n ->
  zlen s + n + 4 < 2 ^ 64.

Section Terminates.
Context {K : Type} `{ClientKernel K} (opt_ : Loadgen.Options) (deadline_ : Z).

Lemma consume_loop_total fuel pos (c : Loadgen.Conn) st (k : K) :
  lengths_fit (l_in c) -> (pos <= length (l_in c))%nat -> (length (l_in c) - pos < fuel)%nat ->
  is_Some (consume_loop opt_ deadline_ fuel pos c st k).
Proof.
  revert pos c st k. induction fuel as [|f IH]; intros pos c st k Hfit Hpos Hf; [lia|]. cbn [consume_loop].
  unfold consume_round. destruct (find_sub_from CRLF2 (l_in c) pos) as [he|] eqn:Eh; [|done].
  destruct (_ <? 12)%nat; [done|]. destruct (head_length _) as [n|] eqn:En; [|done].
  specialize (Hfit pos he n Eh En) as Hn. pose proof (head_length_range _ _ En) as Hr.
  unfold find_sub_from in Eh. apply fmap_Some in Eh as (i & Hi & ->). apply find_sub_bound in Hi.
  rewrite length_drop in Hi. change (length CRLF2) with 4%nat in Hi. unfold zlen in Hn.
  rewrite u64_small by lia. destruct (Z.ltb_spec (Z.of_nat (length (l_in c) - pos)) (Z.of_nat (pos + i + 4 - pos) + n)); [done|].
  destruct (l_sent_at c) as [|first rest] eqn:Es; [done|].
  match goal with |- context [record_latency _ _ ?s c first rest st k] => pose proof (record_latency_spec opt_ deadline_ s c first rest st k Es) as Hrl end.
  destruct (record_latency _ _ _ _ _ _ _ _) as [[c1 st1] k1]. destruct Hrl as (Hin & _). apply IH; rewrite Hin; [done|lia|lia].
Qed.

End Terminates.

(** ** Shares and percentiles *)

Lemma sum_shares (q r : Z) n t0 :
  foldr Z.add 0 ((fun t => q + (if Z.of_nat t <? r then 1 else 0)) <$> seq t0 n)
  = q * Z.of_nat n + Z.max 0 (Z.min (r - Z.of_nat t0) (Z.of_nat n)).
Proof.
  revert t0. induction n as [|n IH]; intros t0; [cbn; lia|]. cbn [seq fmap list_fmap foldr].
  rewrite IH. destruct (Z.ltb_spec (Z.of_nat t0) r); lia.
Qed.

Lemma total_stats_sorted ws : Sorted Z.le (latencies_ns (total_stats ws)).
Proof. unfold total_stats. cbn [latencies_ns]. apply (Sorted_merge_sort _). Qed.

Lemma fold_latencies ws a : latencies_ns (fold_left add_stats ws a) = latencies_ns a ++ concat (latencies_ns <$> ws).
Proof.
  revert a. induction ws as [|w ws IH]; intros a; cbn [fold_left fmap list_fmap concat]; [by rewrite app_nil_r|].
  rewrite IH. cbn [latencies_ns add_stats]. by rewrite app_assoc.
Qed.

Lemma sorted_nth_le (l : list Z) i j : Sorted Z.le l -> (i <= j < length l)%nat -> nth i l 0 <= nth j l 0.
Proof.
  intros Hs Hij. apply Sorted_StronglySorted in Hs; [|apply _]. revert i j Hij.
  induction Hs as [|x l _ IH Hx]; intros i j Hij; cbn [length] in Hij; [lia|].
  destruct i as [|i], j as [|j]; cbn [nth]; [lia| |lia|apply IH; lia].
  rewrite List.Forall_forall in Hx. apply Hx, nth_In. lia.
Qed.

(** ** A concrete client *)

(** What the peer will send and what it got; the clock stands. *)
Record Client := mkClient { cl_rx : list bytes; cl_tx : bytes }.

#[export] Instance client_kernel : ClientKernel Client := {
  c_socket k := (7, k);
  c_connect k _ _ _ := k;
  c_epoll_create k := (3, k);
  c_epoll_add k _ _ _ := k;
  c_epoll_wait k _ := ([(0%nat, false)], k);
  c_recv k _ := match cl_rx k with [] => (inr CAgain, k) | s :: rx => (inl s, mkClient rx (cl_tx k)) end;
  c_send k _ bs := (inl (zlen bs), mkClient (cl_rx k) (cl_tx k ++ bs));
  c_close k _ := k;
  c_now k := (1000, k) }.

Definition one_answer (st : Z) (b : bytes) : answer :=
  mkAnswer (Response_text st b text_plain) (mkHeadOptions true false (B "Thu, 01 Jan 1970 00:00:00 GMT")) b.

Definition demo_answers : list answer := [one_answer 200 (B "hi"); one_answer 404 (B "nope")].

Lemma demo_answer_ok st b :
  (st = 200 /\ b = B "hi" \/ st = 404 /\ b = B "nope") -> answer_ok (one_answer st b) /\ zlen (answer_text (one_answer st b)) < 2 ^ 64.
Proof.
  intros [[-> ->]|[-> ->]]; (split; [|vm_compute; reflexivity]); split; try (vm_compute; reflexivity);
    try (vm_compute; split; discriminate); repeat constructor; vm_compute; reflexivity.
Qed.

(** The first three bytes of a third response. *)
Lemma demo_partial : partial (B "HTT").
Proof.
  right. exists (one_answer 200 (B "hi")), (drop 3 (answer_text (one_answer 200 (B "hi")))).
  destruct (demo_answer_ok 200 (B "hi")) as [Ha Hl]; [by left|]. split; [exact Ha|]. split; [exact Hl|].
  split; [vm_compute; reflexivity|vm_compute; discriminate].
Qed.

Definition demo_client (s : bytes) : Loadgen.Conn := mkLConn 7 [] 0 s [1; 2; 3].

(** ** Theorems *)

(** The server understands the load generator.
    For a host without control characters and a target in origin form, the
    text the load generator sends is parsed by the server as a [GET] for
    that target, exactly its bytes are consumed and the connection is kept;
    so are the copies of it that follow in the stream. *)
Theorem loadgen_request_accepted (l : ParserLimits) (o : Loadgen.Options) (rest : bytes) :
  limits_ok l = true -> loadgen_ok o -> within l (loadgen_request o) -> fits (request_ o ++ rest) ->
  exists p, feed (RequestParser_new l) (request_ o ++ rest) = (p, length (request_ o))
    /\ done p = true /\ method (req_ p) = B "GET" /\ target (req_ p) = lo_path o /\ keep_alive (req_ p) = true.
Proof.
  intros Hl Ho Hw Hf. rewrite request_text in Hf |- *.
  destruct (feed_print_request l (loadgen_request o) rest Hl (loadgen_printable o Ho) Hf Hw) as (p & Hp & Hd & Hr).
  exists p. by rewrite Hr.
Qed.

Lemma loadgen_request_accepted_witness :
  exists p, feed (RequestParser_new ParserLimits_default) (request_ LOptions_default ++ request_ LOptions_default)
      = (p, length (request_ LOptions_default))
    /\ done p = true /\ method (req_ p) = B "GET" /\ target (req_ p) = B "/healthz" /\ keep_alive (req_ p) = true.
Proof.
  apply (loadgen_request_accepted ParserLimits_default LOptions_default (request_ LOptions_default)).
  - reflexivity.
  - repeat split. by exists (B "healthz").
  - vm_compute. split_and!; discriminate.
  - vm_compute. reflexivity.
Defined.

(** The load generator reads back what the server
    wrote.  When a connection has received any number of responses with the
    heads [write_head] gives them and bodies of the announced lengths,
    followed by a part of another (or nothing), and as many requests are in
    flight, then [consume_responses] keeps the connection, counts each
    response once with its status, leaves exactly the incomplete part in the
    buffer, and queues at most one new request per response: one for each
    while the deadline has not passed. *)
Theorem responses_read_back {K : Type} `{ClientKernel K} (o : Loadgen.Options) (deadline : Z) (fuel : nat)
  (as_ : list answer) (tail : bytes) (c : Loadgen.Conn) (st : ThreadStats) (k : K) :
  Forall (fun a => answer_ok a /\ zlen (answer_text a) < 2 ^ 64) as_ -> partial tail ->
  l_in c = concat (answer_text <$> as_) ++ tail -> (length as_ <= length (l_sent_at c))%nat -> (length as_ < fuel)%nat ->
  exists m c' st' k', consume_responses o deadline fuel c st k = Some (Kept, c', st', k')
    /\ l_in c' = tail /\ l_out c' = l_out c ++ concat (replicate m (request_ o))
    /\ (length (l_sent_at c') + length as_ = length (l_sent_at c) + m)%nat
    /\ (m <= length as_)%nat /\ ((forall k : K, (c_now k).1 < deadline) -> m = length as_)
    /\ u64 (requests st') = u64 (requests st + zlen as_)
    /\ u64 (non_2xx st') = u64 (non_2xx st + failures (status <$> (a_res <$> as_))).
Proof.
  intros Has Hp Hin Hs Hf. destruct (consume_loop_answers o deadline as_ tail fuel 0 c st k Has Hp Hin Hs Hf)
    as (m & c' & st' & k' & Hc & Hi & Hm & [_ _ Hout Hfl Hr _ _] & Hn & Hall).
  by exists m, c', st', k'.
Qed.

Lemma responses_read_back_witness :
  exists m c' st' k', consume_responses LOptions_default 5000 10
      (demo_client (concat (answer_text <$> demo_answers) ++ B "HTT")) ThreadStats_new (mkClient [] []) = Some (Kept, c', st', k')
    /\ l_in c' = B "HTT" /\ l_out c' = [] ++ concat (replicate m (request_ LOptions_default))
    /\ (length (l_sent_at c') + 2 = 3 + m)%nat /\ (m <= 2)%nat
    /\ ((forall k : Client, (c_now k).1 < 5000) -> m = 2%nat)
    /\ u64 (requests st') = u64 (0 + 2) /\ u64 (non_2xx st') = u64 (0 + 1).
Proof.
  apply (responses_read_back LOptions_default 5000 10 demo_answers (B "HTT")).
  - repeat constructor; apply demo_answer_ok; auto.
  - exact demo_partial.
  - reflexivity.
  - cbn. lia.
  - cbn. lia.
Defined.

(** C25: the load is closed-loop.  Every connection has exactly
    [pipeline] requests in flight: after a worker has opened its
    connections, and, as long as the deadline has not passed, after every
    batch of events, whatever the peers send, however their sockets fail and
    however often they are opened again. *)
Theorem closed_loop {K : Type} `{ClientKernel K} (o : Loadgen.Options) (deadline : Z) (conns : nat) (k : K) :
  (length (w_conns (Worker_begin o conns k)) = conns
   /\ Forall (fun c => length (l_sent_at c) = Z.to_nat (lo_pipeline o)) (w_conns (Worker_begin o conns k)))
  /\ forall fuel w w' go, (forall k : K, (c_now k).1 < deadline) ->
     Forall (fun c => length (l_sent_at c) = Z.to_nat (lo_pipeline o)) (w_conns w) ->
     run_pass o deadline fuel w = Some (inl (go, w')) ->
     go = true /\ Forall (fun c => length (l_sent_at c) = Z.to_nat (lo_pipeline o)) (w_conns w').
Proof.
  split.
  - unfold Worker_begin. destruct (c_epoll_create k) as [ep k1]. destruct (open_all_full o conns 0 ep k1) as [Hf Hl].
    by destruct (open_all o conns 0 ep k1) as [cs k2].
  - intros fuel w w' go Hc Hw. unfold run_pass. specialize (Hc (w_kern w)) as Hc0. destruct (c_now (w_kern w)) as [now k1]. cbn [fst] in Hc0.
    destruct (Z.ltb_spec now deadline); [|lia]. destruct (c_epoll_wait k1 (w_ep w)) as [evs k2].
    destruct (events_loop _ _ _ _ _) as [[[] w1]|] eqn:E; try done. intros [= <- <-]. split; [done|].
    by eapply (events_loop_full o deadline Hc fuel evs (mkLWorker (w_conns w) (w_stats w) (w_ep w) k2)).
Qed.

Lemma closed_loop_witness :
  match run_pass LOptions_default 5000 20 (Worker_begin LOptions_default 1 (mkClient [answer_text (one_answer 200 (B "hi"))] [])) with
  | Some (inl (go, w')) => go = true /\ Forall (fun c => length (l_sent_at c) = 1%nat) (w_conns w')
  | _ => False
  end.
Proof.
  set (k := mkClient [answer_text (one_answer 200 (B "hi"))] []).
  destruct (closed_loop LOptions_default 5000 1 k) as [[_ H0] Hstep].
  destruct (run_pass LOptions_default 5000 20 (Worker_begin LOptions_default 1 k)) as [[[go w']|w']|] eqn:E.
  - exact (Hstep 20%nat _ w' go (fun _ => eq_refl) H0 E).
  - apply (f_equal (fun r => match r with Some (inl _) => true | _ => false end)) in E. vm_compute in E. discriminate E.
  - apply (f_equal (fun r => match r with Some _ => true | _ => false end)) in E. vm_compute in E. discriminate E.
Defined.

(** Reading responses ends.  Unless an announced length
    makes the size of a response overflow 64 bits, [consume_responses]
    returns after at most one round per byte received, whatever the bytes. *)
Theorem consume_terminates {K : Type} `{ClientKernel K} (o : Loadgen.Options) (deadline : Z) (fuel : nat)
  (c : Loadgen.Conn) (st : ThreadStats) (k : K) :
  lengths_fit (l_in c) -> (length (l_in c) < fuel)%nat -> is_Some (consume_responses o deadline fuel c st k).
Proof. intros Hl Hf. apply consume_loop_total; [done|lia|lia]. Qed.

Definition lengths_fit_b (s : bytes) : bool :=
  forallb (fun pos => match find_sub_from CRLF2 s pos with
                      | Some he => match head_length (take (he - pos) (drop pos s)) with
                                   | Some n => zlen s + n + 4 <? 2 ^ 64
                                   | None => true
                                   end
                      | None => true
                      end) (seq 0 (length s)).

Lemma lengths_fit_check s : lengths_fit_b s = true -> lengths_fit s.
Proof.
  intros Hb pos he n Hf Hn. unfold lengths_fit_b in Hb. rewrite forallb_forall in Hb.
  destruct (decide (pos < length s)%nat) as [Hp|Hp].
  - specialize (Hb pos). rewrite in_seq, Hf, Hn in Hb. apply Z.ltb_lt, Hb. lia.
  - unfold find_sub_from in Hf. by rewrite drop_ge in Hf by lia.
Qed.

Lemma consume_terminates_witness :
  is_Some (consume_responses LOptions_default 5000 300 (demo_client (answer_text (one_answer 200 (B "hi")))) ThreadStats_new (mkClient [] [])).
Proof.
  apply consume_terminates.
  - apply lengths_fit_check. vm_compute. reflexivity.
  - vm_compute. repeat constructor.
Defined.

(** A head whose [Content-Length] is minus its own size. *)
Definition poison : bytes := B "HTTP/1.1 200 OK" ++ kCRLF ++ B "Content-Length: -40" ++ kCRLF ++ kCRLF.

(** With such a length it does not end: [strtoull]
    accepts the minus sign, the size of the response becomes 0 modulo
    [2^64], and the same head is counted as a response again and again, a
    new request being queued each time, until the deadline. *)
Theorem negative_length_spins {K : Type} `{ClientKernel K} (o : Loadgen.Options) (deadline : Z) (fuel : nat)
  (c : Loadgen.Conn) (st : ThreadStats) (k : K) :
  (forall k : K, (c_now k).1 < deadline) -> l_in c = poison -> l_sent_at c <> [] ->
  consume_responses o deadline fuel c st k = None.
Proof.
  intros Hc. unfold consume_responses. revert c st k. induction fuel as [|f IH]; intros c st k Hin Hs; [done|]. cbn [consume_loop].
  destruct (l_sent_at c) as [|first rest] eqn:Es; [done|]. unfold consume_round. rewrite Hin, Es.
  change (find_sub_from CRLF2 poison 0) with (Some 36%nat). cbn match.
  change (take (36 - 0) (drop 0 poison)) with (take 36 poison).
  change (length (take 36 poison) <? 12)%nat with false. cbn match.
  replace (head_length (take 36 poison)) with (Some (2 ^ 64 - 40)) by (vm_compute; reflexivity).
  change (u64 (Z.of_nat (36 + 4 - 0) + (2 ^ 64 - 40))) with 0. change (Z.of_nat (length poison - 0) <? 0) with false. cbn match.
  match goal with |- context [record_latency _ _ ?s c first rest st k] => pose proof (record_latency_spec o deadline s c first rest st k Es) as Hr end.
  destruct (record_latency _ _ _ _ _ _ _ _) as [[c1 st1] k1]. destruct Hr as (Hin1 & _ & m & _ & Hp & Hm).
  apply IH; [congruence|]. pose proof (pg_flight _ _ _ _ _ _ _ Hp) as Hf. rewrite (Hm Hc), Es in Hf.
  intros E. rewrite E in Hf. cbn [length] in Hf. lia.
Qed.

Lemma negative_length_spins_witness :
  consume_responses LOptions_default 5000 100 (demo_client poison) ThreadStats_new (mkClient [] []) = None.
Proof.
  apply (negative_length_spins LOptions_default 5000 100 (demo_client poison) ThreadStats_new (mkClient [] [])).
  - reflexivity.
  - reflexivity.
  - discriminate.
Defined.

(** The connections are all used and evenly divided.
    Whatever the options, as long as the number of connections is not
    negative, the workers' shares add up to it and differ by at most one;
    there is at least one worker, and none is idle unless there is nothing
    to do. *)
Theorem shares_partition (o : Loadgen.Options) :
  0 <= lo_connections o ->
  let s := shares (settle o) in
  s <> [] /\ foldr Z.add 0 s = lo_connections o
  /\ (forall x y, x ∈ s -> y ∈ s -> x - y <= 1)
  /\ (1 <= lo_connections o -> Forall (fun x => 1 <= x) s).
Proof.
  intros Hc. cbn zeta. unfold shares, share. cbn [settle set_lthreads set_lpipeline lo_connections lo_threads].
  set (c := lo_connections o) in *. set (t := Z.max 1 (Z.min (lo_threads o) c)).
  assert (1 <= t) as Ht by lia. assert (1 <= c -> t <= c) as Htc by lia. clearbody t.
  pose proof (Z.quot_rem c t ltac:(lia)) as Hqr. pose proof (Z.rem_bound_pos c t ltac:(lia) ltac:(lia)) as Hrb.
  set (q := Z.quot c t) in *. set (r := Z.rem c t) in *.
  assert (1 <= c -> 1 <= q) as Hq by (intros; subst q; apply Z.quot_le_lower_bound; lia).
  clearbody q r. split_and!.
  - destruct (Z.to_nat t) as [|n] eqn:E; [lia|done].
  - rewrite sum_shares. nia.
  - intros x y (i & -> & _)%list_elem_of_fmap (j & -> & _)%list_elem_of_fmap. repeat case_match; lia.
  - intros H1. apply Forall_forall. intros x (i & -> & _)%list_elem_of_fmap. specialize (Hq H1). case_match; lia.
Qed.

Lemma shares_partition_witness :
  let s := shares (settle (set_lthreads 3 LOptions_default)) in
  s = [22; 21; 21] /\ foldr Z.add 0 s = 64.
Proof.
  cbn zeta. split; [vm_compute; reflexivity|].
  exact (proj1 (proj2 (shares_partition (set_lthreads 3 LOptions_default) ltac:(vm_compute; discriminate)))).
Defined.

(** With a negative number of connections the one worker is built with a
    vector of more than [2^63] elements, which throws [std::length_error]
    with nobody to catch it. *)
Example negative_connections :
  loadgen_options [B "-c"; B "-5"] LOptions_default = LStart (set_lconns (-5) LOptions_default)
  /\ shares (settle (set_lconns (-5) LOptions_default)) = [-5] /\ 2 ^ 63 < u64 (-5).
Proof. split_and!; vm_compute; reflexivity. Qed.

(** The report is computed from all latencies of all
    workers: the sorted list is a permutation of what they recorded, so a
    percentile taken at an index in range is one of the measured latencies
    and percentiles never decrease from a smaller index to a larger one. *)
Theorem percentiles_ordered (ws : list ThreadStats) (i j : Z -> nat) :
  let all := latencies_ns (total_stats ws) in
  (i (zlen all) <= j (zlen all) < length all)%nat ->
  all ≡ₚ concat (latencies_ns <$> ws)
  /\ pct i all ∈ concat (latencies_ns <$> ws) /\ pct i all <= pct j all.
Proof.
  intros all Hij. pose proof (total_stats_sorted ws) as Hs. fold all in Hs.
  assert (all ≡ₚ concat (latencies_ns <$> ws)) as Hp.
  { subst all. unfold total_stats. cbn [latencies_ns]. rewrite merge_sort_Permutation, fold_latencies. done. }
  split; [done|]. clearbody all. unfold pct. destruct all as [|x l] eqn:E; [cbn [length] in Hij; lia|]. rewrite <- E in *. split.
  - rewrite <- Hp. apply list_elem_of_In, nth_In. lia.
  - by apply sorted_nth_le.
Qed.

Lemma percentiles_ordered_witness :
  let ws := [mkStats 2 0 0 0 0 [30; 10]; mkStats 1 0 0 0 0 [20]] in
  pct (fun _ => 1%nat) (latencies_ns (total_stats ws)) = 20
  /\ pct (fun _ => 1%nat) (latencies_ns (total_stats ws)) <= pct (fun _ => 2%nat) (latencies_ns (total_stats ws)).
Proof.
  cbn zeta. split; [vm_compute; reflexivity|].
  refine (proj2 (proj2 (percentiles_ordered [mkStats 2 0 0 0 0 [30; 10]; mkStats 1 0 0 0 0 [20]] (fun _ => 1%nat) (fun _ => 2%nat) _))).
  vm_compute. split; repeat constructor.
Defined.
