(* ===== verification/LoadgenMain.v ===== *)
(** * [tools/loadgen.cpp]: [main] and the report

    The threads of the load generator share nothing but the kernel; each sees
    it through its own calls, so [views] gives every thread the kernel as it
    answers that thread.  Floating point and its conversions are parameters.
    The allocation of connections succeeds for a size that is not negative. *)

From S2P Require Import Prelude Headers RequestParser Numbers ParserFacts Response ByteBuffer Router Metrics Connection.
From S2P Require Import Ownership Main Accounting Loadgen LoadgenFacts LoadgenTheorems.
From stdpp Require Import sorting.

Open Scope Z_scope.

Definition lg_usage : bytes :=
  B "usage: loadgen [--host 127.0.0.1] [--port 8080] [--path /healthz]" ++ [LF]
  ++ B "               [-c connections] [-t threads] [-d seconds] [-p pipeline-depth]" ++ [LF].

(** [%d] of an [int]. *)
Definition fmt_d (v : Z) : bytes := if v <? 0 then B "-" ++ to_string (- v) else to_string v.

Section Report.
(** [of_u64] converts exactly or to the nearest; [fmt n] is [%.nf]; [trunc]
    converts to [std::size_t]; [seconds] makes a [duration<double>] of nanoseconds;
    [p99_9] is the literal. *)
Context {double : Type} (of_u64 : Z -> double) (div mul : double -> double -> double) (fmt : nat -> double -> bytes)
  (trunc : double -> nat) (seconds : Z -> double) (p99_9 : double).

(** [char buf[32]]. *)
Definition format_ns (ns : Z) : bytes :=
  take 31 (if ns <? 1000000 then fmt 1%nat (div (of_u64 ns) (of_u64 1000)) ++ B "us"
           else fmt 2%nat (div (of_u64 ns) (of_u64 1000000)) ++ B "ms").

(** [static_cast<std::size_t>(p / 100.0 * static_cast<double>(size - 1))]. *)
Definition pct_index (p : double) (size : Z) : nat := trunc (mul (div p (of_u64 100)) (of_u64 (size - 1))).

Definition lg_banner (o : Options) : bytes :=
  B "loadgen: " ++ fmt_d (lo_duration_s o) ++ B "s against http://" ++ lo_host o ++ B ":" ++ to_string (lo_port o) ++ lo_path o
  ++ B ", " ++ fmt_d (lo_connections o) ++ B " connections, " ++ fmt_d (lo_threads o) ++ B " threads, pipeline "
  ++ fmt_d (lo_pipeline o) ++ [LF].

Definition lg_report (all : ThreadStats) (elapsed : double) : list bytes :=
  let lat := latencies_ns all in
  let p v := format_ns (pct (pct_index v) lat) in
  [B "  requests      " ++ to_string (requests all) ++ B " in " ++ fmt 2%nat elapsed ++ B "s" ++ [LF];
   B "  throughput    " ++ fmt 0%nat (div (of_u64 (requests all)) elapsed) ++ B " req/s, "
     ++ fmt 2%nat (div (div (of_u64 (bytes_read all)) elapsed) (of_u64 1048576)) ++ B " MiB/s" ++ [LF];
   B "  latency       p50 " ++ p (of_u64 50) ++ B "  p90 " ++ p (of_u64 90) ++ B "  p99 " ++ p (of_u64 99)
     ++ B "  p99.9 " ++ p p99_9 ++ B "  max " ++ format_ns (List.last lat 0) ++ [LF];
   B "  errors        non-2xx " ++ to_string (non_2xx all) ++ B ", socket " ++ to_string (socket_errors all)
     ++ B ", reconnects " ++ to_string (reconnects all) ++ [LF]].

(** How the process ends: with a status and what it printed, or by an exception nobody catches. *)
Inductive lresult := LReturn (status : Z) (out : list bytes) | LTerminate.

Context {K : Type} `{ClientKernel K}.

(** The threads; a result is [Some] when the thread is over: whether it returned, and the worker. *)
Definition lg_threads (n fuel : nat) (o : Options) (deadline : Z) (views : list K) : list (option (bool * Worker K)) :=
  zip_with (fun s k => match run_worker o deadline n fuel (Worker_begin o (Z.to_nat s) k) with
                       | Some (inr r) => Some r
                       | _ => None
                       end) (shares o) views.

Definition lg_quit (r : option (bool * Worker K)) : bool := match r with Some (false, _) => true | _ => false end.
Definition lg_stats (r : option (bool * Worker K)) : option ThreadStats := match r with Some (_, w) => Some (w_stats w) | None => None end.

(** [main], with at most [n] passes per thread; [None]: not over by then. *)
Definition loadgen_main (n fuel : nat) (argv : list bytes) (k : K) (views : list K) : option lresult :=
  match loadgen_options argv LOptions_default with
  | LExit status => Some (LReturn status [lg_usage])
  | LStart o =>
      let o := settle o in
      let '(start, k) := c_now k in
      let deadline := start + lo_duration_s o * 1000000000 in
      if existsb (fun s => s <? 0) (shares o) then Some LTerminate
      else
        let rs := lg_threads n fuel o deadline views in
        if existsb lg_quit rs then Some (LReturn 1 [lg_banner o; B "loadgen: only Content-Length responses are supported" ++ [LF]])
        else
          match mapM lg_stats rs with
          | None => None
          | Some stats =>
              let '(now, _) := c_now k in
              let all := total_stats stats in
              Some (LReturn (exit_status all) (lg_banner o :: lg_report all (seconds (now - start))))
          end
  end.

End Report.

Arguments lresult : clear implicits.

(** ** Accounting of a thread *)

(** Every request answered has a latency, and every broken connection was opened again. *)
Record tidy (st : ThreadStats) : Prop := {
  td_requests : requests st = u64 (zlen (latencies_ns st));
  td_failures : 0 <= non_2xx st <= zlen (latencies_ns st);
  td_reconnects : reconnects st = socket_errors st }.

Lemma tidy_new : tidy ThreadStats_new.
Proof. by split. Qed.

Lemma u64_le z : 0 <= z -> 0 <= u64 z <= z.
Proof. intros Hz. split; [apply u64_range|]. apply Z.mod_le; lia. Qed.

Section Accounting.
Context {K : Type} `{ClientKernel K} (opt_ : Options) (deadline_ : Z).
#[local] Abbreviation W := (Worker K).

Lemma record_latency_tidy s (c : Conn) first rest st (k : K) :
  tidy st -> tidy (record_latency opt_ deadline_ s c first rest st k).1.2.
Proof.
  intros [Hr Hn Hc]. unfold record_latency. destruct (c_now k) as [t k1], (c_now k1) as [t2 k2].
  assert (forall b : bool, tidy (mkStats (u64 (requests st + 1)) (if b then u64 (non_2xx st + 1) else non_2xx st) (socket_errors st)
    (reconnects st) (bytes_read st) (latencies_ns st ++ [u64 (u64 t - first)]))) as Ht.
  { intros b. split; cbn [requests non_2xx socket_errors reconnects latencies_ns]; [|destruct b|done]; rewrite zlen_app; change (zlen [_]) with 1.
    - by rewrite Hr, u64_mod_add.
    - pose proof (u64_le (non_2xx st + 1) ltac:(lia)). lia.
    - lia. }
  destruct (_ <? deadline_); [destruct (enqueue _ _ _)|]; apply Ht.
Qed.

Lemma consume_loop_tidy fuel pos (c : Conn) st (k : K) r c' st' k' :
  tidy st -> consume_loop opt_ deadline_ fuel pos c st k = Some (r, c', st', k') -> tidy st'.
Proof.
  revert pos c st k. induction fuel as [|f IH]; intros pos c st k Ht; cbn [consume_loop]; [done|].
  unfold consume_round. destruct (find_sub_from _ _ _) as [he|]; [|by intros [= _ _ <- _]].
  destruct (_ <? 12)%nat; [by intros [= _ _ <- _]|]. destruct (head_length _) as [len|]; [|by intros [= _ _ <- _]].
  destruct (_ <? u64 _); [by intros [= _ _ <- _]|]. destruct (l_sent_at c) as [|first rest]; [by intros [= _ _ <- _]|].
  match goal with |- context [record_latency _ _ ?s c first rest st k] => pose proof (record_latency_tidy s c first rest st k Ht) as Ht1 end.
  destruct (record_latency _ _ _ _ _ _ _ _) as [[c1 st1] k1]. by apply IH.
Qed.

Lemma recv_loop_tidy fuel (c : Conn) st (k : K) b c' st' k' : tidy st -> recv_loop fuel c st k = Some (b, c', st', k') -> tidy st'.
Proof.
  revert c st k. induction fuel as [|f IH]; intros c st k Ht; cbn [recv_loop]; [done|].
  destruct (c_recv k (l_fd c)) as [[[|x bs]|[]] k1]; try (by intros [= _ _ <- _]); apply IH; [|done]. by destruct Ht.
Qed.

Lemma service_tidy fuel (c : Conn) err st (k : K) r c' st' k' :
  tidy st -> service opt_ deadline_ fuel c err st k = Some (r, c', st', k') -> tidy st'.
Proof.
  intros Ht. unfold service. destruct err; [by intros [= _ _ <- _]|].
  destruct (recv_loop fuel c st k) as [[[[[] c1] st1] k1]|] eqn:Er; [| |done]; apply recv_loop_tidy in Er; try done; [|by intros [= _ _ <- _]].
  destruct (consume_responses _ _ _ _ _ _) as [[[[r2 c2] st2] k2]|] eqn:Ec; [|done]. apply consume_loop_tidy in Ec; [|done].
  destruct r2; try (by intros [= _ _ <- _]). destruct (send_loop fuel c2 k2) as [[[[] c3] k3]|]; [| |done]; by intros [= _ _ <- _].
Qed.

Lemma reopen_stats idx (w : W) c :
  w_conns w !! idx = Some c ->
  w_stats (reopen opt_ idx w) =
    let st := w_stats w in mkStats (requests st) (non_2xx st) (socket_errors st) (u64 (reconnects st + 1)) (bytes_read st) (latencies_ns st).
Proof. intros Hc. unfold reopen. rewrite Hc. by destruct (open_conn _ _ _ _). Qed.

Lemma events_loop_tidy fuel evs (w w' : W) b :
  tidy (w_stats w) -> events_loop opt_ deadline_ fuel evs w = Some (b, w') -> tidy (w_stats w').
Proof.
  revert w. induction evs as [|[idx err] evs IH]; intros w Ht; cbn [events_loop]; [by intros [= _ <-]|].
  destruct (w_conns w !! idx) as [c|] eqn:Ec; [|done].
  destruct (service _ _ _ _ _ _ _) as [[[[r c1] st1] k1]|] eqn:Es; [|done]. apply service_tidy in Es; [|done].
  destruct r; [by apply IH| |by intros [= _ <-]]. apply IH. rewrite (reopen_stats _ _ c1) by (cbn [w_conns]; apply list_lookup_insert_eq; by eapply lookup_lt_Some).
  destruct Es as [Hr Hn Hc]. split; cbn [w_stats requests non_2xx socket_errors reconnects latencies_ns]; [done|done|congruence].
Qed.

Lemma run_worker_tidy n fuel (w : W) b w' :
  tidy (w_stats w) -> run_worker opt_ deadline_ n fuel w = Some (inr (b, w')) -> tidy (w_stats w').
Proof.
  revert w. induction n as [|n IH]; intros w Ht; cbn [run_worker]; [done|]. unfold run_pass.
  destruct (c_now (w_kern w)) as [now k]. destruct (now <? deadline_); [|by intros [= _ <-]].
  destruct (c_epoll_wait k (w_ep w)) as [evs k1]. destruct (events_loop _ _ _ _ _) as [[[] w1]|] eqn:E; [| |done];
    (apply events_loop_tidy in E; [|done]); [by apply IH|by intros [= _ <-]].
Qed.

Lemma Worker_begin_stats n (k : K) : w_stats (Worker_begin opt_ n k) = ThreadStats_new.
Proof. unfold Worker_begin. destruct (c_epoll_create k). by destruct (open_all _ _ _ _ _). Qed.

End Accounting.

Lemma add_tidy a b : tidy a -> tidy b -> tidy (add_stats a b).
Proof.
  intros [Hr1 Hn1 Hc1] [Hr2 Hn2 Hc2]. split; cbn [add_stats requests non_2xx socket_errors reconnects latencies_ns]; [..|congruence]; rewrite zlen_app.
  - rewrite Hr1, Hr2, u64_mod_add. unfold u64. by rewrite Zplus_mod_idemp_r.
  - pose proof (u64_le (non_2xx a + non_2xx b) ltac:(lia)). lia.
Qed.

Lemma total_tidy ws : Forall tidy ws -> tidy (total_stats ws).
Proof.
  intros Hw. assert (forall a, tidy a -> tidy (fold_left add_stats ws a)) as Hf.
  { induction Hw as [|w ws Hw1 _ IH]; intros a Ha; [done|]. cbn [fold_left]. apply IH. by apply add_tidy. }
  destruct (Hf _ tidy_new) as [Hr Hn Hc]. set (all := fold_left add_stats ws ThreadStats_new) in *.
  assert (zlen (merge_sort Z.le (latencies_ns all)) = zlen (latencies_ns all)) as Hl.
  { unfold zlen. by rewrite (Permutation_length (merge_sort_Permutation Z.le (latencies_ns all))). }
  unfold total_stats. fold all. split; cbn [requests non_2xx socket_errors reconnects latencies_ns]; rewrite ?Hl; done.
Qed.

(** ** Descriptors *)

(** [r] is what a call that opens a descriptor returned. *)
Definition opens_or_fails {K} `{FdView K} (k : K) (r : Z * K) : Prop :=
  if fd_valid r.1 then r.1 ∉ opened k /\ opened r.2 = opened k ∪ {[r.1]} else opened r.2 = opened k.

Class ClientFdLaws (K : Type) `{ClientKernel K} `{FdView K} := {
  opened_valid : forall (k : K) fd, fd ∈ opened k -> 0 <= fd;
  c_socket_opened : forall k : K, opens_or_fails k (c_socket k);
  c_epoll_opened : forall k : K, opens_or_fails k (c_epoll_create k);
  c_close_opened : forall (k : K) fd, opened (c_close k fd) = opened k ∖ {[fd]};
  c_connect_opened : forall (k : K) fd h p, opened (c_connect k fd h p) = opened k;
  c_add_opened : forall (k : K) ep fd i, opened (c_epoll_add k ep fd i) = opened k;
  c_wait_opened : forall (k : K) ep, opened (c_epoll_wait k ep).2 = opened k;
  c_recv_opened : forall (k : K) fd, opened (c_recv k fd).2 = opened k;
  c_send_opened : forall (k : K) fd bs, opened (c_send k fd bs).2 = opened k;
  c_now_opened : forall k : K, opened (c_now k).2 = opened k }.

Section Descriptors.
Context {K : Type} `{ClientKernel K} `{!FdView K} `{!ClientFdLaws K} (opt_ : Options) (deadline_ : Z).
#[local] Abbreviation W := (Worker K).

Lemma holds_opens R l (k : K) r : opens_or_fails k r -> holds R l k -> holds R (owned_fd r.1 ++ l) r.2.
Proof.
  unfold opens_or_fails, owned_fd. destruct (fd_valid r.1); cbn [app]; [|apply holds_same]. intros [Hn Ho] Hh. by eapply holds_open.
Qed.

(** [close] of an owner, also of one that holds nothing. *)
Lemma holds_c_close R fd l (k : K) : holds R (owned_fd fd ++ l) k -> holds R l (c_close k fd).
Proof.
  unfold owned_fd. destruct (fd_valid fd) eqn:Ev; cbn [app]; intros Hh; [eapply holds_removed; [apply c_close_opened|exact Hh]|].
  eapply holds_same; [|exact Hh]. rewrite c_close_opened. assert (fd ∉ opened k); [|set_solver].
  intros Hin%opened_valid. unfold fd_valid in Ev. lia.
Qed.

Lemma enqueue_frame (c : Conn) (k : K) : l_fd (enqueue opt_ c k).1 = l_fd c /\ opened (enqueue opt_ c k).2 = opened k.
Proof. unfold enqueue. pose proof (c_now_opened k) as Ho. by destruct (c_now k). Qed.

Lemma enqueue_n_frame n (c : Conn) (k : K) : l_fd (enqueue_n opt_ n c k).1 = l_fd c /\ opened (enqueue_n opt_ n c k).2 = opened k.
Proof.
  revert c k. induction n as [|n IH]; intros c k; cbn [enqueue_n]; [done|]. destruct (enqueue_frame c k) as [Hf Ho].
  destruct (enqueue opt_ c k) as [c1 k1]. cbn [fst snd] in *. rewrite <- Hf, <- Ho. apply IH.
Qed.

Lemma open_conn_holds ep idx R l (k : K) :
  holds R l k -> holds R (owned_fd (l_fd (open_conn opt_ ep idx k).1) ++ l) (open_conn opt_ ep idx k).2.
Proof.
  intros Hh. unfold open_conn. pose proof (c_socket_opened k) as Hs. apply (holds_opens R l) in Hs; [|done].
  destruct (c_socket k) as [fd k1]. cbn [fst snd] in Hs.
  match goal with |- context [enqueue_n opt_ ?n ?c ?k2] => destruct (enqueue_n_frame n c k2) as [Hf Ho]; set (r := enqueue_n opt_ n c k2) in * end.
  cbn [l_fd] in Hf. rewrite Hf. eapply holds_same; [|exact Hs]. by rewrite Ho, c_add_opened, c_connect_opened.
Qed.

(** What a function on a connection leaves alone. *)
Definition frame (c : Conn) (k : K) (c' : Conn) (k' : K) : Prop := l_fd c' = l_fd c /\ opened k' = opened k.

Lemma record_latency_frame s (c : Conn) first rest st (k : K) :
  let r := record_latency opt_ deadline_ s c first rest st k in frame c k r.1.1 r.2.
Proof.
  unfold record_latency. pose proof (c_now_opened k) as Ho1. destruct (c_now k) as [t k1]. cbn [snd] in Ho1.
  pose proof (c_now_opened k1) as Ho2. destruct (c_now k1) as [t2 k2]. cbn [snd] in Ho2. destruct (_ <? deadline_); [|split; [done|cbn; congruence]].
  match goal with |- context [enqueue opt_ ?c0 k2] => destruct (enqueue_frame c0 k2) as [Hf Ho]; destruct (enqueue opt_ c0 k2) as [c1 k3] end.
  cbn in *. split; [done|congruence].
Qed.

Lemma consume_loop_frame fuel pos (c : Conn) st (k : K) r c' st' k' :
  consume_loop opt_ deadline_ fuel pos c st k = Some (r, c', st', k') -> frame c k c' k'.
Proof.
  revert pos c st k. induction fuel as [|f IH]; intros pos c st k; cbn [consume_loop]; [done|].
  unfold consume_round. destruct (find_sub_from _ _ _) as [he|]; [|by intros [= _ <- _ <-]].
  destruct (_ <? 12)%nat; [by intros [= _ <- _ <-]|]. destruct (head_length _) as [len|]; [|by intros [= _ <- _ <-]].
  destruct (_ <? u64 _); [by intros [= _ <- _ <-]|]. destruct (l_sent_at c) as [|first rest]; [by intros [= _ <- _ <-]|].
  match goal with |- context [record_latency _ _ ?s c first rest st k] => pose proof (record_latency_frame s c first rest st k) as Hf1 end.
  destruct (record_latency _ _ _ _ _ _ _ _) as [[c1 st1] k1]. intros Hl%IH. unfold frame in *. cbn in Hf1. intuition congruence.
Qed.

Lemma recv_loop_frame fuel (c : Conn) st (k : K) b c' st' k' : recv_loop fuel c st k = Some (b, c', st', k') -> frame c k c' k'.
Proof.
  revert c st k. induction fuel as [|f IH]; intros c st k; cbn [recv_loop]; [done|]. pose proof (c_recv_opened k (l_fd c)) as Ho.
  destruct (c_recv k (l_fd c)) as [[[|x bs]|[]] k1]; cbn [snd] in Ho; try (by intros [= _ <- _ <-]);
    intros Hl%IH; unfold frame in *; cbn [l_fd] in Hl; intuition congruence.
Qed.

Lemma send_loop_frame fuel (c : Conn) (k : K) b c' k' : send_loop fuel c k = Some (b, c', k') -> frame c k c' k'.
Proof.
  revert c k. induction fuel as [|f IH]; intros c k; cbn [send_loop]; (destruct (_ <? _)%nat; [|by intros [= _ <- <-]]); [done|].
  match goal with |- context [c_send k ?a ?b] => pose proof (c_send_opened k a b) as Ho; destruct (c_send k a b) as [[n|[]] k1] end;
    cbn [snd] in Ho; try (by intros [= _ <- <-]); [destruct (n >? 0); [|by intros [= _ <- <-]]|];
    intros Hl%IH; unfold frame in *; cbn [l_fd] in Hl; intuition congruence.
Qed.

Lemma service_frame fuel (c : Conn) err st (k : K) r c' st' k' :
  service opt_ deadline_ fuel c err st k = Some (r, c', st', k') -> frame c k c' k'.
Proof.
  assert (forall c1 k1 c2 k2 c3 k3, frame c1 k1 c2 k2 -> frame c2 k2 c3 k3 -> frame c1 k1 c3 k3) as Htr
    by (unfold frame; intuition congruence).
  unfold service. destruct err; [by intros [= _ <- _ <-]|].
  destruct (recv_loop fuel c st k) as [[[[[] c1] st1] k1]|] eqn:Er; [| |done]; apply recv_loop_frame in Er; [|by intros [= _ <- _ <-]].
  destruct (consume_responses _ _ _ _ _ _) as [[[[r2 c2] st2] k2]|] eqn:Ec; [|done]. apply consume_loop_frame in Ec.
  pose proof (Htr _ _ _ _ _ _ Er Ec) as Hf2. destruct r2; try (by intros [= _ <- _ <-]).
  destruct (send_loop fuel c2 k2) as [[[[] c3] k3]|] eqn:Es; [| |done]; apply send_loop_frame in Es;
    pose proof (Htr _ _ _ _ _ _ Hf2 Es) as Hf3; intros [= _ <- _ <-]; [|done]. by destruct (_ =? _)%nat.
Qed.

(** Every descriptor of a worker. *)
Definition lw_fds (w : W) : list Z := owned_fd (w_ep w) ++ (w_conns w ≫= fun c => owned_fd (l_fd c)).

Lemma bind_insert (cs : list Conn) idx c c' :
  cs !! idx = Some c -> (<[idx := c']> cs ≫= fun c => owned_fd (l_fd c))
    ≡ₚ owned_fd (l_fd c') ++ ((take idx cs ++ drop (S idx) cs) ≫= fun c => owned_fd (l_fd c)).
Proof.
  intros Hc. rewrite insert_take_drop by (by eapply lookup_lt_Some). rewrite !bind_app, bind_cons, Permutation_app_swap_app. done.
Qed.

Lemma bind_lookup (cs : list Conn) idx c :
  cs !! idx = Some c -> (cs ≫= fun c => owned_fd (l_fd c))
    ≡ₚ owned_fd (l_fd c) ++ ((take idx cs ++ drop (S idx) cs) ≫= fun c => owned_fd (l_fd c)).
Proof. intros Hc. rewrite <- (bind_insert cs idx c c Hc). by rewrite list_insert_id. Qed.

Lemma reopen_holds R idx (w : W) :
  holds R (lw_fds w) (w_kern w) -> holds R (lw_fds (reopen opt_ idx w)) (w_kern (reopen opt_ idx w)) /\ w_ep (reopen opt_ idx w) = w_ep w.
Proof.
  intros Hh. unfold reopen. destruct (w_conns w !! idx) as [c|] eqn:Ec; [|done]. unfold lw_fds in Hh.
  rewrite (bind_lookup _ _ _ Ec), Permutation_app_swap_app in Hh. apply holds_c_close in Hh.
  apply (open_conn_holds (w_ep w) (Z.of_nat idx)) in Hh. destruct (open_conn _ _ _ _) as [c1 k1]. cbn [fst snd] in Hh.
  split; [|done]. unfold lw_fds. cbn [w_ep w_conns w_kern]. by rewrite (bind_insert _ _ _ _ Ec), Permutation_app_swap_app.
Qed.

Lemma events_loop_holds R fuel evs (w w' : W) b :
  holds R (lw_fds w) (w_kern w) -> events_loop opt_ deadline_ fuel evs w = Some (b, w') -> holds R (lw_fds w') (w_kern w').
Proof.
  revert w. induction evs as [|[idx err] evs IH]; intros w Hh; cbn [events_loop]; [by intros [= _ <-]|].
  destruct (w_conns w !! idx) as [c|] eqn:Ec; [|done].
  destruct (service _ _ _ _ _ _ _) as [[[[r c1] st1] k1]|] eqn:Es; [|done]. apply service_frame in Es as [Hf Ho].
  assert (forall st, holds R (lw_fds (mkLWorker (<[idx := c1]> (w_conns w)) st (w_ep w) k1)) k1) as Hh1.
  { intros st. unfold lw_fds in *. cbn [w_ep w_conns]. rewrite (bind_insert _ _ _ _ Ec), Hf, <- (bind_lookup _ _ _ Ec). by eapply holds_same. }
  destruct r; [by apply IH| |intros [= _ <-]; apply Hh1]. apply IH, reopen_holds, Hh1.
Qed.

Lemma open_all_holds R n i ep l (k : K) :
  holds R l k -> holds R (((open_all opt_ n i ep k).1 ≫= fun c => owned_fd (l_fd c)) ++ l) (open_all opt_ n i ep k).2.
Proof.
  revert i k l. induction n as [|n IH]; intros i k l Hh; cbn [open_all]; [done|].
  apply (open_conn_holds ep i) in Hh. destruct (open_conn opt_ ep i k) as [c k1]. cbn [fst snd] in Hh.
  apply (IH (i + 1)) in Hh. destruct (open_all opt_ n (i + 1) ep k1) as [cs k2]. cbn [fst snd] in *.
  by rewrite bind_cons, <- app_assoc, Permutation_app_swap_app.
Qed.

Lemma Worker_begin_holds n (k : K) : holds (opened k) (lw_fds (Worker_begin opt_ n k)) (w_kern (Worker_begin opt_ n k)).
Proof.
  assert (holds (opened k) [] k) as Hh by (split; [constructor|]; split; set_solver).
  unfold Worker_begin. apply (holds_opens _ _ _ _ (c_epoll_opened k)) in Hh. destruct (c_epoll_create k) as [ep k1]. cbn [fst snd] in Hh.
  apply (open_all_holds _ n 0 ep) in Hh. destruct (open_all opt_ n 0 ep k1) as [cs k2]. cbn [fst snd] in Hh.
  unfold lw_fds. cbn [w_ep w_conns w_kern]. by rewrite Permutation_app_comm, <- (app_nil_r (owned_fd ep)).
Qed.

Lemma close_conns_opened R (w : W) : holds R (lw_fds w) (w_kern w) -> opened (w_kern (close_conns w)) = R.
Proof.
  intros Hh. unfold close_conns. cbn [w_kern].
  assert (forall cs l (k : K), holds R ((cs ≫= fun c => owned_fd (l_fd c)) ++ l) k ->
    holds R l (fold_left (fun k c => if l_fd c >=? 0 then c_close k (l_fd c) else k) cs k)) as Hf.
  { intros cs l. induction cs as [|c cs IH]; intros k Hk; [done|]. cbn [fold_left]. apply IH. rewrite bind_cons, <- app_assoc in Hk.
    change (l_fd c >=? 0) with (fd_valid (l_fd c)). destruct (fd_valid (l_fd c)) eqn:Ev; [by apply holds_c_close|].
    unfold owned_fd in Hk at 1. by rewrite Ev in Hk. }
  unfold lw_fds in Hh. rewrite Permutation_app_comm in Hh. apply Hf in Hh. rewrite <- (app_nil_r (owned_fd (w_ep w))) in Hh.
  apply holds_c_close in Hh as (_ & _ & ->). set_solver.
Qed.

Lemma run_worker_opened R n fuel (w w' : W) :
  holds R (lw_fds w) (w_kern w) -> run_worker opt_ deadline_ n fuel w = Some (inr (true, w')) -> opened (w_kern w') = R.
Proof.
  revert w. induction n as [|n IH]; intros w Hh; cbn [run_worker]; [done|]. unfold run_pass.
  pose proof (c_now_opened (w_kern w)) as Ho1. destruct (c_now (w_kern w)) as [now k]. cbn [snd] in Ho1.
  destruct (now <? deadline_); [|intros [= <-]; apply close_conns_opened; by eapply holds_same].
  pose proof (c_wait_opened k (w_ep w)) as Ho2. destruct (c_epoll_wait k (w_ep w)) as [evs k1]. cbn [snd] in Ho2.
  destruct (events_loop _ _ _ _ _) as [[[] w1]|] eqn:E; [|done..].
  apply (events_loop_holds R) in E; [by apply IH|]. eapply (holds_same R _ (w_kern w)); [cbn; congruence|exact Hh].
Qed.

End Descriptors.

Lemma lg_threads_tidy {K : Type} `{ClientKernel K} n fuel o deadline (views : list K) :
  Forall (fun r => forall st, lg_stats r = Some st -> tidy st) (lg_threads n fuel o deadline views).
Proof.
  apply (Forall_zip_with_fst _ (fun _ => True)); [by apply Forall_true|]. apply Forall_true. intros k s _ st.
  destruct (run_worker _ _ _ _ _) as [[?|[b w]]|] eqn:Er; try done. apply run_worker_tidy in Er; [|rewrite Worker_begin_stats; apply tidy_new].
  by intros [= <-].
Qed.

Lemma mapM_tidy {K : Type} (rs : list (option (bool * Worker K))) stats :
  Forall (fun r => forall st, lg_stats r = Some st -> tidy st) rs -> mapM lg_stats rs = Some stats -> Forall tidy stats.
Proof.
  intros Hr Hm%mapM_Some. induction Hm as [|r st rs sts Hst _ IH]; [constructor|]. apply Forall_cons in Hr as [Hr1 Hr].
  apply Forall_cons. auto.
Qed.

Lemma total_latencies ws : latencies_ns (total_stats ws) ≡ₚ concat (latencies_ns <$> ws).
Proof. unfold total_stats. cbn [latencies_ns]. by rewrite merge_sort_Permutation, fold_latencies. Qed.

(** ** Theorems *)

(** The report is consistent whatever the servers do.  When
    the load generator ends after its threads have run, the statistics it
    prints are the sums over the threads: the number of requests is the
    number of latencies (modulo [2^64]), which are exactly those the threads
    measured, no more of them are failures than there are requests, every
    socket error led to one reconnect; and the exit status is 0 exactly when
    there was neither a socket error nor a response other than 2xx.
    Otherwise it ended because a response had no [Content-Length], with
    status 1 and without a report. *)
Theorem loadgen_report {double : Type} (of_u64 : Z -> double) (div mul : double -> double -> double) (fmt : nat -> double -> bytes)
  (trunc : double -> nat) (seconds : Z -> double) (p99_9 : double) {K : Type} `{ClientKernel K}
  (n fuel : nat) (argv : list bytes) (k : K) (views : list K) (o : Options) (status : Z) (out : list bytes) :
  loadgen_options argv LOptions_default = LStart o -> length views = length (shares (settle o)) ->
  loadgen_main of_u64 div mul fmt trunc seconds p99_9 n fuel argv k views = Some (LReturn status out) ->
  (status = 1 /\ out = [lg_banner (settle o); B "loadgen: only Content-Length responses are supported" ++ [LF]])
  \/ exists stats elapsed, let all := total_stats stats in
       out = lg_banner (settle o) :: lg_report of_u64 div mul fmt trunc p99_9 all elapsed
       /\ length stats = length (shares (settle o)) /\ latencies_ns all ≡ₚ concat (latencies_ns <$> stats)
       /\ requests all = u64 (zlen (latencies_ns all)) /\ 0 <= non_2xx all <= zlen (latencies_ns all)
       /\ reconnects all = socket_errors all
       /\ (status = 0 \/ status = 1) /\ (status = 0 <-> socket_errors all = 0 /\ non_2xx all = 0).
Proof.
  intros Ho Hv. unfold loadgen_main. rewrite Ho. set (o' := settle o) in *. clearbody o'. destruct (c_now k) as [start k1].
  set (deadline := _ + _). destruct (existsb _ (shares o')); [done|].
  destruct (existsb lg_quit _); [intros [= <- <-]; by left|]. destruct (mapM _ _) as [stats|] eqn:Em; [|done].
  destruct (c_now k1) as [now k2]. intros [= <- <-]. right. exists stats, (seconds (now - start)). cbn zeta.
  pose proof (mapM_tidy _ _ (lg_threads_tidy n fuel o' deadline views) Em) as Ht. pose proof (length_mapM _ _ _ Em) as Hl.
  unfold lg_threads in Hl. rewrite length_zip_with, Hv, Nat.min_id in Hl. destruct (total_tidy _ Ht) as [Hr Hn Hc].
  split; [done|]. split; [done|]. split; [by apply total_latencies|]. split; [done|]. split; [done|]. split; [done|].
  unfold exit_status. destruct (Z.eqb_spec (socket_errors (total_stats stats)) 0), (Z.eqb_spec (non_2xx (total_stats stats)) 0); cbn [andb];
    (split; [by auto|]); split; intros; try done; lia.
Qed.

(** A worker of the load generator that returns has closed
    every descriptor it opened, its [epoll] instance and the sockets of all
    its connections, however often they were opened again, and nothing else. *)
Theorem loadgen_closes {K : Type} `{ClientKernel K} `{!FdView K} `{!ClientFdLaws K} (o : Options) (deadline : Z)
  (conns n fuel : nat) (k : K) (w' : Worker K) :
  run_worker o deadline n fuel (Worker_begin o conns k) = Some (inr (true, w')) -> opened (w_kern w') = opened k.
Proof. apply run_worker_opened, Worker_begin_holds. Qed.

(** ** A concrete machine

    The first connection is answered once and then broken; the clock advances
    by 0.1 seconds whenever it is read. *)
Record Bench := mkBench { b_open : gset Z; b_rx : list (bytes + client_error); b_clock : Z }.

#[export] Instance bench_kernel : ClientKernel Bench := {
  c_socket k := let fd := fresh_fd (b_open k) in (fd, mkBench (b_open k ∪ {[fd]}) (b_rx k) (b_clock k));
  c_connect k _ _ _ := k;
  c_epoll_create k := let fd := fresh_fd (b_open k) in (fd, mkBench (b_open k ∪ {[fd]}) (b_rx k) (b_clock k));
  c_epoll_add k _ _ _ := k;
  c_epoll_wait k _ := ([(0%nat, false)], k);
  c_recv k _ :=
    match b_rx k with
    | [] => (inr CAgain, k)
    | r :: rx => (r, mkBench (b_open k) rx (b_clock k))
    end;
  c_send k _ bs := (inl (zlen bs), k);
  c_close k fd := mkBench (b_open k ∖ {[fd]}) (b_rx k) (b_clock k);
  c_now k := (b_clock k, mkBench (b_open k) (b_rx k) (b_clock k + 100000000)) }.

Definition bench : Bench :=
  mkBench {[0; 1; 2]} [inl (answer_text (one_answer 200 (B "hi"))); inr CAgain; inr COther] 0.

Definition bench_args : list bytes := [B "-c"; B "1"; B "-d"; B "1"].

Definition bench_options : Options := set_lduration 1 (set_lconns 1 LOptions_default).

#[local] Abbreviation bench_main :=
  (loadgen_main (fun v => v) Z.div Z.mul (fun _ v => to_string v) Z.to_nat (fun ns => ns / 1000000000) 99 9 30 bench_args bench [bench]).

(** One request was answered, then the connection broke and was opened again: status 1. *)
Lemma loadgen_report_witness :
  exists stats elapsed, let all := total_stats stats in
    bench_main = Some (LReturn 1 (lg_banner (settle bench_options)
      :: lg_report (fun v => v) Z.div Z.mul (fun _ v => to_string v) Z.to_nat 99 all elapsed))
    /\ reconnects all = socket_errors all /\ requests all = u64 (zlen (latencies_ns all)).
Proof.
  assert (match bench_main with Some (LReturn st out) => Some (st, length out) | _ => None end = Some (1, 5%nat)) as Hb by (vm_compute; reflexivity).
  destruct bench_main as [[status out|]|] eqn:E; [|discriminate Hb..]. injection Hb as -> Hl.
  assert (loadgen_options bench_args LOptions_default = LStart bench_options) as Ho by (vm_compute; reflexivity).
  assert (length [bench] = length (shares (settle bench_options))) as Hv by (vm_compute; reflexivity).
  destruct (loadgen_report (fun v => v) Z.div Z.mul (fun _ v => to_string v) Z.to_nat (fun ns => ns / 1000000000) 99 9 30 bench_args bench [bench]
    bench_options 1 out Ho Hv E) as [[_ ->]|(stats & elapsed & -> & _ & _ & Hr & _ & Hc & _)];
    [discriminate Hl|].
  exists stats, elapsed. split; [reflexivity|]. split; [exact Hc|exact Hr].
Defined.

#[export] Instance bench_view : FdView Bench := fun k => filter (fun fd => 0 <= fd) (b_open k).

Lemma bench_opens (k : Bench) rx t : opens_or_fails k (fresh_fd (b_open k), mkBench (b_open k ∪ {[fresh_fd (b_open k)]}) rx t).
Proof.
  destruct (fresh_fd_spec (b_open k)) as [Hp Hn]. unfold opens_or_fails, opened, bench_view. cbn [fst snd b_open].
  unfold fd_valid. destruct (Z.geb_spec (fresh_fd (b_open k)) 0); [|lia].
  split; [rewrite elem_of_filter; tauto|]. apply leibniz_equiv. intros x.
  rewrite elem_of_filter, !elem_of_union, elem_of_singleton, elem_of_filter. naive_solver.
Qed.

#[export] Instance bench_fds : ClientFdLaws Bench.
Proof.
  split; try done; intros k.
  - intros fd. unfold opened, bench_view. rewrite elem_of_filter. by intros [? _].
  - apply bench_opens.
  - apply bench_opens.
  - intros fd. unfold opened, bench_view. cbn [c_close bench_kernel b_open]. apply leibniz_equiv. intros x.
    rewrite elem_of_filter, !elem_of_difference, elem_of_filter. tauto.
  - intros fd. cbn. by destruct (b_rx k).
Qed.

Lemma loadgen_closes_witness :
  match run_worker (settle LOptions_default) 1000000000 9 30 (Worker_begin (settle LOptions_default) 2 bench) with
  | Some (inr (true, w')) => socket_errors (w_stats w') = 1 /\ opened (w_kern w') = {[0; 1; 2]}
  | _ => False
  end.
Proof.
  assert (match run_worker (settle LOptions_default) 1000000000 9 30 (Worker_begin (settle LOptions_default) 2 bench) with
          | Some (inr (b, w')) => b = true /\ socket_errors (w_stats w') = 1
          | _ => False
          end) as Hb by (vm_compute; split; reflexivity).
  destruct (run_worker (settle LOptions_default) 1000000000 9 30 (Worker_begin (settle LOptions_default) 2 bench)) as [[w'|[b w']]|] eqn:E;
    [destruct Hb| |destruct Hb]. destruct Hb as [-> Hs]. split; [exact Hs|].
  rewrite (loadgen_closes _ _ _ _ _ _ _ E). vm_compute. reflexivity.
Defined.
