(* ===== verification/FuzzMain.v ===== *)
(** * [fuzz/fuzz_request_parser.cpp]: the standalone mutational fuzzer

    The random numbers, the mutations and [main].  [None] is undefined
    behaviour or an exception: an index out of range, [std::out_of_range], or
    a trap of the target.  The two arguments of [s.insert(pick(…), …pick(…)…)]
    are evaluated in an order the language leaves open:
    [right_first] is the order of the compiler at hand. *)

From S2P Require Import Prelude Headers RequestParser Numbers ParserFacts ParserSegmentation Main Fuzz.

Open Scope Z_scope.

(** ** Random numbers *)

Definition rng_seed : Z := 0x9E3779B97F4A7C15.

(** The number and the new [rng_state]. *)
Definition next_random (s : Z) : Z * Z :=
  let s := Z.lxor s (Z.shiftr s 12) in
  let s := Z.lxor s (u64 (Z.shiftl s 25)) in
  let s := Z.lxor s (Z.shiftr s 27) in
  (u64 (s * 0x2545F4914F6CDD1D), s).

Definition pick (n s : Z) : Z * Z :=
  if n =? 0 then (0, s) else let '(r, s) := next_random s in (r mod n, s).

(** ** Seeds and tokens *)

Definition crlf (s : bytes) : bytes := s ++ kCRLF.

Definition kSeeds : list bytes :=
  [crlf (B "GET / HTTP/1.1") ++ crlf (B "Host: localhost:42069") ++ crlf (B "User-Agent: curl/7.81.0") ++ crlf (B "Accept: */*") ++ kCRLF;
   crlf (B "POST /submit HTTP/1.1") ++ crlf (B "Host: x") ++ crlf (B "Content-Length: 13") ++ kCRLF ++ B "hello world!" ++ [LF];
   crlf (B "POST /u HTTP/1.1") ++ crlf (B "Host: x") ++ crlf (B "Transfer-Encoding: chunked") ++ kCRLF
     ++ crlf (B "4") ++ crlf (B "Wiki") ++ crlf (B "5;a=b") ++ crlf (B "pedia") ++ crlf (B "0") ++ crlf (B "T: 1") ++ kCRLF;
   crlf (B "GET /a?b=c HTTP/1.0") ++ crlf (B "Connection: keep-alive") ++ kCRLF
     ++ crlf (B "GET /b HTTP/1.1") ++ crlf (B "Host: y") ++ kCRLF;
   kCRLF ++ crlf (B "OPTIONS * HTTP/1.1") ++ crlf (B "Host: x") ++ crlf (B "Expect: 100-continue")
     ++ crlf (B "Content-Length: 2, 2") ++ kCRLF ++ B "ok"].

Definition kTokens : list bytes :=
  [kCRLF; kCRLF ++ kCRLF; B ":"; B " "; crlf (B "0") ++ kCRLF; B "Content-Length: "; B "Transfer-Encoding: chunked";
   B "HTTP/1.1"; B "ffffffff"; [LF]; [CR]; [HTAB]; B "%"; B ";"; B ","].

(** ** Strings *)

(** [s[i] = c]. *)
Definition assign_at (s : bytes) (i : Z) (c : ascii) : option bytes :=
  if i <? zlen s then Some (<[Z.to_nat i := c]> s) else None.

(** [s.erase(at, n)], [s.insert(at, t)] and [s.substr(at, n)]; they throw when [at > s.size()]. *)
Definition erase_at (s : bytes) (at_ n : Z) : option bytes :=
  if at_ <=? zlen s then Some (take (Z.to_nat at_) s ++ drop (Z.to_nat (at_ + n)) s) else None.
Definition insert_at (s : bytes) (at_ : Z) (t : bytes) : option bytes :=
  if at_ <=? zlen s then Some (take (Z.to_nat at_) s ++ t ++ drop (Z.to_nat at_) s) else None.
Definition substr_at (s : bytes) (at_ n : Z) : option bytes :=
  if at_ <=? zlen s then Some (take (Z.to_nat n) (drop (Z.to_nat at_) s)) else None.

(** ** Mutations *)

Section Mutate.
Context (right_first : bool).

(** The two numbers of [f(pick(a), … pick(b) …)]. *)
Definition pick2 (a b st : Z) : Z * Z * Z :=
  if right_first then let '(y, st) := pick b st in let '(x, st) := pick a st in (x, y, st)
  else let '(x, st) := pick a st in let '(y, st) := pick b st in (x, y, st).

(** The cases of the [switch].  The right operand of [=] is evaluated first. *)
Definition flip_byte (s : bytes) (st : Z) : option (bytes * Z) :=
  match s with
  | [] => Some (s, st)
  | _ =>
      let '(r, st) := next_random st in
      let '(i, st) := pick (zlen s) st in
      s ← assign_at s i (chr r); Some (s, st)
  end.

Definition delete_range (s : bytes) (st : Z) : option (bytes * Z) :=
  match s with
  | [] => Some (s, st)
  | _ =>
      let '(at_, st) := pick (zlen s) st in
      let '(n, st) := pick 16 st in
      s ← erase_at s at_ (n + 1); Some (s, st)
  end.

Definition insert_token (s : bytes) (st : Z) : option (bytes * Z) :=
  let '(at_, i, st) := pick2 (zlen s + 1) (zlen kTokens) st in
  t ← kTokens !! Z.to_nat i; s ← insert_at s at_ t; Some (s, st).

Definition duplicate_range (s : bytes) (st : Z) : option (bytes * Z) :=
  match s with
  | [] => Some (s, st)
  | _ =>
      let '(from, st) := pick (zlen s) st in
      let '(at_, n, st) := pick2 (zlen s + 1) 32 st in
      t ← substr_at s from (n + 1); s ← insert_at s at_ t; Some (s, st)
  end.

Definition splice_seed (s : bytes) (st : Z) : option (bytes * Z) :=
  let '(i, st) := pick (zlen kSeeds) st in
  t ← kSeeds !! Z.to_nat i; Some (s ++ t, st).

Definition truncate (s : bytes) (st : Z) : option (bytes * Z) :=
  let '(n, st) := pick (zlen s + 1) st in
  Some (take (Z.to_nat n) s, st).

(** One round. *)
Definition mutate_once (s : bytes) (st : Z) : option (bytes * Z) :=
  let '(which, st) := pick 6 st in
  match which with
  | 0 => flip_byte s st
  | 1 => delete_range s st
  | 2 => insert_token s st
  | 3 => duplicate_range s st
  | 4 => splice_seed s st
  | _ => truncate s st
  end.

Fixpoint mutate_rounds (n : nat) (s : bytes) (st : Z) : option (bytes * Z) :=
  match n with
  | O => Some (s, st)
  | S n' => '(s, st) ← mutate_once s st; mutate_rounds n' s st
  end.

Definition mutate (s : bytes) (st : Z) : option (bytes * Z) :=
  let '(r, st) := pick 8 st in
  mutate_rounds (Z.to_nat (1 + r)) s st.

(** ** [main] *)

(** One iteration: [None] when something is out of range or the target traps. *)
Definition fuzz_once (st : Z) : option Z :=
  let '(i, st) := pick (zlen kSeeds) st in
  seed ← kSeeds !! Z.to_nat i;
  '(input, st) ← mutate seed st;
  let '(r, st) := next_random st in
  if LLVMFuzzerTestOneInput (chr r :: input) then Some st else None.

Fixpoint fuzz_loop (n : nat) (st : Z) : option Z :=
  match n with
  | O => Some st
  | S n' => st ← fuzz_once st; fuzz_loop n' st
  end.

(** [std::strtoull(seed, nullptr, 10) | 1]. *)
Definition initial_state (seed : option bytes) : Z :=
  match seed with
  | Some s => Z.lor (sr_value (strtoul s)) 1
  | None => rng_seed
  end.

(** [iterations] is [atol(argv[1])] or 200000. *)
Definition fuzz_main (iterations : Z) (seed : option bytes) : option Z :=
  _ ← fuzz_loop (Z.to_nat iterations) (initial_state seed); Some 0.

End Mutate.

(** ** The generator *)

Definition rng_ok (s : Z) : Prop := 0 < s < 2 ^ 64.

Lemma lxor_range a b : 0 <= a < 2 ^ 64 -> 0 <= b < 2 ^ 64 -> 0 <= Z.lxor a b < 2 ^ 64.
Proof.
  intros [Ha Ha2] [Hb Hb2]. assert (0 <= Z.lxor a b) as Hn by (apply Z.lxor_nonneg; split; lia). split; [done|].
  destruct (decide (Z.lxor a b = 0)) as [->|Hne]; [lia|].
  apply Z.log2_lt_pow2; [lia|]. eapply Z.le_lt_trans; [apply Z.log2_lxor; lia|].
  apply Z.max_lub_lt.
  - destruct (decide (a = 0)) as [->|]; [done|]. apply Z.log2_lt_pow2; lia.
  - destruct (decide (b = 0)) as [->|]; [done|]. apply Z.log2_lt_pow2; lia.
Qed.

Lemma xorshift_right s n : 0 < n -> rng_ok s -> rng_ok (Z.lxor s (Z.shiftr s n)).
Proof.
  intros Hn [Hp Hb]. rewrite Z.shiftr_div_pow2 by lia.
  assert (2 <= 2 ^ n) as Hpow by (change 2 with (2 ^ 1) at 1; apply Z.pow_le_mono_r; lia).
  assert (0 <= s / 2 ^ n < s) as Hd by (split; [apply Z.div_pos; lia|apply Z.div_lt; lia]).
  pose proof (lxor_range s (s / 2 ^ n) ltac:(lia) ltac:(lia)) as Hr. split; [|lia].
  assert (Z.lxor s (s / 2 ^ n) <> 0); [|lia]. intros E%Z.lxor_eq. lia.
Qed.

Lemma xorshift_left s : rng_ok s -> rng_ok (Z.lxor s (u64 (Z.shiftl s 25))).
Proof.
  intros [Hp Hb]. pose proof (u64_range (Z.shiftl s 25)) as Hu.
  pose proof (lxor_range s (u64 (Z.shiftl s 25)) ltac:(lia) ltac:(lia)) as Hr. split; [|lia].
  assert (Z.lxor s (u64 (Z.shiftl s 25)) <> 0); [|lia]. intros E%Z.lxor_eq.
  (* s = s * 2^25 mod 2^64 forces s = 0, since 2^25 - 1 is odd *)
  rewrite Z.shiftl_mul_pow2 in E by lia. unfold u64 in E.
  assert (Z.divide (2 ^ 64) ((2 ^ 25 - 1) * s)) as Hdiv.
  { apply Z.mod_divide; [lia|]. rewrite Z.mul_comm, Z.mul_sub_distr_l, Z.mul_1_r, Zminus_mod, <- E.
    rewrite (Z.mod_small s) by lia. by rewrite Z.sub_diag. }
  apply Z.gauss in Hdiv; [|reflexivity]. apply Z.divide_pos_le in Hdiv; lia.
Qed.

Lemma next_random_ok s : rng_ok s -> rng_ok (next_random s).2 /\ 0 <= (next_random s).1 < 2 ^ 64.
Proof.
  intros Hs. unfold next_random. cbn [fst snd]. split; [|apply u64_range].
  apply xorshift_right; [lia|]. apply xorshift_left. by apply xorshift_right.
Qed.

Lemma pick_ok n s : rng_ok s -> 0 <= n -> rng_ok (pick n s).2 /\ 0 <= (pick n s).1 /\ (0 < n -> (pick n s).1 < n).
Proof.
  intros Hs Hn. unfold pick. destruct (Z.eqb_spec n 0); [split_and!; [done|done|cbn; lia]|].
  pose proof (next_random_ok s Hs) as [Hr Hv]. destruct (next_random s) as [r s']. cbn [fst snd] in *.
  pose proof (Z.mod_pos_bound r n ltac:(lia)). split_and!; [done|lia|lia].
Qed.

Lemma pick2_ok rf a b s x y s' :
  rng_ok s -> 0 < a -> 0 < b -> pick2 rf a b s = (x, y, s') -> rng_ok s' /\ 0 <= x < a /\ 0 <= y < b.
Proof.
  intros Hs Ha Hb. unfold pick2.
  pose proof (pick_ok a s Hs ltac:(lia)) as (Ha1 & Ha2 & Ha3). pose proof (pick_ok b s Hs ltac:(lia)) as (Hb1 & Hb2 & Hb3).
  destruct rf.
  - destruct (pick b s) as [v s1]. cbn [fst snd] in *. pose proof (pick_ok a s1 Hb1 ltac:(lia)) as (Hc1 & Hc2 & Hc3).
    destruct (pick a s1) as [u s2]. cbn [fst snd] in *. intros [= <- <- <-]. split; [done|]. lia.
  - destruct (pick a s) as [u s1]. cbn [fst snd] in *. pose proof (pick_ok b s1 Ha1 ltac:(lia)) as (Hc1 & Hc2 & Hc3).
    destruct (pick b s1) as [v s2]. cbn [fst snd] in *. intros [= <- <- <-]. split; [done|]. lia.
Qed.

(** ** Mutations stay in range *)

(** A round adds at most this much: the longest seed. *)
Definition growth : Z := 96.

Lemma seeds_small : Forall (fun s => zlen s <= growth) kSeeds.
Proof. repeat constructor; vm_compute; discriminate. Qed.

Lemma tokens_small : Forall (fun s => zlen s <= growth) kTokens.
Proof. repeat constructor; vm_compute; discriminate. Qed.

Lemma table_pick (l : list bytes) i : Forall (fun s => zlen s <= growth) l -> 0 <= i < zlen l ->
  exists t, l !! Z.to_nat i = Some t /\ zlen t <= growth.
Proof.
  intros Hl Hi. destruct (lookup_lt_is_Some_2 l (Z.to_nat i)) as [t Ht]; [unfold zlen in Hi; lia|].
  exists t. split; [done|]. by apply (Forall_lookup_1 _ _ _ _ Hl Ht).
Qed.

Lemma insert_at_ok s at_ t : 0 <= at_ <= zlen s -> exists s', insert_at s at_ t = Some s' /\ zlen s' = zlen s + zlen t.
Proof.
  intros Hat. unfold insert_at. destruct (Z.leb_spec at_ (zlen s)); [|lia]. eexists. split; [done|].
  unfold zlen in *. rewrite !length_app, length_take, length_drop. lia.
Qed.

(** The result of a round, when it is in range. *)
Definition in_range_result (s : bytes) (r : option (bytes * Z)) : Prop :=
  exists s' st', r = Some (s', st') /\ rng_ok st' /\ zlen s' <= zlen s + growth.

Lemma in_range_intro s s' st' : rng_ok st' -> zlen s' <= zlen s + growth -> in_range_result s (Some (s', st')).
Proof. unfold in_range_result. eauto. Qed.

Lemma nonempty_len (c : ascii) s : 0 < zlen (c :: s).
Proof. unfold zlen. cbn. lia. Qed.

Lemma same_ok s st : rng_ok st -> in_range_result s (Some (s, st)).
Proof. intros Hst. apply in_range_intro; [done|unfold growth; lia]. Qed.

Lemma flip_byte_ok s st : rng_ok st -> in_range_result s (flip_byte s st).
Proof.
  intros Hst. destruct s as [|c s0]; [by apply same_ok|]. unfold flip_byte. pose proof (nonempty_len c s0) as Hne. set (s := c :: s0) in *.
  pose proof (next_random_ok st Hst) as [Hr _]. destruct (next_random st) as [r st2]. cbn [snd] in Hr.
  pose proof (pick_ok (zlen s) st2 Hr ltac:(lia)) as (Hp & Hp2 & Hp3). destruct (pick (zlen s) st2) as [i st3]. cbn [fst snd] in *.
  unfold assign_at. destruct (Z.ltb_spec i (zlen s)); [|lia]. apply in_range_intro; [done|].
  unfold zlen, growth in *. rewrite length_insert. lia.
Qed.

Lemma delete_range_ok s st : rng_ok st -> in_range_result s (delete_range s st).
Proof.
  intros Hst. destruct s as [|c s0]; [by apply same_ok|]. unfold delete_range. pose proof (nonempty_len c s0) as Hne. set (s := c :: s0) in *.
  pose proof (pick_ok (zlen s) st Hst ltac:(lia)) as (Hp & Hp2 & Hp3). destruct (pick (zlen s) st) as [at_ st2]. cbn [fst snd] in *.
  pose proof (pick_ok 16 st2 Hp ltac:(lia)) as (Hq & Hq2 & Hq3). destruct (pick 16 st2) as [n st3]. cbn [fst snd] in *.
  unfold erase_at. destruct (Z.leb_spec at_ (zlen s)); [|lia]. apply in_range_intro; [done|].
  unfold zlen, growth in *. rewrite length_app, length_take, length_drop. lia.
Qed.

Lemma insert_token_ok rf s st : rng_ok st -> in_range_result s (insert_token rf s st).
Proof.
  intros Hst. unfold insert_token. pose proof (zlen_nonneg s).
  destruct (pick2 rf (zlen s + 1) (zlen kTokens) st) as [[at_ i] st2] eqn:E.
  apply pick2_ok in E as (Hs2 & Hat & Hi); [|done|lia|vm_compute; done].
  destruct (table_pick kTokens i tokens_small Hi) as (t & -> & Ht). cbn [mbind option_bind].
  destruct (insert_at_ok s at_ t ltac:(lia)) as (s' & -> & Hl). cbn [mbind option_bind]. apply in_range_intro; [done|lia].
Qed.

Lemma duplicate_range_ok rf s st : rng_ok st -> in_range_result s (duplicate_range rf s st).
Proof.
  intros Hst. destruct s as [|c s0]; [by apply same_ok|]. unfold duplicate_range. pose proof (nonempty_len c s0) as Hne. set (s := c :: s0) in *.
  pose proof (pick_ok (zlen s) st Hst ltac:(lia)) as (Hp & Hp2 & Hp3). destruct (pick (zlen s) st) as [from st2]. cbn [fst snd] in *.
  destruct (pick2 rf (zlen s + 1) 32 st2) as [[at_ n] st3] eqn:E. apply pick2_ok in E as (Hs3 & Hat & Hn); [|done|lia|lia].
  unfold substr_at. destruct (Z.leb_spec from (zlen s)); [|lia]. cbn [mbind option_bind].
  destruct (insert_at_ok s at_ (take (Z.to_nat (n + 1)) (drop (Z.to_nat from) s)) ltac:(lia)) as (s' & -> & Hl).
  cbn [mbind option_bind]. apply in_range_intro; [done|]. rewrite Hl. unfold zlen, growth. rewrite length_take. lia.
Qed.

Lemma splice_seed_ok s st : rng_ok st -> in_range_result s (splice_seed s st).
Proof.
  intros Hst. unfold splice_seed. pose proof (pick_ok (zlen kSeeds) st Hst ltac:(vm_compute; discriminate)) as (Hp & Hp2 & Hp3).
  destruct (pick (zlen kSeeds) st) as [i st2]. cbn [fst snd] in *.
  destruct (table_pick kSeeds i seeds_small) as (t & -> & Ht); [split; [done|apply Hp3; vm_compute; done]|].
  cbn [mbind option_bind]. apply in_range_intro; [done|]. rewrite zlen_app. lia.
Qed.

Lemma truncate_ok s st : rng_ok st -> in_range_result s (truncate s st).
Proof.
  intros Hst. unfold truncate. pose proof (zlen_nonneg s). pose proof (pick_ok (zlen s + 1) st Hst ltac:(lia)) as (Hp & _).
  destruct (pick (zlen s + 1) st) as [n st2]. apply in_range_intro; [done|].
  pose proof (zlen_take_le (Z.to_nat n) s). unfold growth. lia.
Qed.

Lemma mutate_once_ok rf s st : rng_ok st -> in_range_result s (mutate_once rf s st).
Proof.
  intros Hst. unfold mutate_once. pose proof (pick_ok 6 st Hst ltac:(lia)) as (H1 & _). destruct (pick 6 st) as [which st1].
  cbn [fst snd] in *. repeat case_match;
    auto using flip_byte_ok, delete_range_ok, insert_token_ok, duplicate_range_ok, splice_seed_ok, truncate_ok.
Qed.

Lemma mutate_rounds_ok rf n s st :
  rng_ok st -> exists s' st', mutate_rounds rf n s st = Some (s', st') /\ rng_ok st' /\ zlen s' <= zlen s + Z.of_nat n * growth.
Proof.
  revert s st. induction n as [|n IH]; intros s st Hst; cbn [mutate_rounds]; [exists s, st; split_and!; [done|done|lia]|].
  destruct (mutate_once_ok rf s st Hst) as (s1 & st1 & -> & Hst1 & Hl1). cbn [mbind option_bind].
  destruct (IH s1 st1 Hst1) as (s' & st' & -> & Hst' & Hl'). exists s', st'. split_and!; [done|done|lia].
Qed.

Lemma mutate_ok rf s st :
  rng_ok st -> exists s' st', mutate rf s st = Some (s', st') /\ rng_ok st' /\ zlen s' <= zlen s + 8 * growth.
Proof.
  intros Hst. unfold mutate. pose proof (pick_ok 8 st Hst ltac:(lia)) as (Hp & Hp2 & Hp3).
  destruct (pick 8 st) as [r st1]. cbn [fst snd] in *. specialize (Hp3 ltac:(lia)).
  destruct (mutate_rounds_ok rf (Z.to_nat (1 + r)) s st1 Hp) as (s' & st' & -> & Hst' & Hl).
  exists s', st'. split_and!; [done|done|]. unfold growth in *. lia.
Qed.

Lemma fuzz_once_ok rf st : rng_ok st -> exists st', fuzz_once rf st = Some st' /\ rng_ok st'.
Proof.
  intros Hst. unfold fuzz_once. pose proof (pick_ok (zlen kSeeds) st Hst ltac:(vm_compute; discriminate)) as (Hp & Hp2 & Hp3).
  destruct (pick (zlen kSeeds) st) as [i st1]. cbn [fst snd] in *.
  destruct (table_pick kSeeds i seeds_small) as (seed & -> & Hsd); [split; [done|apply Hp3; vm_compute; done]|].
  cbn [mbind option_bind]. destruct (mutate_ok rf seed st1 Hp) as (input & st2 & -> & Hst2 & Hl). cbn [mbind option_bind].
  pose proof (next_random_ok st2 Hst2) as [Hr _]. destruct (next_random st2) as [r st3]. cbn [snd] in Hr.
  rewrite target_never_traps; [by exists st3|]. unfold fits, zlen, growth in *. cbn [length]. lia.
Qed.

Lemma fuzz_loop_ok rf n st : rng_ok st -> exists st', fuzz_loop rf n st = Some st' /\ rng_ok st'.
Proof.
  revert st. induction n as [|n IH]; intros st Hst; cbn [fuzz_loop]; [by exists st|].
  destruct (fuzz_once_ok rf st Hst) as (st1 & -> & Hst1). by apply IH.
Qed.

Lemma initial_state_ok seed : rng_ok (initial_state seed).
Proof.
  destruct seed as [s|]; cbn [initial_state]; [|vm_compute; done].
  pose proof (strtoul_value_range s) as Hr. set (v := sr_value _) in *.
  assert (0 <= Z.lor v 1) as Hn by (apply Z.lor_nonneg; lia).
  assert (Z.lor v 1 <> 0) as Hne by (intros E%Z.lor_eq_0_iff; lia). split; [lia|].
  apply Z.log2_lt_pow2; [lia|]. rewrite Z.log2_lor by lia. change (Z.log2 1) with 0. apply Z.max_lub_lt; [|lia].
  destruct (decide (v = 0)) as [->|]; [done|]. apply Z.log2_lt_pow2; lia.
Qed.

(** The standalone fuzzer runs through with exit
    status 0 whatever the seed and the number of iterations: no mutation
    indexes, erases or inserts out of range, the target never traps on the
    inputs generated, and the state of the generator never becomes 0, where it
    would stay for ever. *)
Theorem fuzzer_runs_through (right_first : bool) (iterations : Z) (seed : option bytes) :
  fuzz_main right_first iterations seed = Some 0
  /\ forall n st, fuzz_loop right_first n (initial_state seed) = Some st -> 0 < st < 2 ^ 64.
Proof.
  unfold fuzz_main. pose proof (initial_state_ok seed) as Hs. split.
  - by destruct (fuzz_loop_ok right_first (Z.to_nat iterations) _ Hs) as (st & -> & _).
  - intros n st Hl. destruct (fuzz_loop_ok right_first n _ Hs) as (st' & Hl' & Hok). rewrite Hl in Hl'. by injection Hl' as ->.
Qed.

Lemma fuzzer_runs_through_witness :
  fuzz_main true 3 (Some (B "42")) = Some 0
  /\ (forall st, fuzz_loop true 3 (initial_state (Some (B "42"))) = Some st -> 0 < st < 2 ^ 64)
  /\ fuzz_loop true 3 (initial_state (Some (B "42"))) <> None.
Proof.
  split; [exact (proj1 (fuzzer_runs_through true 3 (Some (B "42"))))|].
  split; [exact (proj2 (fuzzer_runs_through true 3 (Some (B "42"))) 3%nat)|vm_compute; discriminate].
Defined.
