(* ===== verification/TestClient.v ===== *)
(** * [tests/test_server.cpp]: the HTTP client of the end-to-end tests

    The tests drive a server with raw bytes and read its answers with a
    small client of their own, [Client::read_response], which follows
    whichever framing the server chose.  It is an independent reader of what
    [http/response.cpp] and the connection write.  Definitions only; the
    theorems are in [TestClientFacts] and [TestClientTheorems].  The loops that wait for
    the peer take fuel; [None] is running out of it. *)

From S2P Require Import Prelude Headers RequestParser Numbers Main.

Open Scope Z_scope.

(** ** System calls

    The socket of the client is blocking and [recv] gives up after five
    seconds, which is one of the errors [POther]. *)
Inductive peer_error : Set := PIntr | PReset | POther.

Class PeerKernel (K : Type) := {
  p_recv : K -> Z -> Z -> (bytes + peer_error) * K;
  p_send : K -> Z -> bytes -> (Z + peer_error) * K }.

(** ** Numbers of the C++ library *)

Fixpoint span_hex (s : bytes) : bytes * bytes :=
  match s with
  | c :: s' => if is_hex c then let '(d, r) := span_hex s' in (c :: d, r) else ([], s)
  | [] => ([], [])
  end.

(** The optional [0x] of base 16, when a digit follows it. *)
Definition skip_0x (s : bytes) : bytes :=
  match s with
  | a :: b :: c :: s' => if Ascii.eqb a "0" && (Ascii.eqb b "x" || Ascii.eqb b "X") && is_hex c then c :: s' else s
  | _ => s
  end.

(** [std::stoul(s, nullptr, 16)]; [None] is an exception ([invalid_argument] or [out_of_range]). *)
Definition stoul16 (s : bytes) : option Z :=
  let '(neg, t) := skip_sign (skip_space s) in
  match (span_hex (skip_0x t)).1 with
  | [] => None
  | ds => let v := hex_num 0 ds in if v <? 2 ^ 64 then Some (if neg then u64 (- v) else v) else None
  end.

(** [std::stoul(s)]. *)
Definition stoul (s : bytes) : option Z :=
  let r := strtoul s in
  if (length (sr_end r) =? length s)%nat || sr_errno r then None else Some (sr_value r).

(** [std::stoi(s)]. *)
Definition stoi (s : bytes) : option Z :=
  let '(neg, t) := skip_sign (skip_space s) in
  match (span_digits t).1 with
  | [] => None
  | ds => let v := if neg then - dec_value 0 ds else dec_value 0 ds in
          if (- 2 ^ 31 <=? v) && (v <? 2 ^ 31) then Some v else None
  end.

(** ** Data *)

Record HttpResponse := mkHttp {
  r_status : Z; r_headers : Headers; r_body : bytes; r_trailers : Headers }.

Record Client := mkClient { cl_fd : Z; cl_buf : bytes }.

Definition set_buf (b : bytes) (c : Client) : Client := mkClient (cl_fd c) b.

(** How a member function ends: a value, [std::nullopt] (or [return false]), an exception. *)
Inductive reply (A : Type) := Value (a : A) | Nullopt | Threw.
Arguments Value {A} a.
Arguments Nullopt {A}.
Arguments Threw {A}.

Section Client.
Context {K : Type} `{PeerKernel K}.

Definition Reader (A : Type) : Type := Client -> K -> option (reply A * Client * K).

Definition give {A} (a : A) : Reader A := fun c k => Some (Value a, c, k).
Definition chain {A A2} (m : Reader A) (f : A -> Reader A2) : Reader A2 := fun c k =>
  match m c k with
  | Some (Value a, c, k) => f a c k
  | Some (Nullopt, c, k) => Some (Nullopt, c, k)
  | Some (Threw, c, k) => Some (Threw, c, k)
  | None => None
  end.
Definition refuse {A} : Reader A := fun c k => Some (Nullopt, c, k).
(** The value of a conversion, or its exception. *)
Definition convert (v : option Z) : Reader Z := fun c k =>
  match v with Some n => Some (Value n, c, k) | None => Some (Threw, c, k) end.
End Client.

Declare Scope reader_scope.
Delimit Scope reader_scope with reader.
Notation "'let*' x := m 'in' f" := (chain m (fun x => f))
  (at level 200, x pattern, m at level 100, f at level 200) : reader_scope.
Open Scope reader_scope.

Section Operations.
Context {K : Type} `{PeerKernel K}.

(** ** Input *)

Definition kTmp : Z := 64 * 1024.

Fixpoint fill (fuel : nat) (c : Client) (k : K) : option (bool * Client * K) :=
  match fuel with
  | O => None
  | S f =>
      match p_recv k (cl_fd c) kTmp with
      | (inl (b :: bs), k) => Some (true, set_buf (cl_buf c ++ b :: bs) c, k)
      | (inl [], k) => Some (false, c, k)
      | (inr PIntr, k) => fill f c k
      | (inr _, k) => Some (false, c, k)
      end
  end.

Fixpoint read_line (fuel : nat) : Reader (K := K) bytes := fun c k =>
  match find_sub kCRLF (cl_buf c) with
  | Some p => Some (Value (take p (cl_buf c)), set_buf (drop (p + 2) (cl_buf c)) c, k)
  | None =>
      match fuel with
      | O => None
      | S f =>
          match fill fuel c k with
          | None => None
          | Some (false, c, k) => Some (Nullopt, c, k)
          | Some (true, c, k) => read_line f c k
          end
      end
  end.

(** The bytes [read_exact] appends to [out]. *)
Fixpoint read_exact (fuel : nat) (n : Z) : Reader (K := K) bytes := fun c k =>
  if zlen (cl_buf c) <? n then
    match fuel with
    | O => None
    | S f =>
        match fill fuel c k with
        | None => None
        | Some (false, c, k) => Some (Nullopt, c, k)
        | Some (true, c, k) => read_exact f n c k
        end
    end
  else Some (Value (take (Z.to_nat n) (cl_buf c)), set_buf (drop (Z.to_nat n) (cl_buf c)) c, k).

(** [while (fill()) {}], then [r.body = std::move(buf_); buf_.clear();]. *)
Fixpoint read_to_end (fuel : nat) : Reader (K := K) bytes := fun c k =>
  match fuel with
  | O => None
  | S f =>
      match fill fuel c k with
      | None => None
      | Some (false, c, k) => Some (Value (cl_buf c), set_buf [] c, k)
      | Some (true, c, k) => read_to_end f c k
      end
  end.

(** ** One response *)

(** The lines of the head; a line without a colon is refused. *)
Fixpoint header_loop (lines fuel : nat) (h : Headers) : Reader (K := K) Headers :=
  match lines with
  | O => fun _ _ => None
  | S n =>
      let* line := read_line fuel in
      match line with
      | [] => give h
      | _ =>
          match find_char ":" line with
          | None => refuse
          | Some colon => header_loop n fuel (add h (take colon line) (trim_ows (drop (colon + 1) line)))
          end
      end
  end.

(** The trailer section; [npos + 1] is 0. *)
Fixpoint trailer_loop (lines fuel : nat) (h : Headers) : Reader (K := K) Headers :=
  match lines with
  | O => fun _ _ => None
  | S n =>
      let* line := read_line fuel in
      match line with
      | [] => give h
      | _ =>
          let value := match find_char ":" line with Some colon => drop (colon + 1) line | None => line end in
          trailer_loop n fuel (add h (substr0 line (find_char ":" line)) (trim_ows value))
      end
  end.

Fixpoint chunk_loop (chunks fuel : nat) (body : bytes) : Reader (K := K) bytes :=
  match chunks with
  | O => fun _ _ => None
  | S n =>
      let* line := read_line fuel in
      let* size := convert (stoul16 line) in
      if size =? 0 then give body
      else
        let* data := read_exact fuel size in
        let* crlf := read_exact fuel 2 in
        if bytes_eqb crlf kCRLF then chunk_loop n fuel (body ++ data) else refuse
  end.

Definition read_response (fuel : nat) (head_request : bool) : Reader (K := K) HttpResponse :=
  let* line := read_line fuel in
  if negb (bytes_eqb (take 9 line) (B "HTTP/1.1 ")) || (length line <? 12)%nat then refuse
  else
    let* st := convert (stoi (take 3 (drop 9 line))) in
    let* h := header_loop fuel fuel [] in
    if head_request || (Z.quot st 100 =? 1) || (st =? 204) || (st =? 304) then give (mkHttp st h [] [])
    else if has_token h (B "Transfer-Encoding") (B "chunked") then
      let* body := chunk_loop fuel fuel [] in
      let* t := trailer_loop fuel fuel [] in
      give (mkHttp st h body t)
    else
      match get h (B "Content-Length") with
      | Some cl =>
          let* n := convert (stoul cl) in
          let* body := read_exact fuel n in
          give (mkHttp st h body [])
      | None => let* body := read_to_end fuel in give (mkHttp st h body [])
      end.

(** One call per request of a test, each with its [head_request]. *)
Fixpoint read_responses (fuel : nat) (heads : list bool) : Reader (K := K) (list HttpResponse) :=
  match heads with
  | [] => give []
  | h :: hs =>
      let* r := read_response fuel h in
      let* rs := read_responses fuel hs in
      give (r :: rs)
  end.

(** ** The rest of the interface *)

Fixpoint closed_by_peer_loop (fuel : nat) (c : Client) (k : K) : option (bool * Client * K) :=
  match fuel with
  | O => None
  | S f =>
      match p_recv k (cl_fd c) 1 with
      | (inl [], k) => Some (true, c, k)
      | (inl (b :: _), k) => Some (false, set_buf (cl_buf c ++ [b]) c, k)
      | (inr PIntr, k) => closed_by_peer_loop f c k
      | (inr PReset, k) => Some (true, c, k)
      | (inr POther, k) => Some (false, c, k)
      end
  end.

Definition closed_by_peer (fuel : nat) (c : Client) (k : K) : option (bool * Client * K) :=
  match cl_buf c with
  | [] => closed_by_peer_loop fuel c k
  | _ => Some (false, c, k)
  end.

Fixpoint client_send (fuel : nat) (s : bytes) (c : Client) (k : K) : option (bool * K) :=
  match s with
  | [] => Some (true, k)
  | _ =>
      match fuel with
      | O => None
      | S f =>
          match p_send k (cl_fd c) s with
          | (inr PIntr, k) => client_send f s c k
          | (inr _, k) => Some (false, k)
          | (inl n, k) => if n <=? 0 then Some (false, k) else client_send f (drop (Z.to_nat n) s) c k
          end
      end
  end.

End Operations.

(** [get(path, extra)]. *)
Definition get_text (path extra : bytes) : bytes :=
  B "GET " ++ path ++ B " HTTP/1.1" ++ kCRLF ++ B "Host: test" ++ kCRLF ++ extra ++ kCRLF.
