(* ===== verification/TestClientFacts.v ===== *)
(** * What the client of the tests makes of a stream of bytes

    [pending] is the contract between the client and its socket: what it has
    buffered and what is still to arrive, in whatever segments and however
    often [recv] is interrupted, is the text [s].  Every operation of the
    client is specified by what it takes off the front of that text. *)

From S2P Require Import Prelude Headers RequestParser Numbers ParserFacts Response ChunkCodec ResponseHead Main Loadgen LoadgenFacts TestClient.
From stdpp Require Import numbers.

Open Scope Z_scope.

Lemma app_self_nil {A} (a b : list A) : a = a ++ b -> b = [].
Proof. intros E. apply (f_equal length) in E. rewrite length_app in E. destruct b; [done|]. cbn in E. lia. Qed.

(** The fields a client collects: values are stripped, duplicates folded. *)
Definition read_fields (h : Headers) (fs : list Field) : Headers :=
  fold_left (fun h (f : Field) => add h f.1 (trim_ows f.2)) fs h.

(** ** Numbers *)

Lemma to_chars_no_cr base n : 2 <= base <= 16 -> 0 <= n < 2 ^ 64 -> CR ∉ to_chars base n.
Proof. intros Hb Hn. destruct (to_chars_spec base n Hb Hn) as (_ & Hd & _). by apply token_not_in; [eapply base_digit_tchar|]. Qed.

Lemma hex_plain c : is_hex c = true -> is_space c = false /\ Ascii.eqb c "-" = false /\ Ascii.eqb c "+" = false.
Proof. by all_bytes c. Qed.

Lemma span_hex_all s : forallb is_hex s = true -> span_hex s = (s, []).
Proof. induction s as [|c s IH]; [done|]. cbn [forallb span_hex]. intros Hs. bool_hyps. by rewrite H, IH. Qed.

Lemma skip_0x_hex s : forallb is_hex s = true -> skip_0x s = s.
Proof.
  destruct s as [|a [|b [|c s]]]; try done. cbn [forallb skip_0x]. intros Hs. bool_hyps.
  assert (Ascii.eqb b "x" || Ascii.eqb b "X" = false) as -> by (revert H0; by all_bytes b). by rewrite andb_false_r.
Qed.

Lemma stoul16_to_chars n : 0 <= n < 2 ^ 64 -> stoul16 (to_chars 16 n) = Some n.
Proof.
  intros Hn. destruct (to_chars_spec 16 n) as (E1 & E2 & E3 & _); [lia|lia|]. apply base_digit_hex in E2. unfold stoul16.
  destruct (to_chars 16 n) as [|c s] eqn:Ec; [done|]. assert (is_hex c = true) as Hc by (cbn [forallb] in E2; by bool_hyps).
  destruct (hex_plain c Hc) as (Hs & Hm & Hp). cbn [skip_space]. rewrite Hs. cbn [skip_sign]. rewrite Hm, Hp.
  rewrite skip_0x_hex, span_hex_all by done. cbn [fst]. change (hex_num 0 (c :: s)) with (num_value 16 0 (c :: s)). rewrite E1.
  by destruct (Z.ltb_spec n (2 ^ 64)); [|lia].
Qed.

Lemma stoul_to_chars n : 0 <= n < 2 ^ 64 -> stoul (to_chars 10 n) = Some n.
Proof.
  intros Hn. destruct (to_chars_spec 10 n) as (E1 & E2 & E3 & _); [lia|lia|]. apply base_digit_dec in E2. unfold stoul, strtoul.
  destruct (to_chars 10 n) as [|c s] eqn:Ec; [done|]. assert (is_digit c = true) as Hc by (cbn [forallb] in E2; by bool_hyps).
  destruct (digit_plain c Hc) as (Hs & Hm & Hp). cbn [skip_space]. rewrite Hs. cbn [skip_sign]. rewrite Hm, Hp.
  rewrite span_digits_all, dec_value_num, E1 by done. by destruct (Z.ltb_spec n (2 ^ 64)); [|lia].
Qed.

(** A status line is recognised and its status read, for every status of three digits. *)
Lemma first_line_read s : 100 <= s <= 999 ->
  CR ∉ first_line s /\ bytes_eqb (take 9 (first_line s)) (B "HTTP/1.1 ") = true /\ (length (first_line s) <? 12)%nat = false
  /\ stoi (take 3 (drop 9 (first_line s))) = Some s.
Proof.
  intros Hs. destruct (first_line_status s Hs) as ([Hc _] & Hl & _). split; [done|]. split; [done|]. split; [by apply Nat.ltb_ge|].
  assert (Forall (fun n => let s := Z.of_nat n in stoi (take 3 (drop 9 (first_line s))) = Some s) (seq 100 900)) as Hall.
  { apply (bool_decide_unpack _). vm_compute. exact I. }
  rewrite List.Forall_forall in Hall. specialize (Hall (Z.to_nat s)). rewrite in_seq, Z2Nat.id in Hall by lia. apply Hall. lia.
Qed.

Section Facts.
Context {K : Type} `{PeerKernel K}.

(** In [n] calls of [recv] on [fd] the bytes [d] arrive; then the kernel is [k']. *)
Inductive arrives (fd : Z) : nat -> K -> bytes -> K -> Prop :=
  | ArrivedAll k : arrives fd 0 k [] k
  | ArriveIntr n k k1 d k' : p_recv k fd kTmp = (inr PIntr, k1) -> arrives fd n k1 d k' -> arrives fd (S n) k d k'
  | ArriveData n k k1 b bs d k' :
      p_recv k fd kTmp = (inl (b :: bs), k1) -> arrives fd n k1 d k' -> arrives fd (S n) k ((b :: bs) ++ d) k'.

(** The peer has nothing more to say: end of file, or an error. *)
Definition ended (fd : Z) (k : K) : Prop :=
  match p_recv k fd kTmp with
  | (inl [], _) => True
  | (inl _, _) => False
  | (inr e, _) => e <> PIntr
  end.

Context (fd : Z) (kend : K).

Definition pending (n : nat) (s : bytes) (c : Client) (k : K) : Prop :=
  cl_fd c = fd /\ exists d, s = cl_buf c ++ d /\ arrives fd n k d kend.

(** [m] succeeds with [a] on a stream [s] and leaves [s']. *)
Definition reads {A} (fuel : nat) (m : Reader (K := K) A) (s : bytes) (a : A) (s' : bytes) : Prop :=
  forall n c k, (n < fuel)%nat -> pending n s c k ->
  exists n' c' k', m c k = Some (Value a, c', k') /\ (n' <= n)%nat /\ pending n' s' c' k'.

Lemma reads_give {A} fuel (a : A) s : reads fuel (give a) s a s.
Proof. intros n c k Hn Hp. by exists n, c, k. Qed.

Lemma reads_chain {A A2} fuel (m : Reader A) (f : A -> Reader A2) s a s1 b s2 :
  reads fuel m s a s1 -> reads fuel (f a) s1 b s2 -> reads fuel (chain m f) s b s2.
Proof.
  intros Hm Hf n c k Hn Hp. destruct (Hm n c k Hn Hp) as (n1 & c1 & k1 & E & Hn1 & Hp1).
  destruct (Hf n1 c1 k1 ltac:(lia) Hp1) as (n2 & c2 & k2 & E2 & Hn2 & Hp2). exists n2, c2, k2.
  unfold chain. rewrite E. split; [done|]. split; [lia|done].
Qed.

Lemma reads_convert fuel v x s : v = Some x -> reads fuel (convert v) s x s.
Proof. intros ->. intros n c k Hn Hp. by exists n, c, k. Qed.

(** ** Waiting for the peer *)

Lemma fill_data n fuel c k d :
  (n < fuel)%nat -> cl_fd c = fd -> d <> [] -> arrives fd n k d kend ->
  exists n' bs d' k', fill fuel c k = Some (true, set_buf (cl_buf c ++ bs) c, k') /\ (n' < n)%nat
    /\ d = bs ++ d' /\ arrives fd n' k' d' kend.
Proof.
  intros Hn Hc Hd Ha. revert fuel Hn. induction Ha as [k|n k k1 d k' Hr Ha IH|n k k1 b bs d k' Hr Ha _]; intros fuel Hn; [done| |];
    (destruct fuel as [|f]; [lia|]); cbn [fill]; rewrite Hc, Hr.
  - destruct (IH Hd f ltac:(lia)) as (n' & bs & d' & k2 & E & Hlt & ? & ?). exists n', bs, d', k2. split; [done|]. split; [lia|done].
  - exists n, (b :: bs), d, k1. split; [done|]. split; [lia|done].
Qed.

Lemma fill_end n fuel c k :
  (n < fuel)%nat -> cl_fd c = fd -> arrives fd n k [] kend -> ended fd kend -> exists k', fill fuel c k = Some (false, c, k').
Proof.
  intros Hn Hc Ha He. remember [] as d eqn:Ed. revert fuel Hn. induction Ha as [k|n k k1 d k' Hr Ha IH|]; intros fuel Hn; [| |done];
    (destruct fuel as [|f]; [lia|]); cbn [fill]; rewrite Hc.
  - unfold ended in He. destruct (p_recv k fd kTmp) as [[[|]|[]] k2]; try done; by eexists.
  - rewrite Hr. destruct (IH Ed He f ltac:(lia)) as [k2 E]. by exists k2.
Qed.

(** [fill] moves bytes from the network to the buffer. *)
Lemma pending_fill n fuel s c k :
  (n < fuel)%nat -> pending n s c k -> s <> cl_buf c ->
  exists n' c' k', fill fuel c k = Some (true, c', k') /\ (n' < n)%nat /\ pending n' s c' k'.
Proof.
  intros Hn (Hc & d & -> & Ha) Hs. assert (d <> []) as Hd by (intros ->; by rewrite app_nil_r in Hs).
  destruct (fill_data n fuel c k d Hn Hc Hd Ha) as (n' & bs & d' & k' & E & Hlt & -> & Ha').
  exists n', (set_buf (cl_buf c ++ bs) c), k'. split; [done|]. split; [done|]. split; [done|].
  exists d'. cbn [cl_buf set_buf]. by rewrite <- app_assoc.
Qed.

Lemma reads_line fuel line rest : CR ∉ line -> reads fuel (read_line fuel) (line ++ kCRLF ++ rest) line rest.
Proof.
  intros Hcr n c k Hn Hp. revert n c k Hn Hp. induction fuel as [|f IH]; intros n c k Hn Hp; [lia|]. cbn [read_line].
  destruct (find_sub kCRLF (cl_buf c)) as [p|] eqn:E.
  - destruct Hp as (Hc & d & Hs & Ha). pose proof (find_sub_app_l _ _ d _ E) as E2.
    rewrite <- Hs, (find_crlf_line line rest Hcr) in E2. injection E2 as <-. apply find_sub_bound in E.
    change (length kCRLF) with 2%nat in E.
    eexists n, _, k. split; [|split; [done|]].
    + repeat f_equal. rewrite <- (take_app_le (cl_buf c) d), <- Hs by lia. apply take_app_length.
    + split; [done|]. exists d. split; [|done]. cbn [cl_buf set_buf].
      rewrite <- drop_app_le, <- Hs by lia. by rewrite drop_app_add.
  - destruct (pending_fill n (S f) _ c k Hn Hp) as (n' & c' & k' & -> & Hlt & Hp').
    { intros Hs. rewrite <- Hs, find_crlf_line in E by done. done. }
    destruct (IH n' c' k' ltac:(lia) Hp') as (n2 & c2 & k2 & ? & ? & ?). exists n2, c2, k2. split; [done|]. split; [lia|done].
Qed.

Lemma reads_exact fuel data rest : reads fuel (read_exact fuel (zlen data)) (data ++ rest) data rest.
Proof.
  intros n c k Hn Hp. revert n c k Hn Hp. induction fuel as [|f IH]; intros n c k Hn Hp; [lia|]. cbn [read_exact].
  destruct (Z.ltb_spec (zlen (cl_buf c)) (zlen data)) as [Hl|Hl].
  - destruct (pending_fill n (S f) _ c k Hn Hp) as (n' & c' & k' & -> & Hlt & Hp').
    { intros Hs. apply (f_equal zlen) in Hs. rewrite zlen_app in Hs. pose proof (zlen_nonneg rest). lia. }
    destruct (IH n' c' k' ltac:(lia) Hp') as (n2 & c2 & k2 & ? & ? & ?). exists n2, c2, k2. split; [done|]. split; [lia|done].
  - destruct Hp as (Hc & d & Hs & Ha). unfold zlen in *. rewrite Nat2Z.id.
    eexists n, _, k. split; [|split; [done|]].
    + repeat f_equal. rewrite <- (take_app_le (cl_buf c) d), <- Hs by lia. apply take_app_length.
    + split; [done|]. exists d. split; [|done]. cbn [cl_buf set_buf]. rewrite <- drop_app_le, <- Hs by lia.
      by rewrite drop_app_length.
Qed.

Lemma reads_to_end fuel s :
  ended fd kend -> forall n c k, (S n < fuel)%nat -> pending n s c k ->
  exists c' k', read_to_end fuel c k = Some (Value s, c', k') /\ cl_buf c' = [].
Proof.
  intros He. induction fuel as [|f IH]; intros n c k Hn Hp; [lia|]. cbn [read_to_end].
  destruct (decide (s = cl_buf c)) as [Hs|Hs].
  - destruct Hp as (Hc & d & Hs' & Ha). assert (d = []) as -> by (rewrite Hs in Hs'; by apply app_self_nil in Hs').
    destruct (fill_end n (S f) c k ltac:(lia) Hc Ha He) as [k' ->]. exists (set_buf [] c), k'. split; [by rewrite Hs|done].
  - destruct (pending_fill n (S f) _ c k ltac:(lia) Hp Hs) as (n' & c' & k' & -> & Hlt & Hp').
    by apply (IH n'); [lia|].
Qed.

(** ** Sections of fields *)

Lemma field_parts f :
  field_ok f -> exists b bs, f.1 ++ B ": " ++ f.2 = b :: bs /\ find_char ":" (b :: bs) = Some (length f.1)
    /\ take (length f.1) (b :: bs) = f.1 /\ trim_ows (drop (length f.1 + 1) (b :: bs)) = trim_ows f.2.
Proof.
  intros [Hn _]. apply is_token_tchars in Hn as [Hn Hne]. destruct f as [[|b n] v]; [done|]. cbn [fst snd] in *.
  exists b, (n ++ B ": " ++ v). split; [done|]. change (b :: n ++ B ": " ++ v) with ((b :: n) ++ ":"%char :: SP :: v).
  split; [by apply find_char_app, token_not_in|]. split; [apply take_app_length|]. by rewrite drop_app_add.
Qed.

Lemma field_lines_cons f fs rest : field_lines (f :: fs) ++ rest = (f.1 ++ B ": " ++ f.2) ++ kCRLF ++ field_lines fs ++ rest.
Proof. unfold field_lines, field_line. cbn [fmap list_fmap concat]. by rewrite <- !app_assoc. Qed.

Lemma reads_header_loop lines fuel h fs rest :
  Forall field_ok fs -> (length fs < lines)%nat ->
  reads fuel (header_loop lines fuel h) (field_lines fs ++ kCRLF ++ rest) (read_fields h fs) rest.
Proof.
  intros Hf. revert lines h. induction Hf as [|f fs Hf _ IH]; intros [|n] h Hl; cbn [length] in Hl; try lia; cbn [header_loop].
  - eapply (reads_chain _ _ _ _ []); [by apply (reads_line fuel []), not_elem_of_nil|apply reads_give].
  - rewrite field_lines_cons. eapply reads_chain; [by apply reads_line, field_line_no_cr|].
    destruct (field_parts f Hf) as (b & bs & -> & -> & -> & ->). apply IH. lia.
Qed.

Lemma reads_trailer_loop lines fuel h fs rest :
  Forall field_ok fs -> (length fs < lines)%nat ->
  reads fuel (trailer_loop lines fuel h) (field_lines fs ++ kCRLF ++ rest) (read_fields h fs) rest.
Proof.
  intros Hf. revert lines h. induction Hf as [|f fs Hf _ IH]; intros [|n] h Hl; cbn [length] in Hl; try lia; cbn [trailer_loop].
  - eapply (reads_chain _ _ _ _ []); [by apply (reads_line fuel []), not_elem_of_nil|apply reads_give].
  - rewrite field_lines_cons. eapply reads_chain; [by apply reads_line, field_line_no_cr|].
    destruct (field_parts f Hf) as (b & bs & -> & -> & Ht & ->). cbn [substr0]. rewrite Ht. apply IH. lia.
Qed.

(** ** Chunks *)

Lemma reads_chunk_loop chunks fuel body pieces rest :
  (length pieces < chunks)%nat -> Forall (fun d => zlen d < 2 ^ 64) pieces ->
  reads fuel (chunk_loop chunks fuel body) (concat (append_chunk [] <$> pieces) ++ to_chars 16 0 ++ kCRLF ++ rest)
    (body ++ concat pieces) rest.
Proof.
  intros Hl Hp. revert chunks body Hl. induction Hp as [|d pieces Hd _ IH]; intros [|n] body Hl; cbn [length] in Hl; try lia.
  - cbn [chunk_loop fmap list_fmap concat app]. rewrite app_nil_r.
    eapply reads_chain; [by apply reads_line, (bool_decide_unpack _); vm_compute|].
    eapply reads_chain; [by apply reads_convert|]. apply reads_give.
  - cbn [fmap list_fmap concat]. destruct d as [|b d].
    { cbn [append_chunk app]. apply IH. lia. }
    change (append_chunk [] (b :: d)) with (to_chars 16 (zlen (b :: d)) ++ kCRLF ++ (b :: d) ++ kCRLF).
    cbn [chunk_loop]. rewrite <- !app_assoc. pose proof (zlen_nonneg (b :: d)).
    eapply reads_chain; [by apply reads_line, to_chars_no_cr|].
    eapply reads_chain; [by apply reads_convert, stoul16_to_chars|].
    destruct (Z.eqb_spec (zlen (b :: d)) 0) as [Hz|_]; [unfold zlen in Hz; cbn [length] in Hz; lia|].
    eapply reads_chain; [apply (reads_exact fuel (b :: d))|].
    eapply reads_chain; [apply (reads_exact fuel kCRLF)|]. rewrite bytes_eqb_refl, (app_assoc body). apply IH. lia.
Qed.

End Facts.
