(* ===== verification/TestClientTheorems.v ===== *)
(** * The server's messages, read by the client of the tests

    What [write_head], the body sources and the chunked coding put on the
    wire is read back by [Client::read_response], for every framing, split
    into segments in any way, one message after the other. *)

From S2P Require Import Prelude Headers RequestParser Numbers ParserFacts ParserSegmentation Response ChunkCodec ParserRoundTrip ResponseHead.
From S2P Require Import Main Loadgen LoadgenFacts TestClient TestClientFacts.

Open Scope Z_scope.

(** ** What the client collects *)

Lemma read_fields_snoc h fs f : read_fields h (fs ++ [f]) = add (read_fields h fs) f.1 (trim_ows f.2).
Proof. unfold read_fields. by rewrite fold_left_app. Qed.

(** A name has the values of its fields, in order, with commas between them. *)
Lemma get_read_fields n fs :
  get (read_fields [] fs) n = match trim_ows <$> values_of n fs with [] => None | vs => Some (join (B ", ") vs) end.
Proof.
  induction fs as [|[m v] fs IH] using rev_ind; [done|].
  rewrite read_fields_snoc, values_of_app, values_of_single, fmap_app. cbn [fst snd].
  destruct (iequals m n) eqn:E.
  - rewrite <- (get_proper _ _ eq_refl m n E), get_add_eq, (get_proper _ _ eq_refl m n E), IH. cbn [fmap list_fmap fold_value].
    destruct (trim_ows <$> values_of n fs) as [|v0 vs]; [done|]. f_equal. symmetry. by apply (join_app _ (v0 :: vs)).
  - rewrite app_nil_r, get_add_ne; [done|]. intros Hl%iequals_lower. congruence.
Qed.

(** The framing fields of a head, as the client sees them. *)
Lemma read_transfer_encoding res opts :
  has_token (read_fields [] (head_fields res opts)) (B "Transfer-Encoding") (B "chunked")
  = bool_decide ((choose_framing res opts).1 = Chunked).
Proof.
  unfold has_token. rewrite get_read_fields, transfer_encoding_of_head. by destruct (choose_framing res opts).1.
Qed.

Lemma read_content_length res opts :
  0 <= announced_length res < 2 ^ 64 ->
  get (read_fields [] (head_fields res opts)) (B "Content-Length")
  = match (choose_framing res opts).1 with ContentLength => Some (to_chars 10 (announced_length res)) | _ => None end.
Proof.
  intros Hl. rewrite get_read_fields, content_length_of_head. destruct (choose_framing res opts).1; try done.
  cbn [fmap list_fmap join]. f_equal. destruct (to_chars_spec 10 (announced_length res)) as (_ & Hd & _); [lia|lia|].
  by eapply token_trim, base_digit_tchar.
Qed.

(** ** Messages of the server *)

(** A response as it goes over the wire: its head, and its body in the pieces
    its source yields, with the trailers of a chunked one.  [m_head]: it
    answers a [HEAD] request. *)
Record message := mkMessage {
  m_res : Response; m_opts : HeadOptions; m_head : bool; m_pieces : list bytes; m_trailers : Headers }.

Definition m_framing (m : message) : Framing := (choose_framing (m_res m) (m_opts m)).1.
Definition bodyless (m : message) : bool := m_head m || bool_decide (m_framing m = FramingNone).

Definition body_text (m : message) : bytes :=
  if bodyless m then []
  else match m_framing m with
       | Chunked => encode_chunked (m_pieces m) (m_trailers m)
       | _ => concat (m_pieces m)
       end.

Definition message_text (m : message) : bytes := head_text (m_res m) (m_opts m) ++ body_text m.

(** What a reader is to get from it. *)
Definition http_of (m : message) : HttpResponse :=
  mkHttp (status (m_res m)) (read_fields [] (head_fields (m_res m) (m_opts m)))
    (if bodyless m then [] else concat (m_pieces m))
    (if negb (bodyless m) && bool_decide (m_framing m = Chunked) then read_fields [] (m_trailers m) else []).

(** The body is the announced one; statuses have three digits; fields are clean. *)
Record message_ok (m : message) : Prop := {
  mo_status : 100 <= status (m_res m) <= 999;
  mo_fields : Forall field_ok (head_fields (m_res m) (m_opts m));
  mo_length : bodyless m = false -> m_framing m = ContentLength -> zlen (concat (m_pieces m)) = announced_length (m_res m);
  mo_pieces : zlen (concat (m_pieces m)) < 2 ^ 64;
  mo_trailers : Forall field_ok (m_trailers m) }.

(** Rounds the loops of the client need. *)
Definition rounds (m : message) : nat :=
  length (head_fields (m_res m) (m_opts m)) + length (m_pieces m) + length (m_trailers m).

(** The end of the message is where its framing says, not where the connection ends. *)
Definition self_delimited (m : message) : Prop := bodyless m = true \/ m_framing m <> CloseDelimited.

Lemma head_text_lines res opts rest :
  head_text res opts ++ rest = first_line (status res) ++ kCRLF ++ field_lines (head_fields res opts) ++ kCRLF ++ rest.
Proof. unfold head_text, status_line, first_line. by rewrite <- !app_assoc. Qed.

(** The test of the client for a response without a body is the one of [write_head]. *)
Lemma bodyless_test m :
  m_head m || (Z.quot (status (m_res m)) 100 =? 1) || (status (m_res m) =? 204) || (status (m_res m) =? 304) = bodyless m.
Proof.
  unfold bodyless, m_framing, choose_framing. rewrite <- !orb_assoc. f_equal.
  destruct (_ || _); [done|]. destruct (fd_valid _); [done|]. destruct (producer _); [|done].
  destruct (stream_length _); [done|]. by destruct (http10_client _).
Qed.

Lemma piece_le (d : bytes) pieces : d ∈ pieces -> zlen d <= zlen (concat pieces).
Proof.
  intros Hd. apply list_elem_of_split in Hd as (a & b & ->). rewrite concat_app. cbn [concat]. rewrite !zlen_app.
  pose proof (zlen_nonneg (concat a)). pose proof (zlen_nonneg (concat b)). lia.
Qed.

Section Read.
Context {K : Type} `{PeerKernel K} (fd : Z) (kend : K).

(** Up to the end of the head every framing is read alike. *)
Definition after_head (fuel : nat) (head_request : bool) (st : Z) (h : Headers) : Reader (K := K) HttpResponse :=
  if head_request || (Z.quot st 100 =? 1) || (st =? 204) || (st =? 304) then give (mkHttp st h [] [])
  else if has_token h (B "Transfer-Encoding") (B "chunked") then
    let* body := chunk_loop fuel fuel [] in
    let* t := trailer_loop fuel fuel [] in
    give (mkHttp st h body t)
  else
    match get h (B "Content-Length") with
    | Some cl =>
        let* n := convert (stoul cl) in
        let* body := read_exact fuel n in
        give (mkHttp st h body [])
    | None => let* body := read_to_end fuel in give (mkHttp st h body [])
    end.

Lemma read_head fuel m s n (c : Client) (k : K) :
  message_ok m -> (rounds m < fuel)%nat -> (n < fuel)%nat ->
  pending fd kend n (head_text (m_res m) (m_opts m) ++ s) c k ->
  exists n' c' k', (n' <= n)%nat /\ pending fd kend n' s c' k'
    /\ read_response fuel (m_head m) c k
       = after_head fuel (m_head m) (status (m_res m)) (read_fields [] (head_fields (m_res m) (m_opts m))) c' k'.
Proof.
  intros Hm Hr Hn Hp. rewrite head_text_lines in Hp. destruct (first_line_read _ (mo_status m Hm)) as (Hcr & Hpre & Hlen & Hst).
  destruct (reads_line fd kend fuel _ _ Hcr n c k Hn Hp) as (n1 & c1 & k1 & E1 & Hn1 & Hp1).
  destruct (reads_header_loop fd kend fuel fuel [] _ _ (mo_fields m Hm) ltac:(unfold rounds in Hr; lia) n1 c1 k1 ltac:(lia) Hp1)
    as (n2 & c2 & k2 & E2 & Hn2 & Hp2).
  exists n2, c2, k2. split; [lia|]. split; [done|]. unfold read_response, chain at 1. rewrite E1, Hpre, Hlen. cbn [negb orb].
  rewrite Hst. unfold chain at 1. cbn [convert]. unfold chain at 1. by rewrite E2.
Qed.

Lemma reads_body fuel m rest :
  message_ok m -> (rounds m < fuel)%nat -> self_delimited m ->
  reads fd kend fuel (after_head fuel (m_head m) (status (m_res m)) (read_fields [] (head_fields (m_res m) (m_opts m))))
    (body_text m ++ rest) (http_of m) rest.
Proof.
  intros [_ _ Hlen Hpc Htr] Hr Hsd. unfold after_head, body_text, http_of. rewrite bodyless_test.
  destruct (bodyless m) eqn:Eb; [apply reads_give|]. specialize (Hlen eq_refl).
  destruct Hsd as [|Hsd]; [congruence|]. rewrite read_transfer_encoding. fold (m_framing m). cbn [negb andb].
  destruct (m_framing m) eqn:Ef; [unfold bodyless in Eb; rewrite Ef in Eb; by destruct (m_head m)| | |done].
  - specialize (Hlen eq_refl). cbn [bool_decide Framing_eq_dec decide_rel]. pose proof (zlen_nonneg (concat (m_pieces m))).
    rewrite read_content_length by lia. fold (m_framing m). rewrite Ef, <- Hlen.
    eapply reads_chain; [by apply reads_convert, stoul_to_chars|].
    eapply reads_chain; [apply reads_exact|apply reads_give].
  - cbn [bool_decide Framing_eq_dec decide_rel]. rewrite encode_chunked_eq, <- !app_assoc. unfold rounds in Hr.
    eapply reads_chain; [apply reads_chunk_loop; [lia|]|].
    { apply Forall_forall. intros d Hd%piece_le. lia. }
    eapply reads_chain; [apply (reads_trailer_loop fd kend fuel fuel [] (m_trailers m)); [done|lia]|apply reads_give].
Qed.

Lemma reads_message fuel m rest :
  message_ok m -> (rounds m < fuel)%nat -> self_delimited m ->
  reads fd kend fuel (read_response fuel (m_head m)) (message_text m ++ rest) (http_of m) rest.
Proof.
  intros Hm Hr Hsd n c k Hn Hp. unfold message_text in Hp. rewrite <- app_assoc in Hp.
  destruct (read_head fuel m _ n c k Hm Hr Hn Hp) as (n1 & c1 & k1 & Hn1 & Hp1 & ->).
  destruct (reads_body fuel m rest Hm Hr Hsd n1 c1 k1 ltac:(lia) Hp1) as (n2 & c2 & k2 & E & Hn2 & Hp2).
  exists n2, c2, k2. split; [done|]. split; [lia|done].
Qed.

Lemma reads_messages fuel ms rest :
  Forall (fun m => message_ok m /\ (rounds m < fuel)%nat /\ self_delimited m) ms ->
  reads fd kend fuel (read_responses fuel (m_head <$> ms)) (concat (message_text <$> ms) ++ rest) (http_of <$> ms) rest.
Proof.
  induction 1 as [|m ms (Hm & Hr & Hsd) _ IH]; [apply reads_give|]. cbn [fmap list_fmap concat read_responses]. rewrite <- app_assoc.
  eapply reads_chain; [by apply reads_message|]. eapply reads_chain; [exact IH|apply reads_give].
Qed.

End Read.


(** A body that ends with the connection is read up to its end. *)
Theorem client_reads_to_close {K : Type} `{PeerKernel K} (fuel n : nat) (fd : Z) (m : message) (c : Client) (k kend : K) :
  message_ok m -> (rounds m < fuel)%nat -> m_framing m = CloseDelimited -> m_head m = false -> ended fd kend ->
  (S n < fuel)%nat -> pending fd kend n (message_text m) c k ->
  exists c' k', read_response fuel false c k = Some (Value (http_of m), c', k') /\ cl_buf c' = [].
Proof.
  intros Hm Hr Hf Hh He Hn Hp. unfold message_text in Hp.
  destruct (read_head fd kend fuel m _ n c k Hm Hr ltac:(lia) Hp) as (n1 & c1 & k1 & Hn1 & Hp1 & E). rewrite <- Hh, E.
  unfold after_head. rewrite bodyless_test. unfold body_text, http_of in *.
  assert (bodyless m = false) as Hb by (unfold bodyless; by rewrite Hh, Hf). rewrite Hb, Hf in *.
  rewrite read_transfer_encoding. fold (m_framing m). rewrite Hf. rewrite bool_decide_eq_false_2 by done. cbn [negb andb].
  rewrite get_read_fields, content_length_of_head. fold (m_framing m). rewrite Hf. cbn [fmap list_fmap].
  destruct (reads_to_end fd kend fuel _ He n1 c1 k1 ltac:(lia) Hp1) as (c2 & k2 & E2 & Hb2).
  exists c2, k2. unfold chain. cbn beta match. by rewrite E2.
Qed.

(** ** A socket that delivers given segments *)

(** [None]: an interrupted call. *)
Record Segments := mkSegments { sg_rx : list (option bytes); sg_tx : bytes }.

#[export] Instance segments_kernel : PeerKernel Segments := {
  p_recv k _ _ :=
    match sg_rx k with
    | [] => (inl [], k)
    | None :: l => (inr PIntr, mkSegments l (sg_tx k))
    | Some s :: l => (inl s, mkSegments l (sg_tx k))
    end;
  p_send k _ s := (inl (zlen s), mkSegments (sg_rx k) (sg_tx k ++ s)) }.

Definition segments_text (l : list (option bytes)) : bytes := concat ((fun o => default [] o) <$> l).

Lemma segments_arrive fd l tx :
  Forall (fun o => o <> Some []) l -> arrives fd (length l) (mkSegments l tx) (segments_text l) (mkSegments [] tx).
Proof.
  induction 1 as [|o l Ho _ IH]; [constructor|]. unfold segments_text in *. cbn [fmap list_fmap concat length].
  destruct o as [[|b s]|]; [done|by econstructor|by econstructor].
Qed.

Lemma segments_pending fd l tx c :
  cl_fd c = fd -> Forall (fun o => o <> Some []) l ->
  pending fd (mkSegments [] tx) (length l) (cl_buf c ++ segments_text l) c (mkSegments l tx).
Proof. intros Hc Hl. split; [done|]. exists (segments_text l). split; [done|]. by apply segments_arrive. Qed.

(** A response of every framing: by length, chunked, to a [HEAD] request, without a body. *)
Definition demo_messages : list message :=
  let opts := mkHeadOptions true false (B "now") in
  let never := mkProducer unit tt (fun _ _ _ => None) in
  [mkMessage (Response_text 200 (B "hello") text_plain) opts false [B "hello"] [];
   mkMessage (mkResponse 200 [(B "X-A", B "1"); (B "x-a", B " 2 ")] [] (-1) 0 0 (Some never) None) opts false
     [B "Wiki"; []; B "pedia"] [(B "X-Sum", B "9")];
   mkMessage (Response_text 404 (B "nope") text_plain) opts true [B "nope"] [];
   mkMessage (mkResponse 204 [] [] (-1) 0 0 None None) opts false [] []].

Lemma demo_messages_ok : Forall (fun m => message_ok m /\ (rounds m < 20)%nat /\ self_delimited m) demo_messages.
Proof.
  unfold demo_messages. repeat (apply Forall_cons_2; [|]); [| | | |apply Forall_nil_2];
    (split; [split|split]);
    try (by vm_compute; split; discriminate); try (by repeat constructor; vm_compute); try (vm_compute; reflexivity);
    try (intros; vm_compute; reflexivity); try (vm_compute; lia); try (right; vm_compute; discriminate).
Qed.

(** They arrive byte by byte, with an interruption, after the first ten bytes. *)
Definition demo_stream : bytes := concat (message_text <$> demo_messages) ++ B "HTTP".
Definition demo_segments : list (option bytes) := None :: ((fun b => Some [b]) <$> drop 10 demo_stream).

