(* ===== verification/TestParser.v ===== *)
(** * [tests/test_request_parser.cpp]: the unit tests of the parser

    [feed_in_chunks] emulates the server's input buffer; the tests feed their
    messages at every chunk size.  That the size does not matter is a theorem
    here, for every message, so that each test is one evaluation of the
    parser: the examples below are the tests, under their names. *)

From S2P Require Import Prelude Headers RequestParser Numbers ParserFacts ParserSegmentation.

(** ** The harness *)

Record Fed := mkFed { f_parser : RequestParser; f_leftover : bytes }.

(** The [while] of [feed_in_chunks]; [rest] is the data from [pos] on. *)
Fixpoint chunks_loop (fuel step : nat) (p : RequestParser) (buf rest : bytes) : option Fed :=
  match fuel with
  | O => None
  | S f =>
      match rest with
      | [] => Some (mkFed p buf)
      | _ =>
          if done p || failed p then Some (mkFed p (buf ++ rest))
          else
            let n := Nat.min step (length rest) in
            let buf := buf ++ take n rest in
            let '(p, used) := feed p buf in
            chunks_loop f step p (drop used buf) (drop n rest)
      end
  end.

Definition feed_in_chunks (data : bytes) (step : nat) (limits : ParserLimits) : option Fed :=
  chunks_loop (S (length data)) step (RequestParser_new limits) [] data.

Definition error_status (data : bytes) (limits : ParserLimits) : option Z :=
  (fun f => if failed (f_parser f) then status_for (error_ (f_parser f)) else 0%Z)
  <$> feed_in_chunks data (length data) limits.

(** ** The chunk size does not matter *)

(** Where one [feed] of the whole leaves the parser and the data. *)
Definition fed_whole (data : bytes) (limits : ParserLimits) : Fed :=
  let '(p, used) := feed (RequestParser_new limits) data in mkFed p (drop used data).

Lemma chunks_loop_whole fuel step (p0 : RequestParser) (a rest : bytes) :
  parser_wf p0 -> fits (a ++ rest) -> (0 < step)%nat -> (length rest < fuel)%nat ->
  chunks_loop fuel step (feed p0 a).1 (drop (feed p0 a).2 a) rest
  = Some (mkFed (feed p0 (a ++ rest)).1 (drop (feed p0 (a ++ rest)).2 (a ++ rest))).
Proof.
  intros Hp Hfit Hs. revert a rest Hfit. induction fuel as [|f IH]; intros a rest Hfit Hl; [lia|]. cbn [chunks_loop].
  destruct rest as [|b rest]; [by rewrite app_nil_r|]. pose proof (feed_wf p0 a Hp) as Hw. pose proof (feed_used p0 a Hp) as Hu.
  destruct (done (feed p0 a).1 || failed (feed p0 a).1) eqn:Ef.
  - rewrite (feed_split p0 a (b :: rest) Hp Hfit). cbn zeta. rewrite (feed_final _ _ Hw Ef). cbn [fst snd].
    by rewrite Nat.add_0_r, drop_app_le.
  - set (n := Nat.min step (length (b :: rest))). set (s := take n (b :: rest)).
    assert ((a ++ s) ++ drop n (b :: rest) = a ++ b :: rest) as Hcat by (subst s; by rewrite <- app_assoc, take_drop).
    assert (fits (a ++ s)) as Hfa by (rewrite <- Hcat in Hfit; by eapply fits_app_l).
    pose proof (feed_split p0 a s Hp Hfa) as Hsp. cbn zeta in Hsp.
    destruct (feed (feed p0 a).1 (drop (feed p0 a).2 a ++ s)) as [p2 n2] eqn:E2. cbn [fst snd] in Hsp.
    replace p2 with (feed p0 (a ++ s)).1 by (by rewrite Hsp).
    replace (drop n2 (drop (feed p0 a).2 a ++ s)) with (drop (feed p0 (a ++ s)).2 (a ++ s)) by (rewrite Hsp; cbn [snd]; by rewrite drop_split).
    rewrite <- Hcat. apply IH; [by rewrite Hcat|]. rewrite length_drop. subst n. cbn [length] in *. lia.
Qed.

Lemma feed_nothing l : feed (RequestParser_new l) [] = (RequestParser_new l, 0%nat).
Proof.
  unfold feed. cbn. unfold feed_request_line. cbn. pose proof (u64_range (max_request_line l + 1)).
  by destruct (Z.gtb_spec (zlen (@nil ascii)) (u64 (max_request_line l + 1))) as [Hz|_]; [unfold zlen in Hz; cbn in Hz; lia|].
Qed.

(** The tests may feed a message in chunks of any size.  For every
    message and all limits, [feed_in_chunks] returns, and for every chunk
    size from one byte on it leaves the same parser, with the same request or
    error, and the same unconsumed bytes as one [feed] of the whole. *)
Theorem chunk_size_irrelevant (data : bytes) (step : nat) (l : ParserLimits) :
  limits_ok l = true -> fits data -> (0 < step)%nat -> feed_in_chunks data step l = Some (fed_whole data l).
Proof.
  intros Hl Hf Hs. pose proof (parser_wf_new l Hl) as Hp. unfold feed_in_chunks, fed_whole.
  pose proof (chunks_loop_whole (S (length data)) step (RequestParser_new l) [] data Hp Hf Hs ltac:(lia)) as E.
  rewrite feed_nothing in E. cbn [app] in E. by destruct (feed (RequestParser_new l) data) as [p used].
Qed.

Definition kCurlGet : bytes :=
  B "GET / HTTP/1.1" ++ kCRLF ++ B "Host: localhost:42069" ++ kCRLF ++ B "User-Agent: curl/7.81.0" ++ kCRLF
  ++ B "Accept: */*" ++ kCRLF ++ kCRLF.

Lemma chunk_size_irrelevant_witness :
  feed_in_chunks kCurlGet 7 ParserLimits_default = Some (fed_whole kCurlGet ParserLimits_default)
  /\ done (f_parser (fed_whole kCurlGet ParserLimits_default)) = true.
Proof.
  split; [|vm_compute; reflexivity].
  apply (chunk_size_irrelevant kCurlGet 7 ParserLimits_default); [reflexivity|vm_compute; reflexivity|lia].
Defined.

(** ** The tests

    [text] is a message given by its lines.  [fed] is what is left of a
    message at every chunk size, by [chunk_size_irrelevant]. *)

Definition text (ls : list bytes) : bytes := concat ((fun s => s ++ kCRLF) <$> ls).
#[local] Abbreviation fed data := (fed_whole data ParserLimits_default).
#[local] Abbreviation request data := (req_ (f_parser (fed data))).
#[local] Abbreviation status_of data := (error_status data ParserLimits_default).

Example parses_request_line_at_every_chunk_size :
  done (f_parser (fed kCurlGet)) = true /\ method (request kCurlGet) = B "GET" /\ target (request kCurlGet) = B "/"
  /\ version_major (request kCurlGet) = 1%Z /\ version_minor (request kCurlGet) = 1%Z /\ f_leftover (fed kCurlGet) = [].
Proof. vm_compute. done. Qed.

Example parses_request_line_with_path :
  path (request (text [B "GET /coffee HTTP/1.1"; B "Host: localhost:42069"; []])) = B "/coffee".
Proof. vm_compute. done. Qed.

Example splits_query_string :
  let r := request (text [B "GET /search?q=epoll&page=2 HTTP/1.1"; B "Host: x"; []]) in
  path r = B "/search" /\ query r = B "q=epoll&page=2".
Proof. vm_compute. done. Qed.

Example accepts_absolute_form_target :
  let r := request (text [B "GET http://example.com/a/b?c HTTP/1.1"; B "Host: example.com"; []]) in
  path r = B "/a/b" /\ query r = B "c".
Proof. vm_compute. done. Qed.

Example parses_headers_case_insensitively :
  let h := headers (request kCurlGet) in
  get h (B "host") = Some (B "localhost:42069") /\ get h (B "USER-AGENT") = Some (B "curl/7.81.0")
  /\ get h (B "Accept") = Some (B "*/*") /\ length h = 3.
Proof. vm_compute. done. Qed.

Example trims_header_whitespace_and_folds_duplicates :
  let h := headers (request (text [B "GET / HTTP/1.1"; B "Host:   localhost:42069   "; B "X-Person: lane"; B "X-Person: prime"; []])) in
  get h (B "Host") = Some (B "localhost:42069") /\ get h (B "x-person") = Some (B "lane, prime").
Proof. vm_compute. done. Qed.

Example rejects_malformed_header_lines :
  Forall (fun data => status_of data = Some 400%Z)
    [text [B "GET / HTTP/1.1"; B "       Host : localhost:42069       "; []];
     text [B "GET / HTTP/1.1"; B "Host : x"; []];
     text [B "GET / HTTP/1.1"; B "Host: x"; B "X-A: a"; B "  continued"; []];
     text [B "GET / HTTP/1.1"; B "Host: x"; B "nocolon"; []];
     text [B "GET / HTTP/1.1"; B "Host: x"; B "H@st: y"; []];
     text [B "GET / HTTP/1.1"; B "Host: x"; B "X-A: a" ++ [LF] ++ B "b"; []];
     text [B "GET / HTTP/1.1"; B "Host: x"; B "X-A: a" ++ [chr 0] ++ B "b"; []]].
Proof. repeat constructor; vm_compute; done. Qed.

Example waits_for_end_of_headers :
  let p := f_parser (fed (text [B "GET / HTTP/1.1"; B "Host: localhost:42069"])) in
  done p = false /\ failed p = false /\ started p = true /\ headers_complete p = false.
Proof. vm_compute. done. Qed.

Example rejects_bad_request_lines :
  Forall (fun line => status_of (text [line; B "Host: x"; []]) = Some 400%Z)
    [B "/coffee HTTP/1.1"; B "GET /coffee"; B "GET  / HTTP/1.1"; B "GET / HTTP/1.1 extra"; B "G(T / HTTP/1.1";
     B "GET coffee HTTP/1.1"; B "GET / HTTX/1.1"; B "GET / http/1.1"; B "GET / HTTP/1.10"].
Proof. repeat constructor; vm_compute; done. Qed.

Example rejects_unsupported_versions_with_505 :
  Forall (fun line => status_of (text [line; B "Host: x"; []]) = Some 505%Z) [B "GET / HTTP/2.0"; B "GET / HTTP/1.2"].
Proof. repeat constructor; vm_compute; done. Qed.

Example requires_exactly_one_host_in_http11 :
  status_of (text [B "GET / HTTP/1.1"; []]) = Some 400%Z
  /\ status_of (text [B "GET / HTTP/1.1"; B "Host: a"; B "Host: b"; []]) = Some 400%Z
  /\ done (f_parser (fed (text [B "GET / HTTP/1.0"; []]))) = true.
Proof. vm_compute. done. Qed.

Example ignores_leading_empty_lines :
  method (request (text [[]; []; B "GET / HTTP/1.1"; B "Host: x"; []])) = B "GET".
Proof. vm_compute. done. Qed.

Example reads_content_length_body_at_every_chunk_size :
  body (request (text [B "POST /submit HTTP/1.1"; B "Host: localhost:42069"; B "Content-Length: 13"; []] ++ B "hello world!" ++ [LF]))
  = B "hello world!" ++ [LF].
Proof. vm_compute. done. Qed.

Example waits_when_body_shorter_than_content_length :
  let p := f_parser (fed (text [B "POST / HTTP/1.1"; B "Host: x"; B "Content-Length: 20"; []] ++ B "partial content")) in
  done p = false /\ failed p = false /\ headers_complete p = true.
Proof. vm_compute. done. Qed.

Example decodes_chunked_body_with_extensions_and_trailers :
  let f := fed (text [B "POST /upload HTTP/1.1"; B "Host: x"; B "Transfer-Encoding: chunked"; []; B "4"; B "Wiki";
                  B "5;ext=" ++ [DQUOTE] ++ B "1" ++ [DQUOTE]; B "pedia"; B "E"; B " in"; []; B "chunks."; B "0"; B "X-Checksum: abc"; []]) in
  body (req_ (f_parser f)) = B "Wikipedia in" ++ kCRLF ++ kCRLF ++ B "chunks."
  /\ get (trailers (req_ (f_parser f))) (B "x-checksum") = Some (B "abc") /\ f_leftover f = [].
Proof. vm_compute. done. Qed.

Example rejects_bad_chunk_framing :
  let head := text [B "POST / HTTP/1.1"; B "Host: x"; B "Transfer-Encoding: chunked"; []] in
  Forall (fun data => status_of (head ++ data) = Some 400%Z)
    [text [B "zz"; B "abc"; B "0"; []]; text [B "3"; B "abcX"; B "0"; []]; text [[]]; text [B "11111111111111111"]].
Proof. repeat constructor; vm_compute; done. Qed.

Example guards_against_request_smuggling :
  Forall (fun data => status_of data = Some 400%Z)
    [text [B "POST / HTTP/1.1"; B "Host: x"; B "Content-Length: 3"; B "Transfer-Encoding: chunked"; []; B "0"; []];
     text [B "POST / HTTP/1.1"; B "Host: x"; B "Content-Length: 1"; B "Content-Length: 2"; []] ++ B "ab";
     text [B "POST / HTTP/1.1"; B "Host: x"; B "Content-Length: -1"; []];
     text [B "POST / HTTP/1.1"; B "Host: x"; B "Content-Length: 0x10"; []];
     text [B "POST / HTTP/1.0"; B "Transfer-Encoding: chunked"; []; B "0"; []]]
  /\ status_of (text [B "POST / HTTP/1.1"; B "Host: x"; B "Transfer-Encoding: gzip"; []]) = Some 501%Z
  /\ body (request (text [B "POST / HTTP/1.1"; B "Host: x"; B "Content-Length: 2, 2"; []] ++ B "ok")) = B "ok".
Proof. split; [repeat constructor|]; vm_compute; done. Qed.

Example enforces_size_limits :
  let lim := mkLimits 64 128 3 10 (max_chunk_line ParserLimits_default) in
  error_status (text [B "GET /" ++ replicate 100 "a"%char ++ B " HTTP/1.1"; B "Host: x"; []]) lim = Some 414%Z
  /\ error_status (text [B "GET / HTTP/1.1"; B "Host: x"; B "X-Big: " ++ replicate 200 "b"%char; []]) lim = Some 431%Z
  /\ error_status (text [B "GET / HTTP/1.1"; B "Host: x"; B "A: 1"; B "B: 2"; B "C: 3"; []]) lim = Some 431%Z
  /\ error_status (text [B "POST / HTTP/1.1"; B "Host: x"; B "Content-Length: 11"; []]) lim = Some 413%Z
  /\ error_status (text [B "POST / HTTP/1.1"; B "Host: x"; B "Transfer-Encoding: chunked"; []; B "8"; B "12345678"; B "8"; B "12345678"; B "0"; []]) lim
     = Some 413%Z
  /\ (let p := f_parser (fed_whole (B "GET /" ++ replicate 1000 "a"%char) lim) in failed p = true /\ status_for (error_ p) = 414%Z).
Proof. vm_compute. done. Qed.

(** The loop of the test: feed, drop what was consumed, take the request. *)
Fixpoint take_all (fuel : nat) (p : RequestParser) (buf : bytes) : option (list Request) :=
  match buf with
  | [] => Some []
  | _ =>
      match fuel with
      | O => None
      | S f =>
          let '(p, used) := feed p buf in
          if failed p || negb (done p) then None
          else let '(r, p) := take_request p in cons r <$> take_all f p (drop used buf)
      end
  end.

Example stops_at_request_boundary_for_pipelining :
  (fun r => (path r, body r))
  <$> default [] (take_all 4 (RequestParser_new ParserLimits_default)
        (text [B "GET /first HTTP/1.1"; B "Host: x"; []] ++ text [B "POST /second HTTP/1.1"; B "Host: x"; B "Content-Length: 3"; []] ++ B "abc"
         ++ text [B "GET /third HTTP/1.1"; B "Host: x"; []]))
  = [(B "/first", []); (B "/second", B "abc"); (B "/third", [])].
Proof. vm_compute. done. Qed.

Example keep_alive_semantics :
  keep_alive (request (text [B "GET / HTTP/1.1"; B "Host: x"; []])) = true
  /\ keep_alive (request (text [B "GET / HTTP/1.1"; B "Host: x"; B "Connection: close"; []])) = false
  /\ keep_alive (request (text [B "GET / HTTP/1.1"; B "Host: x"; B "Connection: Upgrade, Close"; []])) = false
  /\ keep_alive (request (text [B "GET / HTTP/1.0"; []])) = false
  /\ keep_alive (request (text [B "GET / HTTP/1.0"; B "Connection: keep-alive"; []])) = true.
Proof. vm_compute. done. Qed.

Example flags_expect_continue_only_when_body_follows :
  let p := f_parser (fed (text [B "POST / HTTP/1.1"; B "Host: x"; B "Expect: 100-continue"; B "Content-Length: 5"; []])) in
  let q := f_parser (fed (text [B "GET / HTTP/1.1"; B "Host: x"; B "Expect: 100-continue"; []])) in
  headers_complete p = true /\ done p = false /\ expect_continue (req_ p) = true /\ done q = true /\ expect_continue (req_ q) = false.
Proof. vm_compute. done. Qed.

Example parser_is_reusable_after_take :
  let p := f_parser (fed (text [B "POST / HTTP/1.1"; B "Host: x"; B "Content-Length: 1"; B "X-A: 1"; []] ++ B "z")) in
  let '(first, p') := take_request p in
  let q := (feed p' (text [B "GET /again HTTP/1.1"; B "Host: y"; []])).1 in
  done p = true /\ body first = B "z" /\ started p' = false /\ done q = true /\ path (req_ q) = B "/again" /\ body (req_ q) = []
  /\ has (headers (req_ q)) (B "X-A") = false.
Proof. vm_compute. done. Qed.

Example header_list_tokens :
  let h := add (add [] (B "Connection") (B "keep-alive")) (B "connection") (B " Upgrade ") in
  let h' := set h (B "Connection") (B "close") in
  get h (B "CONNECTION") = Some (B "keep-alive,  Upgrade ") /\ has_token h (B "Connection") (B "upgrade") = true
  /\ has_token h (B "Connection") (B "KEEP-ALIVE") = true /\ has_token h (B "Connection") (B "close") = false
  /\ get h' (B "connection") = Some (B "close") /\ remove h' (B "CONNECTION") = ([], true).
Proof. vm_compute. done. Qed.
