(* ===== verification/TestResponse.v ===== *)
(** * [tests/test_response.cpp]: the unit tests of responses, checksums, buffers and paths

    Each test is an example under its name, evaluated on the definitions that
    model the code under test. *)

From S2P Require Import Prelude Headers RequestParser Numbers Response Crc32 ByteBuffer StaticFiles TestParser.

Open Scope Z_scope.

#[local] Abbreviation contains s p := (match find_sub p s with Some _ => true | None => false end).

Definition HeadOptions_default : HeadOptions := mkHeadOptions true false [].

Example serializes_content_length_response :
  write_head [] (Response_text 200 (B "hello") text_plain) (mkHeadOptions true false (B "Wed, 23 Sep 2026 10:00:00 GMT"))
  = (text [B "HTTP/1.1 200 OK"; B "Content-Type: text/plain; charset=utf-8"; B "Server: httpd-cpp";
           B "Date: Wed, 23 Sep 2026 10:00:00 GMT"; B "Content-Length: 5"; []], ContentLength).
Proof. vm_compute. done. Qed.

Definition with_headers (h : Headers) (r : Response) : Response :=
  mkResponse (status r) h (res_body r) (file r) (file_offset r) (file_length r) (producer r) (stream_length r).

Example handler_cannot_override_framing_headers :
  let r := Response_text 200 (B "abc") text_plain in
  let r := with_headers (set (set (res_headers r) (B "Content-Length") (B "999")) (B "Transfer-Encoding") (B "chunked")) r in
  let out := (write_head [] r HeadOptions_default).1 in
  contains out (text [B "Content-Length: 3"]) = true /\ contains out (B "999") = false /\ contains out (B "chunked") = false.
Proof. vm_compute. done. Qed.

Example connection_header_reflects_keep_alive :
  let r := Response_text 404 [] text_plain in
  let out := (write_head [] r (mkHeadOptions false false [])).1 in
  let out' := (write_head [] r (mkHeadOptions true true [])).1 in
  starts_with (text [B "HTTP/1.1 404 Not Found"]) out = true /\ contains out (text [B "Connection: close"]) = true
  /\ contains out' (text [B "Connection: keep-alive"]) = true.
Proof. vm_compute. done. Qed.

Example no_body_framing_for_204 :
  let '(out, framing) := write_head [] (mkResponse 204 [] [] (-1) 0 0 None None) HeadOptions_default in
  framing = FramingNone /\ contains out (B "Content-Length") = false.
Proof. vm_compute. done. Qed.

Example streaming_framing_depends_on_length_and_client :
  let pr := mkProducer unit tt (fun _ out t => Some (false, out, t, tt)) in
  let r len := mkResponse 200 [] [] (-1) 0 0 (Some pr) len in
  let '(a, fa) := write_head [] (r None) HeadOptions_default in
  let '(b, fb) := write_head [] (r None) (mkHeadOptions true true []) in
  let '(c, fc) := write_head [] (r (Some 42)) HeadOptions_default in
  fa = Chunked /\ contains a (text [B "Transfer-Encoding: chunked"]) = true
  /\ fb = CloseDelimited /\ contains b (text [B "Connection: close"]) = true
  /\ fc = ContentLength /\ contains c (text [B "Content-Length: 42"]) = true.
Proof. vm_compute. done. Qed.

Example chunk_encoding :
  let x26 := replicate 26 "x"%char in
  append_last_chunk (append_chunk (append_chunk (append_chunk [] (B "Wiki")) []) x26) (set [] (B "X-Sum") (B "1"))
  = text [B "4"; B "Wiki"; B "1a"; x26; B "0"; B "X-Sum: 1"; []].
Proof. vm_compute. done. Qed.

Example crc32_matches_reference_vectors :
  crc32 [] 0 = 0 /\ crc32 (B "123456789") 0 = 0xCBF43926
  /\ crc32 (B "The quick brown fox jumps over the lazy dog") 0 = 0x414FA339
  /\ crc32 (B "56789") (crc32 (B "1234") 0) = 0xCBF43926.
Proof. vm_compute. done. Qed.

(** Fresh storage is filled with question marks. *)
Definition storage (n : Z) : bytes := replicate (Z.to_nat n) "?"%char.

Example byte_buffer_compacts_and_grows :
  match ByteBuffer.prepare storage ByteBuffer.new 4 with
  | None => False
  | Some b =>
      let b := ByteBuffer.consume (ByteBuffer.commit (ByteBuffer.poke b (B "abcd")) 4) 2 in
      match ByteBuffer.prepare storage b 10000 with
      | None => False
      | Some b' =>
          let c := ByteBuffer.commit (ByteBuffer.poke b' (B "ef")) 2 in
          ByteBuffer.readable b = B "cd" /\ (ByteBuffer.writable b' >=? 10000) = true /\ ByteBuffer.readable b' = B "cd"
          /\ ByteBuffer.readable c = B "cdef" /\ ByteBuffer.empty (ByteBuffer.consume c 4) = true
      end
  end.
Proof. vm_compute. done. Qed.

Example static_path_sanitizer :
  (sanitize <$> [B "css/site.css"; B "./a//b/./c.txt"; B "hello%20world.txt"; []]
   = [Some (B "css/site.css"); Some (B "a/b/c.txt"); Some (B "hello world.txt"); Some []])
  /\ Forall (fun p => sanitize p = None)
       [B "../etc/passwd"; B "a/../../b"; B "%2e%2e/secret"; B "a%2f..%2fb/../../x"; B "bad%zz"; B "trunc%2"; B "nul%00byte";
        B "win" ++ [BACKSLASH] ++ B "path"].
Proof. split; [|repeat constructor]; vm_compute; done. Qed.
