(* ===== verification/EndToEnd.v ===== *)
(** * Requests and their answers, end to end

    The server's side (the parser, the routes, the connection and the
    producers) and the client of the tests together: what a client sent is
    dispatched, what the connection queues and refills is what the client
    reads, and the client ends up with the response of the routes.  These are
    the end-to-end tests of [tests/test_server.cpp], for all inputs. *)

From S2P Require Import Prelude Headers RequestParser Numbers ParserFacts ParserSegmentation Response ChunkCodec ParserRoundTrip ResponseHead.
From S2P Require Import Crc32 ByteBuffer UniqueFd Router StaticFiles Metrics Connection ConnectionFacts.
From S2P Require Import ConnectionLiveness Pipeline ServerTheorems Routes RoutesFacts AppTheorems.
From S2P Require Import Main Worker Accounting Loadgen LoadgenFacts TestClient TestClientFacts TestClientTheorems.

Open Scope Z_scope.

(** The dates the worker writes are clean, as [strftime] makes them. *)
Definition clean_dates {K : Type} `{Kernel K} (e : Env K) : Prop :=
  forall d, dated e d -> existsb value_char_bad d = false.

Lemma clean_get_date {K : Type} `{Kernel K} (e : Env K) : clean_dates e -> existsb value_char_bad (get_date e).1 = false.
Proof. intros Hd. apply Hd. destruct (get_date e) as [d e1] eqn:E. by apply get_date_dated in E as [? _]. Qed.

(** What a client reads when the stream [text] reaches it: [spec] of the response, and [rest] is left. *)
Definition client_gets (rounds : nat) (text rest : bytes) (spec : HttpResponse -> Prop) : Prop :=
  forall (P : Type) (HP : PeerKernel P) (fuel n : nat) (fd : Z) (cl : Client) (k kend : P),
  (rounds < fuel)%nat -> (n < fuel)%nat -> pending fd kend n (text ++ rest) cl k ->
  exists r n' cl' k', read_response fuel false cl k = Some (Value r, cl', k') /\ pending fd kend n' rest cl' k' /\ spec r.

(** A message whose text the client receives. *)
Lemma client_gets_message m rest (spec : HttpResponse -> Prop) :
  message_ok m -> self_delimited m -> m_head m = false -> spec (http_of m) -> client_gets (rounds m) (message_text m) rest spec.
Proof.
  intros Hm Hs Hh Hsp P HP fuel n fd cl k kend Hf Hn Hp.
  destruct (reads_message fd kend fuel m rest Hm Hf Hs n cl k Hn Hp) as (n' & c' & k' & E & _ & Hp'). rewrite Hh in E.
  by exists (http_of m), n', c', k'.
Qed.

Lemma get_single n fs v : values_of n fs = [v] -> trim_ows v = v -> get (read_fields [] fs) n = Some v.
Proof. intros Hv Ht. rewrite get_read_fields, Hv. cbn [fmap list_fmap join]. by rewrite Ht. Qed.

(** A response framed by its length, whatever its body comes from. *)
Lemma sized_client res opts data rest (spec : HttpResponse -> Prop) :
  status res = 200 -> Forall field_ok (head_fields res opts) -> (choose_framing res opts).1 = ContentLength ->
  announced_length res = zlen data -> zlen data < 2 ^ 64 ->
  (get (read_fields [] (head_fields res opts)) (B "Content-Length") = Some (to_string (zlen data)) ->
   spec (mkHttp 200 (read_fields [] (head_fields res opts)) data [])) ->
  client_gets (length (head_fields res opts) + 1) (head_text res opts ++ data) rest spec.
Proof.
  intros Hst Hf Hfr Hal Hlen Hsp. set (m := mkMessage res opts false [data] []).
  assert (bodyless m = false /\ m_framing m = ContentLength) as [Hb Hfm] by (unfold bodyless, m_framing; cbn [m m_head m_res m_opts]; by rewrite Hfr).
  assert (concat (m_pieces m) = data) as Hcat by apply app_nil_r.
  assert (message_text m = head_text res opts ++ data) as Ht by (unfold message_text, body_text; by rewrite Hb, Hfm, Hcat).
  assert (rounds m = length (head_fields res opts) + 1)%nat as Hr by (unfold rounds; cbn; lia).
  rewrite <- Ht, <- Hr. apply client_gets_message; [| |done|].
  - split; try done; [change (m_res m) with res; rewrite Hst; lia|by intros _ _; rewrite Hcat|by rewrite Hcat].
  - right. congruence.
  - unfold http_of. rewrite Hb, Hfm, Hcat. change (m_res m) with res. change (m_opts m) with opts. rewrite Hst. apply Hsp, get_single.
    + by rewrite content_length_of_head, Hfr, Hal.
    + by apply token_trim, to_chars_tchar.
Qed.

(** The chunked coding is longer than the body. *)
Lemma encode_chunked_longer pieces t : zlen (concat pieces) <= zlen (encode_chunked pieces t).
Proof.
  rewrite encode_chunked_eq, zlen_app. pose proof (zlen_nonneg (to_chars 16 0 ++ kCRLF ++ concat (field_line <$> t) ++ kCRLF)).
  enough (zlen (concat pieces) <= zlen (concat (append_chunk [] <$> pieces))) by lia.
  induction pieces as [|d pieces IH]; [done|]. cbn [fmap list_fmap concat]. rewrite !zlen_app. destruct d as [|b d]; [done|].
  change (append_chunk [] (b :: d)) with (to_chars 16 (zlen (b :: d)) ++ kCRLF ++ (b :: d) ++ kCRLF). rewrite !zlen_app.
  pose proof (zlen_nonneg (to_chars 16 (zlen (b :: d)))). pose proof (zlen_nonneg kCRLF). lia.
Qed.

(** The response of [/stream/{n}] as a message. *)
Lemma stream_message_ok n res opts :
  0 <= n <= kMaxStreamChunks -> status res = 200 -> (choose_framing res opts).1 = Chunked -> Forall field_ok (head_fields res opts) ->
  message_ok (mkMessage res opts false (stream_pieces n) (stream_trailers n (crc32 (stream_body n) 0))).
Proof.
  intros Hn Hst Hfr Hf. pose proof (crc32_range (stream_body n) 0) as Hcrc. pose proof (stream_text_short n _ Hn Hcrc) as Hlen.
  pose proof (encode_chunked_longer (stream_pieces n) (stream_trailers n (crc32 (stream_body n) 0))) as Hlong.
  destruct (stream_trailers_printable n _ ltac:(unfold kMaxStreamChunks in Hn; lia) Hcrc) as [[_ Hpr] _].
  split; cbn [m_res m_opts m_pieces m_trailers m_framing bodyless].
  - rewrite Hst. lia.
  - done.
  - unfold m_framing. cbn [m_res m_opts]. congruence.
  - lia.
  - eapply List.Forall_impl; [|exact Hpr]. by intros f [? _].
Qed.

Section App.
Context {K : Type} `{Kernel K} `{FileSys K} (have_openat2 : bool).
Context {double : Type} (of_u64 : Z -> double) (div_1e6 : double -> double) (fmt_17g fmt_g : double -> bytes).
Context (worker_metrics : K -> list WorkerMetrics) (uptime : K -> double) (info : K -> Info).
Context (static_root : bytes) (files : Z).

#[local] Abbreviation app :=
  (app_router have_openat2 of_u64 div_1e6 fmt_17g fmt_g worker_metrics uptime info static_root files).

(** C19: a client of [/stream/{n}] reads what the trailers vouch for, whatever
    [n].  Dispatching the request queues a head and starts a stream; from the
    head and what the refills of the stream put on the wire the client reads
    a response with status 200, the [n] lines as its body, the announced
    trailers, which carry [n] and the CRC-32 of exactly the body it has
    read, and it is in sync with what follows. *)
Theorem stream_client (n : Z) (req : Request) (draining : bool) {T : Type} (c : Connection T) (e : Env K) (rest : bytes) :
  0 <= n <= kMaxStreamChunks -> method req = B "GET" -> is_http10 req = false -> path req = B "/stream/" ++ to_string n ->
  fields_ok (headers req) -> clean_dates e ->
  exists res opts c' e' text, dispatch app draining c req e = (c', e') /\ c_out c' = c_out c ++ head_text res opts
    /\ drain_stream (S (Z.to_nat n)) (set_out [] 0 c') = Some text
    /\ client_gets (length (head_fields res opts) + Z.to_nat n + 3) (head_text res opts ++ text) rest (fun r =>
         r_status r = 200 /\ r_body r = stream_body n
         /\ get (r_headers r) (B "Transfer-Encoding") = Some (B "chunked")
         /\ get (r_headers r) (B "Trailer") = Some (B "X-Chunk-Count, X-Content-CRC32")
         /\ get (r_trailers r) (B "X-Chunk-Count") = Some (to_string n)
         /\ get (r_trailers r) (B "X-Content-CRC32") = Some (hex8 (crc32 (r_body r) 0))).
Proof.
  intros Hn Hm Hv Hp Hh Hd.
  destruct (stream_dispatched have_openat2 of_u64 div_1e6 fmt_17g fmt_g worker_metrics uptime info static_root files n req draining c e Hn Hm Hv Hp)
    as (res & opts & c' & e' & Hdis & Hres & Hdt & Ho & Hst & Hfr & Htr & Hdr).
  assert (Forall field_ok (head_fields res opts)) as Hf.
  { apply head_fields_clean; [subst res; by apply app_clean|]. rewrite Hdt. by apply clean_get_date. }
  pose proof (stream_message_ok n res opts Hn Hst Hfr Hf) as Hok. pose proof (crc32_range (stream_body n) 0) as Hcrc.
  set (tr := stream_trailers n (crc32 (stream_body n) 0)) in *. set (m := mkMessage res opts false (stream_pieces n) tr) in *.
  assert (bodyless m = false /\ m_framing m = Chunked) as [Hb Hfm] by (unfold bodyless, m_framing; cbn [m m_head m_res m_opts]; by rewrite Hfr).
  exists res, opts, c', e', (encode_chunked (stream_pieces n) tr). do 3 (split; [done|]).
  intros P HP fuel calls fd cl k kend Hfuel Hcalls Hpend. apply (client_gets_message m rest) with (fuel := fuel) (n := calls).
  - done.
  - right. congruence.
  - done.
  - unfold http_of. rewrite Hb, Hfm. cbn [r_status r_body r_headers r_trailers negb andb m_res m_opts m_pieces m_trailers m].
    rewrite stream_pieces_body. split; [done|]. split; [done|].
    split; [apply get_single; [by rewrite transfer_encoding_of_head, Hfr|done]|]. split; [by apply get_single|].
    destruct (stream_trailers_printable n _ ltac:(unfold kMaxStreamChunks in Hn; lia) Hcrc) as [[_ Hpr] _].
    apply Forall_cons in Hpr as [[_ Ht1] [[_ Ht2] _]%Forall_cons]. split; apply get_single; done.
  - pose proof (stream_pieces_length n ltac:(lia)). unfold rounds. cbn [m_res m_opts m_pieces m_trailers m]. unfold tr, stream_trailers. cbn [length]. lia.
  - done.
  - unfold message_text, body_text. rewrite Hb, Hfm. exact Hpend.
Qed.
(** C20: a client of [/bytes/{n}] reads exactly [n] bytes, whatever [n] up to
    the limit.  The head announces [n] as the [Content-Length]; the refills of
    the stream put the body on the wire within one refill per started 64 KiB
    (an empty body starts no stream); the client reads status 200 and the
    first [n] letters of the repeated alphabet, and is in sync with what
    follows. *)
Theorem bytes_client (n : Z) (req : Request) (draining : bool) {T : Type} (c : Connection T) (e : Env K) (rest : bytes) :
  0 <= n <= kMaxGeneratedBytes -> method req = B "GET" -> path req = B "/bytes/" ++ to_string n ->
  fields_ok (headers req) -> clean_dates e ->
  exists res opts c' e' text, dispatch app draining c req e = (c', e') /\ c_out c' = c_out c ++ head_text res opts
    /\ (if n =? 0 then text = [] /\ c_producer c' = c_producer c
        else drain_stream (S (Z.to_nat (n / kBytesPiece))) (set_out [] 0 c') = Some text)
    /\ client_gets (length (head_fields res opts) + 1) (head_text res opts ++ text) rest (fun r =>
         r_status r = 200 /\ r_body r = letters 0 (Z.to_nat n)
         /\ get (r_headers r) (B "Content-Length") = Some (to_string n) /\ r_trailers r = []).
Proof.
  intros Hn Hm Hp Hh Hd.
  destruct (bytes_dispatched have_openat2 of_u64 div_1e6 fmt_17g fmt_g worker_metrics uptime info static_root files n req draining c e Hn Hm Hp)
    as (res & opts & c' & e' & Hdis & Hres & Hdt & Ho & Hst & Hfr & Hlen & Hdr).
  assert (Forall field_ok (head_fields res opts)) as Hf.
  { apply head_fields_clean; [subst res; by apply app_clean|]. rewrite Hdt. by apply clean_get_date. }
  assert (zlen (letters 0 (Z.to_nat n)) = n) as Hzl by (rewrite zlen_letters; lia).
  exists res, opts, c', e', (letters 0 (Z.to_nat n)). do 2 (split; [done|]).
  split; [by destruct (Z.eqb_spec n 0) as [->|]|]. apply sized_client; try done; [by rewrite Hlen| |].
  - rewrite Hzl. by eapply Z.le_lt_trans; [apply Hn|].
  - rewrite Hzl. intros Hcl. cbn [r_status r_body r_headers r_trailers]. by rewrite Hcl.
Qed.

End App.

(** ** Files *)

Lemma mime_type_plain p : trim_ows (mime_type p) = mime_type p.
Proof. unfold mime_type. by repeat case_match. Qed.

Section Static.
Context {T : Type} `{InBuffer T} {K : Type} `{KernelLaws K} {FR : FiniteReadiness K} `{!FileSys K} `{!FileSysLaws K} (have_openat2 : bool).
Context {double : Type} (of_u64 : Z -> double) (div_1e6 : double -> double) (fmt_17g fmt_g : double -> bytes).
Context (worker_metrics : K -> list WorkerMetrics) (uptime : K -> double) (info : K -> Info).
Context (static_root : bytes) (files : Z) (content : Z -> bytes).

#[local] Abbreviation app :=
  (app_router have_openat2 of_u64 div_1e6 fmt_17g fmt_g worker_metrics uptime info static_root files).

(** Dispatching a request that is answered with a file extends the stream of output by the head and the file. *)
Lemma file_dispatched draining (c : Connection T) (e : Env K) req res k :
  Router.dispatch app (e_kern e) req Response_new = (res, k) -> conn_ok c -> body_source_active c = false -> method req <> B "HEAD" ->
  fd_valid (file res) = true -> status res = 200 -> file_offset res = 0 -> zlen (content (file res)) = file_length res -> clean_dates e ->
  exists opts c' e', dispatch app draining c req e = (c', e') /\ existsb value_char_bad (date opts) = false
    /\ output content c' e' = output content c e ++ head_text res opts ++ content (file res).
Proof.
  intros Hd Hc Hb Hm Hf Hst Hoff Hlen Hdt.
  pose proof (proj1 (app_contract have_openat2 of_u64 div_1e6 fmt_17g fmt_g worker_metrics uptime info static_root files)) as Hr.
  pose proof (dispatch_queues app draining Hr c req e Hc Hb) as Hq. pose proof (dispatch_file app draining c e req res k Hd Hf Hst Hm) as Hfile.
  rewrite Hd in Hq. destruct (dispatch app draining c req e) as [c' e']. destruct Hq as ((date & Hq & Hgd) & _ & Hw). cbn zeta in Hfile. cbn [fst] in Hfile.
  eexists (mkHeadOptions _ _ date), c', e'. split; [done|]. cbn [Response.date].
  split; [apply Hdt; by apply get_date_dated in Hgd as [? _]|].
  unfold body_source_active in Hb. apply orb_false_elim in Hb as [Hb _].
  assert (file_rest content c = []) as Hrest by (unfold file_rest; by rewrite Hb). unfold output. rewrite Hrest, app_nil_r.
  unfold sent_so_far, ConnectionFacts.pending. rewrite (q_fd _ _ _ Hq), Hw, (q_off _ _ _ Hq), (q_out _ _ _ Hq).
  rewrite drop_app_le by (destruct (co_off c Hc) as [[_ ->]|]; lia). rewrite <- !app_assoc. do 2 f_equal.
  unfold response_text. rewrite write_head_text, Hf. cbn [negb fst]. rewrite andb_false_r, app_nil_r. cbn [app].
  fold (head_text res (mkHeadOptions (keep_alive req && negb draining) (is_http10 req) date)). f_equal.
  unfold file_rest. destruct (Z.gtb_spec (file_length res) 0) as [Hl|Hl]; injection Hfile as -> -> ->.
  - rewrite Hf, Hoff, <- Hlen. unfold zlen. rewrite Nat2Z.id. by apply take_ge.
  - rewrite Hb. symmetry. apply zlen_nil_inv. pose proof (zlen_nonneg (content (file res))). lia.
Qed.


End Static.

(** ** Pipelined requests *)

(** A response that goes out from memory. *)
Record in_memory (res : Response) : Prop := {
  im_status : 100 <= status res <= 999;
  im_clean : response_clean res;
  im_file : fd_valid (file res) = false;
  im_producer : producer res = None;
  im_body : zlen (res_body res) < 2 ^ 64 }.

Definition memory_message (r : Request) (res : Response) (opts : HeadOptions) : message :=
  mkMessage res opts (bytes_eqb (method r) (B "HEAD")) [res_body res] [].

Lemma memory_framing res opts : in_memory res -> (choose_framing res opts).1 = FramingNone \/ (choose_framing res opts).1 = ContentLength.
Proof. intros []. unfold choose_framing. rewrite im_file0, im_producer0. destruct (_ || _); auto. Qed.

Lemma memory_text r res opts :
  in_memory res -> message_text (memory_message r res opts) = response_text res opts (bytes_eqb (method r) (B "HEAD")).
Proof.
  intros Hi. unfold message_text, response_text, body_text, bodyless, m_framing. cbn [memory_message m_res m_opts m_head m_pieces].
  rewrite write_head_text. cbn [fst snd]. f_equal. rewrite (im_file res Hi), (im_producer res Hi). cbn [negb].
  destruct (bytes_eqb _ _); [done|]. cbn [orb negb andb].
  destruct (memory_framing res opts Hi) as [->| ->]; [done|]. cbn [bool_decide Framing_eq_dec decide_rel negb andb concat]. apply app_nil_r.
Qed.

Lemma memory_message_ok r res opts :
  in_memory res -> existsb value_char_bad (date opts) = false ->
  message_ok (memory_message r res opts) /\ self_delimited (memory_message r res opts).
Proof.
  intros Hi Hd. pose proof (memory_framing res opts Hi) as Hf. destruct Hi as [Hst Hcl Hfi Hpr Hbo].
  split; [split|]; cbn [memory_message m_res m_opts m_pieces m_trailers concat]; rewrite ?app_nil_r; try done.
  - by apply head_fields_clean.
  - intros _ _. unfold announced_length. by rewrite Hfi, Hpr.
  - right. unfold m_framing. cbn [memory_message m_res m_opts]. by destruct Hf as [->| ->].
Qed.

Section Pipelined.
Context {T : Type} `{InBufferLaws T} {K : Type} `{KernelLaws K}.
Context (router : Router K) (draining : bool) (e : Env K).

(** [res] is what the routes answer to [r] in some state of the kernel. *)
Definition routed (r : Request) (res : Response) : Prop := exists k, res = (Router.dispatch router k r Response_new).1.

(** The client has got [res] for [r]: its status, its body unless there is none, and the handler's fields. *)
Definition got (r : Request) (res : Response) (h : HttpResponse) : Prop :=
  r_status h = status res
  /\ r_body h = (if bytes_eqb (method r) (B "HEAD") || (Z.quot (status res) 100 =? 1) || (status res =? 204) || (status res =? 304)
                 then [] else res_body res)
  /\ (forall name, is_framing_header name = false -> iequals (B "Server") name = false ->
        get (r_headers h) name = get (read_fields [] (res_headers res)) name)
  /\ r_trailers h = [].

Lemma got_memory r res opts : in_memory res -> got r res (http_of (memory_message r res opts)).
Proof.
  intros Hi. unfold got, http_of. cbn [r_status r_body r_headers r_trailers memory_message m_res m_opts m_trailers m_pieces concat].
  rewrite <- (bodyless_test (memory_message r res opts)). cbn [memory_message m_res m_head]. rewrite app_nil_r. split; [done|]. split; [done|].
  split; [|by destruct (negb _ && _)]. intros name Hn Hs. by rewrite !get_read_fields, values_of_head_other.
Qed.

(** The texts of the answers are messages. *)
Lemma answers_messages rs texts :
  clean_dates e -> (forall r k, r ∈ rs -> in_memory (Router.dispatch router k r Response_new).1) ->
  Forall2 (answers router draining e) rs texts ->
  exists ms, texts = message_text <$> ms /\ m_head <$> ms = (fun r => bytes_eqb (method r) (B "HEAD")) <$> rs
    /\ Forall (fun m => message_ok m /\ self_delimited m) ms
    /\ Forall2 (fun r m => routed r (m_res m) /\ got r (m_res m) (http_of m)) rs ms.
Proof.
  intros Hd Him. induction 1 as [|r t rs ts (k & d & Hdt & ->) _ IH]; [by exists []|].
  destruct IH as (ms & -> & Hh & Hok & Hrel); [intros r' k' Hr'; apply Him; by right|].
  set (res := (Router.dispatch router k r Response_new).1) in *.
  set (opts := mkHeadOptions (keep_alive r && negb draining) (is_http10 r) d).
  assert (in_memory res) as Hi by (apply Him; left). pose proof (memory_message_ok r res opts Hi (Hd d Hdt)) as Hmo.
  exists (memory_message r res opts :: ms). cbn [fmap list_fmap]. rewrite (memory_text r res opts Hi).
  split; [done|]. split; [by f_equal|]. split; [by constructor|]. constructor; [|done].
  split; [by exists k|]. by apply got_memory.
Qed.

End Pipelined.

(** C18: requests sent in one go are answered in order, and the client gets
    the answer of the routes to each.  If the input buffer of an idle
    connection holds printed requests back to back and the routes answer them
    from memory, [process] answers a prefix of them (all, unless the last
    response closes the connection or the output reached its high-water
    mark); from what it queued, delivered in any segments, a client that
    calls [read_response] once per answered request gets, one after the
    other, the status, body and fields of the response of the routes to that
    request, and nothing else. *)
Theorem pipelined_client {T : Type} `{InBufferLaws T} {K : Type} `{KernelLaws K} (router : Router K) (now : Z) (draining : bool)
  (l : ParserLimits) (rs : list Request) (c : Connection T) (e : Env K) :
  router_ok router -> conn_ok c -> c_parser c = RequestParser_new l -> ib_readable (c_in c) = printed rs ->
  limits_ok l = true -> Forall (fun r => printable r /\ within l r) rs -> fits (printed rs) -> c_out c = [] ->
  clean_dates e -> (forall r k, r ∈ rs -> in_memory (Router.dispatch router k r Response_new).1) ->
  let '(_, c', _) := process router now draining c e in
  exists served waiting ress enough, rs = served ++ waiting /\ (waiting = [] \/ stopped c') /\ Forall2 (routed router) served ress
    /\ forall (P : Type) (HP : PeerKernel P) (fuel n : nat) (fd : Z) (cl : Client) (k kend : P) (rest : bytes),
       (enough <= fuel)%nat -> (n < fuel)%nat -> pending fd kend n (c_out c' ++ rest) cl k ->
       exists hs n' cl' k', read_responses fuel ((fun r => bytes_eqb (method r) (B "HEAD")) <$> served) cl k = Some (Value hs, cl', k')
         /\ Forall3 got served ress hs /\ pending fd kend n' rest cl' k'.
Proof.
  intros Hr Hc Hp Hin Hl Hrs Hfit Hout Hd Him. pose proof (process_spec router now draining Hr c e Hc) as Hs.
  destruct (process router now draining c e) as [[b c'] e']. destruct Hs as (Hloop & _).
  destruct (process_loop_pipeline router now draining Hr l rs (process_fuel c) c e false b c' e') as (sv & wt & ts & -> & Ha & Ho & _ & _ & Hend); try done.
  rewrite Hout in Ho. cbn [app] in Ho.
  destruct (answers_messages router draining e sv ts Hd ltac:(intros r k Hi; apply Him; set_solver) Ha) as (ms & -> & Hh & Hok & Hrel).
  exists sv, wt, (m_res <$> ms), (S (foldr Nat.max 0%nat (rounds <$> ms))). split; [done|]. split; [done|].
  split; [apply Forall2_fmap_r; eapply Forall2_impl; [exact Hrel|]; by intros ? ? [? _]|].
  intros P HP fuel n fd cl k kend rest Hf Hn Hpend. rewrite Ho in Hpend.
  destruct (reads_messages fd kend fuel ms rest) with (n := n) (c := cl) (k := k) as (n' & cl' & k' & E & _ & Hp'); try done.
  { clear -Hok Hf. induction Hok as [|m ms [Hm Hs] _ IH]; [constructor|]. cbn [fmap list_fmap foldr] in Hf.
    constructor; [split_and!; [done|lia|done]|apply IH; lia]. }
  exists (http_of <$> ms), n', cl', k'. rewrite <- Hh. split; [done|]. split; [|done].
  clear -Hrel. induction Hrel as [|r m rs ms [_ Hg] _ IH]; [constructor|]. by constructor.
Qed.

(** ** The demo server and the client *)

Lemma demo_clean_dates : clean_dates app_env.
Proof. intros d [->|[t ->]]; reflexivity. Qed.

Lemma get_request_fields p : fields_ok (headers (get_request p)).
Proof. split; [apply NoDup_singleton|repeat constructor; reflexivity]. Qed.

Lemma stream_client_witness :
  exists res opts c' e' text, dispatch demo_app false demo_conn (get_request (B "/stream/2")) app_env = (c', e')
    /\ c_out c' = [] ++ head_text res opts /\ drain_stream 3 (set_out [] 0 c') = Some text
    /\ client_gets (length (head_fields res opts) + 2 + 3) (head_text res opts ++ text) (B "HTTP/1.1 ") (fun r =>
         r_status r = 200 /\ r_body r = stream_body 2
         /\ get (r_headers r) (B "Transfer-Encoding") = Some (B "chunked")
         /\ get (r_headers r) (B "Trailer") = Some (B "X-Chunk-Count, X-Content-CRC32")
         /\ get (r_trailers r) (B "X-Chunk-Count") = Some (B "2")
         /\ get (r_trailers r) (B "X-Content-CRC32") = Some (hex8 (crc32 (r_body r) 0))).
Proof.
  apply (stream_client true (fun v => v) (fun v => v / 1000000) to_string to_string (fun _ => [WorkerMetrics_new])
           (fun _ => 1) (fun _ => demo_info) (B "public") 3 2 (get_request (B "/stream/2")) false demo_conn app_env (B "HTTP/1.1 ")).
  - split; vm_compute; discriminate.
  - reflexivity.
  - reflexivity.
  - reflexivity.
  - apply get_request_fields.
  - exact demo_clean_dates.
Defined.

Lemma bytes_client_witness :
  exists res opts c' e' text, dispatch demo_app false demo_conn (get_request (B "/bytes/30")) app_env = (c', e')
    /\ c_out c' = [] ++ head_text res opts /\ drain_stream 1 (set_out [] 0 c') = Some text
    /\ client_gets (length (head_fields res opts) + 1) (head_text res opts ++ text) (B "HTTP/1.1 ") (fun r =>
         r_status r = 200 /\ r_body r = B "abcdefghijklmnopqrstuvwxyzabcd"
         /\ get (r_headers r) (B "Content-Length") = Some (B "30") /\ r_trailers r = []).
Proof.
  apply (bytes_client true (fun v => v) (fun v => v / 1000000) to_string to_string (fun _ => [WorkerMetrics_new])
           (fun _ => 1) (fun _ => demo_info) (B "public") 3 30 (get_request (B "/bytes/30")) false demo_conn app_env (B "HTTP/1.1 ")).
  - split; vm_compute; discriminate.
  - reflexivity.
  - reflexivity.
  - apply get_request_fields.
  - exact demo_clean_dates.
Defined.

(** The page and the echo of [demo_router]. *)
Lemma demo_in_memory k :
  in_memory (Router.dispatch demo_router k demo_post Response_new).1
  /\ in_memory (Router.dispatch demo_router k (get_request (B "/hello")) Response_new).1.
Proof. split; (split; [split; vm_compute; discriminate|repeat constructor; reflexivity|reflexivity|reflexivity|reflexivity]). Qed.

Lemma get_hello_printable : printable (get_request (B "/hello")) /\ within ParserLimits_default (get_request (B "/hello")).
Proof.
  split; [|vm_compute; repeat split; discriminate]. split; try done; [|by exists (B "hello")|..].
  - split; [done|]. split; [done|]. split; [done|]. by right.
  - split; [apply NoDup_singleton|repeat constructor; reflexivity].
  - by split; [|left].
Qed.

Lemma pipelined_client_witness :
  let rs := [get_request (B "/hello"); demo_post] in
  let c := set_input (printed rs) (c_parser demo_conn) demo_conn in
  let '(_, c', _) := process demo_router 50 false c app_env in
  exists served waiting ress enough, rs = served ++ waiting /\ (waiting = [] \/ stopped c') /\ Forall2 (routed demo_router) served ress
    /\ forall (P : Type) (HP : PeerKernel P) (fuel n : nat) (fd : Z) (cl : Client) (k kend : P) (rest : bytes),
       (enough <= fuel)%nat -> (n < fuel)%nat -> pending fd kend n (c_out c' ++ rest) cl k ->
       exists hs n' cl' k', read_responses fuel ((fun r => bytes_eqb (method r) (B "HEAD")) <$> served) cl k = Some (Value hs, cl', k')
         /\ Forall3 got served ress hs /\ pending fd kend n' rest cl' k'.
Proof.
  cbn zeta. apply (pipelined_client demo_router 50 false ParserLimits_default [get_request (B "/hello"); demo_post]).
  - exact demo_router_ok.
  - destruct (conn_ok_new (T := bytes) 7 ParserLimits_default 50 eq_refl). split; assumption.
  - reflexivity.
  - reflexivity.
  - reflexivity.
  - apply Forall_cons_2; [exact get_hello_printable|]. apply Forall_cons_2; [|apply Forall_nil_2].
    split; [exact demo_post_printable|]. vm_compute. repeat split; discriminate.
  - vm_compute. reflexivity.
  - reflexivity.
  - exact demo_clean_dates.
  - intros r k [->|[->|[]%elem_of_nil]%elem_of_cons]%elem_of_cons; apply demo_in_memory.
Defined.

(** The file of the kernel of [Accounting]. *)
Definition desk_env : Env Desk := mkEnv WorkerMetrics_new DateCache_new (mkDesk {[3; 4; 5; 6]} [] ∅ ∅ 0 false 100).

