(* ===== verification/LoadgenServer.v ===== *)
(** * The load generator against the server

    The requests the load generator keeps in flight are what the server's
    connection finds in its input; the responses the connection queues are
    what the load generator reads.  Every response frees one place in the
    pipeline, which the load generator fills again: requests are neither lost
    nor duplicated between the two programs. *)

From S2P Require Import Prelude Headers RequestParser Numbers ParserFacts ParserSegmentation Response ChunkCodec ParserRoundTrip ResponseHead.
From S2P Require Import ByteBuffer Router Metrics Connection ConnectionFacts Pipeline ServerTheorems RoutesFacts AppTheorems.
From S2P Require Import Main Loadgen LoadgenFacts LoadgenTheorems TestClient TestClientFacts TestClientTheorems EndToEnd.

Open Scope Z_scope.

(** A response from memory whose status has a body. *)
Definition answers_body (res : Response) : Prop :=
  in_memory res /\ Z.quot (status res) 100 <> 1 /\ status res <> 204 /\ status res <> 304.

Lemma answers_body_framing res opts : answers_body res -> (choose_framing res opts).1 = ContentLength.
Proof.
  intros ([] & H1 & H2 & H3). unfold choose_framing. rewrite im_file, im_producer.
  by rewrite (proj2 (Z.eqb_neq _ _) H1), (proj2 (Z.eqb_neq _ _) H2), (proj2 (Z.eqb_neq _ _) H3).
Qed.

Section Answers.
Context {K : Type} `{KernelLaws K} (router : Router K) (e : Env K) (o : Loadgen.Options).

(** The text queued for a request of the load generator is an answer it can read. *)
Lemma answers_loadgen t :
  clean_dates e -> (forall k, answers_body (Router.dispatch router k (loadgen_request o) Response_new).1) ->
  answers router false e (loadgen_request o) t ->
  exists a, t = answer_text a /\ answer_ok a /\ routed router (loadgen_request o) (a_res a).
Proof.
  intros Hd Hr (k & d & Hdt & ->). specialize (Hr k). set (res := (Router.dispatch router k (loadgen_request o) Response_new).1) in *.
  change (keep_alive (loadgen_request o) && negb false) with true. change (is_http10 (loadgen_request o)) with false.
  set (opts := mkHeadOptions true false d). pose proof (answers_body_framing res opts Hr) as Hf. destruct Hr as [[Hst Hcl Hfi Hpr Hbo] _].
  exists (mkAnswer res opts (res_body res)). split; [|split; [split|by exists k]]; cbn [a_res a_opts a_body]; try done.
  - unfold response_text, answer_text, head_text. rewrite write_head_text, Hf, Hfi, Hpr. reflexivity.
  - unfold announced_length. by rewrite Hfi, Hpr.
  - apply head_fields_clean; [done|]. by apply Hd.
Qed.

Lemma answers_loadgen_all n ts :
  clean_dates e -> (forall k, answers_body (Router.dispatch router k (loadgen_request o) Response_new).1) ->
  Forall2 (answers router false e) (replicate n (loadgen_request o)) ts ->
  exists as_, ts = answer_text <$> as_ /\ length as_ = n /\ Forall answer_ok as_
    /\ Forall (routed router (loadgen_request o)) (a_res <$> as_).
Proof.
  intros Hd Hr. revert ts. induction n as [|n IH]; intros ts; cbn [replicate]; inversion 1 as [|? t ? ts' Ha Hts]; subst.
  - by exists [].
  - destruct (answers_loadgen t Hd Hr Ha) as (a & -> & Hok & Hro). destruct (IH ts' Hts) as (as_ & -> & <- & Hoks & Hros).
    exists (a :: as_). cbn [fmap list_fmap length]. by repeat split; try constructor.
Qed.

End Answers.

Lemma printed_replicate n o : printed (replicate n (loadgen_request o)) = concat (replicate n (request_ o)).
Proof. unfold printed. by rewrite fmap_replicate, request_text. Qed.

Lemma replicate_split {A} n (x : A) l1 l2 :
  replicate n x = l1 ++ l2 -> l1 = replicate (length l1) x /\ l2 = replicate (length l2) x /\ n = (length l1 + length l2)%nat.
Proof.
  intros [En Hx]%replicate_as_elem_of. rewrite length_app in En.
  split_and!; [symmetry; apply replicate_as_elem_of; split; [done|set_solver]..|done].
Qed.

(** C24: the load generator and the server make each other go on.  When
    the requests of the load generator's pipeline reach an idle connection of
    the server, back to back, and the route answers them from memory,
    [process] answers [m] of them and leaves the others in the buffer; when
    what it queued reaches the load generator, [consume_responses] counts [m]
    responses with the statuses of the route, leaves nothing unread, and,
    before the deadline, queues exactly [m] new requests, so that as many as
    before are in flight, none of them lost or answered twice. *)
Theorem loadgen_drives_server {T : Type} `{InBufferLaws T} {K : Type} `{KernelLaws K} (router : Router K) (now : Z)
  (l : ParserLimits) (o : Loadgen.Options) (n : nat) (c : Connection T) (e : Env K) :
  router_ok router -> conn_ok c -> c_parser c = RequestParser_new l -> c_out c = [] ->
  ib_readable (c_in c) = concat (replicate n (request_ o)) -> limits_ok l = true -> loadgen_ok o -> within l (loadgen_request o) ->
  fits (concat (replicate n (request_ o))) -> clean_dates e ->
  (forall k, answers_body (Router.dispatch router k (loadgen_request o) Response_new).1) ->
  let '(_, c', _) := process router now false c e in
  exists m w, n = (m + w)%nat /\ ib_readable (c_in c') = concat (replicate w (request_ o)) /\ (w = 0%nat \/ stopped c')
    /\ (zlen (c_out c') < 2 ^ 64 -> forall (P : Type) (HP : ClientKernel P) (deadline : Z) (fuel : nat) (lc : Loadgen.Conn) (st : ThreadStats) (k : P),
        l_in lc = c_out c' -> length (l_sent_at lc) = n -> (m < fuel)%nat ->
        exists ress lc' st' k', consume_responses o deadline fuel lc st k = Some (Kept, lc', st', k')
          /\ length ress = m /\ Forall (routed router (loadgen_request o)) ress /\ l_in lc' = []
          /\ u64 (requests st') = u64 (requests st + Z.of_nat m) /\ u64 (non_2xx st') = u64 (non_2xx st + failures (status <$> ress))
          /\ ((forall k : P, (c_now k).1 < deadline) ->
              l_out lc' = l_out lc ++ concat (replicate m (request_ o)) /\ length (l_sent_at lc') = n)).
Proof.
  intros Hr Hc Hp Hout Hin Hl Ho Hw Hfit Hd Hans. rewrite <- printed_replicate in Hin, Hfit.
  pose proof (process_spec router now false Hr c e Hc) as Hs. destruct (process router now false c e) as [[b c'] e']. destruct Hs as (Hloop & _).
  assert (Forall (fun r => printable r /\ within l r) (replicate n (loadgen_request o))) as Hrs.
  { apply Forall_replicate. split; [by apply loadgen_printable|done]. }
  destruct (process_loop_pipeline router now false Hr l _ (process_fuel c) c e false b c' e' Hc Hp Hin Hl Hrs Hfit Hloop)
    as (sv & wt & ts & Hrep & Ha & Hco & Hi & _ & Hend).
  apply replicate_split in Hrep as (Hsv & Hwt & Hn). exists (length sv), (length wt). split; [done|].
  split; [rewrite Hi, Hwt at 1; apply printed_replicate|]. split; [destruct Hend as [->|]; auto|].
  rewrite Hsv in Ha. destruct (answers_loadgen_all router e o _ ts Hd Hans Ha) as (as_ & -> & Hlen & Hok & Hro).
  rewrite Hout in Hco. cbn [app] in Hco. intros Hsz P HP deadline fuel lc st k Hlc Hfl Hf. rewrite Hco in Hlc, Hsz.
  assert (Forall (fun a => answer_ok a /\ zlen (answer_text a) < 2 ^ 64) as_) as Has.
  { rewrite List.Forall_forall in Hok. apply List.Forall_forall. intros a Hin'. split; [by apply Hok|].
    eapply Z.le_lt_trans; [|exact Hsz]. apply piece_le, list_elem_of_fmap. exists a. split; [done|by apply list_elem_of_In]. }
  destruct (consume_loop_answers o deadline as_ [] fuel 0 lc st k Has ltac:(by left)) as (m & lc' & st' & k' & Hcl & Hi' & _ & Hpg & Hn2 & Hall);
    [by unfold received; rewrite app_nil_r|lia|lia|].
  exists (a_res <$> as_), lc', st', k'. split; [done|]. rewrite length_fmap, Hlen. do 3 (split; [done|]).
  destruct Hpg as [_ _ Hlo Hfl' Hreq _ _]. rewrite Hlen in *. split; [done|]. split; [done|].
  intros Hdl. rewrite (Hall Hdl) in *. split; [done|lia].
Qed.

(** Two requests for the page of [demo_router]. *)
Definition hello_options : Loadgen.Options := mkLOptions (B "127.0.0.1") 8080 (B "/hello") 1 1 10 2.

Lemma hello_answers k : answers_body (Router.dispatch demo_router k (loadgen_request hello_options) Response_new).1.
Proof.
  split; [split; [split; vm_compute; discriminate|repeat constructor; reflexivity|reflexivity..]|].
  split; [vm_compute; discriminate|split; vm_compute; discriminate].
Qed.

Lemma loadgen_drives_server_witness :
  let c := set_input (concat (replicate 2 (request_ hello_options))) (c_parser demo_conn) demo_conn in
  let '(_, c', _) := process demo_router 50 false c app_env in
  exists m w, 2%nat = (m + w)%nat /\ ib_readable (c_in c') = concat (replicate w (request_ hello_options)) /\ (w = 0%nat \/ stopped c')
    /\ (zlen (c_out c') < 2 ^ 64 -> forall (P : Type) (HP : ClientKernel P) (deadline : Z) (fuel : nat) (lc : Loadgen.Conn) (st : ThreadStats) (k : P),
        l_in lc = c_out c' -> length (l_sent_at lc) = 2%nat -> (m < fuel)%nat ->
        exists ress lc' st' k', consume_responses hello_options deadline fuel lc st k = Some (Kept, lc', st', k')
          /\ length ress = m /\ Forall (routed demo_router (loadgen_request hello_options)) ress /\ l_in lc' = []
          /\ u64 (requests st') = u64 (requests st + Z.of_nat m) /\ u64 (non_2xx st') = u64 (non_2xx st + failures (status <$> ress))
          /\ ((forall k : P, (c_now k).1 < deadline) ->
              l_out lc' = l_out lc ++ concat (replicate m (request_ hello_options)) /\ length (l_sent_at lc') = 2%nat)).
Proof.
  cbn zeta. apply (loadgen_drives_server demo_router 50 ParserLimits_default hello_options 2).
  - exact demo_router_ok.
  - destruct (conn_ok_new (T := bytes) 7 ParserLimits_default 50 eq_refl). split; assumption.
  - reflexivity.
  - reflexivity.
  - reflexivity.
  - reflexivity.
  - repeat split. by exists (B "hello").
  - vm_compute. split_and!; discriminate.
  - vm_compute. reflexivity.
  - exact demo_clean_dates.
  - exact hello_answers.
Defined.
