(* ===== verification/TestServer.v ===== *)
(** * [tests/test_server.cpp]: the end-to-end tests, evaluated

    A test is a run of the two models against each other: the connection
    reads the segments the client sends ([drive], with the parser, the
    routes and the body sources behind it), and the client reads the wire.
    Tests that are about time, several workers or the file system are
    theorems elsewhere ([Timeouts], [Reactors], [StaticFiles]). *)

From S2P Require Import Prelude Headers RequestParser Numbers ParserFacts ParserSegmentation Response ResponseHead.
From S2P Require Import Crc32 ByteBuffer UniqueFd Router StaticFiles Metrics Connection ServerTheorems Routes RoutesFacts AppTheorems.
From S2P Require Import Main Loadgen TestClient TestClientFacts TestClientTheorems TestParser.

Open Scope Z_scope.

(** What the client sees: whether the server kept the connection, the responses, and bytes after the last one. *)
Record exchange := mkExchange { x_kept : bool; x_responses : list HttpResponse; x_rest : bytes }.

(** One readiness event after the other: in each the client has sent more segments, and the worker drives the connection. *)
Fixpoint serve_events (events : list (list bytes)) (c : Connection bytes) (e : Env DemoKernel) : option (bool * Env DemoKernel) :=
  match events with
  | [] => Some (true, e)
  | sent :: events =>
      match drive demo_app 50 false (max_in_buffer ParserLimits_default) 400 (set_can_read true c)
              (set_kern (mkDemo sent 100 (dk_wire (e_kern e))) e) with
      | None => None
      | Some (true, c, e) => serve_events events c e
      | Some (false, _, e) => Some (false, e)
      end
  end.

(** The client calls [read_response] once for each of [heads]. *)
Definition run_events (events : list (list bytes)) (heads : list bool) : option exchange :=
  match serve_events events demo_conn app_env with
  | None => None
  | Some (kept, e) =>
      match read_responses 9000 heads (mkClient 7 []) (mkSegments [Some (dk_wire (e_kern e))] []) with
      | Some (Value rs, cl, _) => Some (mkExchange kept rs (cl_buf cl))
      | _ => None
      end
  end.

(** Everything the client sends is there at the first event. *)
Definition run_exchange (sent : list bytes) (heads : list bool) : option exchange := run_events [sent] heads.

(** Statuses and bodies. *)
Definition answered (x : option exchange) : option (bool * list (Z * bytes) * bytes) :=
  (fun x => (x_kept x, (fun r => (r_status r, r_body r)) <$> x_responses x, x_rest x)) <$> x.

(** A header of the first response. *)
Definition first_header (x : option exchange) (name : bytes) : option bytes :=
  match x with Some (mkExchange _ (r :: _) _) => get (r_headers r) name | _ => None end.

Example serves_healthz :
  let x := run_exchange [get_text (B "/healthz") []] [false] in
  answered x = Some (true, [(200, B "ok" ++ [LF])], [])
  /\ first_header x (B "Date") = Some (B "Thu, 01 Jan 1970 00:00:00 GMT") /\ first_header x (B "Connection") = None.
Proof. vm_compute. done. Qed.

Example keep_alive_reuses_one_connection :
  answered (run_events (replicate 5 [get_text (B "/healthz") []]) (replicate 5 false))
  = Some (true, replicate 5 (200, B "ok" ++ [LF]), []).
Proof. vm_compute. done. Qed.

Definition stream_text (n : Z) : bytes := concat ((fun i => B "chunk " ++ to_string i ++ B " of " ++ to_string n ++ [LF]) <$> seqZ 0 n).

Example pipelined_requests_are_answered_in_order :
  answered (run_exchange
    [get_text (B "/bytes/1") [] ++ get_text (B "/stream/3") [] ++ get_text (B "/bytes/2") []
     ++ text [B "POST /echo HTTP/1.1"; B "Host: t"; B "Content-Length: 4"; []] ++ B "pong" ++ get_text (B "/bytes/3") []] (replicate 5 false))
  = Some (true, [(200, B "a"); (200, stream_text 3); (200, B "ab"); (200, B "pong"); (200, B "abc")], []).
Proof. vm_compute. done. Qed.

Example malformed_request_gets_400_then_close :
  let x := run_exchange [text [B "GARBAGE"; []]] [false] in
  (fun x => (x_kept x, r_status <$> x_responses x, x_rest x)) <$> x = Some (false, [400], []) /\ first_header x (B "Connection") = Some (B "close").
Proof. vm_compute. done. Qed.

(** The request inside the body of the first is never executed. *)
Example smuggling_attempt_is_rejected :
  (fun x => (x_kept x, r_status <$> x_responses x, x_rest x))
  <$> run_exchange [text [B "POST /echo HTTP/1.1"; B "Host: t"; B "Content-Length: 4"; B "Transfer-Encoding: chunked"; []; B "0"; [];
                          B "GET /healthz HTTP/1.1"; B "Host: t"; []]] [false]
  = Some (false, [400], []).
Proof. vm_compute. done. Qed.

Example not_found_and_method_not_allowed :
  match run_events [[get_text (B "/nope") []]; [text [B "DELETE /healthz HTTP/1.1"; B "Host: t"; []]]] [false; false] with
  | Some (mkExchange true [a; b] []) => r_status a = 404 /\ r_status b = 405 /\ get (r_headers b) (B "Allow") = Some (B "GET, HEAD")
  | _ => False
  end.
Proof. vm_compute. done. Qed.

Example echoes_chunked_request_body :
  let x := run_exchange [text [B "POST /echo HTTP/1.1"; B "Host: t"; B "Content-Type: text/plain"; B "Transfer-Encoding: chunked"; [];
                               B "5"; B "hello"; B "6"; B " world"; B "0"; []]] [false] in
  answered x = Some (true, [(200, B "hello world")], []) /\ first_header x (B "Content-Type") = Some (B "text/plain").
Proof. vm_compute. done. Qed.

(** The body is sent only after the interim response, which is left out when the body is already there. *)
Example expect_100_continue_handshake :
  let head := text [B "POST /echo HTTP/1.1"; B "Host: t"; B "Expect: 100-continue"; B "Content-Length: 5"; []] in
  answered (run_events [[head]; [B "hello"]] [false; false]) = Some (true, [(100, []); (200, B "hello")], [])
  /\ answered (run_events [[head ++ B "hello"]] [false]) = Some (true, [(200, B "hello")], []).
Proof. vm_compute. done. Qed.

Example streams_chunked_body_with_crc_trailer :
  match run_exchange [get_text (B "/stream/50") []] [false] with
  | Some (mkExchange true [r] []) =>
      get (r_headers r) (B "Transfer-Encoding") = Some (B "chunked")
      /\ get (r_headers r) (B "Trailer") = Some (B "X-Chunk-Count, X-Content-CRC32")
      /\ drop (length (r_body r) - 15) (r_body r) = B "chunk 49 of 50" ++ [LF]
      /\ get (r_trailers r) (B "X-Content-CRC32") = Some (hex8 (crc32 (r_body r) 0))
      /\ get (r_trailers r) (B "X-Chunk-Count") = Some (B "50")
  | _ => False
  end.
Proof. vm_compute. done. Qed.

Example head_sends_headers_without_body :
  match run_exchange [text [B "HEAD /bytes/100 HTTP/1.1"; B "Host: t"; []]; get_text (B "/healthz") []] [true; false] with
  | Some (mkExchange true [a; b] []) =>
      r_status a = 200 /\ get (r_headers a) (B "Content-Length") = Some (B "100") /\ r_body b = B "ok" ++ [LF]
  | _ => False
  end.
Proof. vm_compute. done. Qed.

Example static_files_cannot_escape_root :
  (fun x => (x_kept x, r_status <$> x_responses x))
  <$> run_exchange [get_text (B "/static/../main.cpp") []; get_text (B "/static/%2e%2e/%2e%2e/etc/passwd") []; get_text (B "/static/a/../../x") []]
        (replicate 3 false)
  = Some (true, [400; 400; 400]).
Proof. vm_compute. done. Qed.

Example http10_client_gets_close_by_default :
  let x := run_exchange [text [B "GET /healthz HTTP/1.0"; []]] [false] in
  answered x = Some (false, [(200, B "ok" ++ [LF])], []) /\ first_header x (B "Connection") = Some (B "close").
Proof. vm_compute. done. Qed.

Example connection_close_is_honored :
  answered (run_exchange [get_text (B "/healthz") (text [B "Connection: close"])] [false]) = Some (false, [(200, B "ok" ++ [LF])], []).
Proof. vm_compute. done. Qed.

Example request_trickled_one_byte_per_write :
  answered (run_events ((fun c => [[c]]) <$> get_text (B "/stream/2") []) [false]) = Some (true, [(200, stream_text 2)], []).
Proof. vm_compute. done. Qed.
